(** * submit-wars: the report formatter, the Confluence merge engine and the
    backfill loop, embedded from the TypeScript sources.

    Layout of the development:
    - [Js]: the JavaScript string, number and date primitives the sources use;
    - [Regex]: the regular expressions of the sources (pattern syntax,
      backtracking matcher, [test], [exec], [split]);
    - [Format]: [formatTimeRecords] (utils/formatUtils.ts);
    - [Confluence]: [ConfluenceService] (services/confluenceService.ts);
    - [Toggl]: [TogglService] (services/togglService.ts);
    - [Main]: [processWeek], [fillInMissingWeeks], [main] (index.ts).

    Strings are sequences of code units below 256; every remote call is an
    explicit transition on a world state. *)

From Stdlib Require Import Bool Arith ZArith Lia List Ascii String.
From Stdlib Require Import Sorting.Sorted Permutation.
From Stdlib Require Import Numbers.DecimalString.
Import ListNotations.
Open Scope list_scope.
Open Scope string_scope.
Open Scope nat_scope.

(** * JavaScript primitives *)
Module Js.

Definition code (c : ascii) : nat := nat_of_ascii c.

Definition in_range (lo hi : nat) (c : ascii) : bool :=
  (lo <=? code c) && (code c <=? hi).

Definition is_digit (c : ascii) : bool := in_range 48 57 c.

(** [String.prototype.toUpperCase] on one code unit, as the pattern engine
    canonicalises it under the [i] flag. *)
Definition upper (c : ascii) : ascii :=
  if in_range 97 122 c || (in_range 224 254 c && negb (code c =? 247))
  then ascii_of_nat (code c - 32) else c.

Definition lower (c : ascii) : ascii :=
  if in_range 65 90 c || (in_range 192 222 c && negb (code c =? 215))
  then ascii_of_nat (code c + 32) else c.

(** White space and line terminators: what [trim] strips and [\s] matches. *)
Definition is_space (c : ascii) : bool :=
  in_range 9 13 c || (code c =? 32) || (code c =? 160).

Definition is_line_terminator (c : ascii) : bool :=
  (code c =? 10) || (code c =? 13).

Fixpoint take (n : nat) (s : string) : string :=
  match n, s with
  | S n', String c s' => String c (take n' s')
  | _, _ => ""
  end.

Fixpoint drop (n : nat) (s : string) : string :=
  match n, s with
  | S n', String _ s' => drop n' s'
  | _, _ => s
  end.

(** [s.substring(a, b)]: the arguments are swapped when [a > b]. *)
Definition substring (a b : nat) (s : string) : string :=
  take (Nat.max a b - Nat.min a b) (drop (Nat.min a b) s).

(** [s.substring(a)]. *)
Definition substring_from (a : nat) (s : string) : string := drop a s.

Fixpoint startsWith (p s : string) : bool :=
  match p, s with
  | "", _ => true
  | String a p', String b s' => Ascii.eqb a b && startsWith p' s'
  | _, _ => false
  end.

(** [s.indexOf(p)], [None] for [-1]. *)
Fixpoint indexOf_from (p s : string) (i : nat) : option nat :=
  if startsWith p s then Some i
  else match s with
       | "" => None
       | String _ s' => indexOf_from p s' (S i)
       end.

Definition indexOf (p s : string) : option nat := indexOf_from p s 0.

Definition includes (p s : string) : bool :=
  match indexOf p s with Some _ => true | None => false end.

Fixpoint trimStart (s : string) : string :=
  match s with
  | String c s' => if is_space c then trimStart s' else s
  | "" => ""
  end.

Fixpoint rev_string (s acc : string) : string :=
  match s with
  | "" => acc
  | String c s' => rev_string s' (String c acc)
  end.

Definition trim (s : string) : string :=
  rev_string (trimStart (rev_string (trimStart s) "")) "".

(** [s.split(sep)] for a one-character separator. *)
Fixpoint split_char (sep : ascii) (s : string) (cur : string) : list string :=
  match s with
  | "" => [rev_string cur ""]
  | String c s' =>
      if Ascii.eqb c sep then rev_string cur "" :: split_char sep s' ""
      else split_char sep s' (String c cur)
  end.

(** Comparison of strings by code units, the order of [Array.prototype.sort]
    without a comparator. *)
Fixpoint ltb (a b : string) : bool :=
  match a, b with
  | _, "" => false
  | "", String _ _ => true
  | String x a', String y b' =>
      (code x <? code y) || ((code x =? code y) && ltb a' b')
  end.

Definition leb (a b : string) : bool := negb (ltb b a).

(** Stable sort with a comparator returning a number, as
    [Array.prototype.sort(cmp)]: [x] stays in front of the elements it does not
    compare greater than. *)
Section Sort.
Context {A : Type} (cmp : A -> A -> Z).

Fixpoint insert_by (x : A) (l : list A) : list A :=
  match l with
  | [] => [x]
  | y :: l' => if (cmp x y <=? 0)%Z then x :: l else y :: insert_by x l'
  end.

Definition sort_by (l : list A) : list A := fold_right insert_by [] l.
End Sort.

(** [arr.sort()] on strings. *)
Definition sort_strings : list string -> list string :=
  sort_by (fun a b => if ltb a b then (-1)%Z else if ltb b a then 1%Z else 0%Z).

(** [String(n)] for an integer. *)
Definition string_of_Z (n : Z) : string :=
  NilZero.string_of_int (Z.to_int n).

(** A number below 100 as two decimal digits. *)
Definition two_digits (n : Z) : string :=
  String (ascii_of_nat (48 + Z.to_nat (n / 10)))
    (String (ascii_of_nat (48 + Z.to_nat (n mod 10))) "").

(** Decimal digits to a number. *)
Fixpoint digits_value (s : string) (acc : Z) : Z :=
  match s with
  | "" => acc
  | String c s' => digits_value s' (10 * acc + Z.of_nat (code c - 48))%Z
  end.

Fixpoint all_digits (s : string) : bool :=
  match s with
  | "" => true
  | String c s' => is_digit c && all_digits s'
  end.

(** ** Numbers

    A [number] is a double of IEEE 754: not a number, an infinity, or the
    finite value [m * 2 ^ e], negated when [neg] is set, with [m] at most
    [2 ^ 53]. *)
Inductive number :=
| NaN
| Infinity (neg : bool)
| Finite (neg : bool) (m e : Z).

(** The double nearest to [p / q], ties to the even significand, for
    [0 <= p] and [0 < q]. *)
Definition round_double (neg : bool) (p q : Z) : number :=
  if (p =? 0)%Z then Finite neg 0 0
  else
    let e0 := (Z.log2 p - Z.log2 q)%Z in
    let below :=
      if (0 <=? e0)%Z then (p <? q * 2 ^ e0)%Z
      else (p * 2 ^ (- e0) <? q)%Z in
    let e := if below then (e0 - 1)%Z else e0 in
    let ex := Z.max (e - 52) (-1074) in
    let num := if (0 <=? ex)%Z then p else (p * 2 ^ (- ex))%Z in
    let den := if (0 <=? ex)%Z then (q * 2 ^ ex)%Z else q in
    let m0 := (num / den)%Z in
    let r := (num mod den)%Z in
    let m :=
      if (2 * r <? den)%Z then m0
      else if (den <? 2 * r)%Z then (m0 + 1)%Z
      else if Z.even m0 then m0 else (m0 + 1)%Z in
    if (971 <? ex)%Z || ((ex =? 971)%Z && (2 ^ 53 <=? m)%Z)
    then Infinity neg else Finite neg m ex.

(** The value of a digit in a base up to 16, [None] when [c] is no digit of
    that base. *)
Definition digit_in (base : Z) (c : ascii) : option Z :=
  let v :=
    if is_digit c then Some (Z.of_nat (code c - 48))
    else if in_range 97 102 c then Some (Z.of_nat (code c - 87))
    else if in_range 65 70 c then Some (Z.of_nat (code c - 55))
    else None in
  match v with
  | Some d => if (d <? base)%Z then Some d else None
  | None => None
  end.

Fixpoint digits_in (base : Z) (s : string) (acc : Z) : option Z :=
  match s with
  | "" => Some acc
  | String c s' =>
      match digit_in base c with
      | Some d => digits_in base s' (base * acc + d)%Z
      | None => None
      end
  end.

(** The decimal digits at the front of [s], and the rest. *)
Fixpoint span_digits (s : string) : string * string :=
  match s with
  | String c s' =>
      if is_digit c then let '(d, r) := span_digits s' in (String c d, r)
      else ("", s)
  | "" => ("", "")
  end.

(** [StrUnsignedDecimalLiteral]: digits with an optional fraction and an
    optional exponent, or [Infinity]. *)
Definition unsigned_decimal (neg : bool) (s : string) : number :=
  if String.eqb s "Infinity" then Infinity neg
  else
    let '(int_part, r1) := span_digits s in
    let '(frac_part, r2) :=
      match r1 with
      | String "." r => span_digits r
      | _ => ("", r1)
      end in
    let value (exponent : Z) : number :=
      let n := digits_value (int_part ++ frac_part) 0 in
      let k := (exponent - Z.of_nat (length frac_part))%Z in
      if (0 <=? k)%Z then round_double neg (n * 10 ^ k) 1
      else round_double neg n (10 ^ (- k)) in
    match int_part, frac_part with
    | "", "" => NaN
    | _, _ =>
        match r2 with
        | "" => value 0%Z
        | String c r3 =>
            if Ascii.eqb c "e" || Ascii.eqb c "E" then
              let '(eneg, r4) :=
                match r3 with
                | String "+" r => (false, r)
                | String "-" r => (true, r)
                | _ => (false, r3)
                end in
              match r4 with
              | "" => NaN
              | _ =>
                  if all_digits r4
                  then value (if eneg then (- digits_value r4 0)%Z
                              else digits_value r4 0)
                  else NaN
              end
            else NaN
        end
    end.

(** [Number(s)], the conversion [StringToNumber]: white space around the
    literal is dropped; the empty text is 0; a literal is decimal with an
    optional sign, or hexadecimal, octal or binary without one; any other
    text is not a number. *)
Definition Number (s : string) : number :=
  let t := trim s in
  let based (base : Z) (digits : string) : number :=
    match digits with
    | "" => NaN
    | _ => match digits_in base digits 0 with
           | Some n => round_double false n 1
           | None => NaN
           end
    end in
  match t with
  | "" => Finite false 0 0
  | String "0" (String "x" d) | String "0" (String "X" d) => based 16%Z d
  | String "0" (String "o" d) | String "0" (String "O" d) => based 8%Z d
  | String "0" (String "b" d) | String "0" (String "B" d) => based 2%Z d
  | String "+" u => unsigned_decimal false u
  | String "-" u => unsigned_decimal true u
  | _ => unsigned_decimal false t
  end.

(** [x - 1]. *)
Definition minus_one (x : number) : number :=
  match x with
  | NaN => NaN
  | Infinity neg => Infinity neg
  | Finite neg m e =>
      let v := if neg then (- m)%Z else m in
      let num := if (0 <=? e)%Z then (v * 2 ^ e - 1)%Z else (v - 2 ^ (- e))%Z in
      let den := if (0 <=? e)%Z then 1%Z else (2 ^ (- e))%Z in
      if (num =? 0)%Z then Finite false 0 0
      else round_double (num <? 0)%Z (Z.abs num) den
  end.

(** The integer a finite number denotes once its fraction is dropped
    ([ToIntegerOrInfinity]); [None] for a number that is not finite, which
    the date operations turn into an invalid date. *)
Definition to_integer (x : number) : option Z :=
  match x with
  | Finite neg m e =>
      let a := if (0 <=? e)%Z then (m * 2 ^ e)%Z else (m / 2 ^ (- e))%Z in
      Some (if neg then (- a)%Z else a)
  | _ => None
  end.

(** [parseInt(s)] on a string of decimal digits. *)
Definition parseInt (s : string) : Z := digits_value s 0.

(** ** Dates

    A [Date] holds a time value in milliseconds since the epoch, [None] for
    an invalid date. The local time zone is taken to be UTC. *)
Definition Date := option Z.

Definition msPerDay : Z := 86400000.

(** Day number of the first day of year [y], month index [m] in 0..11. *)
Definition days_from_civil (y m : Z) : Z :=
  let y' := if (m <? 2)%Z then (y - 1)%Z else y in
  let era := (y' / 400)%Z in
  let yoe := (y' - era * 400)%Z in
  let mp := ((m + 10) mod 12)%Z in
  let doy := ((153 * mp + 2) / 5)%Z in
  let doe := (yoe * 365 + yoe / 4 - yoe / 100 + doy)%Z in
  (era * 146097 + doe - 719468)%Z.

(** Year and month index (0..11) of a day number. *)
Definition civil_from_days (z : Z) : Z * Z * Z :=
  let z' := (z + 719468)%Z in
  let era := (z' / 146097)%Z in
  let doe := (z' - era * 146097)%Z in
  let yoe := ((doe - doe / 1460 + doe / 36524 - doe / 146096) / 365)%Z in
  let doy := (doe - (365 * yoe + yoe / 4 - yoe / 100))%Z in
  let mp := ((5 * doy + 2) / 153)%Z in
  let d := (doy - (153 * mp + 2) / 5 + 1)%Z in
  let m := ((mp + 2) mod 12)%Z in
  let y := (yoe + era * 400 + (if (m <? 2)%Z then 1 else 0))%Z in
  (y, m, d).

(** [MakeDay(year, month, date)] of the language specification. *)
Definition MakeDay (y m d : Z) : Z :=
  (days_from_civil (y + m / 12) (m mod 12) + d - 1)%Z.

Definition setMonth (m : option Z) (t : Date) : Date :=
  match t, m with
  | Some t, Some m =>
      let '(y, _, d) := civil_from_days (t / msPerDay) in
      Some (MakeDay y m d * msPerDay + t mod msPerDay)%Z
  | _, _ => None
  end.

Definition setDate (d : option Z) (t : Date) : Date :=
  match t, d with
  | Some t, Some d =>
      let '(y, m, _) := civil_from_days (t / msPerDay) in
      Some (MakeDay y m d * msPerDay + t mod msPerDay)%Z
  | _, _ => None
  end.

(** [a < b] on dates: false as soon as one of them is invalid. *)
Definition date_lt (a b : Date) : bool :=
  match a, b with
  | Some x, Some y => (x <? y)%Z
  | _, _ => false
  end.

(** [new Date("YYYY-MM-DD")]: midnight UTC of that day; a month outside
    1..12 or a day outside 1..31 gives an invalid date. *)
Definition Date_of_ymd (y m d : Z) : Date :=
  if ((1 <=? m) && (m <=? 12) && (1 <=? d) && (d <=? 31))%Z
  then Some (MakeDay y (m - 1) d * msPerDay)%Z else None.

End Js.

(** * Regular expressions

    The patterns of the sources are compiled from their text by [RegExp], so
    each pattern below is written as it is in the TypeScript file, and a
    label or a display name that is put into a pattern is read as the
    engine reads it. The syntax is that of the language without the [u]
    flag, with the web compatibility rules: a brace that opens no
    quantifier, a closing brace and a closing bracket stand for themselves,
    a backslash before a character without a meaning of its own gives that
    character, a decimal escape is a reference to a group when the pattern
    has that many groups and an octal escape otherwise. [None] stands for a
    pattern the engine rejects with a [SyntaxError].

    The texts matched hold code units below 256. Outside of the embedding,
    and rejected by it though the engine accepts them, are the assertions
    [\b] and [\B], look behind, named groups, and the flags other than
    [g], [i] and [s]; no pattern of the sources has them. *)
Module Regex.
Import Js.

(** An item of a character class: a range of code units below 256, the
    complement of some ranges, or a range of code units from 256 up. *)
Inductive citem :=
| CRange (lo hi : ascii)
| CExcept (ranges : list (ascii * ascii))
| CWide (lo hi : nat).

Inductive regex :=
| Eps
| Chr (c : ascii)
| Any
| Cls (neg : bool) (items : list citem)
| Seq (r1 r2 : regex)
| Alt (r1 r2 : regex)
| Star (greedy : bool) (r : regex)
| Group (i : nat) (r : regex)
| Look (positive : bool) (r : regex)
| Backref (i : nat)
| Bos
| Eos.

Record flags := { ignoreCase : bool; dotAll : bool; global : bool }.

(** Captures: group number to the text it matched last. *)
Definition caps := list (nat * string).

Fixpoint get_cap (i : nat) (c : caps) : option string :=
  match c with
  | [] => None
  | (j, v) :: c' => if i =? j then Some v else get_cap i c'
  end.

Definition clear_caps (gs : list nat) (c : caps) : caps :=
  filter (fun p => negb (existsb (Nat.eqb (fst p)) gs)) c.

Fixpoint groups_of (r : regex) : list nat :=
  match r with
  | Seq a b | Alt a b => groups_of a ++ groups_of b
  | Star _ a | Look _ a => groups_of a
  | Group i a => i :: groups_of a
  | _ => []
  end.

Definition char_eq (fl : flags) (a b : ascii) : bool :=
  if ignoreCase fl then Ascii.eqb (upper a) (upper b) else Ascii.eqb a b.

Definition in_ranges (rs : list (ascii * ascii)) (c : ascii) : bool :=
  existsb (fun p => in_range (code (fst p)) (code (snd p)) c) rs.

Definition citem_matches (fl : flags) (it : citem) (c : ascii) : bool :=
  match it with
  | CRange lo hi =>
      in_range (code lo) (code hi) c
      || (ignoreCase fl
          && (in_range (code lo) (code hi) (upper c)
              || in_range (code lo) (code hi) (lower c)))
  | CExcept rs => negb (in_ranges rs c)
  | CWide lo hi =>
      (* the text holds code units below 256 only; under the [i] flag two
         of them are canonicalised to code units above: 255 to 376, and
         181 to 924, as 956 is *)
      ignoreCase fl
      && (((code c =? 255) && (lo <=? 376) && (376 <=? hi))
          || ((code c =? 181)
              && (((lo <=? 924) && (924 <=? hi))
                  || ((lo <=? 956) && (956 <=? hi)))))
  end.

Definition class_matches (fl : flags) (neg : bool) (items : list citem)
    (c : ascii) : bool :=
  xorb neg (existsb (fun it => citem_matches fl it c) items).

(** [p] is at the front of [s], up to the case folding of the flags; the
    rest of [s] then. *)
Fixpoint after_fl (fl : flags) (p s : string) : option string :=
  match p, s with
  | "", _ => Some s
  | String a p', String b s' =>
      if char_eq fl a b then after_fl fl p' s' else None
  | String _ _, "" => None
  end.

(** The backtracking matcher, in continuation-passing style: [rmatch r s c k]
    matches [r] at the front of [s] and hands the rest of the input and the
    captures to [k]; alternatives are tried in the order of the language
    specification. [n] is the length of the whole input, for [^]. A [*]
    iteration that consumes nothing is rejected, which bounds the number of
    iterations by the length of the input. *)
Fixpoint rmatch (A : Type) (fl : flags) (n : nat) (r : regex) (s : string)
    (c : caps) (k : string -> caps -> option A) {struct r} : option A :=
  match r with
  | Eps => k s c
  | Chr a =>
      match s with
      | String b s' => if char_eq fl a b then k s' c else None
      | "" => None
      end
  | Any =>
      match s with
      | String b s' =>
          if dotAll fl || negb (is_line_terminator b) then k s' c else None
      | "" => None
      end
  | Cls neg items =>
      match s with
      | String b s' => if class_matches fl neg items b then k s' c else None
      | "" => None
      end
  | Seq r1 r2 => rmatch A fl n r1 s c (fun s' c' => rmatch A fl n r2 s' c' k)
  | Alt r1 r2 =>
      match rmatch A fl n r1 s c k with
      | Some v => Some v
      | None => rmatch A fl n r2 s c k
      end
  | Star greedy r1 =>
      (fix loop (fuel : nat) (s : string) (c : caps) {struct fuel} : option A :=
         match fuel with
         | 0 => k s c
         | S fuel' =>
             if greedy then
               match rmatch A fl n r1 s (clear_caps (groups_of r1) c)
                       (fun s' c' =>
                          if length s' <? length s then loop fuel' s' c'
                          else None) with
               | Some v => Some v
               | None => k s c
               end
             else
               match k s c with
               | Some v => Some v
               | None =>
                   rmatch A fl n r1 s (clear_caps (groups_of r1) c)
                     (fun s' c' =>
                        if length s' <? length s then loop fuel' s' c'
                        else None)
               end
         end) (length s) s c
  | Group i r1 =>
      rmatch A fl n r1 s c
        (fun s' c' => k s' ((i, take (length s - length s') s) :: c'))
  | Look positive r1 =>
      match rmatch caps fl n r1 s c (fun _ c' => Some c') with
      | Some c' => if positive then k s c' else None
      | None => if positive then None else k s c
      end
  | Backref i =>
      match get_cap i c with
      | None => k s c
      | Some t =>
          match after_fl fl t s with
          | Some s' => k s' c
          | None => None
          end
      end
  | Bos => if length s =? n then k s c else None
  | Eos => match s with "" => k s c | _ => None end
  end.

Arguments rmatch {A} fl n r s c k.

(** ** Pattern syntax *)

Definition plus (greedy : bool) (r : regex) : regex := Seq r (Star greedy r).

Definition opt (greedy : bool) (r : regex) : regex :=
  if greedy then Alt r Eps else Alt Eps r.

Fixpoint repeat_seq (k : nat) (r tail : regex) : regex :=
  match k with
  | 0 => tail
  | S k' => Seq r (repeat_seq k' r tail)
  end.

(** [r{lo,hi}] as [lo] copies followed by [hi - lo] nested optional ones. *)
Fixpoint repeat_opt (greedy : bool) (k : nat) (r : regex) : regex :=
  match k with
  | 0 => Eps
  | S k' => opt greedy (Seq r (repeat_opt greedy k' r))
  end.

Definition digit_ranges : list (ascii * ascii) := [("0", "9")]%char.
Definition word_ranges : list (ascii * ascii) :=
  [("a", "z"); ("A", "Z"); ("0", "9"); ("_", "_")]%char.
Definition space_ranges : list (ascii * ascii) :=
  [(ascii_of_nat 9, ascii_of_nat 13); (" ", " ");
   (ascii_of_nat 160, ascii_of_nat 160)]%char.

Definition ranges_items (rs : list (ascii * ascii)) : list citem :=
  map (fun p => CRange (fst p) (snd p)) rs.

(** What a backslash and the text after it denote: a class, one code unit,
    a reference to a group, or nothing the embedding has. *)
Inductive escape :=
| EClass (items : list citem)
| EChar (c : ascii)
| EWide (n : nat)
| ERef (i : nat)
| EBad.

Definition hex_digit (c : ascii) : option nat :=
  if is_digit c then Some (code c - 48)
  else if in_range 97 102 c then Some (code c - 87)
  else if in_range 65 70 c then Some (code c - 55)
  else None.

Definition octal_digit (c : ascii) : option nat :=
  if in_range 48 55 c then Some (code c - 48) else None.

Definition is_letter (c : ascii) : bool :=
  in_range 65 90 c || in_range 97 122 c.

(** The value of [k] hexadecimal digits at the front of [s], and the rest. *)
Fixpoint parse_hex (k : nat) (s : string) (acc : nat)
    : option (nat * string) :=
  match k with
  | 0 => Some (acc, s)
  | S k' =>
      match s with
      | String c s' =>
          match hex_digit c with
          | Some d => parse_hex k' s' (16 * acc + d)
          | None => None
          end
      | "" => None
      end
  end.

Definition unit_escape (n : nat) : escape :=
  if n <? 256 then EChar (ascii_of_nat n) else EWide n.

(** An octal escape whose first digit has the value [v]: up to three
    digits with a value below 256. *)
Definition parse_octal (v : nat) (s : string) : escape * string :=
  match s with
  | String c1 s1 =>
      match octal_digit c1 with
      | Some d1 =>
          let v1 := 8 * v + d1 in
          match s1 with
          | String c2 s2 =>
              match octal_digit c2 with
              | Some d2 =>
                  if v1 <? 32 then (EChar (ascii_of_nat (8 * v1 + d2)), s2)
                  else (EChar (ascii_of_nat v1), s1)
              | None => (EChar (ascii_of_nat v1), s1)
              end
          | "" => (EChar (ascii_of_nat v1), s1)
          end
      | None => (EChar (ascii_of_nat v), s)
      end
  | "" => (EChar (ascii_of_nat v), s)
  end.

(** Decimal digits at the front of [s]. *)
Fixpoint parse_nat (s : string) (acc : nat) (seen : bool)
    : option (nat * string) :=
  match s with
  | String c s' =>
      if is_digit c then parse_nat s' (10 * acc + (code c - 48)) true
      else if seen then Some (acc, s) else None
  | "" => if seen then Some (acc, s) else None
  end.

(** A backslash before the digit [e]: outside a class, a reference to a
    group when the number read is not above the number of groups; else an
    octal escape, or the digit itself for 8 and 9. *)
Definition decimal_escape (in_class : bool) (total : nat) (e : ascii)
    (rest : string) : escape * string :=
  let reference :=
    if in_class || Ascii.eqb e "0" then None
    else
      match parse_nat (String e rest) 0 false with
      | Some (i, rest') => if i <=? total then Some (i, rest') else None
      | None => None
      end in
  match reference with
  | Some (i, rest') => (ERef i, rest')
  | None =>
      match octal_digit e with
      | Some v => parse_octal v rest
      | None => (EChar e, rest)
      end
  end.

(** The escape that starts with the character [e], after the backslash,
    and the pattern after the escape; [rest] is the pattern after [e], and
    [total] the number of groups of the whole pattern. *)
Definition parse_escape (in_class : bool) (total : nat) (e : ascii)
    (rest : string) : escape * string :=
  match e with
  | "d" => (EClass (ranges_items digit_ranges), rest)
  | "D" => (EClass [CExcept digit_ranges], rest)
  | "w" => (EClass (ranges_items word_ranges), rest)
  | "W" => (EClass [CExcept word_ranges], rest)
  | "s" => (EClass (ranges_items space_ranges), rest)
  | "S" => (EClass [CExcept space_ranges], rest)
  | "t" => (EChar (ascii_of_nat 9), rest)
  | "n" => (EChar (ascii_of_nat 10), rest)
  | "v" => (EChar (ascii_of_nat 11), rest)
  | "f" => (EChar (ascii_of_nat 12), rest)
  | "r" => (EChar (ascii_of_nat 13), rest)
  | "b" => if in_class then (EChar (ascii_of_nat 8), rest) else (EBad, rest)
  | "B" => if in_class then (EChar "B", rest) else (EBad, rest)
  | "c" =>
      (* a control letter, or else the backslash itself, [c] coming next *)
      match rest with
      | String l rest' =>
          if is_letter l
             || (in_class && (is_digit l || Ascii.eqb l "_"))
          then (EChar (ascii_of_nat (code l mod 32)), rest')
          else (EChar "\", String "c" rest)
      | EmptyString => (EChar "\", String "c" rest)
      end
  | "x" =>
      match parse_hex 2 rest 0 with
      | Some (n, rest') => (unit_escape n, rest')
      | None => (EChar "x", rest)
      end
  | "u" =>
      match parse_hex 4 rest 0 with
      | Some (n, rest') => (unit_escape n, rest')
      | None => (EChar "u", rest)
      end
  | _ => if is_digit e then decimal_escape in_class total e rest
         else (EChar e, rest)
  end%char.

(** An atom of a character class: one code unit or the items of a class
    escape. *)
Inductive atom := AUnit (n : nat) | AClass (items : list citem).

Definition class_atom (s : string) : option (atom * string) :=
  match s with
  | "" => None
  | String "\" "" => None
  | String "\" (String e rest) =>
      match parse_escape true 0 e rest with
      | (EClass items, s') => Some (AClass items, s')
      | (EChar c, s') => Some (AUnit (code c), s')
      | (EWide n, s') => Some (AUnit n, s')
      | (_, _) => None
      end
  | String c s' => Some (AUnit (code c), s')
  end.

(** The items of the code units from [lo] to [hi]. *)
Definition range_items (lo hi : nat) : list citem :=
  (if lo <? 256
   then [CRange (ascii_of_nat lo) (ascii_of_nat (Nat.min hi 255))] else [])
  ++ (if 255 <? hi then [CWide (Nat.max lo 256) hi] else []).

Definition atom_items (a : atom) : list citem :=
  match a with
  | AUnit n => range_items n n
  | AClass items => items
  end.

(** The body of a character class, after the opening bracket and the
    optional [^]. Two atoms with a dash between them are a range when both
    are code units; with a class escape on a side they are the two atoms and
    the dash. *)
Fixpoint parse_class (fuel : nat) (s : string) (acc : list citem)
    : option (list citem * string) :=
  match fuel with
  | 0 => None
  | S fuel' =>
      match s with
      | "" => None
      | String "]" s' => Some (rev acc, s')
      | _ =>
          match class_atom s with
          | None => None
          | Some (a, s2) =>
              match s2 with
              | String "-" (String d s3) =>
                  if Ascii.eqb d "]"
                  then parse_class fuel' s2 (rev (atom_items a) ++ acc)
                  else
                    match class_atom (String d s3) with
                    | None => None
                    | Some (b, s4) =>
                        match a, b with
                        | AUnit lo, AUnit hi =>
                            if lo <=? hi
                            then parse_class fuel' s4
                                   (rev (range_items lo hi) ++ acc)
                            else None
                        | _, _ =>
                            parse_class fuel' s4
                              (rev (atom_items b) ++ CRange "-" "-"
                               :: rev (atom_items a) ++ acc)
                        end
                    end
              | _ => parse_class fuel' s2 (rev (atom_items a) ++ acc)
              end
          end
      end
  end.

(** A braced quantifier at the front of [s] (after the opening brace):
    bounds and rest. *)
Definition parse_braces (s : string) : option (nat * option nat * string) :=
  match parse_nat s 0 false with
  | Some (lo, String "}" s') => Some (lo, Some lo, s')
  | Some (lo, String "," (String "}" s')) => Some (lo, None, s')
  | Some (lo, String "," s1) =>
      match parse_nat s1 0 false with
      | Some (hi, String "}" s') => Some (lo, Some hi, s')
      | _ => None
      end
  | _ => None
  end.

(** A quantifier at the front of [s], applied to the atom [r]. The outer
    [None] is a syntax error: bounds out of order. A brace that opens no
    quantifier is left to be read as a character. *)
Definition parse_quantifier (r : regex) (s : string) : option (regex * string) :=
  let lazy_of (s : string) : bool * string :=
    match s with String "?" s' => (false, s') | _ => (true, s) end in
  match s with
  | String "*" s1 => let '(g, s2) := lazy_of s1 in Some (Star g r, s2)
  | String "+" s1 => let '(g, s2) := lazy_of s1 in Some (plus g r, s2)
  | String "?" s1 => let '(g, s2) := lazy_of s1 in Some (opt g r, s2)
  | String "{" s1 =>
      match parse_braces s1 with
      | Some (lo, hi, s2) =>
          let '(g, s3) := lazy_of s2 in
          match hi with
          | None => Some (repeat_seq lo r (Star g r), s3)
          | Some hi =>
              if lo <=? hi
              then Some (repeat_seq lo r (repeat_opt g (hi - lo) r), s3)
              else None
          end
      | None => Some (r, s)
      end
  | _ => Some (r, s)
  end.

(** Disjunction, alternative and term of the pattern grammar; [g] is the
    number of the next capturing group, [total] the number of groups of the
    whole pattern. *)
Fixpoint parse_disj (total fuel : nat) (s : string) (g : nat)
    : option (regex * string * nat) :=
  match fuel with
  | 0 => None
  | S fuel' =>
      match parse_alt total fuel' s g with
      | Some (r1, String "|" s1, g1) =>
          match parse_disj total fuel' s1 g1 with
          | Some (r2, s2, g2) => Some (Alt r1 r2, s2, g2)
          | None => None
          end
      | x => x
      end
  end
with parse_alt (total fuel : nat) (s : string) (g : nat)
    : option (regex * string * nat) :=
  match fuel with
  | 0 => None
  | S fuel' =>
      match s with
      | "" | String "|" _ | String ")" _ => Some (Eps, s, g)
      | _ =>
          match parse_term total fuel' s g with
          | Some (r1, s1, g1) =>
              match parse_alt total fuel' s1 g1 with
              | Some (Eps, s2, g2) => Some (r1, s2, g2)
              | Some (r2, s2, g2) => Some (Seq r1 r2, s2, g2)
              | None => None
              end
          | None => None
          end
      end
  end
with parse_term (total fuel : nat) (s : string) (g : nat)
    : option (regex * string * nat) :=
  match fuel with
  | 0 => None
  | S fuel' =>
      let quantified (x : option (regex * string * nat)) :=
        match x with
        | Some (r, s1, g1) =>
            match parse_quantifier r s1 with
            | Some (r', s2) => Some (r', s2, g1)
            | None => None
            end
        | None => None
        end in
      let closing (x : option (regex * string * nat)) (f : regex -> regex) :=
        match x with
        | Some (r, String ")" s1, g1) => Some (f r, s1, g1)
        | _ => None
        end in
      match s with
      | "" => None
      | String "^" s1 => Some (Bos, s1, g)
      | String "$" s1 => Some (Eos, s1, g)
      | String "." s1 => quantified (Some (Any, s1, g))
      | String "*" _ | String "+" _ | String "?" _ => None
      | String "{" s1 =>
          match parse_braces s1 with
          | Some _ => None
          | None => quantified (Some (Chr "{", s1, g))
          end
      | String "\" (String e s1) =>
          match parse_escape false total e s1 with
          | (EClass items, s2) => quantified (Some (Cls false items, s2, g))
          | (EChar c, s2) => quantified (Some (Chr c, s2, g))
          | (EWide n, s2) =>
              quantified (Some (Cls false [CWide n n], s2, g))
          | (ERef i, s2) => quantified (Some (Backref i, s2, g))
          | (EBad, _) => None
          end
      | String "\" "" => None
      | String "[" (String "^" s1) =>
          match parse_class (S (length s1)) s1 [] with
          | Some (items, s2) => quantified (Some (Cls true items, s2, g))
          | None => None
          end
      | String "[" s1 =>
          match parse_class (S (length s1)) s1 [] with
          | Some (items, s2) => quantified (Some (Cls false items, s2, g))
          | None => None
          end
      | String "(" (String "?" (String ":" s1)) =>
          quantified (closing (parse_disj total fuel' s1 g) (fun r => r))
      | String "(" (String "?" (String "=" s1)) =>
          quantified (closing (parse_disj total fuel' s1 g) (Look true))
      | String "(" (String "?" (String "!" s1)) =>
          quantified (closing (parse_disj total fuel' s1 g) (Look false))
      | String "(" (String "?" _) => None
      | String "(" s1 =>
          quantified (closing (parse_disj total fuel' s1 (S g)) (Group (S g)))
      | String c s1 => quantified (Some (Chr c, s1, g))
      end
  end.

(** The number of capturing groups of a pattern: its left parentheses
    outside classes and escapes that no [?] follows. *)
Fixpoint count_groups (in_class : bool) (s : string) : nat :=
  match s with
  | "" => 0
  | String "\" (String _ s') => count_groups in_class s'
  | String "[" s' => count_groups true s'
  | String "]" s' => count_groups false s'
  | String "(" s' =>
      if in_class then count_groups true s'
      else
        match s' with
        | String "?" _ => count_groups false s'
        | _ => S (count_groups false s')
        end
  | String _ s' => count_groups in_class s'
  end.

Fixpoint parse_flags (s : string) (fl : flags) : option flags :=
  match s with
  | "" => Some fl
  | String "g" s' =>
      if global fl then None
      else parse_flags s' {| ignoreCase := ignoreCase fl; dotAll := dotAll fl;
                             global := true |}
  | String "i" s' =>
      if ignoreCase fl then None
      else parse_flags s' {| ignoreCase := true; dotAll := dotAll fl;
                             global := global fl |}
  | String "s" s' =>
      if dotAll fl then None
      else parse_flags s' {| ignoreCase := ignoreCase fl; dotAll := true;
                             global := global fl |}
  | _ => None
  end.

Record rx := { re : regex; fl : flags; ngroups : nat }.

(** [new RegExp(pattern, flags)]. *)
Definition RegExp (pattern flags_text : string) : option rx :=
  match parse_flags flags_text
          {| ignoreCase := false; dotAll := false; global := false |},
        parse_disj (count_groups false pattern) (3 * length pattern + 3)
          pattern 0 with
  | Some f, Some (r, "", g) => Some {| re := r; fl := f; ngroups := g |}
  | _, _ => None
  end.

(** ** The operations on a compiled pattern *)

Record match_result := { index : nat; last : nat; captures : caps }.

(** First match at or after the front of [s], which is the input from
    position [i] on. *)
Fixpoint search (x : rx) (n : nat) (s : string) (i : nat)
    : option match_result :=
  match rmatch (fl x) n (re x) s [] (fun s' c => Some (s', c)) with
  | Some (s', c) =>
      Some {| index := i; last := n - length s'; captures := c |}
  | None =>
      match s with
      | "" => None
      | String _ s' => search x n s' (S i)
      end
  end.

(** [regex.exec(input)] with [lastIndex = from]; for a pattern without the
    [g] flag the search starts at 0. *)
Definition exec (x : rx) (input : string) (from : nat) : option match_result :=
  if length input <? from then None
  else search x (length input) (drop from input) from.

(** [regex.test(input)], for a pattern without the [g] flag. *)
Definition test (x : rx) (input : string) : bool :=
  match exec x input 0 with Some _ => true | None => false end.

(** Text of the whole match and of group [i]. *)
Definition matched (input : string) (m : match_result) : string :=
  substring (index m) (last m) input.

Definition group (i : nat) (m : match_result) : option string :=
  get_cap i (captures m).

(** The captures a split splices after each piece: groups 1..n, [None] for a
    group that did not take part. *)
Definition capture_list (x : rx) (c : caps) : list (option string) :=
  map (fun i => get_cap i c) (seq 1 (ngroups x)).

(** [input.split(regex)]: the pieces as [Some], interleaved with the
    captures of each separator. [p] is the start of the current piece, [q]
    the position tried next; every step advances [p] or [q], so twice the
    length of the input bounds the number of steps. *)
Fixpoint split_loop (fuel : nat) (x : rx) (input : string) (p q : nat)
    : list (option string) :=
  match fuel with
  | 0 => [Some (substring p (length input) input)]
  | S fuel' =>
      if length input <=? q then [Some (substring p (length input) input)]
      else
        match rmatch (fl x) (length input) (re x) (drop q input) []
                (fun s' c => Some (s', c)) with
        | None => split_loop fuel' x input p (S q)
        | Some (s', c) =>
            let e := Nat.min (length input - length s') (length input) in
            if e =? p then split_loop fuel' x input p (S q)
            else Some (substring p q input) :: capture_list x c
                 ++ split_loop fuel' x input e e
        end
  end.

Definition split (x : rx) (input : string) : list (option string) :=
  match input with
  | "" =>
      match rmatch (fl x) 0 (re x) "" [] (fun s' c => Some (s', c)) with
      | Some _ => []
      | None => [Some ""]
      end
  | _ => split_loop (2 * length input + 1) x input 0 0
  end.

End Regex.

(** * Errors and results *)

(** A thrown value. The sources throw [Error]s with a message; a pattern
    the engine rejects is thrown as a [SyntaxError], a call of something
    that is no function as a [TypeError], and a request that fails is
    thrown by the HTTP client as an [AxiosError], which carries the status
    and the body of the response when there was one. All of them are
    instances of [Error] and have a message. *)
Inductive exn :=
| Error (message : string)
| SyntaxError (pattern : string)
| TypeError (message : string)
| AxiosError (message : string) (response : option (Z * string)).

Definition message_of (e : exn) : string :=
  match e with
  | Error m => m
  | SyntaxError p => "Invalid regular expression: /" ++ p ++ "/"
  | TypeError m => m
  | AxiosError m _ => m
  end.

(** The error of the HTTP client for a response whose status is outside
    200..299: the message names the status, the body is kept in the
    response. *)
Definition status_error (status : Z) (data : string) : exn :=
  AxiosError ("Request failed with status code " ++ Js.string_of_Z status)
             (Some (status, data)).

Inductive result (A : Type) :=
| Ok (a : A)
| Throw (e : exn).
Arguments Ok {A} a.
Arguments Throw {A} e.

Definition rbind {A B : Type} (x : result A) (f : A -> result B) : result B :=
  match x with
  | Ok a => f a
  | Throw e => Throw e
  end.

(** [new RegExp(pattern, flags)] as an operation that may throw. *)
Definition newRegExp (pattern flags : string) : result Regex.rx :=
  match Regex.RegExp pattern flags with
  | Some x => Ok x
  | None => Throw (SyntaxError pattern)
  end.

(** A pattern literal of the sources. *)
Definition literal (pattern flags : string) : Regex.rx :=
  match Regex.RegExp pattern flags with
  | Some x => x
  | None => {| Regex.re := Regex.Look false Regex.Eps;
               Regex.fl := {| Regex.ignoreCase := false; Regex.dotAll := false;
                              Regex.global := false |};
               Regex.ngroups := 0 |}
  end.

(** * The report formatter (utils/formatUtils.ts) *)
Module Format.
Import Js.

Record TimeRecord := {
  id : Z;
  description : string;
  start : string;
  end_ : string;
  duration : Z;
  tags : list string;
  pid : option Z;
  project : option string
}.

(** [ProjectMap]: an object used as a dictionary from project id to name,
    modelled by its own properties, the latest assignment first. *)
Definition ProjectMap := list (Z * string).

Fixpoint project_lookup (k : Z) (m : ProjectMap) : option string :=
  match m with
  | [] => None
  | (j, v) :: m' => if (k =? j)%Z then Some v else project_lookup k m'
  end.

(** [record.pid && projectMap[record.pid] ? projectMap[record.pid] :
    'No Project']: a missing or zero id and a missing or empty name are
    falsy. *)
Definition projectName_of (projectMap : ProjectMap) (record : TimeRecord)
    : string :=
  match pid record with
  | None => "No Project"
  | Some p =>
      if (p =? 0)%Z then "No Project"
      else match project_lookup p projectMap with
           | None | Some "" => "No Project"
           | Some name => name
           end
  end.

(** [Set<string>]: its elements in insertion order. *)
Definition set_add (x : string) (s : list string) : list string :=
  if existsb (String.eqb x) s then s else (s ++ [x])%list.

(** [projectGroups]: an object used as a dictionary from project name to
    the set of its descriptions: its own properties in creation order. A
    read of a property it does not own goes on to [Object.prototype]. *)
Definition Groups := list (string * list string).

(** The properties of [Object.prototype]; each of them is a function or,
    for [__proto__], the prototype object, and so is truthy and has no
    [add]. *)
Definition inherited_names : list string :=
  ["constructor"; "__defineGetter__"; "__defineSetter__"; "hasOwnProperty";
   "__lookupGetter__"; "__lookupSetter__"; "isPrototypeOf";
   "propertyIsEnumerable"; "toString"; "valueOf"; "__proto__";
   "toLocaleString"].

Definition inherited (name : string) : bool :=
  existsb (String.eqb name) inherited_names.

(** What [projectGroups[name]] reads. *)
Inductive slot :=
| Own (tasks : list string)
| Inherited
| Absent.

Fixpoint group_get (name : string) (g : Groups) : option (list string) :=
  match g with
  | [] => None
  | (n, s) :: g' => if String.eqb name n then Some s else group_get name g'
  end.

Fixpoint group_add (name x : string) (g : Groups) : Groups :=
  match g with
  | [] => []
  | (n, s) :: g' =>
      if String.eqb name n then (n, set_add x s) :: g'
      else (n, s) :: group_add name x g'
  end.

(** [record.description && record.description.trim() !== '']. *)
Definition has_text (d : string) : bool :=
  negb (String.eqb d "") && negb (String.eqb (trim d) "").

Definition group_read (name : string) (g : Groups) : slot :=
  match group_get name g with
  | Some tasks => Own tasks
  | None => if inherited name then Inherited else Absent
  end.

(** The body of the [forEach] over the records: the group is created when
    the read of [projectGroups[projectName]] is falsy, and the call of
    [add] on what the second read finds throws when that is no set. *)
Definition add_record (projectMap : ProjectMap) (projectGroups : Groups)
    (record : TimeRecord) : result Groups :=
  let projectName := projectName_of projectMap record in
  let projectGroups :=
    match group_read projectName projectGroups with
    | Absent => (projectGroups ++ [(projectName, [])])%list
    | _ => projectGroups
    end in
  if has_text (description record) then
    match group_read projectName projectGroups with
    | Own _ => Ok (group_add projectName (description record) projectGroups)
    | Inherited =>
        Throw (TypeError "projectGroups[projectName].add is not a function")
    | Absent =>
        Throw (TypeError
                 "Cannot read properties of undefined (reading 'add')")
    end
  else Ok projectGroups.

(** The [forEach]: it ends at the first record whose body throws. *)
Definition projectGroups_of (timeRecords : list TimeRecord)
    (projectMap : ProjectMap) : result Groups :=
  fold_left (fun groups record =>
               rbind groups (fun g => add_record projectMap g record))
            timeRecords (Ok []).

Definition render_tasks (tasks : list string) : string :=
  match tasks with
  | [] => ""
  | _ => "<ul>"
         ++ fold_left (fun out task => out ++ "<li>" ++ task ++ "</li>") tasks ""
         ++ "</ul>"
  end.

(** The body of the [for] over the sorted project names. *)
Definition render_project (projectGroups : Groups) (formattedOutput : string)
    (projectName : string) : string :=
  let tasks :=
    sort_strings (match group_get projectName projectGroups with
                  | Some s => s
                  | None => []
                  end) in
  formattedOutput ++ "<li>" ++ projectName ++ render_tasks tasks ++ "</li>".

Definition formatTimeRecords (timeRecords : list TimeRecord)
    (projectMap : ProjectMap) : result string :=
  match timeRecords with
  | [] => Ok "No time records found for the last week."
  | _ =>
      rbind (projectGroups_of timeRecords projectMap) (fun projectGroups =>
      let sortedProjects := sort_strings (map fst projectGroups) in
      Ok (fold_left (render_project projectGroups) sortedProjects "<ul>"
          ++ "</ul>"))
  end.

End Format.

(** The layout the formatter is specified to produce: a list of projects,
    each with its list of description items. *)
Module FormatSpec.

Definition item (task : string) : string := "<li>" ++ task ++ "</li>".

Definition project_item (p : string * list string) : string :=
  "<li>" ++ fst p
  ++ match snd p with
     | [] => ""
     | tasks => "<ul>" ++ String.concat "" (map item tasks) ++ "</ul>"
     end
  ++ "</li>".

Definition layout (groups : list (string * list string)) : string :=
  "<ul>" ++ String.concat "" (map project_item groups) ++ "</ul>".

(** Empty or made of white space only. *)
Fixpoint blank (s : string) : bool :=
  match s with
  | "" => true
  | String c s' => Js.is_space c && blank s'
  end.

(** Strictly ascending in the order of code units: sorted and without
    repetition. *)
Definition ascending (l : list string) : Prop :=
  StronglySorted (fun a b => Js.ltb a b = true) l.

(** The entries of the formatter example. *)
Definition example_record (d : string) (p : option Z) : Format.TimeRecord :=
  {| Format.id := 0; Format.description := d; Format.start := "";
     Format.end_ := ""; Format.duration := 0; Format.tags := [];
     Format.pid := p; Format.project := None |}.

Definition example_records : list Format.TimeRecord :=
  [example_record "A" (Some 1%Z); example_record "A" (Some 1%Z);
   example_record "B" None].

Definition example_projects : Format.ProjectMap := [(1%Z, "Site")].

End FormatSpec.

(** * The merge engine (services/confluenceService.ts) *)
Module Confluence.
Import Js Regex.

Definition nl : string := String (ascii_of_nat 10) "".

Record ConfluenceService := {
  confluenceBaseUrl : string;
  confluenceApiToken : string;
  confluenceSpaceKey : string;
  confluencePageId : string;
  confluenceUsername : string;
  confluenceDisplayName : string
}.

(** The constructor: [confluenceDisplayName || confluenceUsername ||
    'Andres']. *)
Definition new_ConfluenceService (baseUrl apiToken spaceKey pageId
    username : string) (displayName : option string) : ConfluenceService :=
  {| confluenceBaseUrl := baseUrl;
     confluenceApiToken := apiToken;
     confluenceSpaceKey := spaceKey;
     confluencePageId := pageId;
     confluenceUsername := username;
     confluenceDisplayName :=
       match displayName with
       | Some (String c d) => String c d
       | _ => match username with
              | "" => "Andres"
              | _ => username
              end
       end |}.

Definition monthNames : list string :=
  ["January"; "February"; "March"; "April"; "May"; "June";
   "July"; "August"; "September"; "October"; "November"; "December"].

(** [monthNames.indexOf(name)], [-1] when absent. *)
Fixpoint indexOf_name (name : string) (l : list string) (i : Z) : Z :=
  match l with
  | [] => (-1)%Z
  | x :: l' => if String.eqb name x then i else indexOf_name name l' (i + 1)%Z
  end.

Definition month_index (name : string) : Z := indexOf_name name monthNames 0.

(** [Map<string, string>]: the entries in insertion order. *)
Definition Map := list (string * string).

Fixpoint map_get (k : string) (m : Map) : option string :=
  match m with
  | [] => None
  | (j, v) :: m' => if String.eqb k j then Some v else map_get k m'
  end.

Definition map_has (k : string) (m : Map) : bool :=
  match map_get k m with Some _ => true | None => false end.

Fixpoint map_set (k v : string) (m : Map) : Map :=
  match m with
  | [] => [(k, v)]
  | (j, w) :: m' =>
      if String.eqb k j then (j, v) :: m' else (j, w) :: map_set k v m'
  end.

Definition map_keys (m : Map) : list string := map fst m.

(** The three patterns built from the week label and the display name. *)
Definition monthHeadingSource (month : string) : string :=
  "<h1>" ++ month ++ "</h1>".

Definition weekHeadingSource (weekEndDate : string) : string :=
  "<h2>w/e " ++ weekEndDate ++ "</h2>".

Definition userHeadingSource (weekEndDate displayName : string) : string :=
  "<h2>w/e " ++ weekEndDate ++ "</h2>.*?<h3>" ++ displayName ++ "</h3>".

(** [hasWeekForUser(content, weekEndDate)]. *)
Definition hasWeekForUser (this : ConfluenceService) (content
    weekEndDate : string) : result bool :=
  let displayName := confluenceDisplayName this in
  rbind (newRegExp (userHeadingSource weekEndDate displayName) "s")
    (fun userHeadingPattern => Ok (test userHeadingPattern content)).

(** ** Sections *)

Definition createFullSection (month weekEndDate displayName
    formattedContent : string) : string :=
  nl ++ "<h1>" ++ month ++ "</h1>" ++ nl
  ++ "<h2>w/e " ++ weekEndDate ++ "</h2>" ++ nl
  ++ "<h3>" ++ displayName ++ "</h3>" ++ nl
  ++ formattedContent ++ nl ++ nl.

Definition createWeekSection (weekEndDate displayName
    formattedContent : string) : string :=
  nl ++ "<h2>w/e " ++ weekEndDate ++ "</h2>" ++ nl
  ++ "<h3>" ++ displayName ++ "</h3>" ++ nl
  ++ formattedContent ++ nl ++ nl.

Definition createUserSection (displayName formattedContent : string)
    : string :=
  nl ++ "<h3>" ++ displayName ++ "</h3>" ++ nl
  ++ formattedContent ++ nl ++ nl.

(** The loop [while ((m = pattern.exec(content)) !== null)] of a pattern
    with the [g] flag: every match found, [lastIndex] moving to the end of
    each. The matches of the two patterns below are never empty, so the loop
    ends within [length content] iterations. *)
Fixpoint exec_all (fuel : nat) (x : rx) (content : string) (lastIndex : nat)
    : list match_result :=
  match fuel with
  | 0 => []
  | S fuel' =>
      match exec x content lastIndex with
      | None => []
      | Some m => m :: exec_all fuel' x content (last m)
      end
  end.

Definition monthPattern : rx :=
  literal "<h1>([A-Za-z]+)<\/h1>([\s\S]*?)(?=<h1>|$)" "g".

Definition weekHeadingRegex : rx :=
  literal "<h2>w\/e (\d{2})\/(\d{2})<\/h2>" "g".

Definition anyHeading : rx := literal "<h[123][^>]*>" "i".

Definition monthOrWeekHeading : rx := literal "<h[12][^>]*>" "i".

Definition group_text (i : nat) (m : match_result) : string :=
  match group i m with Some s => s | None => "" end.

(** [extractMonthSections(content)]. *)
Definition extractMonthSections (content : string) : Map :=
  fold_left
    (fun monthSections m =>
       let monthName := group_text 1 m in
       let monthContent := matched content m in
       if existsb (String.eqb monthName) monthNames
       then map_set monthName monthContent monthSections
       else monthSections)
    (exec_all (S (length content)) monthPattern content 0) [].

Record weekHeading := { date : Date; index : nat }.

(** The date of a week label: [new Date()], then [setMonth], then
    [setDate]. [now] is what this [new Date()] reads; time values are not
    clipped to the range of the language. *)
Definition label_date (now : Z) (day monthNum : option Z) : Date :=
  setDate day (setMonth monthNum (Some now)).

(** The clock of a merge: [clock k] is what the [k]-th [new Date()] of the
    merge reads, counted from 0. *)
Definition Clock := nat -> Z.

(** The body of the loop over the matches of the week pattern: each
    heading is dated by a reading of its own. *)
Fixpoint dated (clock : Clock) (k : nat) (weekMatches : list match_result)
    : list weekHeading :=
  match weekMatches with
  | [] => []
  | weekMatch :: rest =>
      let day := parseInt (group_text 1 weekMatch) in
      let monthNum := (parseInt (group_text 2 weekMatch) - 1)%Z in
      {| date := label_date (clock k) (Some day) (Some monthNum);
         index := Regex.index weekMatch |}
      :: dated clock (S k) rest
  end.

(** The week headings of a month section with their dates. *)
Definition weekHeadings_of (clock : Clock) (monthContent : string)
    : list weekHeading :=
  dated clock 0
    (exec_all (S (length monthContent)) weekHeadingRegex monthContent 0).

(** [b.date.getTime() - a.date.getTime()]; a [NaN] counts as 0 in a sort. *)
Definition newest_first (a b : weekHeading) : Z :=
  match date a, date b with
  | Some ta, Some tb => (tb - ta)%Z
  | _, _ => 0%Z
  end.

(** The [for] loop over the sorted headings: the index of the first heading
    older than the new date, or else the end of the block of the last one. *)
Fixpoint insert_position (monthContent : string) (newDate : Date)
    (weekHeadings : list weekHeading) (insertPosition : nat) : nat :=
  match weekHeadings with
  | [] => insertPosition
  | heading :: rest =>
      if date_lt (date heading) newDate then index heading
      else
        match rest with
        | [] =>
            match exec monthOrWeekHeading
                    (substring_from (index heading + 20) monthContent) 0 with
            | Some nextHeadingMatch =>
                index heading + 20 + Regex.index nextHeadingMatch
            | None => length monthContent
            end
        | _ => insert_position monthContent newDate rest insertPosition
        end
  end.

(** [addContentToMonthSections(sections, month, weekEndDate, displayName,
    formattedContent)]. *)
Definition addContentToMonthSections (clock : Clock) (sections : Map)
    (month weekEndDate displayName formattedContent : string) : result Map :=
  let updatedSections := sections in
  match map_get month updatedSections with
  | Some monthContent =>
      rbind (newRegExp (weekHeadingSource weekEndDate) "i") (fun weekPattern =>
      let weekExists := test weekPattern monthContent in
      rbind (newRegExp (userHeadingSource weekEndDate displayName) "s")
        (fun userPattern =>
      let userExists := test userPattern monthContent in
      if userExists then Ok updatedSections
      else if weekExists then
        match split weekPattern monthContent with
        | Some part0 :: part1 :: _ =>
            match part1 with
            | None =>
                Throw (Error
                  "Cannot read properties of undefined (reading 'match')")
            | Some afterWeekHeading =>
                let userSection :=
                  createUserSection displayName formattedContent in
                let updatedMonthContent :=
                  match exec anyHeading afterWeekHeading 0 with
                  | Some nextHeadingMatch =>
                      let insertPoint := Regex.index nextHeadingMatch in
                      part0 ++ "<h2>w/e " ++ weekEndDate ++ "</h2>"
                      ++ substring 0 insertPoint afterWeekHeading
                      ++ userSection
                      ++ substring_from insertPoint afterWeekHeading
                  | None =>
                      part0 ++ "<h2>w/e " ++ weekEndDate ++ "</h2>"
                      ++ afterWeekHeading ++ userSection
                  end in
                Ok (map_set month updatedMonthContent updatedSections)
            end
        | _ => Ok updatedSections
        end
      else
        let weekHeadings := weekHeadings_of clock monthContent in
        let '(newDay, newMonth) :=
          match map Number (split_char "/" weekEndDate "") with
          | d :: m :: _ => (d, m)
          | d :: [] => (d, NaN)
          | [] => (NaN, NaN)
          end in
        let newDate :=
          label_date (clock (List.length weekHeadings)) (to_integer newDay)
            (to_integer (minus_one newMonth)) in
        let weekSection :=
          createWeekSection weekEndDate displayName formattedContent in
        let h1EndIndex :=
          match indexOf "</h1>" monthContent with
          | Some i => i + 5
          | None => 4
          end in
        let insertPosition :=
          insert_position monthContent newDate
            (sort_by newest_first weekHeadings) h1EndIndex in
        let updatedMonthContent :=
          substring 0 insertPosition monthContent
          ++ weekSection
          ++ substring_from insertPosition monthContent in
        Ok (map_set month updatedMonthContent updatedSections)))
  | None =>
      let newSection :=
        createFullSection month weekEndDate displayName formattedContent in
      Ok (map_set month newSection updatedSections)
  end.

(** [regenerateOrderedContent(sections)]. *)
Definition regenerateOrderedContent (sections : Map) : string :=
  let months :=
    sort_by (fun a b => (month_index b - month_index a)%Z)
            (map_keys sections) in
  fold_left
    (fun orderedContent month =>
       orderedContent ++ match map_get month sections with
                         | Some s => s
                         | None => "undefined"
                         end)
    months "".

Record weekInfo := { month : string; weekEndDate : string }.

Record updated := { updatedContent : string; status : string }.

(** [prepareUpdatedContent(currentContent, formattedContent, weekInfo)]. *)
Definition prepareUpdatedContent (this : ConfluenceService) (clock : Clock)
    (currentContent formattedContent : string) (info : weekInfo)
    : result updated :=
  let month := month info in
  let weekEndDate := weekEndDate info in
  let displayName := confluenceDisplayName this in
  rbind (newRegExp (monthHeadingSource month) "i") (fun monthHeadingPattern =>
  rbind (newRegExp (weekHeadingSource weekEndDate) "i")
    (fun weekHeadingPattern =>
  rbind (newRegExp (userHeadingSource weekEndDate displayName) "s")
    (fun userHeadingPattern =>
  if test userHeadingPattern currentContent then
    Ok {| updatedContent := currentContent;
          status := "Report already exists for week ending "
                    ++ weekEndDate ++ "." |}
  else
    let monthSections := extractMonthSections currentContent in
    rbind (addContentToMonthSections clock monthSections month weekEndDate
             displayName formattedContent) (fun updatedSections =>
    let orderedContent := regenerateOrderedContent updatedSections in
    let status :=
      if test userHeadingPattern currentContent then
        "Report already exists for week ending " ++ weekEndDate ++ "."
      else if test weekHeadingPattern currentContent then
        "Added report to existing week ending " ++ weekEndDate ++ "."
      else if test monthHeadingPattern currentContent then
        "Added new week ending " ++ weekEndDate ++ "."
      else "Added new month '" ++ month ++ "'." in
    Ok {| updatedContent := orderedContent; status := status |})))).

End Confluence.

(** * The remote services

    Every remote call and every reading of the clock is a transition on a
    world state [W]; the two services and the calendar are an interface the
    statements quantify over. *)

Record DateRange := { startDate : Z; endDate : Z }.

Record Page := { content : string; title : string; version : Z }.

Record PagePayload := {
  payload_version : Z;
  payload_title : string;
  payload_content : string
}.

Class Remote (W : Type) := {
  (** [GET /me/time_entries?start_date=..&end_date=..] *)
  get_time_entries : Z -> Z -> W -> W * result (list Format.TimeRecord);
  (** [GET /workspaces/{id}/projects]: the [(id, name)] of each project *)
  get_projects : string -> W -> W * result (list (Z * string));
  (** [GET /me] *)
  get_me : W -> W * result unit;
  (** [GET /rest/api/content/{pageId}?expand=body.storage,version] *)
  get_page : string -> W -> W * result Page;
  (** [PUT /rest/api/content/{pageId}]: the status of the response *)
  put_page : string -> PagePayload -> W -> W * result Z;
  (** [new Date()]: what the [k]-th reading taken in this state gives *)
  clock : W -> nat -> Z;
  (** [setTimeout(resolve, ms)] *)
  sleep : Z -> W -> W;
  (** utils/dateUtils.ts *)
  getAllWeeksInYear : W -> list DateRange;
  getLastWeekDates : W -> DateRange
}.

(** * The time-tracking client (services/togglService.ts) *)
Module Toggl.
Import Js Regex Format.

Record TogglService := {
  apiToken : string;
  workspaceId : string;
  (** [Date | null]; the date itself may be invalid *)
  earliestAllowedDate : option Date
}.

Definition new_TogglService (apiToken workspaceId : string) : TogglService :=
  {| apiToken := apiToken; workspaceId := workspaceId;
     earliestAllowedDate := None |}.

Definition set_earliest (this : TogglService) (d : Date) : TogglService :=
  {| apiToken := apiToken this; workspaceId := workspaceId this;
     earliestAllowedDate := Some d |}.

Definition boundaryPattern : rx := literal "than (\d{4}-\d{2}-\d{2})" "".

(** [new Date(text)] for a text of the form [YYYY-MM-DD]. *)
Definition Date_of_text (text : string) : Date :=
  Date_of_ymd (parseInt (substring 0 4 text))
              (parseInt (substring 5 7 text))
              (parseInt (substring 8 10 text)).

(** The start date of the request: the date asked for, or the cached
    earliest allowed date when the date asked for precedes it. *)
Definition clamp (this : TogglService) (startDate : Date) : Date :=
  match earliestAllowedDate this with
  | Some earliest => if date_lt startDate earliest then earliest else startDate
  | None => startDate
  end.

(** The date a failure carries, when its message is the "start_date must
    not be earlier than" condition with a date that can be extracted. *)
Definition boundary_of (errorMessage : string) : option Date :=
  if includes "start_date must not be earlier than" errorMessage
  then
    match exec boundaryPattern errorMessage 0 with
    | Some dateMatch =>
        match group 1 dateMatch with
        | Some "" | None => None
        | Some text => Some (Date_of_text text)
        end
    | None => None
    end
  else None.

Section WithRemote.
Context {W : Type} {R : Remote W}.

(** A computation: a transition on the world and the service that ends
    with a value or a thrown error, or does not end ([None]). *)
Definition M (A : Type) : Type :=
  W * TogglService -> option (W * TogglService * result A).

Definition ret {A} (a : A) : M A := fun st => Some (st, Ok a).

Definition throw {A} (e : exn) : M A := fun st => Some (st, Throw e).

Definition bind {A B} (m : M A) (f : A -> M B) : M B :=
  fun st =>
    match m st with
    | Some (st', Ok a) => f a st'
    | Some (st', Throw e) => Some (st', Throw e)
    | None => None
    end.

(** [try { m } catch (e) { h e }]. *)
Definition try_catch {A} (m : M A) (h : exn -> M A) : M A :=
  fun st =>
    match m st with
    | Some (st', Throw e) => h e st'
    | x => x
    end.

Definition of_result {A} (r : result A) : M A :=
  fun st => Some (st, r).

(** A remote call. *)
Definition call {A} (f : W -> W * result A) : M A :=
  fun st => let '(w, r) := f (fst st) in Some ((w, snd st), r).

Definition this_service : M TogglService := fun st => Some (st, Ok (snd st)).

Definition store_earliest (d : Date) : M unit :=
  fun st => Some ((fst st, set_earliest (snd st) d), Ok tt).

(** [fetchTimeRecords(startDate, endDate)]. The retry is a recursive call;
    [fuel] bounds the depth of the recursion, and a run that exhausts it
    does not end. *)
Fixpoint fetchTimeRecords (fuel : nat) (startDate endDate : Date)
    : M (list TimeRecord) :=
  match fuel with
  | 0 => fun _ => None
  | S fuel' =>
      bind this_service (fun this =>
      let startDate := clamp this startDate in
      match startDate, endDate with
      | Some startTime, Some endTime =>
          try_catch (call (get_time_entries startTime endTime))
            (fun error =>
               let errorMessage := message_of error in
               match boundary_of errorMessage with
               | Some earliestDate =>
                   bind (store_earliest earliestDate) (fun _ =>
                   fetchTimeRecords fuel' earliestDate endDate)
               | None =>
                   throw (Error ("Failed to fetch time records: "
                                 ++ errorMessage))
               end)
      | _, _ => throw (Error "Invalid time value")
      end)
  end.

(** [fetchProjectsAlternative()]. *)
Definition fetchProjectsAlternative : M ProjectMap :=
  try_catch
    (try_catch (bind (call get_me) (fun userData => ret []))
               (fun error => ret []))
    (fun error => ret []).

(** The object built by [projects.forEach(project =>
    projectMap[project.id] = project.name)]. *)
Definition projectMap_of (projects : list (Z * string)) : ProjectMap :=
  fold_left (fun projectMap project => project :: projectMap) projects [].

(** [fetchProjects()]. *)
Definition fetchProjects : M ProjectMap :=
  try_catch
    (bind this_service (fun this =>
     match workspaceId this with
     | "" => ret []
     | _ =>
         try_catch
           (bind (call (get_projects (workspaceId this))) (fun projects =>
            ret (projectMap_of projects)))
           (fun error => fetchProjectsAlternative)
     end))
    (fun error => throw error).

End WithRemote.
End Toggl.

(** * The orchestrator (index.ts) and the remote half of the Confluence
    service *)
Module Main.
Import Js Format Confluence Toggl.

(** [endDate.toLocaleDateString('en-GB', { day: '2-digit', month:
    '2-digit' })]. *)
Definition weekEndLabel (endDate : Z) : string :=
  let '(_, m, d) := civil_from_days (endDate / msPerDay) in
  two_digits d ++ "/" ++ two_digits (m + 1).

(** [endDate.toLocaleDateString('en-US', { month: 'long' })]. *)
Definition monthLong (endDate : Z) : string :=
  let '(_, m, _) := civil_from_days (endDate / msPerDay) in
  nth (Z.to_nat m) monthNames "".

Record Config := {
  toggl_apiToken : option string;
  toggl_workspaceId : option string;
  confluence_username : option string;
  confluence_apiToken : option string;
  confluence_spaceKey : option string;
  confluence_pageId : option string;
  confluence_baseUrl : option string;
  confluence_displayName : string
}.

(** [!value] on an environment variable: undefined or empty. *)
Definition missing (v : option string) : bool :=
  match v with
  | Some (String _ _) => false
  | _ => true
  end.

(** [value || fallback]. *)
Definition or_else (v : option string) (fallback : string) : string :=
  match v with
  | Some (String c s) => String c s
  | _ => fallback
  end.

Record Counts := {
  processedCount : nat;
  skippedCount : nat;
  errorCount : nat;
  noDataCount : nat
}.

Definition total (c : Counts) : nat :=
  processedCount c + skippedCount c + errorCount c + noDataCount c.

Definition zero_counts : Counts :=
  {| processedCount := 0; skippedCount := 0; errorCount := 0;
     noDataCount := 0 |}.

Definition processed (c : Counts) : Counts :=
  {| processedCount := S (processedCount c); skippedCount := skippedCount c;
     errorCount := errorCount c; noDataCount := noDataCount c |}.

Definition skipped (c : Counts) : Counts :=
  {| processedCount := processedCount c; skippedCount := S (skippedCount c);
     errorCount := errorCount c; noDataCount := noDataCount c |}.

Definition errored (c : Counts) : Counts :=
  {| processedCount := processedCount c; skippedCount := skippedCount c;
     errorCount := S (errorCount c); noDataCount := noDataCount c |}.

Definition noData (c : Counts) : Counts :=
  {| processedCount := processedCount c; skippedCount := skippedCount c;
     errorCount := errorCount c; noDataCount := S (noDataCount c) |}.


(** The services [main] constructs. *)
Definition togglService_of (config : Config) : TogglService :=
  new_TogglService (or_else (toggl_apiToken config) "")
                   (or_else (toggl_workspaceId config) "").

Definition confluenceService_of (config : Config) : ConfluenceService :=
  new_ConfluenceService
    (or_else (confluence_baseUrl config) "")
    (or_else (confluence_apiToken config) "")
    (or_else (confluence_spaceKey config) "")
    (or_else (confluence_pageId config) "")
    (or_else (confluence_username config) "Andres")
    (Some (confluence_displayName config)).

Section WithRemote.
Context {W : Type} {R : Remote W}.

(** Depth allowed to the retry recursion of [fetchTimeRecords]. *)
Variable fuel : nat.

Definition read_clock : M Clock := fun st => Some (st, Ok (clock (fst st))).

Definition wait (ms : Z) : M unit :=
  fun st => Some ((sleep ms (fst st), snd st), Ok tt).

(** [getPageContent()]. *)
Definition getPageContent (this : ConfluenceService) : M Page :=
  try_catch (call (get_page (confluencePageId this)))
            (fun error => throw error).

(** [getExistingContent()]. *)
Definition getExistingContent (this : ConfluenceService) : M string :=
  bind (getPageContent this) (fun pageData => ret (content pageData)).

(** [savePage(title, content, currentVersion)]. *)
Definition savePage (this : ConfluenceService) (title content : string)
    (currentVersion : Z) : M unit :=
  try_catch
    (let payload :=
       {| payload_version := (currentVersion + 1)%Z;
          payload_title := title;
          payload_content := content |} in
     bind (call (put_page (confluencePageId this) payload))
       (fun responseStatus =>
          if (responseStatus =? 200)%Z then ret tt
          else throw (Error ("Failed to update Confluence page: "
                             ++ string_of_Z responseStatus))))
    (fun error => throw error).

(** [postReport(formattedContent, dateRange)], with the date range every
    caller supplies. *)
Definition postReport (this : ConfluenceService) (formattedContent : string)
    (dateRange : DateRange) : M unit :=
  bind (getPageContent this) (fun currentPageData =>
  let info :=
    {| month := monthLong (endDate dateRange);
       weekEndDate := weekEndLabel (endDate dateRange) |} in
  bind read_clock (fun clock =>
  bind (of_result (prepareUpdatedContent this clock (content currentPageData)
                     formattedContent info)) (fun u =>
  if String.eqb (updatedContent u) (content currentPageData) then ret tt
  else savePage this (title currentPageData) (updatedContent u)
         (version currentPageData)))).

(** [processWeek(togglService, confluenceService, dateRange,
    existingProjectMap)]. *)
Definition processWeek (confluenceService : ConfluenceService)
    (dateRange : DateRange) (existingProjectMap : option ProjectMap)
    : M unit :=
  bind (match existingProjectMap with
        | Some projectMap => ret projectMap
        | None => fetchProjects
        end) (fun projectMap =>
  bind (fetchTimeRecords fuel (Some (startDate dateRange))
          (Some (endDate dateRange))) (fun timeRecords =>
  match timeRecords with
  | [] => throw (Error "No time records found for this period")
  | _ =>
      bind (of_result (formatTimeRecords timeRecords projectMap))
        (fun formattedReport =>
      postReport confluenceService formattedReport dateRange)
  end)).

(** One iteration of the loop over the weeks; [more] tells whether
    further weeks follow ([i < reversedWeeks.length - 1]). *)
Definition week_step (confluenceService : ConfluenceService)
    (existingContent : string) (projectMap : ProjectMap) (more : bool)
    (counts : Counts) (week : DateRange) : M Counts :=
  let weekEndDateStr := weekEndLabel (endDate week) in
  bind (of_result (hasWeekForUser confluenceService existingContent
                     weekEndDateStr)) (fun alreadyThere =>
  if alreadyThere then ret (skipped counts)
  else
    try_catch
      (bind (processWeek confluenceService week (Some projectMap)) (fun _ =>
       bind (if more then wait 2000 else ret tt) (fun _ =>
       ret (processed counts))))
      (fun error =>
         if includes "No time records found" (message_of error)
         then ret (noData counts)
         else ret (errored counts))).

Fixpoint weeks_loop (confluenceService : ConfluenceService)
    (existingContent : string) (projectMap : ProjectMap)
    (reversedWeeks : list DateRange) (counts : Counts) : M Counts :=
  match reversedWeeks with
  | [] => ret counts
  | week :: rest =>
      bind (week_step confluenceService existingContent projectMap
              (match rest with [] => false | _ => true end) counts week)
        (fun counts' =>
           weeks_loop confluenceService existingContent projectMap rest
             counts')
  end.

(** [fillInMissingWeeks(togglService, confluenceService)]; the value is
    the summary it prints. *)
Definition fillInMissingWeeks (confluenceService : ConfluenceService)
    : M Counts :=
  fun st =>
    let allWeeks := getAllWeeksInYear (fst st) in
    bind (getExistingContent confluenceService) (fun existingContent =>
    bind fetchProjects (fun projectMap =>
    weeks_loop confluenceService existingContent projectMap
      (rev allWeeks) zero_counts)) st.

(** [main()]: the exit status of the process, [None] if it does not end. *)
Definition main (args : list string) (config : Config) (w : W)
    : option (W * Z) :=
  let shouldFillInWeeks := existsb (String.eqb "--fill-all-weeks") args in
  if missing (toggl_apiToken config) then Some (w, 1%Z)
  else if missing (toggl_workspaceId config) then Some (w, 1%Z)
  else if missing (confluence_username config) then Some (w, 1%Z)
  else if missing (confluence_apiToken config) then Some (w, 1%Z)
  else if missing (confluence_baseUrl config) then Some (w, 1%Z)
  else
    let togglService := togglService_of config in
    let confluenceService := confluenceService_of config in
    let body : M unit :=
      if shouldFillInWeeks then
        bind (fillInMissingWeeks confluenceService) (fun _ => ret tt)
      else
        fun st =>
          processWeek confluenceService (getLastWeekDates (fst st)) None st in
    match body (w, togglService) with
    | Some (st, Ok _) => Some (fst st, 0%Z)
    | Some (st, Throw _) => Some (fst st, 1%Z)
    | None => None
    end.

End WithRemote.
End Main.

(** * Vocabulary of the statements about patterns and documents *)

(** Patterns without metacharacters and what they compile to. *)
Module RegexSpec.
Import Js Regex.

Fixpoint lit_chain (p : string) : regex :=
  match p with
  | "" => Eps
  | String c "" => Chr c
  | String c p' => Seq (Chr c) (lit_chain p')
  end.

Fixpoint seq_lit (p : string) (r : regex) : regex :=
  match p with
  | "" => r
  | String c p' => Seq (Chr c) (seq_lit p' r)
  end.

Definition special (c : ascii) : bool :=
  existsb (Ascii.eqb c) (list_ascii_of_string "^$\.*+?()[]{}|").

Fixpoint plain (p : string) : bool :=
  match p with
  | "" => true
  | String c p' => negb (special c) && plain p'
  end.

Definition no_quantifier (s : string) : bool :=
  match s with
  | "" => true
  | String c _ => negb (existsb (Ascii.eqb c) (list_ascii_of_string "*+?{"))
  end.

(** [p] is at the front of [s], up to the case folding of the flags. *)
Fixpoint prefix_fl (fl : flags) (p s : string) : bool :=
  match p, s with
  | "", _ => true
  | String a p', String b s' => char_eq fl a b && prefix_fl fl p' s'
  | _, _ => false
  end.

(** The match of a pattern at the front of [s]: the rest of the input and
    the captures. *)
Definition at_ (x : rx) (n : nat) (s : string) : option (string * caps) :=
  rmatch (fl x) n (re x) s [] (fun s' c => Some (s', c)).

End RegexSpec.

(** The layout of a document: month sections made of week sections. *)
Module Layout.
Import Js Confluence.

(** A heading of level 1 or 2 starts here, in either letter case. *)
Definition heading_at (s : string) : bool :=
  match s with
  | String a (String b (String c _)) =>
      Ascii.eqb a "<" && (Ascii.eqb b "h" || Ascii.eqb b "H")
      && (Ascii.eqb c "1" || Ascii.eqb c "2")
  | _ => false
  end.

(** No heading of level 1 or 2 starts anywhere in the text. *)
Fixpoint quiet (s : string) : bool :=
  negb (heading_at s)
  && match s with
     | "" => true
     | String _ s' => quiet s'
     end.

(** The text cannot complete a heading begun before it. *)
Definition safe_start (s : string) : bool :=
  match s with
  | "" => true
  | String c _ =>
      negb (Ascii.eqb c "h" || Ascii.eqb c "H" || Ascii.eqb c "1"
            || Ascii.eqb c "2")
  end.

Record week := { day : string; tail : string }.

Record section := { name : string; intro : string; weeks : list week }.

Definition heading2 (day mm : string) : string :=
  "<h2>w/e " ++ day ++ "/" ++ mm ++ "</h2>".

Definition week_text (mm : string) (w : week) : string :=
  heading2 (day w) mm ++ tail w.

Definition weeks_text (mm : string) (ws : list week) : string :=
  String.concat "" (map (week_text mm) ws).

(** The two digits of a month in a week label. *)
Definition mm_of (name : string) : string := two_digits (month_index name + 1).

Definition section_text (s : section) : string :=
  "<h1>" ++ name s ++ "</h1>" ++ intro s
  ++ weeks_text (mm_of (name s)) (weeks s).

Definition document (pre : string) (ss : list section) : string :=
  pre ++ String.concat "" (map section_text ss).

Definition two_digit (d : string) : bool :=
  match d with
  | String a (String b "") => is_digit a && is_digit b
  | _ => false
  end.

(** The request of a merge names one of the twelve months and a week label
    DD/MM of that month. *)
Definition consistent (info : weekInfo) : bool :=
  existsb (String.eqb (month info)) monthNames
  && match weekEndDate info with
     | String a (String b (String "/" mm)) =>
         is_digit a && is_digit b && String.eqb mm (mm_of (month info))
     | _ => false
     end.

(** ** Well-formed layouts *)

Definition day_number (w : week) : Z := parseInt (day w).

Definition wf_week (w : week) : Prop :=
  two_digit (day w) = true /\ quiet (tail w) = true.

Definition descending (l : list Z) : Prop := StronglySorted Z.gt l.

Definition wf_section (s : section) : Prop :=
  In (name s) monthNames /\ quiet (intro s) = true /\ weeks s <> []
  /\ Forall wf_week (weeks s) /\ descending (map day_number (weeks s)).

Definition month_number (s : section) : Z := month_index (name s).

Definition wf_document (pre : string) (ss : list section) : Prop :=
  (pre = "" \/ pre = nl) /\ Forall wf_section ss
  /\ descending (map month_number ss).

(** The document is the text of a well-formed layout. *)
Definition laid_out (doc : string) : Prop :=
  exists pre ss, wf_document pre ss /\ doc = document pre ss.

(** The label [d] is put somewhere among the labels [old]. *)
Definition placed (d : string) (old new : list string) : Prop :=
  exists a b, old = (a ++ b)%list /\ new = (a ++ d :: b)%list.

(** ** What the parser of the merge engine sees in a document *)

Definition month_matches (doc : string) : list Regex.match_result :=
  exec_all (S (length doc)) monthPattern doc 0.

Definition month_names (doc : string) : list string :=
  map (group_text 1) (month_matches doc).

Definition month_sections (doc : string) : list string :=
  map (Regex.matched doc) (month_matches doc).

(** The labels of the week headings of a section: month number and day. *)
Definition week_labels (text : string) : list (Z * Z) :=
  map (fun m => (parseInt (group_text 2 m), parseInt (group_text 1 m)))
      (exec_all (S (length text)) weekHeadingRegex text 0).

(** The first label is of a later date than the second. *)
Definition later (a b : Z * Z) : Prop :=
  (fst b < fst a)%Z \/ (fst a = fst b /\ (snd b < snd a)%Z).

(** Month sections in descending calendar order, the weeks of each in
    descending order of their dates. *)
Definition ordered (doc : string) : Prop :=
  Forall (fun n => In n monthNames) (month_names doc)
  /\ StronglySorted (fun a b => (month_index b < month_index a)%Z)
       (month_names doc)
  /\ Forall (fun text => StronglySorted later (week_labels text))
       (month_sections doc).

(** The readings of the clock fall on one day. *)
Definition one_day (clock : Clock) : Prop :=
  forall i j, (clock i / msPerDay = clock j / msPerDay)%Z.

(** The documents the merge engine produces from the empty one, by merges
    of consistent requests whose display name and body contain no heading
    of level 1 or 2, each merge reading the clock within one day. *)
Inductive produced : string -> Prop :=
| produced_empty : produced ""
| produced_merge (doc : string) (this : ConfluenceService) (clock : Clock)
    (formattedContent : string) (info : weekInfo) (u : updated) :
    produced doc ->
    consistent info = true ->
    quiet (confluenceDisplayName this) = true ->
    quiet formattedContent = true ->
    one_day clock ->
    prepareUpdatedContent this clock doc formattedContent info = Ok u ->
    produced (updatedContent u).

(** The documents any sequence of merges produces from the empty one. *)
Inductive reached : string -> Prop :=
| reached_empty : reached ""
| reached_merge (doc : string) (this : ConfluenceService) (clock : Clock)
    (formattedContent : string) (info : weekInfo) (u : updated) :
    reached doc ->
    prepareUpdatedContent this clock doc formattedContent info = Ok u ->
    reached (updatedContent u).

End Layout.

(** * A simulated world

    A concrete instance of the remote interface, for running the model: the
    page store keeps what is written to it, the time entries are canned per
    week, and failures are switched on by fields of the state. The upstream
    boundary, when there is one, is a parameter of the instance. *)
Module Sim.
Import Js Format FormatSpec.

Record World := {
  page : Page;
  (** the document store answers *)
  page_up : bool;
  (** a write whose content contains this marker fails *)
  put_fails_on : option string;
  (** entries by end of range; [None] is a failed request *)
  entries : Z -> option (list TimeRecord);
  projects : option (list (Z * string));
  me_up : bool;
  now : Z;
  weeks : list DateRange;
  (** the time-entry requests sent so far, latest first *)
  requests : list (Z * Z)
}.

Definition with_page (w : World) (p : Page) : World :=
  {| page := p; page_up := page_up w; put_fails_on := put_fails_on w;
     entries := entries w; projects := projects w; me_up := me_up w;
     now := now w; weeks := weeks w; requests := requests w |}.

Definition with_request (w : World) (r : Z * Z) : World :=
  {| page := page w; page_up := page_up w; put_fails_on := put_fails_on w;
     entries := entries w; projects := projects w; me_up := me_up w;
     now := now w; weeks := weeks w; requests := r :: requests w |}.

Definition with_now (w : World) (t : Z) : World :=
  {| page := page w; page_up := page_up w; put_fails_on := put_fails_on w;
     entries := entries w; projects := projects w; me_up := me_up w;
     now := t; weeks := weeks w; requests := requests w |}.

Definition unavailable : exn := status_error 503 "Service Unavailable".

(** The boundary: the text of the earliest date the upstream accepts as a
    start, with its time value. A request that starts before it is answered
    with the status 400 and the text of the condition as the body. *)
Definition sim_time_entries (boundary : option (string * Z)) (s e : Z)
    (w : World) : World * result (list TimeRecord) :=
  let w' := with_request w (s, e) in
  match boundary with
  | Some (text, t) =>
      if (s <? t)%Z
      then (w', Throw (status_error 400
                         ("start_date must not be earlier than " ++ text)))
      else match entries w e with
           | Some l => (w', Ok l)
           | None => (w', Throw unavailable)
           end
  | None =>
      match entries w e with
      | Some l => (w', Ok l)
      | None => (w', Throw unavailable)
      end
  end.

Definition sim_put (id : string) (p : PagePayload) (w : World)
    : World * result Z :=
  let fails :=
    match put_fails_on w with
    | Some marker => includes marker (payload_content p)
    | None => false
    end in
  if fails then (w, Throw (status_error 500 "Internal Server Error"))
  else (with_page w {| content := payload_content p;
                       title := payload_title p;
                       version := payload_version p |}, Ok 200%Z).

#[export] Instance remote (boundary : option (string * Z)) : Remote World := {
  get_time_entries := sim_time_entries boundary;
  get_projects := fun _ w =>
    (w, match projects w with Some l => Ok l | None => Throw unavailable end);
  get_me := fun w => (w, if me_up w then Ok tt else Throw unavailable);
  get_page := fun _ w => (w, if page_up w then Ok (page w) else Throw unavailable);
  put_page := sim_put;
  clock := fun w _ => now w;
  sleep := fun ms w => with_now w (now w + ms)%Z;
  getAllWeeksInYear := weeks;
  getLastWeekDates := fun w =>
    match rev (weeks w) with
    | r :: _ => r
    | [] => {| startDate := 0; endDate := 0 |}
    end
}.

(** Midnight and the end of the day [d] of month index [m] of year [y]. *)
Definition day_start (y m d : Z) : Z := (MakeDay y m d * msPerDay)%Z.
Definition day_end (y m d : Z) : Z := (MakeDay y m d * msPerDay + 86399999)%Z.

(** The work week (Monday to Friday) that ends on the given Friday. *)
Definition week_ending (y m d : Z) : DateRange :=
  {| startDate := day_start y m (d - 4); endDate := day_end y m d |}.

Definition march_weeks : list DateRange :=
  [week_ending 2026 2 6; week_ending 2026 2 13; week_ending 2026 2 20].

Definition one_entry : list TimeRecord := [example_record "Review" (Some 1%Z)].

Definition empty_page : Page := {| content := ""; title := "WARs"; version := 1 |}.

(** Three weeks of March 2026 with one entry each, an empty page, every
    service up. *)
Definition calm : World :=
  {| page := empty_page; page_up := true; put_fails_on := None;
     entries := fun _ => Some one_entry;
     projects := Some [(1%Z, "Site")]; me_up := true;
     now := day_start 2026 2 23; weeks := march_weeks; requests := [] |}.

(** The same, but the write of the week ending 13/03 fails. *)
Definition failing_write : World :=
  {| page := empty_page; page_up := true;
     put_fails_on := Some "<h2>w/e 13/03</h2>";
     entries := fun _ => Some one_entry;
     projects := Some [(1%Z, "Site")]; me_up := true;
     now := day_start 2026 2 23; weeks := march_weeks; requests := [] |}.


(** One week, started before the upstream boundary of 10 March, in which
    nothing was tracked. *)
Definition quiet_week : World :=
  {| page := empty_page; page_up := true; put_fails_on := None;
     entries := fun _ => Some [];
     projects := Some [(1%Z, "Site")]; me_up := true;
     now := day_start 2026 2 23; weeks := [week_ending 2026 2 13];
     requests := [] |}.

Definition boundary : option (string * Z) :=
  Some ("2026-03-10", day_start 2026 2 10).


Definition config : Main.Config :=
  {| Main.toggl_apiToken := Some "token";
     Main.toggl_workspaceId := Some "42";
     Main.confluence_username := Some "alice";
     Main.confluence_apiToken := Some "secret";
     Main.confluence_spaceKey := Some "WEB";
     Main.confluence_pageId := Some "1001";
     Main.confluence_baseUrl := Some "https://wiki.example.org";
     Main.confluence_displayName := "Alice" |}.

(** The same settings with another display name. *)
Definition config_named (displayName : string) : Main.Config :=
  {| Main.toggl_apiToken := Some "token";
     Main.toggl_workspaceId := Some "42";
     Main.confluence_username := Some "alice";
     Main.confluence_apiToken := Some "secret";
     Main.confluence_spaceKey := Some "WEB";
     Main.confluence_pageId := Some "1001";
     Main.confluence_baseUrl := Some "https://wiki.example.org";
     Main.confluence_displayName := displayName |}.

(** The documents and requests of the merge examples. *)
Definition body : string := "<ul><li>Site<ul><li>Review</li></ul></li></ul>".

Definition service_of (displayName : string) : Confluence.ConfluenceService :=
  Confluence.new_ConfluenceService "https://wiki.example.org" "secret" "WEB"
    "1001" "alice" (Some displayName).

Definition march (label : string) : Confluence.weekInfo :=
  {| Confluence.month := "March"; Confluence.weekEndDate := label |}.

(** The document after the given merge, the document itself if the merge
    throws. *)
Definition merged (displayName : string) (doc : string)
    (info : Confluence.weekInfo) : string :=
  match Confluence.prepareUpdatedContent (service_of displayName)
          (fun _ => day_start 2026 2 23) doc body info with
  | Ok u => Confluence.updatedContent u
  | Throw _ => doc
  end.

(** A time entry whose description holds a week heading, and the body the
    formatter makes of it. *)
Definition heading_record : Format.TimeRecord :=
  FormatSpec.example_record "<h2>w/e 28/03</h2>" None.

Definition heading_body : string :=
  match Format.formatTimeRecords [heading_record] [] with
  | Ok text => text
  | Throw _ => ""
  end.

(** The document after the merge of the given body. *)
Definition merged_body (displayName formattedContent doc : string)
    (info : Confluence.weekInfo) : string :=
  match Confluence.prepareUpdatedContent (service_of displayName)
          (fun _ => day_start 2026 2 23) doc formattedContent info with
  | Ok u => Confluence.updatedContent u
  | Throw _ => doc
  end.

(** Alice reported the week ending 07/03, Bob the one ending 14/03. *)
Definition two_weeks : string :=
  merged "Bob" (merged "Alice" "" (march "07/03")) (march "14/03").


Definition service : Confluence.ConfluenceService :=
  Confluence.new_ConfluenceService "https://wiki.example.org" "secret" "WEB"
    "1001" "alice" (Some "Alice").

Definition toggl : Toggl.TogglService := Toggl.new_TogglService "token" "42".

End Sim.

(** * Notions of the properties and of their proofs *)

Module SortSpec.
Import Js.

Definition cmp_strings (a b : string) : Z :=
  if ltb a b then (-1)%Z else if ltb b a then 1%Z else 0%Z.

Definition le_str (a b : string) : Prop := ltb b a = false.

End SortSpec.

Module FormatAux.
Import Js Format FormatSpec.

(** The set of descriptions of a project, as rendered. *)
Definition tasks_of (g : Groups) (name : string) : list string :=
  sort_strings (match group_get name g with Some s => s | None => [] end).

(** The groups are those of the records [rs] whose project name no object
    inherits. *)
Record groups_inv (pm : ProjectMap) (g : Groups) (rs : list TimeRecord)
    : Prop := {
  keys_nodup : NoDup (map fst g);
  keys_spec : forall n,
    In n (map fst g) <->
    inherited n = false /\ exists r, In r rs /\ projectName_of pm r = n;
  sets_nodup : forall n s, In (n, s) g -> NoDup s;
  sets_spec : forall n s, In (n, s) g -> forall d,
    In d s <-> exists r, In r rs /\ projectName_of pm r = n
                         /\ description r = d /\ has_text d = true
}.

(** The groups once the key of the record is present. *)
Definition with_key (name : string) (g : Groups) : Groups :=
  match group_get name g with
  | None => (g ++ [(name, [])])%list
  | Some _ => g
  end.

(** The projects and their items, as [formatTimeRecords] lays them out. *)
Definition formatted_groups (g : Groups) : list (string * list string) :=
  map (fun n => (n, tasks_of g n)) (sort_strings (map fst g)).

(** The error of a record with a description whose project name every
    object inherits. *)
Definition not_a_set : exn :=
  TypeError "projectGroups[projectName].add is not a function".

(** The record makes the loop of the formatter throw. *)
Definition throwing (pm : ProjectMap) (r : TimeRecord) : bool :=
  inherited (projectName_of pm r) && has_text (description r).

(** One step of the loop over the records. *)
Definition step (pm : ProjectMap) (groups : result Groups)
    (record : TimeRecord) : result Groups :=
  rbind groups (fun g => add_record pm g record).

End FormatAux.

Module BackfillSpec.
Import Js Format Confluence Toggl Main.

(** What becomes of one week that is not skipped, by the end of
    [processWeek]. *)
Definition counted (r : result unit) (counts : Counts) : Counts :=
  match r with
  | Ok _ => processed counts
  | Throw e =>
      if includes "No time records found" (message_of e)
      then noData counts else errored counts
  end.

(** The pre-check of every week can be made: its pattern compiles. *)
Definition checkable (svc : ConfluenceService) (weeks : list DateRange)
    : Prop :=
  forall week, In week weeks ->
    Regex.RegExp (userHeadingSource (weekEndLabel (endDate week))
                    (confluenceDisplayName svc)) "s" <> None.

Section WithRemote.
Context {W : Type} {R : Remote W}.
Variable fuel : nat.

(** Every fetch of time records ends within the fuel given. *)
Definition fetches_end : Prop :=
  forall s e st, fetchTimeRecords fuel s e st <> None.

(** A computation that ends from every state. *)
Definition ends {A} (m : @M W A) : Prop := forall st, m st <> None.

End WithRemote.

End BackfillSpec.

Module BoundarySpec.
Import Js.

(** The characters of a number in decimal are digits or the sign. *)
Definition numeric (c : ascii) : bool := is_digit c || Ascii.eqb c "-".

Fixpoint all_numeric (s : string) : bool :=
  match s with
  | "" => true
  | String c s' => numeric c && all_numeric s'
  end.

End BoundarySpec.

Module MergeSpec.
Import Js Confluence.

(** The status of a merge that found the report in place. *)
Definition alreadyExists (weekEndDate : string) : string :=
  "Report already exists for week ending " ++ weekEndDate ++ ".".

End MergeSpec.

Module PatternSpec.
Import Js Regex RegexSpec Confluence Layout.

(** A character that cannot continue a heading begun before it. *)
Definition closing (x : ascii) : bool :=
  negb (Ascii.eqb x "<" || Ascii.eqb x "h" || Ascii.eqb x "H").

Definition plain_flags : flags :=
  {| ignoreCase := false; dotAll := false; global := false |}.

Definition g_flags : flags :=
  {| ignoreCase := false; dotAll := false; global := true |}.

Definition i_flags : flags :=
  {| ignoreCase := true; dotAll := false; global := false |}.

Definition letter : regex := Cls false [CRange "A" "Z"; CRange "a" "z"].

Definition digit : regex := Cls false [CRange "0" "9"].

Definition any_char : regex :=
  Cls false (ranges_items space_ranges ++ [CExcept space_ranges]).

Definition ahead_h1 : regex := Look true (Alt (lit_chain "<h1>") Eos).

Definition level (levels : string) : regex :=
  Cls false (map (fun c => CRange c c) (list_ascii_of_string levels)).

Definition to_bracket : regex :=
  Seq (Star true (Cls true [CRange ">" ">"])) (Chr ">").

(** Every character of the run is in the class. *)
Fixpoint all_in (fl : flags) (neg : bool) (items : list citem)
    (run : string) : bool :=
  match run with
  | "" => true
  | String a run' => class_matches fl neg items a && all_in fl neg items run'
  end.

(** The first character, if any, is not in the class. *)
Definition stops (fl : flags) (neg : bool) (items : list citem)
    (rest : string) : bool :=
  match rest with
  | "" => true
  | String a _ => negb (class_matches fl neg items a)
  end.

Definition at_boundary (s : string) : bool :=
  startsWith "<h1>" s || match s with "" => true | _ => false end.

Definition week_rx (d mm : string) : rx :=
  {| re := lit_chain (heading2 d mm); fl := i_flags; ngroups := 0 |}.

End PatternSpec.

Module ScanSpec.
Import Js Regex RegexSpec Confluence Layout PatternSpec.

(** The heading of a month with the text before the first week. *)
Definition head (s : section) : string :=
  "<h1>" ++ name s ++ "</h1>" ++ intro s.

(** A pattern that can only match where a heading starts. *)
Definition needs_heading (x : rx) : Prop :=
  forall n s, heading_at s = false -> at_ x n s = None.

(** The matches of the week pattern over a run of weeks starting at [off]. *)
Fixpoint week_hits (mm : string) (off : nat) (ws : list week)
    : list match_result :=
  match ws with
  | [] => []
  | w :: ws' =>
      {| Regex.index := off; last := off + 18;
         captures := [(2, mm); (1, day w)] |}
      :: week_hits mm (off + length (week_text mm w)) ws'
  end.

(** The headings of a run of weeks with their dates, the first of them
    dated by the reading [k] of the clock. *)
Fixpoint heads_of (clock : Clock) (k : nat) (mm : string) (off : nat)
    (ws : list week) : list weekHeading :=
  match ws with
  | [] => []
  | w :: ws' =>
      {| date := label_date (clock k) (Some (day_number w))
                   (Some (parseInt mm - 1)%Z);
         Confluence.index := off |}
      :: heads_of clock (S k) mm (off + length (week_text mm w)) ws'
  end.

(** The day number a week label of month index [m] starts from, when the
    clock reads the day [today]: the label [d] falls on the day
    [label_base today m + d]. *)
Definition label_base (today m : Z) : Z :=
  let '(y, _, dd) := civil_from_days today in
  let '(y', m', _) := civil_from_days (MakeDay y m dd) in
  (days_from_civil (y' + m' / 12) (m' mod 12) - 1)%Z.

Definition sections_text (ss : list section) : string :=
  String.concat "" (map section_text ss).

(** What a month section holds after its heading. *)
Definition body (s : section) : string :=
  intro s ++ weeks_text (mm_of (name s)) (weeks s).

Fixpoint month_hits (off : nat) (ss : list section) : list match_result :=
  match ss with
  | [] => []
  | s :: ss' =>
      {| Regex.index := off; last := off + length (section_text s);
         captures := [(2, body s); (1, name s)] |}
      :: month_hits (off + length (section_text s)) ss'
  end.

Definition entries (ss : list section) : Map :=
  map (fun s => (name s, section_text s)) ss.

Definition by_month (a b : string) : Z := (month_index b - month_index a)%Z.

Definition pad_week (x : string) (w : week) : week :=
  {| day := day w; tail := tail w ++ x |}.

Fixpoint pad_last (x : string) (ws : list week) : list week :=
  match ws with
  | [] => []
  | [w] => [pad_week x w]
  | w :: ws' => w :: pad_last x ws'
  end.

Definition pad_section (x : string) (s : section) : section :=
  {| name := name s; intro := intro s; weeks := pad_last x (weeks s) |}.

Fixpoint pad_sections (x : string) (ss : list section) : list section :=
  match ss with
  | [] => []
  | [s] => [pad_section x s]
  | s :: ss' => s :: pad_sections x ss'
  end.

(** The week the engine writes for a label. *)
Definition new_week (d displayName formattedContent : string) : week :=
  {| day := d; tail := createUserSection displayName formattedContent |}.

Definition is_ok {A : Type} (r : result A) : bool :=
  match r with
  | Ok _ => true
  | Throw _ => false
  end.

End ScanSpec.

Module OrderSpec.
Import Js Confluence Layout ScanSpec.

(** The month of March with the week ending 21/03 alone, as the engine
    writes it. *)
Definition march_21 : section :=
  {| name := "March"; intro := nl;
     weeks := [new_week "21" "Alice" Sim.body] |}.

End OrderSpec.


(** * The calendar (utils/dateUtils.ts) and the week of a report

    A valid [Date] is its time value in milliseconds; the local time zone is
    taken to be UTC, as in [Js], and time values are not clipped to the
    range of the language. *)
Module DateUtils.
Import Js Confluence Main.

(** [date.getDay()]: 0 is Sunday; the epoch was a Thursday. *)
Definition getDay (t : Z) : Z := ((t / msPerDay + 4) mod 7)%Z.

(** [date.getDate()]. *)
Definition getDate (t : Z) : Z :=
  let '(_, _, d) := civil_from_days (t / msPerDay) in d.

(** [date.getFullYear()]. *)
Definition getFullYear (t : Z) : Z :=
  let '(y, _, _) := civil_from_days (t / msPerDay) in y.

(** [date.setDate(d)] on a valid date. *)
Definition setDate (d t : Z) : Z :=
  let '(y, m, _) := civil_from_days (t / msPerDay) in
  (MakeDay y m d * msPerDay + t mod msPerDay)%Z.

(** [date.setHours(h, m, s, ms)]. *)
Definition setHours (h m s ms t : Z) : Z :=
  (t / msPerDay * msPerDay + (((h * 60 + m) * 60 + s) * 1000 + ms))%Z.

(** [new Date(year, month, day)]: a year from 0 to 99 stands for 1900 +
    year. *)
Definition Date_local (year month day : Z) : Z :=
  let y := if ((0 <=? year) && (year <=? 99))%Z then (1900 + year)%Z
           else year in
  (MakeDay y month day * msPerDay)%Z.

(** [getLastWeekDates()], [today] being the reading of the clock. *)
Definition getLastWeekDates (today : Z) : DateRange :=
  let dayOfWeek := getDay today in
  let lastFriday :=
    if (dayOfWeek =? 6)%Z then setDate (getDate today - 1) today
    else if (dayOfWeek =? 0)%Z then setDate (getDate today - 2) today
    else setDate (getDate today - (dayOfWeek + 2)) today in
  let lastFriday := setHours 23 59 59 999 lastFriday in
  let mondayOfLastWeek := setDate (getDate lastFriday - 4) lastFriday in
  let mondayOfLastWeek := setHours 0 0 0 0 mondayOfLastWeek in
  {| startDate := mondayOfLastWeek; endDate := lastFriday |}.

(** The loop [while (currentDate <= today)] of [getAllWeeksInYear]; [None]
    when the fuel does not reach its end. *)
Fixpoint weeks_until (fuel : nat) (currentDate today : Z)
    : option (list DateRange) :=
  match fuel with
  | O => None
  | S fuel' =>
      if (currentDate <=? today)%Z then
        let weekEndDate := currentDate in
        let weekStartDate := setDate (getDate weekEndDate - 4) weekEndDate in
        let weekStartDate := setHours 0 0 0 0 weekStartDate in
        let currentDate := setDate (getDate currentDate + 7) currentDate in
        match weeks_until fuel' currentDate today with
        | Some weeks =>
            Some ({| startDate := weekStartDate; endDate := weekEndDate |}
                  :: weeks)
        | None => None
        end
      else Some []
  end.

(** [getAllWeeksInYear()]. *)
Definition getAllWeeksInYear (fuel : nat) (today : Z)
    : option (list DateRange) :=
  let currentYear := getFullYear today in
  let startDate := setHours 0 0 0 0 (Date_local currentYear 0 1) in
  let dayOfWeek := getDay startDate in
  let currentDate :=
    if negb (dayOfWeek =? 5)%Z
    then setDate (getDate startDate + ((5 - dayOfWeek + 7) mod 7)) startDate
    else startDate in
  let currentDate := setHours 23 59 59 999 currentDate in
  weeks_until fuel currentDate today.

(** [getCurrentWeekInfo()] of the Confluence service. *)
Definition getCurrentWeekInfo (today : Z) : weekInfo :=
  let dayOfWeek := getDay today in
  let lastFriday :=
    if (dayOfWeek =? 6)%Z then setDate (getDate today - 1) today
    else if (dayOfWeek =? 0)%Z then setDate (getDate today - 2) today
    else setDate (getDate today - (dayOfWeek + 2)) today in
  {| month := monthLong lastFriday; weekEndDate := weekEndLabel lastFriday |}.

(** The week information [postReport] takes from a date range. *)
Definition weekInfo_of (dateRange : DateRange) : weekInfo :=
  {| month := monthLong (endDate dateRange);
     weekEndDate := weekEndLabel (endDate dateRange) |}.

End DateUtils.

(** * Work weeks *)
Module DaySpec.
Import Js.

Definition Friday (t : Z) : Prop := DateUtils.getDay t = 5%Z.
Definition Monday (t : Z) : Prop := DateUtils.getDay t = 1%Z.

(** A work week: Monday 00:00:00.000 to the Friday 23:59:59.999 four days
    later. *)
Definition work_week (r : DateRange) : Prop :=
  Friday (endDate r) /\ Monday (startDate r)
  /\ (startDate r mod msPerDay = 0)%Z
  /\ (endDate r = startDate r + 5 * msPerDay - 1)%Z.

(** The weeks in the order of their Fridays. *)
Definition in_order (ws : list DateRange) : Prop :=
  StronglySorted (fun a b => (endDate a < endDate b)%Z) ws.

End DaySpec.

(** * Week labels and display names without metacharacters *)
Module UserSpec.
Import Js Regex RegexSpec Confluence.

Definition s_flags : flags :=
  {| ignoreCase := false; dotAll := true; global := false |}.

(** The heading of a week and the heading of a user, as text. *)
Definition weekHeadingText (weekEndDate : string) : string :=
  "<h2>w/e " ++ weekEndDate ++ "</h2>".

Definition userHeadingText (displayName : string) : string :=
  "<h3>" ++ displayName ++ "</h3>".

(** What the pattern of [hasWeekForUser] compiles to when neither the label
    nor the name holds a metacharacter. *)
Definition user_rx (weekEndDate displayName : string) : rx :=
  {| re := seq_lit (weekHeadingText weekEndDate)
             (Seq (Star false Any) (lit_chain (userHeadingText displayName)));
     fl := s_flags; ngroups := 0 |}.

(** The text holds the heading of the week and, somewhere after it, the
    heading of the user. *)
Definition week_then_user (weekEndDate displayName s : string) : Prop :=
  exists a b c,
    s = a ++ weekHeadingText weekEndDate ++ b
        ++ userHeadingText displayName ++ c.

End UserSpec.

(** * A page on which Alice has reported the week ending 13 March *)
Module Reported.
Import Js Confluence.

Definition text : string := "<h2>w/e 13/03</h2><h3>Alice</h3>".

Definition reported_page : Page :=
  {| content := text; title := "WARs"; version := 7 |}.

Definition world : Sim.World := Sim.with_page Sim.calm reported_page.

(** The same as [Sim.calm], but no request for time entries succeeds. *)
Definition entries_down : Sim.World :=
  {| Sim.page := Sim.empty_page; Sim.page_up := true;
     Sim.put_fails_on := None; Sim.entries := fun _ => None;
     Sim.projects := Some [(1%Z, "Site")]; Sim.me_up := true;
     Sim.now := Sim.day_start 2026 2 23; Sim.weeks := Sim.march_weeks;
     Sim.requests := [] |}.

End Reported.

(** * What a merge keeps *)
Module KeepSpec.
Import Js Confluence.

(** The text is empty or begins with [<h] or [<H]. *)
Definition heading_start (s : string) : bool :=
  match s with
  | "" => true
  | String a (String b _) =>
      Ascii.eqb a "<" && (Ascii.eqb b "h" || Ascii.eqb b "H")
  | _ => false
  end.

(** [doc'] is [doc], but for a line feed at its front, with a text put in
    at its end or where a heading starts. *)
Definition inserted (doc doc' : string) : Prop :=
  exists pre A X B,
    (pre = "" \/ pre = nl) /\ doc = pre ++ A ++ B /\ doc' = A ++ X ++ B
    /\ heading_start B = true.

(** The text holds no [<]. *)
Fixpoint no_lt (s : string) : bool :=
  match s with
  | "" => true
  | String c s' => negb (Ascii.eqb c "<") && no_lt s'
  end.

(** No [<h] or [<H] in the text, and no [<] at its end. *)
Fixpoint no_start (s : string) : bool :=
  match s with
  | "" => true
  | String a s' =>
      negb (Ascii.eqb a "<"
            && match s' with
               | String b _ => Ascii.eqb b "h" || Ascii.eqb b "H"
               | "" => true
               end)
      && no_start s'
  end.

(** No part of [H] after its first character begins a heading, whatever
    follows. *)
Definition tight (H : string) : Prop :=
  forall m m' c, H = m ++ m' -> m <> "" -> m' <> "" ->
                 heading_start (m' ++ c) = false.

End KeepSpec.

(** * What a merge does to the month of its request *)
Module FrameSpec.
Import Js Regex RegexSpec Confluence PatternSpec UserSpec.




End FrameSpec.


(** * Strings *)
Module StringFacts.
Import Js.
Import SortSpec FormatAux BackfillSpec MergeSpec PatternSpec ScanSpec.

Lemma append_nil_r (s : string) : s ++ "" = s.
Proof. induction s as [|c s IH]; simpl; [reflexivity | now rewrite IH]. Qed.

Lemma append_assoc (a b c : string) : (a ++ b) ++ c = a ++ (b ++ c).
Proof. induction a as [|x a IH]; simpl; [reflexivity | now rewrite IH]. Qed.

Lemma length_append (a b : string) : length (a ++ b) = length a + length b.
Proof. induction a as [|x a IH]; simpl; [reflexivity | now rewrite IH]. Qed.

Lemma code_inj (a b : ascii) : code a = code b -> a = b.
Proof.
  unfold code. intros H.
  rewrite <- (ascii_nat_embedding a), <- (ascii_nat_embedding b).
  now rewrite H.
Qed.

Lemma ltb_irrefl (a : string) : ltb a a = false.
Proof.
  induction a as [|x a IH]; simpl; [reflexivity|].
  rewrite Nat.ltb_irrefl, Nat.eqb_refl. simpl. exact IH.
Qed.

Lemma ltb_trans (a b c : string) :
  ltb a b = true -> ltb b c = true -> ltb a c = true.
Proof.
  revert b c. induction a as [|x a IH]; intros [|y b] [|z c]; simpl;
    try discriminate; auto.
  intros H1 H2.
  apply orb_true_iff in H1. apply orb_true_iff in H2. apply orb_true_iff.
  destruct H1 as [H1| H1]; destruct H2 as [H2|H2].
  - left. apply Nat.ltb_lt in H1, H2. apply Nat.ltb_lt. lia.
  - apply andb_true_iff in H2 as [E _]. apply Nat.eqb_eq in E.
    left. rewrite <- E. exact H1.
  - apply andb_true_iff in H1 as [E _]. apply Nat.eqb_eq in E.
    left. rewrite E. exact H2.
  - apply andb_true_iff in H1 as [E1 L1]. apply andb_true_iff in H2 as [E2 L2].
    right. apply Nat.eqb_eq in E1, E2. apply andb_true_iff. split.
    + apply Nat.eqb_eq. congruence.
    + eapply IH; eauto.
Qed.

Lemma ltb_total (a b : string) :
  ltb a b = false -> ltb b a = false -> a = b.
Proof.
  revert b. induction a as [|x a IH]; intros [|y b]; simpl;
    try discriminate; auto.
  intros H1 H2.
  apply orb_false_iff in H1 as [L1 R1]. apply orb_false_iff in H2 as [L2 R2].
  apply Nat.ltb_ge in L1, L2.
  assert (E : code x = code y) by lia.
  rewrite E, Nat.eqb_refl in R1. rewrite E, Nat.eqb_refl in R2.
  simpl in R1, R2. f_equal; [now apply code_inj | now apply IH].
Qed.

End StringFacts.

(** * Sorting *)
Module SortFacts.
Import Js StringFacts.
Import SortSpec FormatAux BackfillSpec MergeSpec PatternSpec ScanSpec.

Section Generic.
Context {A : Type} (cmp : A -> A -> Z).

Lemma insert_by_perm (x : A) (l : list A) :
  Permutation (x :: l) (insert_by cmp x l).
Proof.
  induction l as [|y l IH]; simpl; [apply Permutation_refl|].
  destruct (cmp x y <=? 0)%Z; [apply Permutation_refl|].
  eapply perm_trans; [apply perm_swap|]. now apply perm_skip.
Qed.

Lemma sort_by_perm (l : list A) : Permutation l (sort_by cmp l).
Proof.
  induction l as [|x l IH]; simpl; [apply perm_nil|].
  eapply perm_trans; [|apply insert_by_perm]. now apply perm_skip.
Qed.

Lemma sort_by_in (l : list A) (x : A) : In x (sort_by cmp l) <-> In x l.
Proof.
  split; apply Permutation_in;
    [apply Permutation_sym|]; apply sort_by_perm.
Qed.
End Generic.

Lemma sort_strings_eq (l : list string) : sort_strings l = sort_by cmp_strings l.
Proof. reflexivity. Qed.

Lemma insert_sorted (x : string) (l : list string) :
  StronglySorted le_str l -> StronglySorted le_str (insert_by cmp_strings x l).
Proof.
  induction 1 as [|y l Hs IH Hy]; simpl.
  - constructor; constructor.
  - unfold cmp_strings at 1.
    destruct (ltb x y) eqn:Lxy; simpl.
    + constructor; [constructor; assumption|].
      constructor.
      * unfold le_str. destruct (ltb y x) eqn:Lyx; [|reflexivity].
        pose proof (ltb_trans _ _ _ Lxy Lyx) as C.
        now rewrite ltb_irrefl in C.
      * rewrite Forall_forall in *. intros z Hz. specialize (Hy z Hz).
        unfold le_str in *. destruct (ltb z x) eqn:Lzx; [|reflexivity].
        pose proof (ltb_trans _ _ _ Lzx Lxy) as C. congruence.
    + destruct (ltb y x) eqn:Lyx; simpl.
      * constructor; [exact IH|].
        rewrite Forall_forall. intros z Hz.
        apply (Permutation_in _ (Permutation_sym (insert_by_perm _ x l))) in Hz.
        destruct Hz as [<-|Hz].
        -- unfold le_str. exact Lxy.
        -- rewrite Forall_forall in Hy. now apply Hy.
      * pose proof (ltb_total _ _ Lxy Lyx) as ->.
        constructor; [constructor; assumption|].
        constructor; [exact Lyx|exact Hy].
  Qed.

Lemma sort_strings_sorted (l : list string) :
  StronglySorted le_str (sort_strings l).
Proof.
  rewrite sort_strings_eq.
  induction l as [|x l IH]; simpl; [constructor|]. now apply insert_sorted.
Qed.

Lemma sort_strings_in (l : list string) (x : string) :
  In x (sort_strings l) <-> In x l.
Proof. rewrite sort_strings_eq. apply sort_by_in. Qed.

Lemma sort_strings_nodup (l : list string) :
  NoDup l -> NoDup (sort_strings l).
Proof.
  rewrite sort_strings_eq. apply Permutation_NoDup, sort_by_perm.
Qed.

Lemma sorted_nodup_ascending (l : list string) :
  StronglySorted le_str l -> NoDup l -> FormatSpec.ascending l.
Proof.
  unfold FormatSpec.ascending.
  induction 1 as [|x l Hs IH Hx]; intros Hnd; constructor.
  - apply IH. now inversion Hnd.
  - inversion Hnd as [|? ? Hnin _]; subst.
    rewrite Forall_forall in *. intros y Hy. specialize (Hx y Hy).
    unfold le_str in Hx.
    destruct (ltb x y) eqn:L; [reflexivity|].
    exfalso. apply Hnin. now rewrite (ltb_total _ _ L Hx).
Qed.

Lemma sort_strings_ascending (l : list string) :
  NoDup l -> FormatSpec.ascending (sort_strings l).
Proof.
  intros H. apply sorted_nodup_ascending;
    [apply sort_strings_sorted | now apply sort_strings_nodup].
Qed.

Lemma sort_strings_nil (l : list string) : sort_strings l = [] -> l = [].
Proof.
  intros H. destruct l as [|x l]; [reflexivity|].
  assert (In x (sort_strings (x :: l))) by (apply sort_strings_in; now left).
  rewrite H in H0. destruct H0.
Qed.

End SortFacts.


(** * The formatter *)
Module FormatFacts.
Import Js Format FormatSpec StringFacts SortFacts.
Import SortSpec FormatAux BackfillSpec MergeSpec PatternSpec ScanSpec.

Lemma concat_cons (x : string) (l : list string) :
  String.concat "" (x :: l) = x ++ String.concat "" l.
Proof.
  destruct l as [|y l]; simpl; [now rewrite append_nil_r | reflexivity].
Qed.

Lemma concat_app (l1 l2 : list string) :
  String.concat "" (l1 ++ l2) = String.concat "" l1 ++ String.concat "" l2.
Proof.
  induction l1 as [|x l1 IH]; [reflexivity|].
  change ((x :: l1) ++ l2)%list with (x :: (l1 ++ l2))%list.
  now rewrite !concat_cons, IH, append_assoc.
Qed.

Lemma fold_tasks (tasks : list string) (acc : string) :
  fold_left (fun out task => out ++ "<li>" ++ task ++ "</li>") tasks acc
  = acc ++ String.concat "" (map item tasks).
Proof.
  revert acc. induction tasks as [|t tasks IH]; intros acc.
  - simpl. now rewrite append_nil_r.
  - cbn [fold_left map]. rewrite IH, concat_cons, append_assoc. reflexivity.
Qed.

Lemma render_tasks_item (name : string) (tasks : list string) :
  "<li>" ++ name ++ render_tasks tasks ++ "</li>" = project_item (name, tasks).
Proof.
  unfold project_item, render_tasks. cbn [fst snd].
  destruct tasks as [|t tasks]; [reflexivity|].
  rewrite fold_tasks. reflexivity.
Qed.

Lemma fold_projects (g : Groups) (names : list string) (acc : string) :
  fold_left (render_project g) names acc
  = acc ++ String.concat ""
             (map project_item (map (fun n => (n, tasks_of g n)) names)).
Proof.
  revert acc. induction names as [|n names IH]; intros acc.
  - simpl. now rewrite append_nil_r.
  - cbn [fold_left map]. rewrite IH, concat_cons. unfold render_project.
    fold (tasks_of g n). rewrite <- render_tasks_item.
    now rewrite !append_assoc.
Qed.

(** ** The groups built by the loop over the records *)

Lemma set_add_in (x d : string) (s : list string) :
  In d (set_add x s) <-> d = x \/ In d s.
Proof.
  unfold set_add. destruct (existsb (String.eqb x) s) eqn:E.
  - split; [now right|]. intros [->|H]; [|exact H].
    apply existsb_exists in E as (y & Hy & Exy).
    apply String.eqb_eq in Exy. now subst.
  - rewrite in_app_iff. simpl. intuition.
Qed.

Lemma set_add_nodup (x : string) (s : list string) :
  NoDup s -> NoDup (set_add x s).
Proof.
  intros H. unfold set_add. destruct (existsb (String.eqb x) s) eqn:E; [exact H|].
  apply NoDup_app; [exact H| repeat constructor; intros [] | ].
  intros y Hy [E'|[]]. subst y.
  assert (existsb (String.eqb x) s = true); [|congruence].
  apply existsb_exists. exists x. split; [exact Hy|apply String.eqb_refl].
Qed.

Lemma group_get_in (name : string) (g : Groups) (s : list string) :
  group_get name g = Some s -> In (name, s) g.
Proof.
  induction g as [|[n t] g IH]; simpl; [discriminate|].
  destruct (String.eqb name n) eqn:E.
  - apply String.eqb_eq in E. intros [= <-]. left. now subst.
  - intros H. right. now apply IH.
Qed.

Lemma group_get_none (name : string) (g : Groups) :
  group_get name g = None <-> ~ In name (map fst g).
Proof.
  induction g as [|[n t] g IH]; simpl; [tauto|].
  destruct (String.eqb name n) eqn:E.
  - apply String.eqb_eq in E. split; [discriminate|]. intros H. exfalso.
    apply H. left. now subst.
  - apply String.eqb_neq in E. rewrite IH. split.
    + intros H [C|C]; [now apply E|now apply H].
    + intros H C. apply H. now right.
Qed.

Lemma in_group_get (name : string) (g : Groups) (s : list string) :
  NoDup (map fst g) -> In (name, s) g -> group_get name g = Some s.
Proof.
  induction g as [|[n t] g IH]; simpl; [intros _ []|].
  intros Hnd [H|H].
  - injection H as -> ->. now rewrite String.eqb_refl.
  - inversion Hnd as [|? ? Hnin Hnd']; subst.
    destruct (String.eqb name n) eqn:E.
    + apply String.eqb_eq in E. subst. exfalso. apply Hnin.
      apply in_map_iff. now exists (n, s).
    + now apply IH.
Qed.

Lemma group_add_keys (name x : string) (g : Groups) :
  map fst (group_add name x g) = map fst g.
Proof.
  induction g as [|[n t] g IH]; simpl; [reflexivity|].
  destruct (String.eqb name n); simpl; [reflexivity | now rewrite IH].
Qed.

Lemma group_add_in (name x : string) (g : Groups) (n : string)
    (s : list string) :
  NoDup (map fst g) ->
  In (n, s) (group_add name x g) <->
  (n <> name /\ In (n, s) g)
  \/ (n = name /\ exists s0, In (name, s0) g /\ s = set_add x s0).
Proof.
  induction g as [|[m t] g IH]; simpl; intros Hnd.
  - split; [intros []|]. intros [[_ []]|[_ (s0 & [] & _)]].
  - inversion Hnd as [|? ? Hnin Hnd']; subst.
    destruct (String.eqb name m) eqn:E.
    + apply String.eqb_eq in E. subst m. simpl. split.
      * intros [H|H].
        -- injection H as <- <-. right. split; [reflexivity|].
           exists t. split; [now left|reflexivity].
        -- left. split; [|now right]. intros ->. apply Hnin.
           apply in_map_iff. now exists (name, s).
      * intros [[Hne [H|H]]|[-> (s0 & [H|H] & ->)]].
        -- injection H as <- <-. now contradiction Hne.
        -- now right.
        -- injection H as <-. now left.
        -- exfalso. apply Hnin. apply in_map_iff. now exists (name, s0).
    + apply String.eqb_neq in E. simpl. rewrite (IH Hnd'). split.
      * intros [H|[[Hne H]|[-> (s0 & H & ->)]]].
        -- injection H as <- <-. left. split; [congruence|now left].
        -- left. split; [exact Hne|now right].
        -- right. split; [reflexivity|]. exists s0. split; [now right|reflexivity].
      * intros [[Hne [H|H]]|[-> (s0 & [H|H] & ->)]].
        -- now left.
        -- right. left. now split.
        -- injection H as <- <-. now contradiction E.
        -- right. right. split; [reflexivity|]. now exists s0.
Qed.

Lemma groups_inv_nil (pm : ProjectMap) : groups_inv pm [] [].
Proof.
  split; simpl.
  - constructor.
  - intros n. split; [intros []|intros (_ & r & [] & _)].
  - intros n s [].
  - intros n s [].
Qed.

Lemma with_key_inv (pm : ProjectMap) (g : Groups) (rs : list TimeRecord)
    (r : TimeRecord) :
  groups_inv pm g rs ->
  let name := projectName_of pm r in
  NoDup (map fst (with_key name g))
  /\ (forall n, In n (map fst (with_key name g)) <-> In n (map fst g) \/ n = name)
  /\ (forall n s, In (n, s) (with_key name g) ->
        In (n, s) g \/ (n = name /\ s = [] /\ ~ In name (map fst g)))
  /\ (forall n s, In (n, s) g -> In (n, s) (with_key name g))
  /\ exists s0, In (name, s0) (with_key name g).
Proof.
  intros [Hnd Hk Hsn Hss] name. unfold with_key.
  destruct (group_get name g) eqn:E.
  - repeat split; auto.
    + intros [H| ->]; [exact H|].
      apply group_get_in in E. apply in_map_iff. now exists (name, l).
    + exists l. now apply group_get_in.
  - apply group_get_none in E. repeat split.
    + rewrite map_app. simpl. apply NoDup_app; [exact Hnd| repeat constructor; intros []|].
      intros y Hy [<-|[]]. now apply E.
    + rewrite map_app, in_app_iff. simpl. intuition.
    + rewrite map_app, in_app_iff. simpl. intuition.
    + intros n s H. apply in_app_iff in H as [H|[H|[]]]; [now left|].
      injection H as <- <-. right. auto.
    + intros n s H. apply in_app_iff. now left.
    + exists []. apply in_app_iff. right. now left.
Qed.

(** A name every object inherits is never the key of a group. *)
Lemma inherited_read (pm : ProjectMap) (g : Groups) (rs : list TimeRecord)
    (name : string) :
  groups_inv pm g rs -> inherited name = true -> group_read name g = Inherited.
Proof.
  intros Hinv Hi. unfold group_read.
  destruct (group_get name g) as [s|] eqn:E; [|now rewrite Hi].
  apply group_get_in in E.
  assert (In name (map fst g)) by (apply in_map_iff; now exists (name, s)).
  apply (keys_spec _ _ _ Hinv) in H as [C _]. congruence.
Qed.

(** The step of the loop for a record whose project name is a name of its
    own: the group is created if need be and the description added. *)
Lemma add_record_own (pm : ProjectMap) (g : Groups) (r : TimeRecord) :
  inherited (projectName_of pm r) = false ->
  add_record pm g r
  = Ok (if has_text (description r)
        then group_add (projectName_of pm r) (description r)
               (with_key (projectName_of pm r) g)
        else with_key (projectName_of pm r) g).
Proof.
  intros Hi. unfold add_record, group_read, with_key. rewrite Hi.
  destruct (group_get (projectName_of pm r) g) as [s|] eqn:E.
  - rewrite E. now destruct (has_text _).
  - destruct (has_text _); [|reflexivity].
    assert (G : group_get (projectName_of pm r)
                  (g ++ [(projectName_of pm r, [])])%list = Some []).
    { clear Hi. induction g as [|[n t] g IH]; simpl in *.
      - now rewrite String.eqb_refl.
      - destruct (String.eqb _ n); [discriminate|now apply IH]. }
    now rewrite G.
Qed.

(** The step of the loop for a record whose project name every object
    inherits: nothing is added, and a description makes the call throw. *)
Lemma add_record_inherited (pm : ProjectMap) (g : Groups)
    (rs : list TimeRecord) (r : TimeRecord) :
  groups_inv pm g rs ->
  inherited (projectName_of pm r) = true ->
  add_record pm g r
  = if has_text (description r) then Throw not_a_set else Ok g.
Proof.
  intros Hinv Hi. unfold add_record.
  rewrite (inherited_read pm g rs _ Hinv Hi).
  rewrite (inherited_read pm g rs _ Hinv Hi). reflexivity.
Qed.

Lemma add_own_inv (pm : ProjectMap) (g : Groups) (rs : list TimeRecord)
    (r : TimeRecord) :
  groups_inv pm g rs ->
  inherited (projectName_of pm r) = false ->
  groups_inv pm
    (if has_text (description r)
     then group_add (projectName_of pm r) (description r)
            (with_key (projectName_of pm r) g)
     else with_key (projectName_of pm r) g) (rs ++ [r]).
Proof.
  intros Hinv Hi.
  destruct (with_key_inv pm g rs r Hinv) as (Wnd & Wk & Win & Wmono & Wex).
  destruct Hinv as [Hnd Hk Hsn Hss].
  set (name := projectName_of pm r) in *.
  set (g1 := with_key name g) in *.
  assert (Keys : forall n, In n (map fst g1) <->
            inherited n = false
            /\ exists r0, In r0 (rs ++ [r]) /\ projectName_of pm r0 = n).
  { intros n. rewrite Wk, Hk. split.
    - intros [(Hn & r0 & Hr & E)| ->].
      + split; [exact Hn|]. exists r0.
        split; [apply in_app_iff; now left|exact E].
      + split; [exact Hi|]. exists r.
        split; [apply in_app_iff; right; now left|reflexivity].
    - intros (Hn & r0 & Hr & E). apply in_app_iff in Hr as [Hr|[<-|[]]].
      + left. split; [exact Hn|]. now exists r0.
      + now right. }
  assert (Old : forall n s, In (n, s) g1 -> NoDup s /\ forall d,
            In d s <-> exists r0, In r0 rs /\ projectName_of pm r0 = n
                                  /\ description r0 = d /\ has_text d = true).
  { intros n s H. apply Win in H as [H|(-> & -> & Hnew)].
    - split; [now apply (Hsn n)|now apply Hss].
    - split; [constructor|]. intros d. split; [intros []|].
      intros (r0 & Hr & E & _). exfalso. apply Hnew. apply Hk.
      split; [exact Hi|]. now exists r0. }
  destruct (has_text (description r)) eqn:T.
  - split.
    + now rewrite group_add_keys.
    + intros n. rewrite group_add_keys. apply Keys.
    + intros n s H. apply (group_add_in _ _ _ _ _ Wnd) in H
        as [[_ H]|[-> (s0 & H & ->)]].
      * now apply Old in H.
      * apply set_add_nodup. now apply Old in H.
    + intros n s H d. apply (group_add_in _ _ _ _ _ Wnd) in H
        as [[Hne H]|[-> (s0 & H & ->)]].
      * apply Old in H as [_ H]. rewrite H. split.
        -- intros (r0 & Hr & E). exists r0. split; [apply in_app_iff; now left|exact E].
        -- intros (r0 & Hr & E & E2). apply in_app_iff in Hr as [Hr|[<-|[]]].
           ++ now exists r0.
           ++ now contradiction Hne.
      * apply Old in H as [_ H]. rewrite set_add_in, H. split.
        -- intros [->|(r0 & Hr & E)].
           ++ exists r. repeat split; auto. apply in_app_iff. right. now left.
           ++ exists r0. split; [apply in_app_iff; now left|exact E].
        -- intros (r0 & Hr & E & E2 & E3). apply in_app_iff in Hr as [Hr|[<-|[]]].
           ++ right. now exists r0.
           ++ now left.
  - split.
    + exact Wnd.
    + exact Keys.
    + intros n s H. now apply Old in H.
    + intros n s H d. apply Old in H as [_ H]. rewrite H. split.
      * intros (r0 & Hr & E). exists r0. split; [apply in_app_iff; now left|exact E].
      * intros (r0 & Hr & E & E2 & E3). apply in_app_iff in Hr as [Hr|[<-|[]]].
        -- now exists r0.
        -- congruence.
Qed.

(** A record whose project name every object inherits leaves the groups
    as they are. *)
Lemma skip_inv (pm : ProjectMap) (g : Groups) (rs : list TimeRecord)
    (r : TimeRecord) :
  groups_inv pm g rs ->
  inherited (projectName_of pm r) = true ->
  groups_inv pm g (rs ++ [r]).
Proof.
  intros [Hnd Hk Hsn Hss] Hi. split.
  - exact Hnd.
  - intros n. rewrite Hk. split; intros (Hn & r0 & Hr & E).
    + split; [exact Hn|]. exists r0. split; [apply in_app_iff; now left|exact E].
    + split; [exact Hn|]. apply in_app_iff in Hr as [Hr|[<-|[]]].
      * now exists r0.
      * congruence.
  - exact Hsn.
  - intros n s H d. rewrite (Hss n s H d). split.
    + intros (r0 & Hr & E). exists r0. split; [apply in_app_iff; now left|exact E].
    + intros (r0 & Hr & E & E2). apply in_app_iff in Hr as [Hr|[<-|[]]].
      * now exists r0.
      * exfalso.
        assert (In n (map fst g)) by (apply in_map_iff; now exists (n, s)).
        apply Hk in H0 as [C _]. congruence.
Qed.

Lemma add_record_inv (pm : ProjectMap) (g g' : Groups)
    (rs : list TimeRecord) (r : TimeRecord) :
  groups_inv pm g rs -> add_record pm g r = Ok g' ->
  groups_inv pm g' (rs ++ [r]).
Proof.
  intros Hinv H. destruct (inherited (projectName_of pm r)) eqn:Hi.
  - rewrite (add_record_inherited pm g rs r Hinv Hi) in H.
    destruct (has_text _); [discriminate|]. injection H as <-.
    now apply skip_inv.
  - rewrite (add_record_own pm g r Hi) in H. injection H as <-.
    now apply add_own_inv.
Qed.

Lemma add_record_result (pm : ProjectMap) (g : Groups)
    (rs : list TimeRecord) (r : TimeRecord) :
  groups_inv pm g rs ->
  if throwing pm r then add_record pm g r = Throw not_a_set
  else exists g', add_record pm g r = Ok g'.
Proof.
  intros Hinv. unfold throwing.
  destruct (inherited (projectName_of pm r)) eqn:Hi.
  - rewrite (add_record_inherited pm g rs r Hinv Hi).
    destruct (has_text _); simpl; [reflexivity|now exists g].
  - rewrite (add_record_own pm g r Hi). simpl. eexists. reflexivity.
Qed.

Lemma fold_step_throw (pm : ProjectMap) (rs : list TimeRecord) (e : exn) :
  fold_left (step pm) rs (Throw e) = Throw e.
Proof. induction rs as [|r rs IH]; [reflexivity|exact IH]. Qed.

Lemma projectGroups_of_fold (rs : list TimeRecord) (pm : ProjectMap) :
  projectGroups_of rs pm = fold_left (step pm) rs (Ok []).
Proof. reflexivity. Qed.

(** The loop over the records: it throws when some record has a
    description and a project name every object inherits, and otherwise
    builds the groups of the records. *)
Lemma fold_records (pm : ProjectMap) (rs done : list TimeRecord)
    (g : Groups) :
  groups_inv pm g done ->
  if existsb (throwing pm) rs
  then fold_left (step pm) rs (Ok g) = Throw not_a_set
  else exists g', fold_left (step pm) rs (Ok g) = Ok g'
                  /\ groups_inv pm g' (done ++ rs).
Proof.
  revert done g. induction rs as [|r rs IH]; intros done g H.
  - simpl. exists g. split; [reflexivity|now rewrite app_nil_r].
  - cbn [existsb fold_left].
    change (step pm (Ok g) r) with (add_record pm g r).
    pose proof (add_record_result pm g done r H) as Hr.
    destruct (throwing pm r) eqn:T.
    + rewrite Hr. cbn [orb]. apply fold_step_throw.
    + destruct Hr as [g1 E1]. rewrite E1. cbn [orb].
      assert (H1 : groups_inv pm g1 (done ++ [r]))
        by now apply (add_record_inv pm g g1 done r).
      specialize (IH (done ++ [r])%list g1 H1).
      rewrite <- app_assoc in IH. exact IH.
Qed.

Lemma projectGroups_result (pm : ProjectMap) (rs : list TimeRecord) :
  if existsb (throwing pm) rs
  then projectGroups_of rs pm = Throw not_a_set
  else exists g, projectGroups_of rs pm = Ok g /\ groups_inv pm g rs.
Proof.
  rewrite projectGroups_of_fold.
  exact (fold_records pm rs [] [] (groups_inv_nil pm)).
Qed.

Lemma formatTimeRecords_layout (rs : list TimeRecord) (pm : ProjectMap)
    (g : Groups) :
  rs <> [] -> projectGroups_of rs pm = Ok g ->
  formatTimeRecords rs pm = Ok (layout (formatted_groups g)).
Proof.
  intros H E. destruct rs as [|r rs]; [now contradiction H|].
  unfold formatTimeRecords. rewrite E. cbn [rbind]. f_equal.
  unfold layout, formatted_groups.
  rewrite fold_projects. now rewrite append_assoc.
Qed.

Lemma formatTimeRecords_throws (rs : list TimeRecord) (pm : ProjectMap) :
  existsb (throwing pm) rs = true ->
  formatTimeRecords rs pm = Throw not_a_set.
Proof.
  intros H. pose proof (projectGroups_result pm rs) as P. rewrite H in P.
  destruct rs as [|r rs]; [discriminate|].
  unfold formatTimeRecords. now rewrite P.
Qed.

Lemma formatted_groups_names (g : Groups) :
  map fst (formatted_groups g) = sort_strings (map fst g).
Proof.
  unfold formatted_groups. rewrite map_map. simpl. apply map_id.
Qed.

Lemma formatted_groups_tasks (g : Groups) (name : string)
    (tasks : list string) :
  NoDup (map fst g) ->
  In (name, tasks) (formatted_groups g) ->
  exists s, In (name, s) g /\ tasks = sort_strings s.
Proof.
  unfold formatted_groups. intros Hnd H.
  apply in_map_iff in H as (n & E & Hn). injection E as -> <-.
  apply (proj1 (sort_strings_in _ _)) in Hn.
  apply in_map_iff in Hn as ([n s] & E & Hin). simpl in E. subst n.
  exists s. split; [exact Hin|]. unfold tasks_of.
  now rewrite (in_group_get _ _ _ Hnd Hin).
Qed.

End FormatFacts.


Module FormatClaims.
Import Js Format FormatSpec StringFacts SortFacts FormatFacts.
Import SortSpec FormatAux BackfillSpec MergeSpec PatternSpec ScanSpec.

Lemma rev_string_app (s acc : string) :
  rev_string s acc = rev_string s "" ++ acc.
Proof.
  revert acc. induction s as [|c s IH]; intros acc; simpl; [reflexivity|].
  rewrite IH, (IH (String c "")), append_assoc. reflexivity.
Qed.

Lemma blank_app (a b : string) : blank (a ++ b) = blank a && blank b.
Proof.
  induction a as [|c a IH]; simpl; [reflexivity|].
  now rewrite IH, andb_assoc.
Qed.

Lemma blank_rev (s : string) : blank (rev_string s "") = blank s.
Proof.
  induction s as [|c s IH]; simpl; [reflexivity|].
  rewrite rev_string_app, blank_app, IH. simpl.
  rewrite andb_true_r. apply andb_comm.
Qed.

Lemma trimStart_empty (s : string) : trimStart s = "" <-> blank s = true.
Proof.
  induction s as [|c s IH]; simpl; [tauto|].
  destruct (is_space c); simpl; [exact IH|]. split; discriminate.
Qed.

Lemma blank_trimStart (s : string) : blank (trimStart s) = blank s.
Proof.
  induction s as [|c s IH]; simpl; [reflexivity|].
  destruct (is_space c) eqn:E; simpl; [exact IH|]. now rewrite E.
Qed.

Lemma blank_empty (s : string) : blank s = true -> rev_string s "" = "" -> s = "".
Proof.
  destruct s as [|c s]; [reflexivity|]. simpl. intros _.
  rewrite rev_string_app. destruct (rev_string s ""); discriminate.
Qed.

Lemma trim_empty (s : string) : trim s = "" <-> blank s = true.
Proof.
  unfold trim. split.
  - intros H.
    assert (B : blank (rev_string (trimStart (rev_string (trimStart s) "")) "") = true)
      by now rewrite H.
    now rewrite blank_rev, blank_trimStart, blank_rev, blank_trimStart in B.
  - intros H. apply trimStart_empty in H. now rewrite H.
Qed.

(** A description contributes an item exactly when it is not blank. *)
Lemma has_text_blank (d : string) : has_text d = negb (blank d).
Proof.
  unfold has_text. destruct (blank d) eqn:B.
  - apply trim_empty in B. rewrite B. simpl. apply andb_false_r.
  - assert (T : trim d <> "") by (intros T; apply trim_empty in T; congruence).
    apply String.eqb_neq in T. rewrite T.
    destruct d; [discriminate|reflexivity].
Qed.

Lemma throwing_none (pm : ProjectMap) (records : list TimeRecord) :
  (forall r, In r records -> inherited (projectName_of pm r) = true ->
             blank (description r) = true) ->
  existsb (throwing pm) records = false.
Proof.
  intros H. destruct (existsb (throwing pm) records) eqn:E; [|reflexivity].
  apply existsb_exists in E as (r & Hr & T). unfold throwing in T.
  apply andb_true_iff in T as [Hi Ht]. specialize (H r Hr Hi).
  rewrite has_text_blank, H in Ht. discriminate.
Qed.

Lemma throwing_some (pm : ProjectMap) (records : list TimeRecord)
    (r : TimeRecord) :
  In r records -> inherited (projectName_of pm r) = true ->
  blank (description r) = false ->
  existsb (throwing pm) records = true.
Proof.
  intros Hr Hi Hb. apply existsb_exists. exists r. split; [exact Hr|].
  unfold throwing. now rewrite Hi, has_text_blank, Hb.
Qed.

(** The layout of the formatter and what is in it, when the loop over the
    records does not throw. *)
Lemma formatTimeRecords_groups (records : list TimeRecord)
    (projectMap : ProjectMap) :
  records <> [] ->
  existsb (throwing projectMap) records = false ->
  exists groups,
    formatTimeRecords records projectMap = Ok (layout groups)
    /\ ascending (map fst groups)
    /\ (forall name, In name (map fst groups) <->
          inherited name = false
          /\ exists r, In r records /\ projectName_of projectMap r = name)
    /\ (forall name tasks, In (name, tasks) groups ->
          ascending tasks
          /\ forall d, In d tasks <->
               exists r, In r records
                         /\ projectName_of projectMap r = name
                         /\ description r = d /\ blank d = false).
Proof.
  intros Hne Hok.
  pose proof (projectGroups_result projectMap records) as P.
  rewrite Hok in P. destruct P as (g & Eg & [Hnd Hk Hsn Hss]).
  exists (formatted_groups g). split; [|split; [|split]].
  - now apply formatTimeRecords_layout.
  - rewrite formatted_groups_names. now apply sort_strings_ascending.
  - intros name. rewrite formatted_groups_names, sort_strings_in. apply Hk.
  - intros name tasks H.
    apply (formatted_groups_tasks g name tasks Hnd) in H as (s & Hin & ->).
    split.
    + apply sort_strings_ascending. now apply (Hsn name).
    + intros d. rewrite sort_strings_in, (Hss name s Hin d).
      split; intros (r & Hr & E1 & E2 & E3); exists r; repeat split; auto.
      * rewrite has_text_blank in E3. now destruct (blank d).
      * rewrite has_text_blank, E3. reflexivity.
Qed.

(** The resolution of the project of a record. *)
Lemma projectName_of_cases (projectMap : ProjectMap) (r : TimeRecord) :
  (pid r = None -> projectName_of projectMap r = "No Project")
  /\ (pid r = Some 0%Z -> projectName_of projectMap r = "No Project")
  /\ (forall p, pid r = Some p -> project_lookup p projectMap = None ->
        projectName_of projectMap r = "No Project")
  /\ (forall p, pid r = Some p -> project_lookup p projectMap = Some "" ->
        projectName_of projectMap r = "No Project")
  /\ (forall p name, pid r = Some p -> p <> 0%Z ->
        project_lookup p projectMap = Some name -> name <> "" ->
        projectName_of projectMap r = name).
Proof.
  unfold projectName_of. repeat split.
  - intros H. now rewrite H.
  - intros H. now rewrite H.
  - intros p H L. rewrite H, L. now destruct (p =? 0)%Z.
  - intros p H L. rewrite H, L. now destruct (p =? 0)%Z.
  - intros p name H Hp L Hn. rewrite H, L.
    apply Z.eqb_neq in Hp. rewrite Hp.
    destruct name; [now contradiction Hn|reflexivity].
Qed.

(** C5. The claim fails on the code for a project whose name every object
    inherits ([constructor], [toString], [__proto__], ...): the read of
    [projectGroups[projectName]] finds the inherited property, no set is
    created, and the call of [add] for a record with a description throws a
    [TypeError]; no list is returned. *)
Theorem C5_inherited_project_name_throws :
  forall (records : list TimeRecord) (projectMap : ProjectMap)
         (r : TimeRecord),
    In r records ->
    inherited (projectName_of projectMap r) = true ->
    blank (description r) = false ->
    formatTimeRecords records projectMap
    = Throw (TypeError "projectGroups[projectName].add is not a function").
Proof.
  intros records projectMap r Hr Hi Hb.
  apply formatTimeRecords_throws. now apply (throwing_some _ _ r).
Qed.

Lemma C5_inherited_witness :
  In (example_record "A" (Some 1%Z)) [example_record "A" (Some 1%Z)]
  /\ inherited (projectName_of [(1%Z, "constructor")]
                  (example_record "A" (Some 1%Z))) = true
  /\ blank (description (example_record "A" (Some 1%Z))) = false
  /\ formatTimeRecords [example_record "A" (Some 1%Z)] [(1%Z, "constructor")]
     = Throw (TypeError "projectGroups[projectName].add is not a function").
Proof.
  split; [now left|]. split; [reflexivity|]. split; [reflexivity|].
  exact (C5_inherited_project_name_throws [example_record "A" (Some 1%Z)]
           [(1%Z, "constructor")] (example_record "A" (Some 1%Z))
           (or_introl eq_refl) eq_refl eq_refl).
Defined.

(** C10. The claim fails on the code for a project whose name every object
    inherits: a record of such a project never makes the project appear.
    When the formatter returns, its text is the layout of the projects
    whose names are names of their own, and the project of the record is
    not among them. *)
Theorem C10_inherited_project_name_is_omitted :
  forall (records : list TimeRecord) (projectMap : ProjectMap)
         (r : TimeRecord) (out : string),
    In r records ->
    inherited (projectName_of projectMap r) = true ->
    formatTimeRecords records projectMap = Ok out ->
    exists groups,
      out = layout groups
      /\ (forall name, In name (map fst groups) <->
            inherited name = false
            /\ exists r', In r' records
                          /\ projectName_of projectMap r' = name)
      /\ ~ In (projectName_of projectMap r) (map fst groups).
Proof.
  intros records projectMap r out Hr Hi H.
  assert (Hne : records <> []) by (intros ->; destruct Hr).
  destruct (existsb (throwing projectMap) records) eqn:T.
  - rewrite (formatTimeRecords_throws _ _ T) in H. discriminate.
  - destruct (formatTimeRecords_groups records projectMap Hne T)
      as (groups & HL & _ & Hnames & _).
    rewrite HL in H. injection H as <-.
    exists groups. split; [reflexivity|]. split; [exact Hnames|].
    intros C. apply Hnames in C as [C _]. congruence.
Qed.

Lemma C10_inherited_witness :
  In (example_record "" (Some 1%Z)) [example_record "" (Some 1%Z)]
  /\ inherited (projectName_of [(1%Z, "constructor")]
                  (example_record "" (Some 1%Z))) = true
  /\ formatTimeRecords [example_record "" (Some 1%Z)] [(1%Z, "constructor")]
     = Ok "<ul></ul>"
  /\ exists groups,
       "<ul></ul>" = layout groups
       /\ (forall name, In name (map fst groups) <->
             inherited name = false
             /\ exists r', In r' [example_record "" (Some 1%Z)]
                           /\ projectName_of [(1%Z, "constructor")] r' = name)
       /\ ~ In (projectName_of [(1%Z, "constructor")]
                  (example_record "" (Some 1%Z))) (map fst groups).
Proof.
  split; [now left|]. split; [reflexivity|]. split; [reflexivity|].
  exact (C10_inherited_project_name_is_omitted
           [example_record "" (Some 1%Z)] [(1%Z, "constructor")]
           (example_record "" (Some 1%Z)) "<ul></ul>"
           (or_introl eq_refl) eq_refl eq_refl).
Defined.

(** X19. For every non-empty list of time records and every project map in
    which no record with a description that is not blank has a project
    name that every object inherits, [formatTimeRecords] returns the layout
    of a list of projects in which: a record with no project id, with the
    id 0, with an id the map does not hold or holds with the empty name
    counts for "No Project", any other record for the name the map gives;
    the projects are the names of the records that are names of their own,
    strictly ascending in the order of code units; the items of a project
    are the non-blank descriptions of its records, each once, strictly
    ascending. The three entries of the example give "No Project" with the
    item "B", then "Site" with the single item "A". *)
Theorem formatTimeRecords_groups_sorts_and_deduplicates :
  forall (records : list TimeRecord) (projectMap : ProjectMap),
    records <> [] ->
    (forall r, In r records ->
       inherited (projectName_of projectMap r) = true ->
       blank (description r) = true) ->
    (forall r,
       (pid r = None -> projectName_of projectMap r = "No Project")
       /\ (pid r = Some 0%Z -> projectName_of projectMap r = "No Project")
       /\ (forall p, pid r = Some p -> project_lookup p projectMap = None ->
             projectName_of projectMap r = "No Project")
       /\ (forall p, pid r = Some p ->
             project_lookup p projectMap = Some "" ->
             projectName_of projectMap r = "No Project")
       /\ (forall p name, pid r = Some p -> p <> 0%Z ->
             project_lookup p projectMap = Some name -> name <> "" ->
             projectName_of projectMap r = name))
    /\ (exists groups,
          formatTimeRecords records projectMap = Ok (layout groups)
          /\ ascending (map fst groups)
          /\ (forall name, In name (map fst groups) <->
                inherited name = false
                /\ exists r, In r records
                             /\ projectName_of projectMap r = name)
          /\ (forall name tasks, In (name, tasks) groups ->
                ascending tasks
                /\ forall d, In d tasks <->
                     exists r, In r records
                               /\ projectName_of projectMap r = name
                               /\ description r = d /\ blank d = false))
    /\ formatTimeRecords example_records example_projects
       = Ok (layout [("No Project", ["B"]); ("Site", ["A"])]).
Proof.
  intros records projectMap Hne Hown.
  split; [|split].
  - intros r. apply projectName_of_cases.
  - apply formatTimeRecords_groups; [exact Hne|now apply throwing_none].
  - reflexivity.
Qed.

Lemma formatTimeRecords_groups_witness :
  example_records <> []
  /\ (forall r, In r example_records ->
        inherited (projectName_of example_projects r) = true ->
        blank (description r) = true)
  /\ exists groups,
       formatTimeRecords example_records example_projects = Ok (layout groups)
       /\ ascending (map fst groups).
Proof.
  assert (Hown : forall r, In r example_records ->
            inherited (projectName_of example_projects r) = true ->
            blank (description r) = true).
  { intros r [<-|[<-|[<-|[]]]]; discriminate. }
  split; [discriminate|]. split; [exact Hown|].
  destruct (formatTimeRecords_groups_sorts_and_deduplicates example_records
              example_projects) as (_ & (groups & H1 & H2 & _) & _);
    [discriminate|exact Hown|].
  exists groups. split; assumption.
Defined.

(** X20. In a list of records none of which has a project name that every
    object inherits, a record whose description is blank (empty or white
    space only) still makes its project appear in the layout and is the
    source of none of its items: every item is the non-blank description of
    some record of that project. A project all of whose records have a
    blank description is laid out without items, that is as the bare list
    item of its name. *)
Theorem blank_description_keeps_project_without_item :
  forall (records : list TimeRecord) (projectMap : ProjectMap)
         (r : TimeRecord),
    (forall r', In r' records ->
       inherited (projectName_of projectMap r') = false) ->
    In r records ->
    blank (description r) = true ->
    exists groups tasks,
      formatTimeRecords records projectMap = Ok (layout groups)
      /\ In (projectName_of projectMap r, tasks) groups
      /\ ~ In (description r) tasks
      /\ (forall d, In d tasks ->
            blank d = false
            /\ exists r', In r' records
                          /\ projectName_of projectMap r'
                             = projectName_of projectMap r
                          /\ description r' = d)
      /\ ((forall r', In r' records ->
             projectName_of projectMap r' = projectName_of projectMap r ->
             blank (description r') = true) ->
          tasks = []
          /\ project_item (projectName_of projectMap r, tasks)
             = "<li>" ++ projectName_of projectMap r ++ "</li>").
Proof.
  intros records projectMap r Hown Hr Hb.
  assert (Hne : records <> []) by (intros ->; destruct Hr).
  assert (Hok : existsb (throwing projectMap) records = false).
  { apply throwing_none. intros r' Hr' C. rewrite (Hown r' Hr') in C.
    discriminate. }
  destruct (formatTimeRecords_groups records projectMap Hne Hok)
    as (groups & HL & _ & Hnames & Htasks).
  assert (Hin : In (projectName_of projectMap r) (map fst groups)).
  { apply Hnames. split; [now apply Hown|]. now exists r. }
  apply in_map_iff in Hin as ([n tasks] & E & Hin). simpl in E. subst n.
  destruct (Htasks _ _ Hin) as [_ Hd].
  exists groups, tasks. split; [exact HL|]. split; [exact Hin|].
  split; [|split].
  - intros C. apply Hd in C as (r' & _ & _ & E & B). congruence.
  - intros d C. apply Hd in C as (r' & Hr' & E1 & E2 & B).
    split; [exact B|]. now exists r'.
  - intros Hall.
    assert (tasks = []) as ->.
    { destruct tasks as [|d tasks]; [reflexivity|].
      destruct (proj1 (Hd d) (or_introl eq_refl)) as (r' & Hr' & E1 & E2 & B).
      specialize (Hall r' Hr' E1). congruence. }
    split; reflexivity.
Qed.

Lemma blank_description_witness :
  (forall r', In r' [example_record "  " (Some 1%Z)] ->
     inherited (projectName_of example_projects r') = false)
  /\ exists groups tasks,
       formatTimeRecords [example_record "  " (Some 1%Z)] example_projects
       = Ok (layout groups)
       /\ In ("Site", tasks) groups.
Proof.
  assert (Hown : forall r', In r' [example_record "  " (Some 1%Z)] ->
            inherited (projectName_of example_projects r') = false).
  { intros r' [<-|[]]. reflexivity. }
  split; [exact Hown|].
  destruct (blank_description_keeps_project_without_item
              [example_record "  " (Some 1%Z)] example_projects
              (example_record "  " (Some 1%Z)))
    as (groups & tasks & H1 & H2 & _);
    [exact Hown | now left | reflexivity |].
  exists groups, tasks. split; assumption.
Defined.

End FormatClaims.


(** * The project lookup *)
Module ProjectClaims.
Import Js Format FormatSpec Toggl StringFacts SortFacts FormatFacts.
Import SortSpec FormatAux BackfillSpec MergeSpec PatternSpec ScanSpec.




Lemma fetchProjects_result {W : Type} {R : Remote W} (w : W)
    (this : TogglService) :
  exists w' projectMap,
    fetchProjects (w, this) = Some ((w', this), Ok projectMap)
    /\ (workspaceId this = "" -> projectMap = [])
    /\ (forall w1 e,
          get_projects (workspaceId this) w = (w1, Throw e) ->
          projectMap = []).
Proof.
  unfold fetchProjects, fetchProjectsAlternative, try_catch, bind,
    this_service, call, ret, throw. cbn [fst snd].
  destruct (workspaceId this) as [|c s] eqn:Ews.
  - exists w, []. split; [reflexivity|]. split; auto.
  - cbn [fst snd].
    destruct (get_projects (String c s) w) as [w1 [projects|e]] eqn:E1.
    + exists w1, (projectMap_of projects). split; [reflexivity|].
      split; [discriminate|]. intros w2 e2 C. discriminate.
    + cbn [fst snd]. destruct (get_me w1) as [w2 [u|e2]] eqn:E2;
        exists w2, []; (split; [reflexivity|]); split; auto.
Qed.



End ProjectClaims.

(** * The backfill loop *)
Module BackfillClaims.
Import Js Format Confluence Toggl Main.
Import SortSpec FormatAux BackfillSpec MergeSpec PatternSpec ScanSpec.

Ltac break_match :=
  match goal with
  | |- context [match ?x with _ => _ end] => destruct x eqn:?
  end.

Section WithRemote.
Context {W : Type} {R : Remote W}.
Variable fuel : nat.

Local Abbreviation ends := (@BackfillSpec.ends W _).

Lemma counted_total (r : result unit) (counts : Counts) :
  total (counted r counts) = S (total counts).
Proof.
  destruct r as [u|e]; simpl; [|destruct (includes _ _)];
    unfold total; simpl; lia.
Qed.

Lemma week_step_skipped (svc : ConfluenceService) (existing : string)
    (pm : ProjectMap) (more : bool) (counts : Counts) (week : DateRange)
    (st : W * TogglService) :
  hasWeekForUser svc existing (weekEndLabel (endDate week)) = Ok true ->
  week_step fuel svc existing pm more counts week st
  = Some (st, Ok (skipped counts)).
Proof.
  intros H. unfold week_step, bind, of_result. now rewrite H.
Qed.

Lemma week_step_processed (svc : ConfluenceService) (existing : string)
    (pm : ProjectMap) (more : bool) (counts : Counts) (week : DateRange)
    (st st' : W * TogglService) (r : result unit) :
  hasWeekForUser svc existing (weekEndLabel (endDate week)) = Ok false ->
  processWeek fuel svc week (Some pm) st = Some (st', r) ->
  exists st'',
    week_step fuel svc existing pm more counts week st
    = Some (st'', Ok (counted r counts)).
Proof.
  intros H P. unfold week_step, bind, of_result, try_catch. rewrite H, P.
  destruct r as [[]|e]; simpl.
  - destruct more; simpl; eexists; reflexivity.
  - destruct (includes _ _); eexists; reflexivity.
Qed.

Lemma week_step_diverges (svc : ConfluenceService) (existing : string)
    (pm : ProjectMap) (more : bool) (counts : Counts) (week : DateRange)
    (st : W * TogglService) :
  hasWeekForUser svc existing (weekEndLabel (endDate week)) = Ok false ->
  processWeek fuel svc week (Some pm) st = None ->
  week_step fuel svc existing pm more counts week st = None.
Proof.
  intros H P. unfold week_step, bind, of_result, try_catch. now rewrite H, P.
Qed.

Lemma checkable_has (svc : ConfluenceService) (existing : string)
    (week : DateRange) :
  Regex.RegExp (userHeadingSource (weekEndLabel (endDate week))
                  (confluenceDisplayName svc)) "s" <> None ->
  exists b, hasWeekForUser svc existing (weekEndLabel (endDate week)) = Ok b.
Proof.
  intros H. unfold hasWeekForUser, newRegExp.
  destruct (Regex.RegExp _ _); [|now contradiction H].
  simpl. eexists. reflexivity.
Qed.

Lemma ends_ret {A} (a : A) : ends (ret a).
Proof. intros st. discriminate. Qed.

Lemma ends_throw {A} (e : exn) : ends (throw (A := A) e).
Proof. intros st. discriminate. Qed.

Lemma ends_of_result {A} (r : result A) : ends (of_result r).
Proof. intros st. discriminate. Qed.

Lemma ends_call {A} (f : W -> W * result A) : ends (call f).
Proof. intros st. unfold call. destruct (f (fst st)). discriminate. Qed.

Lemma ends_bind {A B} (m : @M W A) (f : A -> @M W B) :
  ends m -> (forall a, ends (f a)) -> ends (bind m f).
Proof.
  intros Hm Hf st. unfold bind. specialize (Hm st).
  destruct (m st) as [[st' [a|e]]|]; [apply Hf|discriminate|now contradiction Hm].
Qed.

Lemma ends_try_catch {A} (m : @M W A) (h : exn -> @M W A) :
  ends m -> (forall e, ends (h e)) -> ends (try_catch m h).
Proof.
  intros Hm Hh st. unfold try_catch. specialize (Hm st).
  destruct (m st) as [[st' [a|e]]|]; [discriminate|apply Hh|now contradiction Hm].
Qed.

Lemma postReport_ends (svc : ConfluenceService) (report : string)
    (dateRange : DateRange) : ends (postReport svc report dateRange).
Proof.
  unfold postReport, getPageContent, savePage, read_clock.
  apply ends_bind.
  - apply ends_try_catch; [apply ends_call|intros e; apply ends_throw].
  - intros p. apply ends_bind; [intros st; discriminate|].
    intros now. apply ends_bind; [apply ends_of_result|].
    intros u. destruct (String.eqb _ _); [apply ends_ret|].
    apply ends_try_catch; [|intros e; apply ends_throw].
    apply ends_bind; [apply ends_call|].
    intros z. destruct (z =? 200)%Z; [apply ends_ret|apply ends_throw].
Qed.

Lemma processWeek_ends (svc : ConfluenceService) (week : DateRange)
    (pm : ProjectMap) (st : W * TogglService) :
  fetches_end fuel -> processWeek fuel svc week (Some pm) st <> None.
Proof.
  intros H. revert st. unfold processWeek.
  apply ends_bind; [apply ends_ret|]. intros pm'.
  apply ends_bind; [intros st; apply H|].
  intros [|r l]; [apply ends_throw|].
  apply ends_bind; [apply ends_of_result|]. intros report.
  apply postReport_ends.
Qed.

Lemma weeks_loop_counts (svc : ConfluenceService) (existing : string)
    (pm : ProjectMap) (weeks : list DateRange) :
  checkable svc weeks ->
  forall counts st,
    (weeks_loop fuel svc existing pm weeks counts st = None
     \/ exists st' counts',
          weeks_loop fuel svc existing pm weeks counts st
          = Some (st', Ok counts')
          /\ total counts' = total counts + List.length weeks)
    /\ (fetches_end fuel ->
        weeks_loop fuel svc existing pm weeks counts st <> None).
Proof.
  induction weeks as [|week rest IH]; intros Hc counts st.
  - simpl. split; [right|discriminate].
    exists st, counts. split; [reflexivity|lia].
  - assert (Hrest : checkable svc rest)
      by (intros x Hx; apply Hc; now right).
    specialize (IH Hrest).
    destruct (checkable_has svc existing week (Hc week (or_introl eq_refl)))
      as [b Hb].
    cbn [weeks_loop]. unfold bind.
    set (more := match rest with [] => false | _ => true end).
    destruct b.
    + rewrite (week_step_skipped _ _ _ _ _ _ _ Hb).
      destruct (IH (skipped counts) st) as [[D|(st' & c' & E & T)] Hend].
      * split; [now left|exact Hend].
      * split; [right|exact Hend]. exists st', c'. split; [exact E|].
        rewrite T. unfold total. simpl. lia.
    + destruct (processWeek fuel svc week (Some pm) st) as [[st1 r]|] eqn:P.
      * destruct (week_step_processed _ _ _ more counts _ _ _ _ Hb P)
          as [st2 E2].
        rewrite E2.
        destruct (IH (counted r counts) st2) as [[D|(st' & c' & E & T)] Hend].
        -- split; [now left|exact Hend].
        -- split; [right|exact Hend]. exists st', c'. split; [exact E|].
           rewrite T, counted_total. simpl. lia.
      * rewrite (week_step_diverges _ _ _ _ _ _ _ Hb P).
        split; [now left|]. intros Hf. exfalso.
        now apply (processWeek_ends svc week pm st Hf).
Qed.

End WithRemote.

Lemma unavailable_is_no_boundary :
  boundary_of (message_of Sim.unavailable) = None.
Proof. vm_compute. reflexivity. Qed.

(** In the simulated world without an upstream boundary a fetch ends at
    once. *)
Lemma sim_fetches_end (fuel : nat) :
  fetches_end (R := Sim.remote None) (S fuel).
Proof.
  intros s e [w t]. cbn [fetchTimeRecords]. unfold bind, this_service.
  cbn [snd].
  destruct (clamp t s) as [s1|]; [|discriminate].
  destruct e as [e1|]; [|discriminate].
  unfold try_catch, call. cbn [fst snd]. simpl get_time_entries.
  unfold Sim.sim_time_entries.
  destruct (Sim.entries w e1); [discriminate|].
  rewrite unavailable_is_no_boundary. discriminate.
Qed.

End BackfillClaims.


Module RunClaims.
Import Js Format Confluence Toggl Main BackfillClaims.
Import SortSpec FormatAux BackfillSpec MergeSpec PatternSpec ScanSpec.

Lemma checkable_rev {svc : ConfluenceService} {weeks : list DateRange} :
  checkable svc weeks -> checkable svc (rev weeks).
Proof. intros H week Hin. apply H. now apply in_rev. Qed.

Lemma fillInMissingWeeks_eq {W : Type} {R : Remote W} (fuel : nat)
    (svc : ConfluenceService) (w : W) (t : TogglService) :
  fillInMissingWeeks fuel svc (w, t)
  = match get_page (confluencePageId svc) w with
    | (w1, Throw e) => Some ((w1, t), Throw e)
    | (w1, Ok p) =>
        bind fetchProjects
          (fun pm => weeks_loop fuel svc (content p) pm
                       (rev (getAllWeeksInYear w)) zero_counts) (w1, t)
    end.
Proof.
  unfold fillInMissingWeeks, getExistingContent, getPageContent.
  unfold bind at 1 2, try_catch, call, throw, ret. cbn [fst snd].
  destruct (get_page (confluencePageId svc) w) as [w1 [p|e]]; reflexivity.
Qed.

Lemma fetchProjects_ok {W : Type} {R : Remote W} (st : W * TogglService) :
  exists w' pm, fetchProjects st = Some ((w', snd st), Ok pm).
Proof.
  destruct st as [w t].
  destruct (ProjectClaims.fetchProjects_result w t) as (w' & pm & H & _).
  now exists w', pm.
Qed.

(** C6. The claim fails on the code when the pattern of the check that
    opens an iteration does not compile, as for the display name [C++]:
    [hasWeekForUser] is called in the loop outside its [try], so the
    [SyntaxError] leaves the loop at that week. Nothing is counted, the
    state is as the week found it, and the weeks that remain are not
    visited. *)
Theorem C6_check_that_throws_ends_the_loop :
  forall (W : Type) (R : Remote W) (fuel : nat) (svc : ConfluenceService)
         (existing : string) (pm : ProjectMap) (week : DateRange)
         (rest : list DateRange) (counts : Counts) (st : W * TogglService),
    Regex.RegExp (userHeadingSource (weekEndLabel (endDate week))
                    (confluenceDisplayName svc)) "s" = None ->
    weeks_loop fuel svc existing pm (week :: rest) counts st
    = Some (st, Throw (SyntaxError
                         (userHeadingSource (weekEndLabel (endDate week))
                            (confluenceDisplayName svc)))).
Proof.
  intros W R fuel svc existing pm week rest counts st H.
  cbn [weeks_loop]. unfold bind at 1.
  unfold week_step, bind, of_result, hasWeekForUser, newRegExp.
  rewrite H. reflexivity.
Qed.

Lemma C6_check_witness :
  Regex.RegExp (userHeadingSource
                  (weekEndLabel (endDate (Sim.week_ending 2026 2 20)))
                  (confluenceDisplayName (Sim.service_of "C++"))) "s" = None
  /\ weeks_loop (R := Sim.remote None) 1 (Sim.service_of "C++") ""
       [(1%Z, "Site")]
       [Sim.week_ending 2026 2 20; Sim.week_ending 2026 2 13;
        Sim.week_ending 2026 2 6] zero_counts (Sim.calm, Sim.toggl)
     = Some ((Sim.calm, Sim.toggl),
             Throw (SyntaxError "<h2>w/e 20/03</h2>.*?<h3>C++</h3>")).
Proof.
  split; [vm_compute; reflexivity|].
  exact (C6_check_that_throws_ends_the_loop Sim.World (Sim.remote None) 1
           (Sim.service_of "C++") "" [(1%Z, "Site")]
           (Sim.week_ending 2026 2 20)
           [Sim.week_ending 2026 2 13; Sim.week_ending 2026 2 6]
           zero_counts (Sim.calm, Sim.toggl) eq_refl).
Defined.

(** The backfill of three weeks with the display name [C++]: the process
    exits with status 1, and no time entry was asked for. *)
Example backfill_with_uncompilable_name :
  main (R := Sim.remote None) 1 ["--fill-all-weeks"]
    (Sim.config_named "C++") Sim.calm
  = Some (Sim.calm, 1%Z).
Proof. vm_compute. reflexivity. Qed.

(** X21. In a backfill run whose pre-check pattern compiles, a week whose
    processing throws is counted once, as a week without data when the
    message of the error contains "No time records found" and as an error
    otherwise, and the loop goes on with the weeks that remain from the
    state the failure left. The loop ends whenever every fetch of time
    records ends, and when it ends it does so with counters, never with a
    thrown error: processed + skipped + noData + errored is the number of
    weeks, also for the whole of [fillInMissingWeeks]. *)
Theorem backfill_counts_every_week :
  forall (W : Type) (R : Remote W) (fuel : nat) (svc : ConfluenceService)
         (existing : string) (pm : ProjectMap) (weeks : list DateRange),
    checkable svc weeks ->
    (forall week rest counts st st' e,
        hasWeekForUser svc existing (weekEndLabel (endDate week)) = Ok false ->
        processWeek fuel svc week (Some pm) st = Some (st', Throw e) ->
        weeks_loop fuel svc existing pm (week :: rest) counts st
        = weeks_loop fuel svc existing pm rest
            (if includes "No time records found" (message_of e)
             then noData counts else errored counts) st')
    /\ (forall st,
          (weeks_loop fuel svc existing pm weeks zero_counts st = None
           \/ exists st' counts,
                weeks_loop fuel svc existing pm weeks zero_counts st
                = Some (st', Ok counts)
                /\ processedCount counts + skippedCount counts
                   + noDataCount counts + errorCount counts
                   = List.length weeks)
          /\ (fetches_end fuel ->
              weeks_loop fuel svc existing pm weeks zero_counts st <> None))
    /\ (forall st st' r,
          getAllWeeksInYear (fst st) = weeks ->
          fillInMissingWeeks fuel svc st = Some (st', r) ->
          (exists e, r = Throw e
                     /\ fst (get_page (confluencePageId svc) (fst st))
                        = fst st'
                     /\ snd (get_page (confluencePageId svc) (fst st))
                        = Throw e)
          \/ exists counts,
               r = Ok counts
               /\ processedCount counts + skippedCount counts
                  + noDataCount counts + errorCount counts
                  = List.length weeks).
Proof.
  intros W R fuel svc existing pm weeks Hc. split; [|split].
  - intros week rest counts st st' e Hb P.
    cbn [weeks_loop]. unfold bind at 1.
    unfold week_step, bind, of_result, try_catch. rewrite Hb, P.
    destruct (includes _ _); reflexivity.
  - intros st.
    destruct (weeks_loop_counts fuel svc existing pm weeks Hc zero_counts st)
      as [[D|(st' & c & E & T)] Hend]; (split; [|exact Hend]).
    + now left.
    + right. exists st', c. split; [exact E|].
      unfold total in T. simpl in T. lia.
  - intros [w t] st' r Hw F. cbn [fst] in *.
    rewrite fillInMissingWeeks_eq in F.
    destruct (get_page (confluencePageId svc) w) as [w1 [p|e]] eqn:G.
    + right. unfold bind in F.
      destruct (fetchProjects_ok (w1, t)) as (w2 & pm' & Fp).
      rewrite Fp in F. rewrite Hw in F.
      destruct (weeks_loop_counts fuel svc (content p) pm' (rev weeks)
                  (checkable_rev Hc) zero_counts (w2, snd (w1, t)))
        as [[D|(st2 & c & E & T)] _]; [congruence|].
      rewrite E in F. injection F as <- <-. exists c. split; [reflexivity|].
      rewrite length_rev in T. unfold total in T. simpl in T. lia.
    + left. injection F as <- <-. exists e. simpl. auto.
Qed.

Lemma sim_checkable : checkable Sim.service Sim.march_weeks.
Proof.
  intros week [<-|[<-|[<-|[]]]]; vm_compute; discriminate.
Qed.

Lemma backfill_counts_witness :
  checkable Sim.service Sim.march_weeks
  /\ exists st' counts,
       weeks_loop (R := Sim.remote None) 1 Sim.service "" [(1%Z, "Site")]
         Sim.march_weeks zero_counts (Sim.failing_write, Sim.toggl)
       = Some (st', Ok counts)
       /\ processedCount counts + skippedCount counts
          + noDataCount counts + errorCount counts = 3.
Proof.
  split; [exact sim_checkable|].
  destruct (backfill_counts_every_week Sim.World
              (Sim.remote None) 1 Sim.service "" [(1%Z, "Site")]
              Sim.march_weeks sim_checkable) as (_ & H & _).
  destruct (H (Sim.failing_write, Sim.toggl)) as [[D|Hex] Hend].
  - exfalso. exact (Hend (sim_fetches_end 0) D).
  - exact Hex.
Defined.

(** The run of three weeks in which the write of the second fails: the
    third is still processed. *)
Example backfill_isolates_failed_write :
  exists st',
    fillInMissingWeeks (R := Sim.remote None) 1 Sim.service
      (Sim.failing_write, Sim.toggl)
    = Some (st', Ok {| processedCount := 2; skippedCount := 0;
                       errorCount := 1; noDataCount := 0 |}).
Proof. eexists. vm_compute. reflexivity. Qed.







End RunClaims.


(** * The upstream boundary *)
Module BoundaryClaims.
Import Js Format Confluence Toggl Main BackfillClaims.
Import SortSpec FormatAux BackfillSpec BoundarySpec MergeSpec PatternSpec.
Import ScanSpec.

Section WithRemote.
Context {W : Type} {R : Remote W}.

Lemma clamp_cached (this : TogglService) (x s : Z) :
  (s < x)%Z -> clamp (set_earliest this (Some x)) (Some s) = Some x.
Proof.
  intros H. unfold clamp, set_earliest, date_lt. simpl.
  apply Z.ltb_lt in H. now rewrite H.
Qed.

Lemma clamp_at_boundary (this : TogglService) (x : Z) :
  clamp (set_earliest this (Some x)) (Some x) = Some x.
Proof.
  unfold clamp, set_earliest, date_lt. simpl. now rewrite Z.ltb_irrefl.
Qed.

Lemma fetch_clamped (k : nat) (this : TogglService) (a b e : Date)
    (w : W) :
  clamp this a = clamp this b ->
  fetchTimeRecords k a e (w, this) = fetchTimeRecords k b e (w, this).
Proof.
  intros H. destruct k as [|k]; [reflexivity|].
  cbn [fetchTimeRecords]. unfold bind, this_service. cbn [snd].
  now rewrite H.
Qed.

(** One request, answered without the boundary condition. *)
Lemma fetch_once (k : nat) (this : TogglService) (s s0 e : Z) (w w1 : W)
    (r : result (list TimeRecord)) :
  clamp this (Some s) = Some s0 ->
  get_time_entries s0 e w = (w1, r) ->
  (forall err, r = Throw err -> boundary_of (message_of err) = None) ->
  fetchTimeRecords (S k) (Some s) (Some e) (w, this)
  = Some ((w1, this),
          match r with
          | Ok l => Ok l
          | Throw err =>
              Throw (Error ("Failed to fetch time records: "
                            ++ message_of err))
          end).
Proof.
  intros Hc G Hb. cbn [fetchTimeRecords].
  unfold bind, this_service, try_catch, call, throw. cbn [fst snd].
  rewrite Hc. cbn [fst snd]. rewrite G. destruct r as [l|err]; [reflexivity|].
  now rewrite (Hb err eq_refl).
Qed.

End WithRemote.

(** ** The message of the HTTP client *)

Lemma startsWith_other (p s : string) (a b : ascii) :
  Ascii.eqb a b = false -> startsWith (String a p) (String b s) = false.
Proof. intros H. cbn [startsWith]. now rewrite H. Qed.

Lemma indexOf_from_skip (p s : string) (c : ascii) (i : nat) :
  startsWith p (String c s) = false ->
  indexOf_from p (String c s) i = indexOf_from p s (S i).
Proof. intros H. cbn [indexOf_from]. now rewrite H. Qed.

Lemma uint_numeric (d : Decimal.uint) :
  all_numeric (DecimalString.NilEmpty.string_of_uint d) = true.
Proof. induction d; cbn; auto. Qed.

Lemma string_of_Z_numeric (n : Z) : all_numeric (string_of_Z n) = true.
Proof.
  unfold string_of_Z. destruct (Z.to_int n) as [d|d];
    cbn [DecimalString.NilZero.string_of_int].
  - unfold DecimalString.NilZero.string_of_uint.
    destruct d; try apply uint_numeric; reflexivity.
  - unfold DecimalString.NilZero.string_of_uint.
    destruct d; cbn [all_numeric]; try (rewrite uint_numeric); reflexivity.
Qed.

(** A text that begins with a letter occurs nowhere in a number. *)
Lemma indexOf_numeric (a : ascii) (p s : string) (i : nat) :
  numeric a = false -> all_numeric s = true ->
  indexOf_from (String a p) s i = None.
Proof.
  intros Ha. revert i. induction s as [|c s IH]; intros i Hs.
  - reflexivity.
  - cbn [all_numeric] in Hs. apply andb_true_iff in Hs as [Hc Hs].
    cbn [indexOf_from]. rewrite startsWith_other.
    + now apply IH.
    + destruct (Ascii.eqb a c) eqn:E; [|reflexivity].
      apply Ascii.eqb_eq in E. subst. congruence.
Qed.

(** The message of a response with a failure status never carries the
    boundary condition, whatever the body says. *)
Lemma status_message_is_no_boundary (status : Z) (data : string) :
  boundary_of (message_of (status_error status data)) = None.
Proof.
  unfold boundary_of, status_error, message_of, includes, indexOf.
  assert (H : indexOf_from "start_date must not be earlier than"
                ("Request failed with status code " ++ string_of_Z status) 0
              = None).
  { pose proof (string_of_Z_numeric status) as Hn.
    generalize dependent (string_of_Z status). intros d Hn.
    cbn [append].
    repeat (rewrite indexOf_from_skip by reflexivity).
    now apply indexOf_numeric. }
  now rewrite H.
Qed.

(** The error a failed request is wrapped in does not read as a week
    without data. *)
Lemma wrapped_status_is_an_error (status : Z) :
  includes "No time records found"
    ("Failed to fetch time records: " ++ "Request failed with status code "
     ++ string_of_Z status) = false.
Proof.
  unfold includes, indexOf.
  assert (H : indexOf_from "No time records found"
                ("Failed to fetch time records: "
                 ++ "Request failed with status code "
                 ++ string_of_Z status) 0 = None).
  { pose proof (string_of_Z_numeric status) as Hn.
    generalize dependent (string_of_Z status). intros d Hn.
    cbn [append].
    repeat (rewrite indexOf_from_skip by reflexivity).
    now apply indexOf_numeric. }
  now rewrite H.
Qed.

(** C7. The claim fails on the code: the HTTP client throws a response
    with a failure status as an error whose message names the status, and
    leaves the body, where the upstream states the boundary condition, in
    the response. [fetchTimeRecords] looks for the condition in the message,
    finds none, caches nothing, does not retry and throws; the backfill
    counts the week as an error. *)
Theorem C7_boundary_in_the_response_is_not_read :
  forall (W : Type) (R : Remote W) (fuel : nat) (this : TogglService)
         (s s0 e status : Z) (w w1 : W) (data : string),
    clamp this (Some s) = Some s0 ->
    get_time_entries s0 e w = (w1, Throw (status_error status data)) ->
    fetchTimeRecords (S fuel) (Some s) (Some e) (w, this)
    = Some ((w1, this),
            Throw (Error ("Failed to fetch time records: "
                          ++ "Request failed with status code "
                          ++ string_of_Z status)))
    /\ (forall svc existing pm more counts week,
          startDate week = s -> endDate week = e ->
          hasWeekForUser svc existing (weekEndLabel e) = Ok false ->
          week_step (S fuel) svc existing pm more counts week (w, this)
          = Some ((w1, this), Ok (errored counts))).
Proof.
  intros W R fuel this s s0 e status w w1 data Hc G.
  assert (F : fetchTimeRecords (S fuel) (Some s) (Some e) (w, this)
              = Some ((w1, this),
                      Throw (Error ("Failed to fetch time records: "
                                    ++ "Request failed with status code "
                                    ++ string_of_Z status)))).
  { rewrite (fetch_once fuel this s s0 e w w1 _ Hc G); [reflexivity|].
    intros err [= <-]. apply status_message_is_no_boundary. }
  split; [exact F|].
  intros svc existing pm more counts week Hs He Hw.
  unfold week_step, bind at 1, of_result, try_catch. rewrite He, Hw.
  unfold processWeek, bind, ret. rewrite Hs, He, F.
  cbn [message_of]. now rewrite wrapped_status_is_an_error.
Qed.

Lemma C7_boundary_witness :
  let s := Sim.day_start 2026 2 9 in
  let e := Sim.day_end 2026 2 13 in
  let w1 := Sim.with_request Sim.calm (s, e) in
  clamp Sim.toggl (Some s) = Some s
  /\ get_time_entries (Remote := Sim.remote Sim.boundary) s e Sim.calm
     = (w1, Throw (status_error 400
                     "start_date must not be earlier than 2026-03-10"))
  /\ fetchTimeRecords (R := Sim.remote Sim.boundary) 2 (Some s) (Some e)
       (Sim.calm, Sim.toggl)
     = Some ((w1, Sim.toggl),
             Throw (Error ("Failed to fetch time records: "
                           ++ "Request failed with status code 400")))
  /\ earliestAllowedDate Sim.toggl = None
  /\ Sim.requests w1 = [(s, e)].
Proof.
  intros s e w1. split; [reflexivity|]. split; [reflexivity|].
  split; [|split; reflexivity].
  exact (proj1 (C7_boundary_in_the_response_is_not_read Sim.World
                  (Sim.remote Sim.boundary) 1 Sim.toggl s s e 400 Sim.calm
                  w1 "start_date must not be earlier than 2026-03-10"
                  eq_refl eq_refl)).
Defined.

(** The backfill of the three weeks of March with the boundary at 10
    March: the two weeks that start before it are asked for from their own
    start, each is answered with the condition, and both are counted as
    errors. *)
Example backfill_over_the_boundary :
  exists w',
    fillInMissingWeeks (R := Sim.remote Sim.boundary) 2 Sim.service
      (Sim.calm, Sim.toggl)
    = Some ((w', Sim.toggl),
            Ok {| processedCount := 1; skippedCount := 0;
                  errorCount := 2; noDataCount := 0 |})
    /\ Sim.requests w'
       = [(Sim.day_start 2026 2 2, Sim.day_end 2026 2 6);
          (Sim.day_start 2026 2 9, Sim.day_end 2026 2 13);
          (Sim.day_start 2026 2 16, Sim.day_end 2026 2 20)].
Proof. eexists. split; vm_compute; reflexivity. Qed.

End BoundaryClaims.


(** * The merge engine: maps of month sections *)
Module MapFacts.
Import Js Confluence StringFacts SortFacts.
Import SortSpec FormatAux BackfillSpec MergeSpec PatternSpec ScanSpec.

Lemma map_set_keys_in (k v : string) (m : Map) (j : string) :
  In j (map fst (map_set k v m)) <-> j = k \/ In j (map fst m).
Proof.
  induction m as [|[a b] m IH]; simpl; [intuition|].
  destruct (String.eqb k a) eqn:E; simpl.
  - apply String.eqb_eq in E. subst. intuition.
  - rewrite IH. intuition.
Qed.

Lemma map_set_nodup (k v : string) (m : Map) :
  NoDup (map fst m) -> NoDup (map fst (map_set k v m)).
Proof.
  induction m as [|[a b] m IH]; simpl; intros H.
  - repeat constructor. intros [].
  - inversion H as [|? ? Hn Hd]; subst.
    destruct (String.eqb k a) eqn:E; simpl.
    + now constructor.
    + constructor; [|now apply IH].
      rewrite map_set_keys_in. intros [->|C]; [|now apply Hn].
      now rewrite String.eqb_refl in E.
Qed.


Lemma map_get_in (k v : string) (m : Map) :
  NoDup (map fst m) -> In (k, v) m -> map_get k m = Some v.
Proof.
  induction m as [|[a b] m IH]; simpl; [intros _ []|].
  intros Hnd [H|H].
  - injection H as -> ->. now rewrite String.eqb_refl.
  - inversion Hnd as [|? ? Hn Hd]; subst.
    destruct (String.eqb k a) eqn:E; [|now apply IH].
    apply String.eqb_eq in E. subst a. exfalso. apply Hn.
    apply in_map_iff. now exists (k, v).
Qed.

Lemma map_set_in_inv (k v : string) (m : Map) (j w : string) :
  In (j, w) (map_set k v m) -> (j, w) = (k, v) \/ In (j, w) m.
Proof.
  induction m as [|[a b] m IH]; simpl.
  - intros [H|[]]. left. now symmetry.
  - destruct (String.eqb k a) eqn:E; simpl.
    + apply String.eqb_eq in E. subst a. intros [H|H]; [left|right; now right].
      now symmetry.
    + intros [H|H]; [right; now left|].
      destruct (IH H) as [H'|H']; [now left|right; now right].
Qed.

Lemma fold_left_invariant {A B : Type} (P : A -> Prop) (f : A -> B -> A)
    (l : list B) (init : A) :
  P init -> (forall acc x, In x l -> P acc -> P (f acc x)) ->
  P (fold_left f l init).
Proof.
  revert init. induction l as [|x l IH]; intros init H0 Hstep; simpl;
    [exact H0|].
  apply IH.
  - apply Hstep; [now left|exact H0].
  - intros acc y Hy. apply Hstep. now right.
Qed.

(** What [extractMonthSections] returns: one entry per month name, each the
    text of a match of the month pattern whose first group is that name. *)
Lemma extractMonthSections_entries (content : string) :
  NoDup (map fst (extractMonthSections content))
  /\ forall k v, In (k, v) (extractMonthSections content) ->
       In k monthNames
       /\ exists m,
            In m (exec_all (S (length content)) monthPattern content 0)
            /\ k = group_text 1 m /\ v = Regex.matched content m.
Proof.
  unfold extractMonthSections.
  apply (fold_left_invariant
           (fun acc : Map =>
              NoDup (map fst acc)
              /\ forall k v, In (k, v) acc ->
                   In k monthNames
                   /\ exists m,
                        In m (exec_all (S (length content)) monthPattern
                                content 0)
                        /\ k = group_text 1 m
                        /\ v = Regex.matched content m)).
  - split; [constructor|intros k v []].
  - intros acc m Hm [Hnd Hacc].
    destruct (existsb (String.eqb (group_text 1 m)) monthNames) eqn:E;
      [|now split].
    split; [now apply map_set_nodup|].
    intros k v Hin. apply map_set_in_inv in Hin as [H|H]; [|now apply Hacc].
    injection H as -> ->. split; [|now exists m].
    apply existsb_exists in E as (x & Hx & Ex).
    apply String.eqb_eq in Ex. now rewrite Ex.
Qed.

Lemma fold_append (get : string -> string) (keys : list string)
    (acc : string) :
  fold_left (fun out k => out ++ get k) keys acc
  = acc ++ String.concat "" (map get keys).
Proof.
  revert acc. induction keys as [|k keys IH]; intros acc; simpl fold_left.
  - simpl. now rewrite append_nil_r.
  - rewrite IH. cbn [map]. rewrite FormatFacts.concat_cons.
    now rewrite append_assoc.
Qed.

Lemma regenerate_concat (sections : Map) :
  regenerateOrderedContent sections
  = String.concat ""
      (map (fun k => match map_get k sections with
                     | Some s => s
                     | None => "undefined"
                     end)
           (sort_by (fun a b => (month_index b - month_index a)%Z)
                    (map_keys sections))).
Proof. unfold regenerateOrderedContent. now rewrite fold_append. Qed.

Lemma regenerate_contains (sections : Map) (k v : string) :
  NoDup (map fst sections) -> In (k, v) sections ->
  exists pre post, regenerateOrderedContent sections = pre ++ v ++ post.
Proof.
  intros Hnd Hin. rewrite regenerate_concat.
  set (keys := sort_by _ _).
  assert (Hk : In k keys).
  { unfold keys. apply sort_by_in. unfold map_keys.
    apply in_map_iff. now exists (k, v). }
  apply in_split in Hk as (l1 & l2 & ->).
  rewrite map_app, FormatFacts.concat_app. cbn [map].
  rewrite FormatFacts.concat_cons, (map_get_in k v sections Hnd Hin).
  now eexists _, _.
Qed.

(** A substring is a part of the string. *)
Lemma take_drop (n : nat) (s : string) : s = take n s ++ drop n s.
Proof.
  revert s. induction n as [|n IH]; intros [|c s]; simpl; try reflexivity.
  now rewrite <- IH.
Qed.


End MapFacts.

(** * The merge engine on examples, and what a merge keeps *)
Module MergeClaims.
Import Js Confluence StringFacts SortFacts MapFacts.
Import SortSpec FormatAux BackfillSpec MergeSpec PatternSpec ScanSpec.


(** C1. The second of two identical merges does not report
    "already exists" and changes the document: with the display name
    "Ann (QA)" the first merge into the empty document adds the month, and
    the second adds the user section again. *)
Theorem C1_second_merge_adds_the_section_again :
  let svc := Sim.service_of "Ann (QA)" in
  let now : Clock := fun _ => Sim.day_start 2026 2 23 in
  let first := Sim.merged "Ann (QA)" "" (Sim.march "14/03") in
  prepareUpdatedContent svc now "" Sim.body (Sim.march "14/03")
  = Ok {| updatedContent := first; status := "Added new month 'March'." |}
  /\ first
     = nl ++ "<h1>March</h1>" ++ nl ++ "<h2>w/e 14/03</h2>" ++ nl
       ++ "<h3>Ann (QA)</h3>" ++ nl ++ Sim.body ++ nl ++ nl
  /\ prepareUpdatedContent svc now first Sim.body (Sim.march "14/03")
     = Ok {| updatedContent :=
               "<h1>March</h1>" ++ nl ++ "<h2>w/e 14/03</h2>" ++ nl
               ++ nl ++ "<h3>Ann (QA)</h3>" ++ nl ++ Sim.body ++ nl ++ nl
               ++ "<h3>Ann (QA)</h3>" ++ nl ++ Sim.body ++ nl ++ nl;
             status := "Added report to existing week ending 14/03." |}.
Proof. vm_compute. repeat split. Qed.

(** C2. [hasWeekForUser] answers true for the week ending 14/03 and the
    user Alice on a document in which only Bob has a section under that
    week and the only heading of Alice stands under the later week section
    of 07/03; the merge of Alice's report for 14/03 is then refused as
    already there. *)
Theorem C2_user_of_later_week_section_is_found :
  Sim.two_weeks
  = "<h1>March</h1>" ++ nl ++ nl
    ++ "<h2>w/e 14/03</h2>" ++ nl ++ "<h3>Bob</h3>" ++ nl ++ Sim.body
    ++ nl ++ nl
    ++ "<h2>w/e 07/03</h2>" ++ nl ++ "<h3>Alice</h3>" ++ nl ++ Sim.body
    ++ nl ++ nl
  /\ hasWeekForUser (Sim.service_of "Alice") Sim.two_weeks "14/03" = Ok true
  /\ prepareUpdatedContent (Sim.service_of "Alice")
       (fun _ => Sim.day_start 2026 2 23)
       Sim.two_weeks Sim.body (Sim.march "14/03")
     = Ok {| updatedContent := Sim.two_weeks;
             status := "Report already exists for week ending 14/03." |}.
Proof. vm_compute. repeat split. Qed.

Lemma status_not_alreadyExists (weekEndDate month : string) :
  "Added report to existing week ending " ++ weekEndDate ++ "."
  <> alreadyExists weekEndDate
  /\ "Added new week ending " ++ weekEndDate ++ "."
     <> alreadyExists weekEndDate
  /\ "Added new month '" ++ month ++ "'." <> alreadyExists weekEndDate.
Proof. unfold alreadyExists. repeat split; discriminate. Qed.




End MergeClaims.


(** * The pattern engine *)
Module RegexFacts.
Import Js Regex RegexSpec StringFacts MapFacts.
Import SortSpec FormatAux BackfillSpec MergeSpec PatternSpec ScanSpec.

(** ** Strings *)

Lemma drop_app_length (a b : string) : drop (length a) (a ++ b) = b.
Proof. induction a as [|x a IH]; [reflexivity|exact IH]. Qed.

Lemma take_app_length (a b : string) : take (length a) (a ++ b) = a.
Proof. induction a as [|x a IH]; [now destruct b|simpl; now rewrite IH]. Qed.

Lemma drop_drop (i j : nat) (s : string) : drop i (drop j s) = drop (j + i) s.
Proof.
  revert s. induction j as [|j IH]; intros s; [reflexivity|].
  destruct s as [|c s]; [now destruct i|]. simpl. apply IH.
Qed.

Lemma drop_all (s : string) (n : nat) : length s <= n -> drop n s = "".
Proof.
  revert n. induction s as [|c s IH]; intros [|n] H; simpl in *;
    try reflexivity; try lia.
  apply IH. lia.
Qed.

Lemma length_drop (n : nat) (s : string) : length (drop n s) = length s - n.
Proof.
  revert s. induction n as [|n IH]; intros [|c s]; simpl; try lia.
  apply IH.
Qed.


Lemma drop_app_le (n : nat) (a b : string) :
  n <= length a -> drop n (a ++ b) = drop n a ++ b.
Proof.
  revert a. induction n as [|n IH]; intros a H; [reflexivity|].
  destruct a as [|x a]; simpl in *; [lia|]. apply IH. lia.
Qed.

Lemma take_app_le (n : nat) (a b : string) :
  n <= length a -> take n (a ++ b) = take n a.
Proof.
  revert a. induction n as [|n IH]; intros a H; [now destruct a; destruct b|].
  destruct a as [|x a]; simpl in *; [lia|]. now rewrite IH by lia.
Qed.

Lemma drop_app_ge (n : nat) (a b : string) :
  drop (length a + n) (a ++ b) = drop n b.
Proof. induction a as [|x a IH]; [reflexivity|exact IH]. Qed.

Lemma take_length_diff (a b : string) :
  take (length (a ++ b) - length b) (a ++ b) = a.
Proof.
  rewrite length_append.
  replace (length a + length b - length b) with (length a) by lia.
  apply take_app_length.
Qed.

Lemma substring_app (p x q : string) :
  substring (length p) (length p + length x) (p ++ x ++ q) = x.
Proof.
  unfold substring.
  rewrite Nat.min_l, Nat.max_r by lia.
  replace (length p + length x - length p) with (length x) by lia.
  now rewrite drop_app_length, take_app_length.
Qed.

(** ** Plain patterns *)

Lemma parse_quantifier_none (r : regex) (s : string) :
  no_quantifier s = true -> parse_quantifier r s = Some (r, s).
Proof.
  destruct s as [|c s]; [reflexivity|].
  destruct c as [[] [] [] [] [] [] [] []]; try discriminate; reflexivity.
Qed.

Lemma parse_alt_plain (t f : nat) (c : ascii) (s : string) (g : nat) :
  special c = false -> no_quantifier s = true ->
  parse_alt t (S (S f)) (String c s) g
  = match parse_alt t (S f) s g with
    | Some (Eps, s2, g2) => Some (Chr c, s2, g2)
    | Some (r2, s2, g2) => Some (Seq (Chr c) r2, s2, g2)
    | None => None
    end.
Proof.
  intros Hc Hs.
  assert (T : parse_term t (S f) (String c s) g = Some (Chr c, s, g)).
  { destruct c as [[] [] [] [] [] [] [] []]; try discriminate Hc;
      cbn [parse_term]; now rewrite parse_quantifier_none. }
  destruct c as [[] [] [] [] [] [] [] []]; try discriminate Hc;
    (cbn [parse_alt]; rewrite T; reflexivity).
Qed.

Lemma plain_no_quantifier (p : string) :
  plain p = true -> no_quantifier p = true.
Proof.
  destruct p as [|c p]; [reflexivity|]. simpl. intros H.
  apply andb_true_iff in H as [H _].
  destruct c as [[] [] [] [] [] [] [] []]; try discriminate; reflexivity.
Qed.

Lemma lit_chain_cons (c : ascii) (p : string) :
  lit_chain (String c p)
  = match lit_chain p with
    | Eps => Chr c
    | r => Seq (Chr c) r
    end.
Proof.
  destruct p as [|d p]; [reflexivity|].
  cbn [lit_chain]. now destruct p.
Qed.

Lemma parse_alt_plain_string (t : nat) (p : string) (f g : nat) :
  plain p = true ->
  parse_alt t (S (length p + f)) p g = Some (lit_chain p, "", g).
Proof.
  revert f. induction p as [|c p IH]; intros f H; [reflexivity|].
  simpl in H. apply andb_true_iff in H as [Hc Hp].
  apply negb_true_iff in Hc.
  cbn [length Nat.add].
  rewrite (parse_alt_plain t _ c p g Hc (plain_no_quantifier p Hp)).
  rewrite (IH f Hp), lit_chain_cons. now destruct (lit_chain p).
Qed.

(** A pattern without metacharacters compiles to the chain of its
    characters. *)
Lemma RegExp_plain (p flags_text : string) (f : flags) :
  plain p = true ->
  parse_flags flags_text
    {| ignoreCase := false; dotAll := false; global := false |} = Some f ->
  RegExp p flags_text = Some {| re := lit_chain p; fl := f; ngroups := 0 |}.
Proof.
  intros Hp Hf. unfold RegExp. rewrite Hf.
  replace (3 * length p + 3) with (S (S (length p + (2 * length p + 1))))
    by lia.
  cbn [parse_disj]. now rewrite (parse_alt_plain_string _ p _ 0 Hp).
Qed.

(** ** Matching chains of characters *)

Lemma rmatch_seq_lit {A : Type} (fl : flags) (n : nat) (p : string)
    (r : regex) (s : string) (c : caps) (k : string -> caps -> option A) :
  rmatch fl n (seq_lit p r) s c k
  = if prefix_fl fl p s then rmatch fl n r (drop (length p) s) c k else None.
Proof.
  revert s. induction p as [|a p IH]; intros s; [reflexivity|].
  cbn [seq_lit rmatch]. destruct s as [|b s]; [reflexivity|].
  cbn [prefix_fl length drop]. destruct (char_eq fl a b); [apply IH|reflexivity].
Qed.

Lemma rmatch_lit_chain {A : Type} (fl : flags) (n : nat) (p : string)
    (s : string) (c : caps) (k : string -> caps -> option A) :
  rmatch fl n (lit_chain p) s c k
  = if prefix_fl fl p s then k (drop (length p) s) c else None.
Proof.
  revert s. induction p as [|a p IH]; intros s; [reflexivity|].
  destruct p as [|a2 p].
  - cbn [lit_chain rmatch]. destruct s as [|b s]; [reflexivity|].
    cbn [prefix_fl length drop]. now destruct (char_eq fl a b).
  - change (lit_chain (String a (String a2 p)))
      with (Seq (Chr a) (lit_chain (String a2 p))).
    cbn [rmatch]. destruct s as [|b s]; [reflexivity|].
    change (prefix_fl fl (String a (String a2 p)) (String b s))
      with (char_eq fl a b && prefix_fl fl (String a2 p) s).
    change (drop (length (String a (String a2 p))) (String b s))
      with (drop (length (String a2 p)) s).
    destruct (char_eq fl a b); [apply IH|reflexivity].
Qed.

Lemma clear_caps_nil (c : caps) : clear_caps [] c = c.
Proof.
  unfold clear_caps. induction c as [|p c IH]; [reflexivity|].
  simpl in *. now rewrite IH.
Qed.

(** ** Searching *)

Lemma search_eq (x : rx) (n : nat) (s : string) (i : nat) :
  search x n s i
  = match at_ x n s with
    | Some (s', c) => Some {| index := i; last := n - length s'; captures := c |}
    | None => match s with
              | "" => None
              | String _ s' => search x n s' (S i)
              end
    end.
Proof. destruct s; reflexivity. Qed.

Lemma search_skip (x : rx) (n : nat) (a b : string) (i : nat) :
  (forall j, j < length a -> at_ x n (drop j (a ++ b)) = None) ->
  search x n (a ++ b) i = search x n b (i + length a).
Proof.
  revert i. induction a as [|c a IH]; intros i H.
  - simpl. now rewrite Nat.add_0_r.
  - rewrite search_eq.
    assert (H0 : at_ x n (String c a ++ b) = None) by (apply (H 0); simpl; lia).
    rewrite H0. cbn [append]. rewrite IH.
    + f_equal. simpl. lia.
    + intros j Hj. apply (H (S j)). simpl. lia.
Qed.

Lemma search_none (x : rx) (n : nat) (s : string) (i : nat) :
  (forall j, j <= length s -> at_ x n (drop j s) = None) ->
  search x n s i = None.
Proof.
  intros H.
  rewrite <- (append_nil_r s), search_skip.
  - rewrite search_eq.
    assert (H0 : at_ x n "" = None).
    { rewrite <- (drop_all s (length s)) by lia. apply H. lia. }
    now rewrite H0.
  - intros j Hj. rewrite append_nil_r. apply H. lia.
Qed.

Lemma search_here (x : rx) (n : nat) (s s' : string) (c : caps) (i : nat) :
  at_ x n s = Some (s', c) ->
  search x n s i = Some {| index := i; last := n - length s'; captures := c |}.
Proof. intros H. rewrite search_eq. now rewrite H. Qed.

Lemma search_some (x : rx) (n : nat) (s : string) (i : nat)
    (m : match_result) :
  search x n s i = Some m ->
  exists j s' c,
    j <= length s /\ index m = i + j
    /\ at_ x n (drop j s) = Some (s', c)
    /\ last m = n - length s' /\ captures m = c
    /\ forall j', j' < j -> at_ x n (drop j' s) = None.
Proof.
  revert i. induction s as [|a s IH]; intros i; rewrite search_eq.
  - destruct (at_ x n "") as [[s' c]|] eqn:E; [|discriminate].
    intros [= <-]. exists 0, s', c. simpl. repeat split; auto; lia.
  - destruct (at_ x n (String a s)) as [[s' c]|] eqn:E.
    + intros [= <-]. exists 0, s', c. simpl. repeat split; auto; lia.
    + intros H. apply IH in H as (j & s' & c & Hj & Hi & Hat & Hl & Hc & Hb).
      exists (S j), s', c. simpl. repeat split; auto; try lia.
      intros [|j'] Hlt; [exact E|]. apply Hb. lia.
Qed.

Lemma exec_eq (x : rx) (a b : string) :
  exec x (a ++ b) (length a) = search x (length (a ++ b)) b (length a).
Proof.
  unfold exec. rewrite drop_app_length.
  assert (H : (length (a ++ b) <? length a) = false).
  { apply Nat.ltb_ge. rewrite length_append. lia. }
  now rewrite H.
Qed.

Lemma exec_0 (x : rx) (s : string) : exec x s 0 = search x (length s) s 0.
Proof. reflexivity. Qed.

Lemma test_true (x : rx) (s : string) :
  test x s = true <->
  exists j, j <= length s /\ at_ x (length s) (drop j s) <> None.
Proof.
  unfold test. rewrite exec_0. split.
  - destruct (search x (length s) s 0) as [m|] eqn:E; [|discriminate].
    intros _. apply search_some in E as (j & s' & c & Hj & _ & Hat & _).
    exists j. split; [exact Hj|]. now rewrite Hat.
  - intros (j & Hj & Hat).
    destruct (search x (length s) s 0) as [m|] eqn:E; [reflexivity|].
    exfalso. apply Hat. clear Hat.
    assert (G : forall t i k, search x (length s) t i = None ->
                k <= length t -> at_ x (length s) (drop k t) = None).
    { clear. induction t as [|a t IH]; intros i k H Hk; rewrite search_eq in H.
      - destruct k; simpl in *; [|lia].
        destruct (at_ x (length s) "") as [[]|]; [discriminate|reflexivity].
      - destruct (at_ x (length s) (String a t)) as [[]|] eqn:E; [discriminate|].
        destruct k as [|k]; [exact E|]. simpl. apply (IH (S i)); [exact H|].
        simpl in Hk. lia. }
    now apply (G s 0 j E).
Qed.

End RegexFacts.


(** * Texts without headings *)
Module QuietFacts.
Import Js Regex RegexSpec Confluence Layout StringFacts MapFacts RegexFacts.
Import SortSpec FormatAux BackfillSpec MergeSpec PatternSpec ScanSpec.

Lemma quiet_cons (c : ascii) (s : string) :
  quiet (String c s) = negb (heading_at (String c s)) && quiet s.
Proof. reflexivity. Qed.

Lemma heading_at_first (c : ascii) (s : string) :
  Ascii.eqb c "<" = false -> heading_at (String c s) = false.
Proof. intros H. simpl. destruct s as [|b [|d s]]; try reflexivity. now rewrite H. Qed.

Lemma quiet_skip (c : ascii) (s : string) :
  Ascii.eqb c "<" = false -> quiet (String c s) = quiet s.
Proof. intros H. now rewrite quiet_cons, heading_at_first. Qed.

Lemma quiet_tail (c : ascii) (s : string) :
  quiet (String c s) = true -> quiet s = true.
Proof. rewrite quiet_cons. intros H. now apply andb_true_iff in H. Qed.

Lemma quiet_drop (n : nat) (s : string) :
  quiet s = true -> quiet (drop n s) = true.
Proof.
  revert s. induction n as [|n IH]; intros s H; [exact H|].
  destruct s as [|c s]; [exact H|]. simpl. apply IH. now apply quiet_tail in H.
Qed.

(** A heading cannot start in a quiet text and end in a text that is a
    safe start. *)
Lemma heading_at_app (a b : string) :
  a <> "" -> safe_start b = true ->
  heading_at (a ++ b) = heading_at a.
Proof.
  intros Ha Hb. destruct a as [|x [|y [|z a]]]; [now contradiction Ha| | |].
  - simpl. destruct b as [|u [|v b]]; try reflexivity.
    simpl in Hb.
    destruct (Ascii.eqb u "h"), (Ascii.eqb u "H"); try discriminate.
    now rewrite andb_false_r.
  - simpl. destruct b as [|u b]; [reflexivity|]. simpl in Hb.
    destruct (Ascii.eqb u "1"), (Ascii.eqb u "2"); try reflexivity;
      repeat rewrite orb_true_r in Hb; try discriminate.
    now rewrite !andb_false_r.
  - reflexivity.
Qed.

Lemma quiet_before (a b : string) (j : nat) :
  quiet a = true -> safe_start b = true -> j < length a ->
  heading_at (drop j (a ++ b)) = false.
Proof.
  intros Ha Hb Hj. rewrite drop_app_le by lia.
  rewrite heading_at_app; [| |exact Hb].
  - apply (quiet_drop j) in Ha. destruct (drop j a); [reflexivity|].
    rewrite quiet_cons in Ha. apply andb_true_iff in Ha as [Ha _].
    now apply negb_true_iff in Ha.
  - intros E. assert (L : length (drop j a) = 0) by now rewrite E.
    rewrite length_drop in L. lia.
Qed.

Lemma quiet_iff (s : string) :
  quiet s = true <-> forall j, heading_at (drop j s) = false.
Proof.
  induction s as [|c s IH].
  - split; [intros _ [|j]; reflexivity|reflexivity].
  - rewrite quiet_cons, andb_true_iff, IH, negb_true_iff. split.
    + intros [H0 H] [|j]; [exact H0|apply H].
    + intros H. split; [apply (H 0)|intros j; apply (H (S j))].
Qed.

Lemma quiet_app (a b : string) :
  quiet a = true -> quiet b = true -> safe_start b = true ->
  quiet (a ++ b) = true.
Proof.
  intros Ha Hb Hs. apply quiet_iff. intros j.
  destruct (Nat.lt_ge_cases j (length a)) as [H|H].
  - now apply quiet_before.
  - replace j with (length a + (j - length a)) by lia.
    rewrite drop_app_ge. now apply quiet_iff.
Qed.

Lemma heading_at_prefix (a b : string) :
  heading_at a = true -> heading_at (a ++ b) = true.
Proof. destruct a as [|x [|y [|z a]]]; try discriminate. auto. Qed.

Lemma quiet_app_inv (a b : string) :
  quiet (a ++ b) = true -> quiet a = true /\ quiet b = true.
Proof.
  intros H. split.
  - apply quiet_iff. intros j.
    destruct (heading_at (drop j a)) eqn:E; [|reflexivity].
    destruct (Nat.lt_ge_cases j (length a)) as [Hj|Hj].
    + apply (heading_at_prefix _ b) in E.
      rewrite <- drop_app_le in E by lia.
      rewrite (proj1 (quiet_iff _) H j) in E. discriminate.
    + rewrite drop_all in E by lia. discriminate.
  - rewrite <- (drop_app_length a b). now apply quiet_drop.
Qed.

Lemma quiet_take (n : nat) (s : string) :
  quiet s = true -> quiet (take n s) = true.
Proof.
  intros H. rewrite (take_drop n s) in H. now apply quiet_app_inv in H.
Qed.

Lemma safe_start_app (a b : string) :
  a <> "" -> safe_start (a ++ b) = safe_start a.
Proof. destruct a; [intros H; now contradiction H|reflexivity]. Qed.

Lemma safe_start_lt (s : string) : safe_start (String "<" s) = true.
Proof. reflexivity. Qed.

(** ** Digits *)

Lemma digit_cases (c : ascii) :
  is_digit c = true ->
  Ascii.eqb c "<" = false /\ Ascii.eqb c "/" = false
  /\ is_space c = false /\ upper c = c /\ special c = false.
Proof.
  destruct c as [[] [] [] [] [] [] [] []]; try discriminate;
    intros _; repeat split.
Qed.

Lemma two_digit_inv (d : string) :
  two_digit d = true ->
  exists a b, d = String a (String b "")
              /\ is_digit a = true /\ is_digit b = true.
Proof.
  destruct d as [|a [|b [|c d]]]; try discriminate. simpl. intros H.
  apply andb_true_iff in H as [Ha Hb]. now exists a, b.
Qed.

Lemma two_digits_two_digit (n : Z) :
  (0 <= n < 100)%Z -> two_digit (two_digits n) = true.
Proof.
  intros H. unfold two_digits, two_digit, is_digit, in_range, code.
  rewrite !nat_ascii_embedding.
  - apply andb_true_iff; split; apply andb_true_iff; split;
      apply Nat.leb_le.
    + lia.
    + assert (0 <= n / 10 < 10)%Z by (split; [apply Z.div_pos|apply Z.div_lt_upper_bound]; lia).
      lia.
    + lia.
    + assert (0 <= n mod 10 < 10)%Z by (apply Z.mod_pos_bound; lia). lia.
  - assert (0 <= n mod 10 < 10)%Z by (apply Z.mod_pos_bound; lia). lia.
  - assert (0 <= n / 10 < 10)%Z by (split; [apply Z.div_pos|apply Z.div_lt_upper_bound]; lia).
    lia.
Qed.

(** ** Month names *)

Lemma month_cases (P : string -> Prop) :
  P "January" -> P "February" -> P "March" -> P "April" -> P "May" ->
  P "June" -> P "July" -> P "August" -> P "September" -> P "October" ->
  P "November" -> P "December" ->
  forall name, In name monthNames -> P name.
Proof.
  intros. unfold monthNames in *. simpl in *.
  repeat match goal with
         | H : _ \/ _ |- _ => destruct H as [<-|H]
         end; try assumption. contradiction.
Qed.

Lemma mm_of_two_digit (name : string) :
  In name monthNames -> two_digit (mm_of name) = true.
Proof. revert name. apply month_cases; reflexivity. Qed.

Lemma quiet_app_closed (a : string) (x : ascii) (b : string) :
  closing x = true -> quiet (a ++ String x "") = true -> quiet b = true ->
  quiet (a ++ String x b) = true.
Proof.
  intros Hx Ha Hb. unfold closing in Hx.
  apply negb_true_iff, orb_false_iff in Hx as [Hx HH].
  apply orb_false_iff in Hx as [Hlt Hh].
  induction a as [|u a IH].
  - cbn [append]. rewrite quiet_skip by exact Hlt. exact Hb.
  - cbn [append] in *. rewrite quiet_cons in *.
    apply andb_true_iff in Ha as [H0 Ha].
    apply andb_true_iff. split; [|now apply IH].
    destruct a as [|v [|w a]]; cbn [append] in *.
    + destruct b as [|y b]; [reflexivity|]. cbn [heading_at].
      now rewrite Hh, HH, andb_false_r.
    + exact H0.
    + exact H0.
Qed.

Lemma quiet_closed_tag (s : string) : quiet ("</h2>" ++ s) = quiet s.
Proof.
  cbn [append]. rewrite quiet_cons.
  now rewrite !quiet_skip by reflexivity.
Qed.

(** The heading of a month and the text before its first week, after the
    opening bracket. *)
Lemma quiet_month_head (name intro : string) :
  In name monthNames -> quiet intro = true ->
  quiet ("h1>" ++ name ++ "</h1>" ++ intro) = true.
Proof.
  intros Hn Hq. revert name Hn.
  apply month_cases;
    match goal with
    | |- quiet ("h1>" ++ ?n ++ "</h1>" ++ intro) = true =>
        change ("h1>" ++ n ++ "</h1>" ++ intro)
          with (("h1>" ++ n ++ "</h1") ++ String ">" intro);
        apply quiet_app_closed; [reflexivity|reflexivity|exact Hq]
    end.
Qed.

(** A week section after its opening bracket. *)
Lemma quiet_week_head (d mm t : string) :
  two_digit d = true -> two_digit mm = true -> quiet t = true ->
  quiet (drop 1 (heading2 d mm) ++ t) = true.
Proof.
  intros Hd Hm Hq.
  apply two_digit_inv in Hd as (a & b & -> & Ha & Hb).
  apply two_digit_inv in Hm as (c & e & -> & Hc & He).
  apply digit_cases in Ha as (Ha & _), Hb as (Hb & _),
      Hc as (Hc & _), He as (He & _).
  unfold heading2. cbn [append drop].
  repeat (rewrite quiet_skip by (reflexivity || assumption)).
  change (quiet ("</h2>" ++ t) = true). now rewrite quiet_closed_tag.
Qed.

(** The text the engine puts under a week heading for a user. *)
Lemma quiet_user_block (displayName formattedContent : string) :
  quiet displayName = true -> quiet formattedContent = true ->
  quiet (nl ++ "<h3>" ++ displayName ++ "</h3>" ++ nl
         ++ formattedContent ++ nl ++ nl) = true.
Proof.
  intros Hn Hb.
  change (nl ++ "<h3>" ++ displayName ++ "</h3>" ++ nl
          ++ formattedContent ++ nl ++ nl)
    with ((nl ++ "<h3") ++ String ">"
            (displayName ++ "</h3>" ++ nl ++ formattedContent ++ nl ++ nl)).
  apply quiet_app_closed; [reflexivity|reflexivity|].
  apply quiet_app; [exact Hn| |reflexivity].
  change ("</h3>" ++ nl ++ formattedContent ++ nl ++ nl)
    with ("</h3>" ++ String (ascii_of_nat 10) (formattedContent ++ nl ++ nl)).
  apply quiet_app_closed; [reflexivity|reflexivity|].
  apply quiet_app; [exact Hb|reflexivity|reflexivity].
Qed.

End QuietFacts.


(** * The patterns of the merge engine *)
Module PatternFacts.
Import Js Regex RegexSpec Confluence Layout.
Import StringFacts MapFacts RegexFacts QuietFacts.
Import SortSpec FormatAux BackfillSpec MergeSpec PatternSpec ScanSpec.

Lemma monthPattern_eq :
  monthPattern
  = {| re := seq_lit "<h1>"
               (Seq (Group 1 (Seq letter (Star true letter)))
                  (seq_lit "</h1>"
                     (Seq (Group 2 (Star false any_char)) ahead_h1)));
       fl := g_flags; ngroups := 2 |}.
Proof. reflexivity. Qed.

Lemma weekHeadingRegex_eq :
  weekHeadingRegex
  = {| re := seq_lit "<h2>w/e "
               (Seq (Group 1 (Seq digit (Seq digit Eps)))
                  (Seq (Chr "/")
                     (Seq (Group 2 (Seq digit (Seq digit Eps)))
                        (lit_chain "</h2>"))));
       fl := g_flags; ngroups := 2 |}.
Proof. reflexivity. Qed.

Lemma anyHeading_eq :
  anyHeading
  = {| re := seq_lit "<h" (Seq (level "123") to_bracket);
       fl := i_flags; ngroups := 0 |}.
Proof. reflexivity. Qed.

Lemma monthOrWeekHeading_eq :
  monthOrWeekHeading
  = {| re := seq_lit "<h" (Seq (level "12") to_bracket);
       fl := i_flags; ngroups := 0 |}.
Proof. reflexivity. Qed.

(** ** Comparing characters *)

Lemma char_eq_plain (fl : flags) (a b : ascii) :
  ignoreCase fl = false -> char_eq fl a b = Ascii.eqb a b.
Proof. intros H. unfold char_eq. now rewrite H. Qed.

Lemma char_eq_lt (fl : flags) (b : ascii) :
  char_eq fl "<" b = Ascii.eqb b "<".
Proof.
  unfold char_eq. destruct (ignoreCase fl);
    destruct b as [[] [] [] [] [] [] [] []]; reflexivity.
Qed.

Lemma char_eq_h (fl : flags) (b : ascii) :
  char_eq fl "h" b = true -> Ascii.eqb b "h" || Ascii.eqb b "H" = true.
Proof.
  unfold char_eq. destruct (ignoreCase fl);
    destruct b as [[] [] [] [] [] [] [] []]; try discriminate; reflexivity.
Qed.

Lemma char_eq_digit (fl : flags) (a b : ascii) :
  is_digit a = true -> is_digit b = true ->
  char_eq fl a b = Ascii.eqb a b.
Proof.
  intros Ha Hb. unfold char_eq. destruct (ignoreCase fl); [|reflexivity].
  apply digit_cases in Ha as (_ & _ & _ & Ha & _).
  apply digit_cases in Hb as (_ & _ & _ & Hb & _).
  now rewrite Ha, Hb.
Qed.

Lemma char_eq_refl (fl : flags) (a : ascii) : char_eq fl a a = true.
Proof. unfold char_eq. destruct (ignoreCase fl); apply Ascii.eqb_refl. Qed.

Lemma prefix_fl_refl (fl : flags) (p s : string) :
  prefix_fl fl p (p ++ s) = true.
Proof.
  induction p as [|a p IH]; [reflexivity|].
  simpl. now rewrite char_eq_refl.
Qed.

Lemma prefix_fl_app (fl : flags) (p q s : string) :
  prefix_fl fl (p ++ q) s
  = prefix_fl fl p s && prefix_fl fl q (drop (length p) s).
Proof.
  revert s. induction p as [|a p IH]; intros s; [reflexivity|].
  destruct s as [|b s]; [reflexivity|]. simpl.
  rewrite IH. now rewrite andb_assoc.
Qed.

(** A pattern that begins with [<h1] or [<h2] matches at a heading only. *)
Lemma prefix_needs_heading (fl : flags) (p s : string) (c : ascii) :
  Ascii.eqb c "1" || Ascii.eqb c "2" = true -> upper c = c ->
  prefix_fl fl (String "<" (String "h" (String c p))) s = true ->
  heading_at s = true.
Proof.
  intros Hc Hu H. destruct s as [|x [|y [|z s]]]; simpl in H;
    try (rewrite ?andb_false_r in H; discriminate).
  apply andb_true_iff in H as [Hx H]. apply andb_true_iff in H as [Hy H].
  apply andb_true_iff in H as [Hz _].
  rewrite char_eq_lt in Hx. apply char_eq_h in Hy.
  simpl. rewrite Hx, Hy. simpl.
  unfold char_eq in Hz. destruct (ignoreCase fl).
  - rewrite Hu in Hz.
    destruct c as [[] [] [] [] [] [] [] []]; try discriminate Hc;
      destruct z as [[] [] [] [] [] [] [] []]; try discriminate Hz;
      reflexivity.
  - apply Ascii.eqb_eq in Hz. subst z. exact Hc.
Qed.


(** ** One step of a repetition of a character class *)

Lemma rmatch_cls_cons {A : Type} (fl : flags) (n : nat) (neg : bool)
    (items : list citem) (a : ascii) (s : string) (c : caps)
    (k : string -> caps -> option A) :
  rmatch fl n (Cls neg items) (String a s) c k
  = if class_matches fl neg items a then k s c else None.
Proof. reflexivity. Qed.

Lemma star_greedy_cons {A : Type} (fl : flags) (n : nat) (neg : bool)
    (items : list citem) (a : ascii) (s : string) (c : caps)
    (k : string -> caps -> option A) :
  rmatch fl n (Star true (Cls neg items)) (String a s) c k
  = match (if class_matches fl neg items a
           then rmatch fl n (Star true (Cls neg items)) s c k else None) with
    | Some v => Some v
    | None => k (String a s) c
    end.
Proof.
  cbn [rmatch length groups_of]. rewrite clear_caps_nil.
  destruct (class_matches fl neg items a); [|reflexivity].
  assert (L : (length s <? S (length s)) = true) by (apply Nat.ltb_lt; lia).
  now rewrite L.
Qed.

Lemma star_nil {A : Type} (fl : flags) (n : nat) (greedy : bool)
    (r : regex) (c : caps) (k : string -> caps -> option A) :
  rmatch fl n (Star greedy r) "" c k = k "" c.
Proof. reflexivity. Qed.

Lemma star_lazy_cons {A : Type} (fl : flags) (n : nat) (neg : bool)
    (items : list citem) (a : ascii) (s : string) (c : caps)
    (k : string -> caps -> option A) :
  rmatch fl n (Star false (Cls neg items)) (String a s) c k
  = match k (String a s) c with
    | Some v => Some v
    | None => if class_matches fl neg items a
              then rmatch fl n (Star false (Cls neg items)) s c k else None
    end.
Proof.
  cbn [rmatch length groups_of]. rewrite clear_caps_nil.
  destruct (k (String a s) c); [reflexivity|].
  destruct (class_matches fl neg items a); [|reflexivity].
  assert (L : (length s <? S (length s)) = true) by (apply Nat.ltb_lt; lia).
  now rewrite L.
Qed.

(** A greedy repetition takes the whole run when what follows matches
    after it. *)
Lemma greedy_run {A : Type} (fl : flags) (n : nat) (neg : bool)
    (items : list citem) (run rest : string) (c : caps)
    (k : string -> caps -> option A) (v : A) :
  all_in fl neg items run = true -> stops fl neg items rest = true ->
  k rest c = Some v ->
  rmatch fl n (Star true (Cls neg items)) (run ++ rest) c k = Some v.
Proof.
  intros Hrun Hrest Hk. induction run as [|a run IH].
  - cbn [append]. destruct rest as [|b rest]; [now rewrite star_nil|].
    rewrite star_greedy_cons. simpl in Hrest.
    apply negb_true_iff in Hrest. now rewrite Hrest.
  - simpl in Hrun. apply andb_true_iff in Hrun as [Ha Hrun].
    cbn [append]. rewrite star_greedy_cons, Ha, (IH Hrun). reflexivity.
Qed.

(** A lazy repetition of a class that holds every character stops at the
    first position where what follows matches. *)
Lemma lazy_run {A : Type} (fl : flags) (n : nat) (neg : bool)
    (items : list citem) (body rest : string) (c : caps)
    (k : string -> caps -> option A) (v : A) :
  all_in fl neg items body = true ->
  (forall j, j < length body -> k (drop j (body ++ rest)) c = None) ->
  k rest c = Some v ->
  rmatch fl n (Star false (Cls neg items)) (body ++ rest) c k = Some v.
Proof.
  intros Hbody Hno Hk. induction body as [|a body IH].
  - cbn [append]. destruct rest as [|b rest]; [now rewrite star_nil|].
    rewrite star_lazy_cons. now rewrite Hk.
  - simpl in Hbody. apply andb_true_iff in Hbody as [Ha Hbody].
    cbn [append]. rewrite star_lazy_cons.
    assert (H0 : k (String a (body ++ rest)) c = None)
      by (apply (Hno 0); simpl; lia).
    rewrite H0, Ha. apply (IH Hbody).
    intros j Hj. apply (Hno (S j)). simpl. lia.
Qed.

Lemma any_char_all (fl : flags) (s : string) :
  all_in fl false (ranges_items space_ranges ++ [CExcept space_ranges]) s
  = true.
Proof.
  induction s as [|a s IH]; [reflexivity|].
  cbn [all_in]. rewrite IH, andb_true_r.
  unfold class_matches. cbn [xorb].
  rewrite existsb_app. apply orb_true_iff.
  destruct (in_ranges space_ranges a) eqn:E.
  - left. unfold in_ranges in E. apply existsb_exists in E as (p & Hp & Ep).
    apply existsb_exists. exists (CRange (fst p) (snd p)). split.
    + unfold ranges_items. apply in_map_iff. now exists p.
    + simpl. now rewrite Ep.
  - right. cbn [existsb citem_matches]. now rewrite E.
Qed.

(** ** The lookahead of the month pattern *)

Lemma prefix_fl_plain (fl : flags) (p s : string) :
  ignoreCase fl = false -> prefix_fl fl p s = startsWith p s.
Proof.
  intros H. revert s. induction p as [|a p IH]; intros s; [reflexivity|].
  destruct s as [|b s]; [reflexivity|]. simpl.
  now rewrite char_eq_plain, IH.
Qed.

Lemma rmatch_ahead_h1 {A : Type} (fl : flags) (n : nat) (s : string)
    (c : caps) (k : string -> caps -> option A) :
  ignoreCase fl = false ->
  rmatch fl n ahead_h1 s c k = if at_boundary s then k s c else None.
Proof.
  intros H. unfold ahead_h1, at_boundary. cbn [rmatch].
  rewrite rmatch_lit_chain, prefix_fl_plain by exact H.
  destruct (startsWith "<h1>" s); [reflexivity|].
  destruct s; reflexivity.
Qed.

(** ** The month pattern *)

Lemma month_needs_heading (n : nat) (s : string) :
  heading_at s = false -> at_ monthPattern n s = None.
Proof.
  intros H. unfold at_. rewrite monthPattern_eq. cbn [re fl].
  rewrite rmatch_seq_lit.
  destruct (prefix_fl g_flags "<h1>" s) eqn:E; [|reflexivity].
  apply prefix_needs_heading in E; [congruence|reflexivity|reflexivity].
Qed.

Lemma month_name_letters (name : string) :
  In name monthNames ->
  exists a run, name = String a run
                /\ class_matches g_flags false
                     [CRange "A" "Z"; CRange "a" "z"] a = true
                /\ all_in g_flags false [CRange "A" "Z"; CRange "a" "z"] run
                   = true.
Proof.
  revert name. apply month_cases; eexists _, _; repeat split.
Qed.

Lemma rmatch_chr_cons {A : Type} (fl : flags) (n : nat) (x y : ascii)
    (s : string) (c : caps) (k : string -> caps -> option A) :
  rmatch fl n (Chr x) (String y s) c k
  = if char_eq fl x y then k s c else None.
Proof. reflexivity. Qed.

Lemma rmatch_Seq {A : Type} (fl : flags) (n : nat) (r1 r2 : regex)
    (s : string) (c : caps) (k : string -> caps -> option A) :
  rmatch fl n (Seq r1 r2) s c k
  = rmatch fl n r1 s c (fun s1 c1 => rmatch fl n r2 s1 c1 k).
Proof. reflexivity. Qed.

Lemma rmatch_Group {A : Type} (fl : flags) (n i : nat) (r : regex)
    (s : string) (c : caps) (k : string -> caps -> option A) :
  rmatch fl n (Group i r) s c k
  = rmatch fl n r s c
      (fun s' c' => k s' ((i, take (length s - length s') s) :: c')).
Proof. reflexivity. Qed.

Lemma month_at (n : nat) (name body rest : string) :
  In name monthNames ->
  (forall j, j < length body -> at_boundary (drop j (body ++ rest)) = false) ->
  at_boundary rest = true ->
  at_ monthPattern n ("<h1>" ++ name ++ "</h1>" ++ body ++ rest)
  = Some (rest, [(2, body); (1, name)]).
Proof.
  intros Hname Hbody Hrest. unfold at_. rewrite monthPattern_eq. cbn [re fl].
  rewrite rmatch_seq_lit, prefix_fl_refl, drop_app_length.
  destruct (month_name_letters name Hname) as (a & run & -> & Ha & Hrun).
  rewrite rmatch_Seq, rmatch_Group, rmatch_Seq.
  change ("</h1>" ++ body ++ rest)
    with (String "<" ("/h1>" ++ body ++ rest)).
  set (Y := "/h1>" ++ body ++ rest).
  unfold letter. cbn [append]. rewrite rmatch_cls_cons, Ha.
  apply greedy_run; [exact Hrun|reflexivity|]. cbv beta.
  change (String a (run ++ String "<" Y)) with (String a run ++ String "<" Y).
  rewrite take_length_diff. subst Y.
  change (String "<" ("/h1>" ++ body ++ rest))
    with ("</h1>" ++ body ++ rest).
  rewrite rmatch_seq_lit, prefix_fl_refl, drop_app_length.
  rewrite rmatch_Seq, rmatch_Group. unfold any_char.
  apply lazy_run; [apply any_char_all| |].
  - intros j Hj. rewrite rmatch_ahead_h1 by reflexivity.
    now rewrite Hbody.
  - rewrite rmatch_ahead_h1 by reflexivity. rewrite Hrest.
    now rewrite take_length_diff.
Qed.

(** ** The pattern of the week headings *)

Lemma week_needs_heading (n : nat) (s : string) :
  heading_at s = false -> at_ weekHeadingRegex n s = None.
Proof.
  intros H. unfold at_. rewrite weekHeadingRegex_eq. cbn [re fl].
  rewrite rmatch_seq_lit.
  destruct (prefix_fl g_flags "<h2>w/e " s) eqn:E; [|reflexivity].
  apply prefix_needs_heading in E; [congruence|reflexivity|reflexivity].
Qed.

Lemma week_not_at_h1 (n : nat) (s : string) :
  at_ weekHeadingRegex n ("<h1>" ++ s) = None.
Proof.
  unfold at_. rewrite weekHeadingRegex_eq. cbn [re fl].
  now rewrite rmatch_seq_lit.
Qed.

Lemma rmatch_two_digits {A : Type} (fl : flags) (n i : nat) (a b : ascii)
    (s : string) (c : caps) (k : string -> caps -> option A) :
  is_digit a = true -> is_digit b = true ->
  rmatch fl n (Group i (Seq digit (Seq digit Eps))) (String a (String b s)) c k
  = k s ((i, String a (String b "")) :: c).
Proof.
  intros Ha Hb. cbn [rmatch]. unfold digit.
  rewrite !rmatch_cls_cons.
  assert (D : forall x, is_digit x = true ->
                class_matches fl false [CRange "0" "9"] x = true).
  { intros x Hx. unfold class_matches.
    cbn [existsb citem_matches xorb].
    change (in_range (code "0") (code "9") x) with (is_digit x).
    now rewrite Hx. }
  rewrite (D a Ha), (D b Hb). cbn [rmatch].
  replace (length (String a (String b s)) - length s) with 2
    by (cbn [length]; lia).
  reflexivity.
Qed.

Lemma week_at (n : nat) (d mm rest : string) :
  two_digit d = true -> two_digit mm = true ->
  at_ weekHeadingRegex n (heading2 d mm ++ rest)
  = Some (rest, [(2, mm); (1, d)]).
Proof.
  intros Hd Hm.
  apply two_digit_inv in Hd as (a & b & -> & Ha & Hb).
  apply two_digit_inv in Hm as (c & e & -> & Hc & He).
  unfold at_. rewrite weekHeadingRegex_eq. cbn [re fl].
  rewrite rmatch_seq_lit. unfold heading2. cbn [append prefix_fl length drop].
  rewrite !char_eq_refl. cbn [andb].
  rewrite rmatch_Seq, rmatch_two_digits by assumption. cbv beta.
  rewrite rmatch_Seq, rmatch_chr_cons, char_eq_refl.
  rewrite rmatch_Seq, rmatch_two_digits by assumption. cbv beta.
  rewrite rmatch_lit_chain.
  change (String "<" (String "/" (String "h" (String "2" (String ">" rest)))))
    with ("</h2>" ++ rest).
  now rewrite prefix_fl_refl, drop_app_length.
Qed.

(** ** The pattern of one week label *)

Lemma weekPattern_compiles (a b : ascii) (mm : string) :
  is_digit a = true -> is_digit b = true -> two_digit mm = true ->
  newRegExp (weekHeadingSource (String a (String b (String "/" mm)))) "i"
  = Ok (week_rx (String a (String b "")) mm).
Proof.
  intros Ha Hb Hm. apply two_digit_inv in Hm as (c & e & -> & Hc & He).
  unfold newRegExp. rewrite (RegExp_plain _ "i" i_flags); [reflexivity| |].
  - apply digit_cases in Ha as (_ & _ & _ & _ & Ha),
        Hb as (_ & _ & _ & _ & Hb), Hc as (_ & _ & _ & _ & Hc),
        He as (_ & _ & _ & _ & He).
    unfold weekHeadingSource. cbn [append plain].
    now rewrite Ha, Hb, Hc, He.
  - reflexivity.
Qed.

Lemma week_rx_needs_heading (n : nat) (d mm s : string) :
  heading_at s = false -> at_ (week_rx d mm) n s = None.
Proof.
  intros H. unfold at_, week_rx. cbn [re fl]. rewrite rmatch_lit_chain.
  destruct (prefix_fl i_flags (heading2 d mm) s) eqn:E; [|reflexivity].
  apply prefix_needs_heading in E; [congruence|reflexivity|reflexivity].
Qed.

Lemma week_rx_not_at_h1 (n : nat) (d mm s : string) :
  at_ (week_rx d mm) n ("<h1>" ++ s) = None.
Proof.
  unfold at_, week_rx. cbn [re fl]. now rewrite rmatch_lit_chain.
Qed.

Lemma week_rx_at_week (n : nat) (d d' mm rest : string) :
  two_digit d = true -> two_digit d' = true -> two_digit mm = true ->
  at_ (week_rx d mm) n (heading2 d' mm ++ rest)
  = if String.eqb d d' then Some (rest, []) else None.
Proof.
  intros Hd Hd' Hm.
  apply two_digit_inv in Hd as (a & b & -> & Ha & Hb).
  apply two_digit_inv in Hd' as (a' & b' & -> & Ha' & Hb').
  apply two_digit_inv in Hm as (c & e & -> & Hc & He).
  unfold at_, week_rx. cbn [re fl]. rewrite rmatch_lit_chain.
  unfold heading2. cbn [append prefix_fl length drop String.eqb].
  rewrite !char_eq_refl, !(char_eq_digit i_flags) by assumption.
  cbn [andb]. rewrite andb_true_r.
  destruct (Ascii.eqb a a'); [|reflexivity].
  destruct (Ascii.eqb b b'); reflexivity.
Qed.

(** ** The patterns of any heading *)

Lemma class_level12 (z : ascii) :
  class_matches i_flags false [CRange "1" "1"; CRange "2" "2"] z = true ->
  Ascii.eqb z "1" || Ascii.eqb z "2" = true.
Proof.
  destruct z as [[] [] [] [] [] [] [] []]; try discriminate; reflexivity.
Qed.

Lemma monthOrWeek_needs_heading (n : nat) (s : string) :
  heading_at s = false -> at_ monthOrWeekHeading n s = None.
Proof.
  intros H. unfold at_. rewrite monthOrWeekHeading_eq. cbn [re fl].
  rewrite rmatch_seq_lit.
  destruct s as [|x [|y [|z s]]]; try reflexivity.
  - cbn [prefix_fl]. now rewrite andb_false_r.
  - cbn [prefix_fl length drop].
    destruct (char_eq i_flags "<" x) eqn:Ex; [|reflexivity].
    destruct (char_eq i_flags "h" y) eqn:Ey; [|reflexivity].
    cbn [andb]. now destruct (char_eq i_flags "<" x).
  - cbn [prefix_fl length drop]. rewrite andb_true_r.
    destruct (char_eq i_flags "<" x) eqn:Ex; [|reflexivity].
    destruct (char_eq i_flags "h" y) eqn:Ey; [|reflexivity].
    cbn [andb]. rewrite rmatch_Seq. unfold level.
    cbn [map list_ascii_of_string]. rewrite rmatch_cls_cons.
    destruct (class_matches i_flags false
                [CRange "1" "1"; CRange "2" "2"] z) eqn:Ez; [|reflexivity].
    rewrite char_eq_lt in Ex. apply char_eq_h in Ey.
    apply class_level12 in Ez.
    cbn [heading_at] in H. now rewrite Ex, Ey, Ez in H.
Qed.

Lemma anyHeading_at_week (n : nat) (d mm rest : string) :
  at_ anyHeading n (heading2 d mm ++ rest) <> None.
Proof.
  unfold at_. rewrite anyHeading_eq. cbn [re fl].
  rewrite rmatch_seq_lit. unfold heading2.
  cbn [append prefix_fl length drop]. rewrite !char_eq_refl. cbn [andb].
  rewrite rmatch_Seq. unfold level. cbn [map list_ascii_of_string].
  rewrite rmatch_cls_cons.
  assert (E : class_matches i_flags false
                [CRange "1" "1"; CRange "2" "2"; CRange "3" "3"] "2" = true)
    by reflexivity.
  rewrite E. unfold to_bracket. rewrite rmatch_Seq, star_greedy_cons.
  assert (E' : class_matches i_flags true [CRange ">" ">"] ">" = false)
    by reflexivity.
  rewrite E', rmatch_chr_cons, char_eq_refl. discriminate.
Qed.

End PatternFacts.


(** * Scanning a laid-out text with the patterns of the merge engine *)
Module ScanFacts.
Import Js Regex RegexSpec Confluence Layout.
Import StringFacts FormatFacts MapFacts RegexFacts QuietFacts PatternFacts.
Import SortSpec FormatAux BackfillSpec MergeSpec PatternSpec ScanSpec.

(** ** The text of weeks and sections *)

Lemma weeks_text_cons (mm : string) (w : week) (ws : list week) :
  weeks_text mm (w :: ws) = week_text mm w ++ weeks_text mm ws.
Proof. unfold weeks_text. cbn [map]. apply concat_cons. Qed.

Lemma weeks_text_app (mm : string) (ws1 ws2 : list week) :
  weeks_text mm (ws1 ++ ws2) = weeks_text mm ws1 ++ weeks_text mm ws2.
Proof. unfold weeks_text. rewrite map_app. apply concat_app. Qed.

Lemma length_heading2 (d mm : string) :
  two_digit d = true -> two_digit mm = true -> length (heading2 d mm) = 18.
Proof.
  intros Hd Hm.
  apply two_digit_inv in Hd as (a & b & -> & _).
  apply two_digit_inv in Hm as (c & e & -> & _). reflexivity.
Qed.

Lemma length_week_text (mm : string) (w : week) :
  two_digit mm = true -> wf_week w ->
  length (week_text mm w) = 18 + length (tail w).
Proof.
  intros Hm [Hd _]. unfold week_text.
  now rewrite length_append, length_heading2.
Qed.

Lemma safe_start_weeks (mm : string) (ws : list week) (rest : string) :
  safe_start rest = true -> safe_start (weeks_text mm ws ++ rest) = true.
Proof.
  intros H. destruct ws as [|w ws]; [exact H|].
  rewrite weeks_text_cons. reflexivity.
Qed.

Lemma safe_start_weeks_only (mm : string) (ws : list week) :
  safe_start (weeks_text mm ws) = true.
Proof.
  rewrite <- (append_nil_r (weeks_text mm ws)). now apply safe_start_weeks.
Qed.

Lemma section_text_eq (s : section) :
  section_text s = head s ++ weeks_text (mm_of (name s)) (weeks s).
Proof.
  unfold section_text, head. cbn [append]. now rewrite !append_assoc.
Qed.

Lemma safe_start_section (s : section) (rest : string) :
  safe_start (section_text s ++ rest) = true.
Proof. reflexivity. Qed.

(** ** Where a heading can start *)

Lemma weeks_positions (mm : string) (ws : list week) (rest : string)
    (j : nat) :
  two_digit mm = true -> Forall wf_week ws -> safe_start rest = true ->
  j < length (weeks_text mm ws) ->
  heading_at (drop j (weeks_text mm ws ++ rest)) = true ->
  exists ws1 w ws2,
    ws = (ws1 ++ w :: ws2)%list /\ j = length (weeks_text mm ws1).
Proof.
  intros Hm Hwf Hrest. revert j.
  induction ws as [|w ws IH]; intros j Hj H; [simpl in Hj; lia|].
  inversion Hwf as [|? ? Hw Hws]; subst.
  rewrite weeks_text_cons in *. rewrite length_append in Hj.
  rewrite append_assoc in H.
  destruct (Nat.lt_ge_cases j (length (week_text mm w))) as [Hlt|Hge].
  - destruct j as [|j]; [now exists [], w, ws|]. exfalso.
    pose (q := drop 1 (heading2 (day w) mm) ++ tail w).
    change (week_text mm w) with (String "<" q) in H, Hlt.
    cbn [append drop length] in H, Hlt.
    rewrite quiet_before in H; [discriminate| | |lia].
    + destruct Hw as [Hd Hq]. now apply quiet_week_head.
    + now apply safe_start_weeks.
  - replace j with (length (week_text mm w) + (j - length (week_text mm w)))
      in H by lia.
    rewrite drop_app_ge in H.
    apply IH in H as (ws1 & w' & ws2 & -> & E); [|exact Hws|lia].
    exists (w :: ws1), w', ws2. split; [reflexivity|].
    rewrite weeks_text_cons, length_append. lia.
Qed.

Lemma gap_quiet (x : rx) (n : nat) (q rest : string) (j : nat) :
  needs_heading x -> quiet q = true -> safe_start rest = true ->
  j < length q -> at_ x n (drop j (q ++ rest)) = None.
Proof. intros Hx Hq Hr Hj. apply Hx. now apply quiet_before. Qed.

Lemma gap_head (x : rx) (n : nat) (s : section) (rest : string) (j : nat) :
  needs_heading x -> (forall n t, at_ x n ("<h1>" ++ t) = None) ->
  wf_section s -> safe_start rest = true -> j < length (head s) ->
  at_ x n (drop j (head s ++ rest)) = None.
Proof.
  intros Hx H1 (Hn & Hq & _) Hr Hj. destruct j as [|j].
  - unfold head. rewrite append_assoc. apply H1.
  - change (head s ++ rest)
      with (String "<" (("h1>" ++ name s ++ "</h1>" ++ intro s) ++ rest)).
    cbn [drop]. apply gap_quiet; [exact Hx| |exact Hr|].
    + now apply quiet_month_head.
    + unfold head in Hj. cbn [append length] in *. lia.
Qed.

Lemma at_end (x : rx) (n : nat) (s : string) (j : nat) :
  needs_heading x -> length s <= j -> at_ x n (drop j s) = None.
Proof. intros Hx Hj. rewrite drop_all by exact Hj. now apply Hx. Qed.

(** ** The week headings of a text *)

Lemma week_needs (n : nat) : needs_heading weekHeadingRegex.
Proof. intros n' s. apply week_needs_heading. Qed.

Lemma exec_all_ext (fuel : nat) (x : rx) (T : string) (L L' : nat) :
  exec x T L = exec x T L' -> exec_all fuel x T L = exec_all fuel x T L'.
Proof. intros H. destruct fuel; [reflexivity|]. cbn [exec_all]. now rewrite H. Qed.

Lemma exec_all_weeks (mm : string) (ws : list week) :
  two_digit mm = true ->
  forall (T P Q : string) (fuel : nat),
    T = P ++ Q ++ weeks_text mm ws ->
    Forall wf_week ws -> List.length ws < fuel ->
    (forall j, j < length Q ->
               at_ weekHeadingRegex (length T)
                 (drop j (Q ++ weeks_text mm ws)) = None) ->
    exec_all fuel weekHeadingRegex T (length P)
    = week_hits mm (length P + length Q) ws.
Proof.
  intros Hm. induction ws as [|w ws IH]; intros T P Q fuel -> Hwf Hfuel Hgap;
    (destruct fuel as [|fuel]; [simpl in Hfuel; lia|]).
  - cbn [exec_all week_hits]. rewrite exec_eq, search_none; [reflexivity|].
    intros j Hj. destruct (Nat.lt_ge_cases j (length Q)) as [H|H].
    + now apply Hgap.
    + apply at_end; [apply (week_needs 0)|].
      cbn [weeks_text map String.concat]. rewrite append_nil_r. exact H.
  - inversion Hwf as [|? ? Hw Hws]; subst.
    assert (Hd := proj1 Hw).
    cbn [exec_all week_hits]. rewrite exec_eq, search_skip by exact Hgap.
    rewrite weeks_text_cons. unfold week_text at 2. rewrite append_assoc.
    rewrite (search_here _ _ _ _ _ _ (week_at _ _ _ _ Hd Hm)).
    assert (L : length (P ++ Q ++ week_text mm w ++ weeks_text mm ws)
                - length (tail w ++ weeks_text mm ws)
                = length (P ++ Q ++ heading2 (day w) mm)).
    { unfold week_text. rewrite !length_append. lia. }
    rewrite L. f_equal.
    + f_equal. rewrite !length_append, length_heading2 by assumption. lia.
    + rewrite (IH _ (P ++ Q ++ heading2 (day w) mm) (tail w) fuel).
      * f_equal. unfold week_text. rewrite !length_append. lia.
      * unfold week_text. now rewrite !append_assoc.
      * exact Hws.
      * simpl in Hfuel. lia.
      * intros j Hj. apply gap_quiet; [apply (week_needs 0)|apply Hw| |exact Hj].
        rewrite <- (append_nil_r (weeks_text mm ws)).
        now apply safe_start_weeks.
Qed.

Lemma length_weeks (mm : string) (ws : list week) :
  List.length ws <= length (weeks_text mm ws).
Proof.
  induction ws as [|w ws IH]; [simpl; lia|].
  rewrite weeks_text_cons, length_append.
  pose (q := drop 1 (heading2 (day w) mm) ++ tail w).
  change (week_text mm w) with (String "<" q).
  cbn [length List.length]. lia.
Qed.

Lemma heads_of_hits (clock : Clock) (mm : string) (ws : list week) :
  forall k off,
    dated clock k (week_hits mm off ws) = heads_of clock k mm off ws.
Proof.
  induction ws as [|w ws IH]; intros k off; [reflexivity|].
  cbn [week_hits dated heads_of]. now rewrite IH.
Qed.

Lemma length_heads_of (clock : Clock) (mm : string) (ws : list week) :
  forall k off, List.length (heads_of clock k mm off ws) = List.length ws.
Proof.
  induction ws as [|w ws IH]; intros k off; [reflexivity|].
  cbn [heads_of List.length]. now rewrite IH.
Qed.

Lemma week_hits_section (s : section) :
  wf_section s ->
  exec_all (S (length (section_text s))) weekHeadingRegex (section_text s) 0
  = week_hits (mm_of (name s)) (length (head s)) (weeks s).
Proof.
  intros Hs. assert (Hs' := Hs). destruct Hs' as (Hn & Hq & Hne & Hwf & Hd).
  apply (exec_all_weeks (mm_of (name s)) (weeks s) (mm_of_two_digit _ Hn)
           (section_text s) "" (head s)).
  - apply section_text_eq.
  - exact Hwf.
  - rewrite section_text_eq, length_append.
    pose proof (length_weeks (mm_of (name s)) (weeks s)). lia.
  - intros j Hj. apply gap_head;
      [apply (week_needs 0)|apply week_not_at_h1|exact Hs| |exact Hj].
    apply safe_start_weeks_only.
Qed.

Lemma weekHeadings_of_section (clock : Clock) (s : section) :
  wf_section s ->
  weekHeadings_of clock (section_text s)
  = heads_of clock 0 (mm_of (name s)) (length (head s)) (weeks s).
Proof.
  intros Hs. unfold weekHeadings_of. rewrite week_hits_section by exact Hs.
  apply heads_of_hits.
Qed.

Lemma week_labels_section (s : section) :
  wf_section s ->
  week_labels (section_text s)
  = map (fun w => (parseInt (mm_of (name s)), day_number w)) (weeks s).
Proof.
  intros Hs. unfold week_labels. rewrite week_hits_section by exact Hs.
  generalize (length (head s)).
  induction (weeks s) as [|w ws IH]; intros off; [reflexivity|].
  cbn [week_hits map]. now rewrite IH.
Qed.

(** ** Dates of week labels *)

Lemma day_of_sum (a r : Z) :
  (0 <= r < msPerDay)%Z ->
  ((a * msPerDay + r) / msPerDay = a /\ (a * msPerDay + r) mod msPerDay = r)%Z.
Proof.
  unfold msPerDay. intros H. split.
  - symmetry. apply (Z.div_unique _ _ a r); lia.
  - symmetry. apply (Z.mod_unique _ _ a r); lia.
Qed.

(** The date of a label depends on the reading of the clock through its
    day, up to the time of day. *)
Lemma label_date_shape (now m d : Z) :
  label_date now (Some d) (Some m)
  = Some ((label_base (now / msPerDay) m + d) * msPerDay
          + now mod msPerDay)%Z.
Proof.
  unfold label_date, setMonth, setDate, label_base.
  destruct (civil_from_days (now / msPerDay)) as [[y mo] dd].
  assert (Hr : (0 <= now mod msPerDay < msPerDay)%Z)
    by (apply Z.mod_pos_bound; reflexivity).
  destruct (day_of_sum (MakeDay y m dd) (now mod msPerDay) Hr) as [E1 E2].
  rewrite E1, E2.
  destruct (civil_from_days (MakeDay y m dd)) as [[y' m'] d'].
  unfold MakeDay. f_equal. ring.
Qed.

Lemma label_date_day (clock : Clock) (m : Z) :
  one_day clock ->
  forall i d,
    label_date (clock i) (Some d) (Some m)
    = Some ((label_base (clock 0%nat / msPerDay) m + d) * msPerDay
            + clock i mod msPerDay)%Z.
Proof.
  intros H i d. rewrite label_date_shape. now rewrite (H i 0%nat).
Qed.

Lemma date_lt_days (K a b r1 r2 : Z) :
  (0 <= r1 < msPerDay)%Z -> (0 <= r2 < msPerDay)%Z -> a <> b ->
  date_lt (Some ((K + a) * msPerDay + r1)%Z)
          (Some ((K + b) * msPerDay + r2)%Z)
  = (a <? b)%Z.
Proof.
  unfold date_lt, msPerDay. intros H1 H2 Hne.
  destruct (Z.ltb_spec a b); [apply Z.ltb_lt|apply Z.ltb_ge]; lia.
Qed.

(** ** Sorting what is sorted already *)

Lemma sort_by_sorted {A : Type} (cmp : A -> A -> Z) (l : list A) :
  StronglySorted (fun a b => (cmp a b <= 0)%Z) l -> sort_by cmp l = l.
Proof.
  induction 1 as [|a l Hl IH Ha]; [reflexivity|].
  change (sort_by cmp (a :: l)) with (insert_by cmp a (sort_by cmp l)).
  rewrite IH.
  destruct l as [|b l]; [reflexivity|]. cbn [insert_by].
  inversion Ha as [|? ? Hab _]; subst.
  apply Z.leb_le in Hab. now rewrite Hab.
Qed.

Lemma heads_Forall (P : weekHeading -> Prop) (clock : Clock) (mm : string)
    (ws : list week) :
  (forall w k off, In w ws ->
     P {| date := label_date (clock k) (Some (day_number w))
                    (Some (parseInt mm - 1)%Z);
          Confluence.index := off |}) ->
  forall k off, Forall P (heads_of clock k mm off ws).
Proof.
  induction ws as [|w ws IH]; intros H k off; [constructor|].
  cbn [heads_of]. constructor; [apply H; now left|].
  apply IH. intros w' k' off' Hin. apply H. now right.
Qed.

Lemma heads_sorted (clock : Clock) (mm : string) (ws : list week)
    (k off : nat) :
  one_day clock ->
  descending (map day_number ws) ->
  sort_by newest_first (heads_of clock k mm off ws)
  = heads_of clock k mm off ws.
Proof.
  intros Hone Hd. apply sort_by_sorted.
  pose proof (label_date_day clock (parseInt mm - 1) Hone) as HK.
  revert k off. induction ws as [|w ws IH]; intros k off; [constructor|].
  cbn [map] in Hd. inversion Hd as [|? ? Hs Hall]; subst.
  cbn [heads_of]. constructor; [now apply IH|].
  apply heads_Forall. intros w' k' off' Hin.
  unfold newest_first. cbn [date]. rewrite !HK.
  rewrite Forall_forall in Hall.
  assert (day_number w > day_number w')%Z
    by (apply Hall, in_map_iff; now exists w').
  pose proof (Z.mod_pos_bound (clock k) msPerDay eq_refl).
  pose proof (Z.mod_pos_bound (clock k') msPerDay eq_refl).
  unfold msPerDay in *. lia.
Qed.

(** ** The position of a new week *)

Lemma insert_position_cons (T : string) (newDate : Date) (h : weekHeading)
    (rest : list weekHeading) (ip : nat) :
  insert_position T newDate (h :: rest) ip
  = if date_lt (date h) newDate then Confluence.index h
    else match rest with
         | [] =>
             match exec monthOrWeekHeading
                     (substring_from (Confluence.index h + 20) T) 0 with
             | Some nextHeadingMatch =>
                 Confluence.index h + 20 + Regex.index nextHeadingMatch
             | None => length T
             end
         | _ => insert_position T newDate rest ip
         end.
Proof. reflexivity. Qed.

Lemma no_heading_after_last (mm : string) (w : week) (P : string) :
  two_digit mm = true -> wf_week w ->
  exec monthOrWeekHeading
    (substring_from (length P + 20) (P ++ weeks_text mm [w])) 0 = None.
Proof.
  intros Hm [Hd Hq]. rewrite exec_0. apply search_none. intros j _.
  apply monthOrWeek_needs_heading. unfold substring_from.
  rewrite drop_drop, <- Nat.add_assoc, drop_app_ge.
  rewrite weeks_text_cons. cbn [weeks_text map String.concat].
  rewrite append_nil_r. unfold week_text.
  replace (20 + j) with (length (heading2 (day w) mm) + (2 + j))
    by (rewrite length_heading2 by assumption; lia).
  rewrite drop_app_ge. now apply quiet_iff.
Qed.

Lemma insert_position_weeks (clock : Clock) (mm : string) (d K R : Z)
    (T : string) :
  two_digit mm = true ->
  (forall i x, label_date (clock i) (Some x) (Some (parseInt mm - 1)%Z)
               = Some ((K + x) * msPerDay + clock i mod msPerDay)%Z) ->
  (0 <= R < msPerDay)%Z ->
  forall (ws : list week) (P : string) (k ip : nat),
    ws <> [] -> Forall wf_week ws ->
    Forall (fun w => day_number w <> d) ws ->
    T = P ++ weeks_text mm ws ->
    exists ws1 ws2,
      ws = (ws1 ++ ws2)%list
      /\ Forall (fun w => (d <= day_number w)%Z) ws1
      /\ match ws2 with
         | [] => True
         | w :: _ => (day_number w < d)%Z
         end
      /\ insert_position T (Some ((K + d) * msPerDay + R)%Z)
           (heads_of clock k mm (length P) ws) ip
         = length P + length (weeks_text mm ws1).
Proof.
  intros Hm HK HR. induction ws as [|w ws IH]; intros P k ip Hne Hwf Hdiff HT;
    [contradiction|].
  inversion Hwf as [|? ? Hw Hws]; subst.
  inversion Hdiff as [|? ? Hwd Hdiff']; subst.
  cbn [heads_of]. rewrite insert_position_cons. cbn [date Confluence.index].
  rewrite HK, date_lt_days;
    [|apply Z.mod_pos_bound; reflexivity|exact HR|exact Hwd].
  destruct (Z.ltb_spec (day_number w) d) as [Hlt|Hge].
  - exists [], (w :: ws). repeat split; [constructor|exact Hlt|].
    simpl. lia.
  - destruct ws as [|w2 ws].
    + cbn [heads_of]. rewrite no_heading_after_last by assumption.
      exists [w], []. repeat split; [now constructor|].
      now rewrite length_append.
    + destruct (IH (P ++ week_text mm w) (S k) ip)
        as (ws1 & ws2 & E & H1 & H2 & H3);
        [discriminate|exact Hws|exact Hdiff'| |].
      { rewrite weeks_text_cons. now rewrite append_assoc. }
      rewrite length_append in H3.
      remember (heads_of clock (S k) mm (length P + length (week_text mm w))
                  (w2 :: ws)) as r eqn:Er.
      destruct r as [|h2 r]; [discriminate Er|].
      rewrite H3. exists (w :: ws1), ws2.
      repeat split; [now rewrite E|now constructor|exact H2|].
      rewrite weeks_text_cons, length_append. lia.
Qed.

(** ** Splitting at the only match *)

Lemma search_none_inv (x : rx) (n : nat) (s : string) (i j : nat) :
  search x n s i = None -> at_ x n (drop j s) = None.
Proof.
  revert s i. induction j as [|j IH]; intros s i H; rewrite search_eq in H.
  - cbn [drop]. destruct (at_ x n s) as [[s' c]|]; [discriminate|reflexivity].
  - destruct (at_ x n s) as [[s' c]|] eqn:E; [discriminate|].
    destruct s as [|a s]; [exact E|]. cbn [drop]. now apply (IH s (S i)).
Qed.

Lemma split_loop_S (fuel : nat) (x : rx) (T : string) (p q : nat) :
  split_loop (S fuel) x T p q
  = if length T <=? q then [Some (substring p (length T) T)]
    else match at_ x (length T) (drop q T) with
         | None => split_loop fuel x T p (S q)
         | Some (s', c) =>
             let e := Nat.min (length T - length s') (length T) in
             if e =? p then split_loop fuel x T p (S q)
             else Some (substring p q T) :: capture_list x c
                  ++ split_loop fuel x T e e
         end.
Proof. reflexivity. Qed.

Lemma split_loop_none (x : rx) (T : string) (fuel p q : nat) :
  (forall j, q <= j -> at_ x (length T) (drop j T) = None) ->
  split_loop fuel x T p q = [Some (substring p (length T) T)].
Proof.
  revert q. induction fuel as [|fuel IH]; intros q H; [reflexivity|].
  rewrite split_loop_S. destruct (length T <=? q); [reflexivity|].
  rewrite (H q) by lia. apply IH. intros j Hj. apply H. lia.
Qed.

Lemma split_loop_skip (x : rx) (T : string) (p k : nat) :
  forall q fuel,
    (forall j, q <= j -> j < q + k -> at_ x (length T) (drop j T) = None) ->
    q + k <= length T ->
    split_loop (k + fuel) x T p q = split_loop fuel x T p (q + k).
Proof.
  induction k as [|k IH]; intros q fuel H Hle.
  - now rewrite Nat.add_0_r.
  - change (S k + fuel) with (S (k + fuel)). rewrite split_loop_S.
    assert (E : (length T <=? q) = false) by (apply Nat.leb_gt; lia).
    rewrite E, (H q) by lia.
    rewrite IH; [f_equal; lia| |lia].
    intros j Hj Hj'. apply H; lia.
Qed.

Lemma substring_0 (n : nat) (s : string) : substring 0 n s = take n s.
Proof. unfold substring. now rewrite Nat.min_0_l, Nat.max_0_l, Nat.sub_0_r. Qed.

Lemma take_all (s : string) : take (length s) s = s.
Proof.
  rewrite <- (append_nil_r s) at 2. rewrite take_app_length. reflexivity.
Qed.

Lemma split_once (x : rx) (A M s' : string) (c : caps) :
  M <> "" ->
  (forall j, j < length A ->
     at_ x (length (A ++ M ++ s')) (drop j (A ++ M ++ s')) = None) ->
  at_ x (length (A ++ M ++ s')) (M ++ s') = Some (s', c) ->
  (forall j, at_ x (length (A ++ M ++ s')) (drop j s') = None) ->
  split x (A ++ M ++ s') = Some A :: capture_list x c ++ [Some s'].
Proof.
  intros HM Hbefore Hat Hafter.
  set (T := A ++ M ++ s') in *.
  assert (HT : length T = length A + (length M + length s'))
    by (unfold T; now rewrite !length_append).
  assert (HM' : 0 < length M) by (destruct M; [contradiction|simpl; lia]).
  assert (E : split x T = split_loop (2 * length T + 1) x T 0 0).
  { destruct T; [simpl in HT; lia|reflexivity]. }
  rewrite E.
  replace (2 * length T + 1)
    with (length A + S (2 * length T - length A)) by lia.
  rewrite split_loop_skip; [|intros j _ Hj; apply Hbefore; lia|lia].
  change (0 + length A) with (length A). rewrite split_loop_S.
  assert (E1 : (length T <=? length A) = false) by (apply Nat.leb_gt; lia).
  rewrite E1. unfold T at 2. rewrite drop_app_length. fold T. rewrite Hat.
  cbv zeta.
  assert (E2 : Nat.min (length T - length s') (length T)
               = length A + length M) by lia.
  rewrite E2.
  assert (E3 : (length A + length M =? 0) = false) by (apply Nat.eqb_neq; lia).
  rewrite E3, substring_0. unfold T at 1. rewrite take_app_length.
  f_equal. f_equal.
  rewrite split_loop_none.
  - f_equal. f_equal. unfold substring.
    rewrite Nat.min_l, Nat.max_r by lia.
    assert (D : drop (length A + length M) T = s').
    { unfold T. rewrite <- append_assoc, <- length_append.
      apply drop_app_length. }
    rewrite D. replace (length T - (length A + length M)) with (length s')
      by lia.
    apply take_all.
  - intros j Hj.
    replace j with (length (A ++ M) + (j - length (A ++ M)))
      by (rewrite length_append; lia).
    unfold T at 2. rewrite <- append_assoc, drop_app_ge. apply Hafter.
Qed.

(** ** The pattern of one week label over a section *)

Lemma week_rx_needs (d mm : string) : needs_heading (week_rx d mm).
Proof. intros n s. apply week_rx_needs_heading. Qed.

Lemma no_week_match (n : nat) (d mm : string) (ws : list week)
    (rest : string) (j : nat) :
  two_digit d = true -> two_digit mm = true -> Forall wf_week ws ->
  safe_start rest = true -> (forall w, In w ws -> day w <> d) ->
  j < length (weeks_text mm ws) ->
  at_ (week_rx d mm) n (drop j (weeks_text mm ws ++ rest)) = None.
Proof.
  intros Hd Hm Hwf Hrest Hne Hj.
  destruct (heading_at (drop j (weeks_text mm ws ++ rest))) eqn:E;
    [|now apply week_rx_needs_heading].
  apply weeks_positions in E as (ws1 & w & ws2 & -> & ->); try assumption.
  rewrite weeks_text_app, weeks_text_cons, !append_assoc, drop_app_length.
  unfold week_text. rewrite append_assoc.
  rewrite Forall_forall in Hwf.
  assert (Hw : wf_week w) by (apply Hwf, in_elt).
  rewrite week_rx_at_week; [|exact Hd|apply Hw|exact Hm].
  destruct (String.eqb_spec d (day w)) as [->|_]; [|reflexivity].
  exfalso. apply (Hne w); [apply in_elt|reflexivity].
Qed.

Lemma sorted_app_inv {A : Type} (R : A -> A -> Prop) (l1 : list A) (a : A)
    (l2 : list A) :
  StronglySorted R (l1 ++ a :: l2) ->
  Forall (fun x => R x a) l1 /\ Forall (R a) l2.
Proof.
  induction l1 as [|x l1 IH]; cbn [app]; intros H;
    inversion H as [|? ? Hs Hall]; subst.
  - split; [constructor|exact Hall].
  - destruct (IH Hs) as [H1 H2]. split; [|exact H2].
    constructor; [|exact H1].
    rewrite Forall_forall in Hall. apply Hall, in_elt.
Qed.

Lemma other_days (ws1 : list week) (w : week) (ws2 : list week) :
  descending (map day_number (ws1 ++ w :: ws2)) ->
  (forall w', In w' ws1 -> day w' <> day w)
  /\ (forall w', In w' ws2 -> day w' <> day w).
Proof.
  rewrite map_app. cbn [map]. intros H.
  apply sorted_app_inv in H as [H1 H2].
  rewrite Forall_forall in H1, H2.
  split; intros w' Hin E.
  - assert (day_number w' > day_number w)%Z
      by (apply H1, in_map_iff; now exists w').
    unfold day_number in *. rewrite E in *. lia.
  - assert (day_number w > day_number w')%Z
      by (apply H2, in_map_iff; now exists w').
    unfold day_number in *. rewrite E in *. lia.
Qed.

Lemma week_absent_test (s : section) (d : string) :
  wf_section s -> two_digit d = true ->
  (forall w, In w (weeks s) -> day w <> d) ->
  test (week_rx d (mm_of (name s))) (section_text s) = false.
Proof.
  intros Hs Hd Hne. assert (Hs' := Hs).
  destruct Hs' as (Hn & Hq & _ & Hwf & _).
  assert (Hm := mm_of_two_digit _ Hn).
  unfold test. rewrite exec_0, search_none; [reflexivity|].
  intros j _. rewrite section_text_eq.
  destruct (Nat.lt_ge_cases j (length (head s))) as [H|H].
  - apply gap_head; [apply week_rx_needs|intros; apply week_rx_not_at_h1
                    |exact Hs|apply safe_start_weeks_only|exact H].
  - replace j with (length (head s) + (j - length (head s))) by lia.
    rewrite drop_app_ge.
    destruct (Nat.lt_ge_cases (j - length (head s))
                (length (weeks_text (mm_of (name s)) (weeks s)))) as [H'|H'].
    + rewrite <- (append_nil_r (weeks_text _ _)).
      now apply no_week_match.
    + apply at_end; [apply week_rx_needs|exact H'].
Qed.

Lemma week_present (s : section) (ws1 : list week) (w : week)
    (ws2 : list week) :
  wf_section s -> weeks s = (ws1 ++ w :: ws2)%list ->
  let mm := mm_of (name s) in
  test (week_rx (day w) mm) (section_text s) = true
  /\ split (week_rx (day w) mm) (section_text s)
     = [Some (head s ++ weeks_text mm ws1);
        Some (tail w ++ weeks_text mm ws2)].
Proof.
  intros Hs E mm. assert (Hs' := Hs).
  destruct Hs' as (Hn & Hq & _ & Hwf & Hdesc).
  assert (Hm : two_digit mm = true) by now apply mm_of_two_digit.
  rewrite E in Hwf, Hdesc.
  destruct (other_days _ _ _ Hdesc) as [Hne1 Hne2].
  assert (Hw : wf_week w) by (rewrite Forall_forall in Hwf; apply Hwf, in_elt).
  assert (Hwf1 : Forall wf_week ws1) by (apply Forall_app in Hwf; tauto).
  assert (Hwf2 : Forall wf_week ws2).
  { apply Forall_app in Hwf as [_ H]. now inversion H. }
  destruct Hw as [Hd Hqt].
  assert (ET : section_text s
               = (head s ++ weeks_text mm ws1)
                 ++ heading2 (day w) mm ++ tail w ++ weeks_text mm ws2).
  { rewrite section_text_eq, E. fold mm.
    rewrite weeks_text_app, weeks_text_cons. unfold week_text.
    now rewrite !append_assoc. }
  assert (Hat : forall n,
             at_ (week_rx (day w) mm) n
               (heading2 (day w) mm ++ tail w ++ weeks_text mm ws2)
             = Some (tail w ++ weeks_text mm ws2, [])).
  { intros n. rewrite week_rx_at_week by assumption.
    now rewrite String.eqb_refl. }
  assert (Hafter : forall n j,
             at_ (week_rx (day w) mm) n
               (drop j (tail w ++ weeks_text mm ws2)) = None).
  { intros n j.
    destruct (Nat.lt_ge_cases j (length (tail w))) as [H|H].
    - apply gap_quiet; [apply week_rx_needs|exact Hqt
                       |apply safe_start_weeks_only|exact H].
    - replace j with (length (tail w) + (j - length (tail w))) by lia.
      rewrite drop_app_ge.
      destruct (Nat.lt_ge_cases (j - length (tail w))
                  (length (weeks_text mm ws2))) as [H'|H'].
      + rewrite <- (append_nil_r (weeks_text _ _)).
        now apply no_week_match.
      + apply at_end; [apply week_rx_needs|exact H']. }
  split.
  - apply test_true. exists (length (head s ++ weeks_text mm ws1)). split.
    + rewrite ET, !length_append. lia.
    + rewrite ET, drop_app_length, Hat. discriminate.
  - rewrite ET.
    rewrite (split_once _ _ _ _ []); [reflexivity| | |apply Hat|].
    + unfold heading2. discriminate.
    + intros j Hj. rewrite append_assoc.
      rewrite length_append in Hj.
      destruct (Nat.lt_ge_cases j (length (head s))) as [H|H].
      * apply gap_head; [apply week_rx_needs
                        |intros; apply week_rx_not_at_h1|exact Hs| |exact H].
        now apply safe_start_weeks.
      * replace j with (length (head s) + (j - length (head s))) by lia.
        rewrite drop_app_ge.
        apply no_week_match; try assumption; [reflexivity|lia].
    + intros j. apply Hafter.
Qed.

(** ** Where the block of a user goes in an existing week *)

Lemma user_insert_point (mm : string) (w : week) (ws2 : list week) :
  match exec anyHeading (tail w ++ weeks_text mm ws2) 0 with
  | Some m => Regex.index m <= length (tail w)
  | None => ws2 = []
  end.
Proof.
  rewrite exec_0.
  destruct (search anyHeading _ _ 0) as [m|] eqn:E.
  - apply search_some in E as (j & s' & c & Hj & Hi & _ & _ & _ & Hno).
    rewrite Hi. cbn [plus].
    destruct ws2 as [|w2 ws2].
    + cbn [weeks_text map String.concat] in Hj.
      rewrite append_nil_r in Hj. exact Hj.
    + destruct (Nat.le_gt_cases j (length (tail w))) as [H|H]; [exact H|].
      exfalso. specialize (Hno _ H).
      rewrite drop_app_length, weeks_text_cons in Hno.
      unfold week_text in Hno. rewrite !append_assoc in Hno.
      now apply anyHeading_at_week in Hno.
  - destruct ws2 as [|w2 ws2]; [reflexivity|]. exfalso.
    apply (search_none_inv _ _ _ _ (length (tail w))) in E.
    rewrite drop_app_length, weeks_text_cons in E.
    unfold week_text in E. rewrite !append_assoc in E.
    now apply anyHeading_at_week in E.
Qed.

End ScanFacts.


(** * The month sections of a laid-out document *)
Module DocFacts.
Import Js Regex RegexSpec Confluence Layout.
Import StringFacts FormatFacts MapFacts RegexFacts QuietFacts PatternFacts.
Import ScanFacts.
Import SortSpec FormatAux BackfillSpec MergeSpec PatternSpec ScanSpec.

Lemma sections_text_cons (s : section) (ss : list section) :
  sections_text (s :: ss) = section_text s ++ sections_text ss.
Proof. unfold sections_text. cbn [map]. apply concat_cons. Qed.

Lemma sections_text_app (l1 l2 : list section) :
  sections_text (l1 ++ l2) = sections_text l1 ++ sections_text l2.
Proof. unfold sections_text. rewrite map_app. apply concat_app. Qed.

Lemma at_boundary_sections (ss : list section) :
  at_boundary (sections_text ss) = true.
Proof.
  destruct ss as [|s ss]; [reflexivity|]. now rewrite sections_text_cons.
Qed.

Lemma at_boundary_safe (rest : string) :
  at_boundary rest = true -> safe_start rest = true.
Proof.
  destruct rest as [|c rest]; [reflexivity|]. unfold at_boundary.
  rewrite orb_false_r. cbn [startsWith]. intros H.
  apply andb_true_iff in H as [H _]. apply Ascii.eqb_eq in H. now subst c.
Qed.

Lemma startsWith_h1_heading (s : string) :
  startsWith "<h1>" s = true -> heading_at s = true.
Proof.
  destruct s as [|a [|b [|c s]]]; cbn [startsWith];
    rewrite ?andb_false_r; try discriminate.
  intros H. apply andb_true_iff in H as [Ha H].
  apply andb_true_iff in H as [Hb H]. apply andb_true_iff in H as [Hc _].
  apply Ascii.eqb_eq in Ha, Hb, Hc. now subst.
Qed.

Lemma body_no_boundary (s : section) (rest : string) (j : nat) :
  wf_section s -> at_boundary rest = true -> j < length (body s) ->
  at_boundary (drop j (body s ++ rest)) = false.
Proof.
  intros (Hn & Hq & _ & Hwf & _) Hrest Hj.
  assert (Hm := mm_of_two_digit _ Hn).
  assert (Hsafe := at_boundary_safe _ Hrest).
  unfold at_boundary. apply orb_false_iff. split.
  - destruct (startsWith "<h1>" (drop j (body s ++ rest))) eqn:E;
      [|reflexivity].
    exfalso. assert (E' := startsWith_h1_heading _ E).
    unfold body in *. rewrite append_assoc in E, E'.
    rewrite length_append in Hj.
    destruct (Nat.lt_ge_cases j (length (intro s))) as [H|H].
    + rewrite quiet_before in E'; [discriminate|exact Hq| |exact H].
      now apply safe_start_weeks.
    + replace j with (length (intro s) + (j - length (intro s))) in E, E'
        by lia.
      rewrite drop_app_ge in E, E'.
      apply weeks_positions in E' as (ws1 & w & ws2 & Ews & Ej);
        [|exact Hm|exact Hwf|exact Hsafe|lia].
      rewrite Ews, Ej, weeks_text_app, weeks_text_cons in E.
      rewrite !append_assoc, drop_app_length in E.
      unfold week_text, heading2 in E. cbn [append startsWith] in E.
      discriminate.
  - assert (L : 0 < length (drop j (body s ++ rest)))
      by (rewrite length_drop, length_append; lia).
    destruct (drop j (body s ++ rest)); [simpl in L; lia|reflexivity].
Qed.

(** ** The matches of the month pattern *)

Lemma month_needs : needs_heading monthPattern.
Proof. intros n s. apply month_needs_heading. Qed.

Lemma section_text_body (s : section) :
  section_text s = "<h1>" ++ name s ++ "</h1>" ++ body s.
Proof. reflexivity. Qed.

Lemma exec_all_months (ss : list section) :
  Forall wf_section ss ->
  forall (T P : string) (fuel : nat),
    T = P ++ sections_text ss -> List.length ss < fuel ->
    exec_all fuel monthPattern T (length P) = month_hits (length P) ss.
Proof.
  induction ss as [|s ss IH]; intros Hwf T P fuel -> Hfuel;
    (destruct fuel as [|fuel]; [simpl in Hfuel; lia|]).
  - cbn [exec_all month_hits]. rewrite exec_eq, search_none; [reflexivity|].
    intros j _. apply month_needs. now destruct j.
  - inversion Hwf as [|? ? Hs Hss]; subst.
    cbn [exec_all month_hits]. rewrite exec_eq, sections_text_cons.
    assert (Hat : forall n,
               at_ monthPattern n (section_text s ++ sections_text ss)
               = Some (sections_text ss, [(2, body s); (1, name s)])).
    { intros n. rewrite section_text_body, !append_assoc.
      apply month_at; [apply Hs| |apply at_boundary_sections].
      intros j Hj. apply body_no_boundary;
        [exact Hs|apply at_boundary_sections|exact Hj]. }
    rewrite (search_here _ _ _ _ _ _ (Hat _)).
    assert (L : length (P ++ section_text s ++ sections_text ss)
                - length (sections_text ss)
                = length (P ++ section_text s))
      by (rewrite !length_append; lia).
    rewrite L. f_equal.
    + f_equal. now rewrite length_append.
    + rewrite (IH Hss _ (P ++ section_text s) fuel).
      * now rewrite length_append.
      * now rewrite append_assoc.
      * simpl in Hfuel. lia.
Qed.

Lemma length_sections (ss : list section) :
  List.length ss <= length (sections_text ss).
Proof.
  induction ss as [|s ss IH]; [simpl; lia|].
  rewrite sections_text_cons, length_append, section_text_body.
  cbn [append length List.length]. lia.
Qed.

Lemma month_matches_document (pre : string) (ss : list section) :
  wf_document pre ss ->
  month_matches (document pre ss) = month_hits (length pre) ss.
Proof.
  intros (Hpre & Hwf & _). unfold month_matches, document.
  fold (sections_text ss).
  rewrite (exec_all_ext _ _ _ 0 (length pre)).
  - apply exec_all_months; [exact Hwf|reflexivity|].
    rewrite length_append. pose proof (length_sections ss). lia.
  - rewrite exec_0, exec_eq, search_skip; [reflexivity|].
    intros j Hj. apply month_needs.
    destruct Hpre as [->| ->]; [simpl in Hj; lia|].
    destruct j as [|j]; [|simpl in Hj; lia].
    unfold nl. cbn [append drop]. now apply heading_at_first.
Qed.

Lemma month_names_document (pre : string) (ss : list section) :
  wf_document pre ss -> month_names (document pre ss) = map name ss.
Proof.
  intros H. unfold month_names. rewrite month_matches_document by exact H.
  generalize (length pre). clear.
  induction ss as [|s ss IH]; intros off; [reflexivity|].
  cbn [month_hits map]. now rewrite IH.
Qed.

Lemma matched_hits (ss : list section) :
  forall (T P : string),
    T = P ++ sections_text ss ->
    map (matched T) (month_hits (length P) ss) = map section_text ss.
Proof.
  induction ss as [|s ss IH]; intros T P ->; [reflexivity|].
  cbn [month_hits map]. f_equal.
  - unfold matched. cbn [Regex.index last].
    rewrite sections_text_cons. apply substring_app.
  - rewrite <- length_append. apply IH.
    now rewrite sections_text_cons, append_assoc.
Qed.

Lemma month_sections_document (pre : string) (ss : list section) :
  wf_document pre ss ->
  month_sections (document pre ss) = map section_text ss.
Proof.
  intros H. unfold month_sections. rewrite month_matches_document by exact H.
  now apply matched_hits.
Qed.

(** ** The sections the engine extracts *)

Lemma map_get_app (k : string) (m1 m2 : Map) :
  map_get k (m1 ++ m2)%list
  = match map_get k m1 with
    | Some v => Some v
    | None => map_get k m2
    end.
Proof.
  induction m1 as [|[j v] m1 IH]; [reflexivity|]. cbn [app map_get].
  now destruct (String.eqb k j).
Qed.

Lemma map_set_fresh (k v : string) (m : Map) :
  map_get k m = None -> map_set k v m = (m ++ [(k, v)])%list.
Proof.
  induction m as [|[j w] m IH]; [reflexivity|]. cbn [map_get map_set app].
  destruct (String.eqb k j); [discriminate|]. intros H. now rewrite IH.
Qed.

Lemma descending_names (ss : list section) :
  descending (map month_number ss) -> NoDup (map name ss).
Proof.
  induction ss as [|s ss IH]; cbn [map]; intros H; [constructor|].
  inversion H as [|? ? Hs Hall]; subst. constructor; [|now apply IH].
  intros Hin. apply in_map_iff in Hin as (s' & E & Hin).
  rewrite Forall_forall in Hall.
  assert (month_number s > month_number s')%Z
    by (apply Hall, in_map_iff; now exists s').
  unfold month_number in *. rewrite E in *. lia.
Qed.

Lemma fold_hits (ss : list section) :
  forall (T P : string) (acc : Map),
    T = P ++ sections_text ss ->
    Forall wf_section ss -> NoDup (map name ss) ->
    (forall s, In s ss -> map_get (name s) acc = None) ->
    fold_left
      (fun monthSections m =>
         let monthName := group_text 1 m in
         let monthContent := matched T m in
         if existsb (String.eqb monthName) monthNames
         then map_set monthName monthContent monthSections
         else monthSections)
      (month_hits (length P) ss) acc
    = (acc ++ entries ss)%list.
Proof.
  induction ss as [|s ss IH]; intros T P acc HT Hwf Hnd Hacc.
  - simpl. now rewrite app_nil_r.
  - inversion Hwf as [|? ? Hs Hss]; subst.
    inversion Hnd as [|? ? Hnotin Hnd']; subst.
    cbn [month_hits fold_left]. cbv zeta.
    change (group_text 1
              {| Regex.index := length P;
                 last := length P + length (section_text s);
                 captures := [(2, body s); (1, name s)] |})
      with (name s).
    assert (E : existsb (String.eqb (name s)) monthNames = true).
    { apply existsb_exists. exists (name s). split; [apply Hs|].
      apply String.eqb_refl. }
    rewrite E.
    assert (M : matched (P ++ sections_text (s :: ss))
                  {| Regex.index := length P;
                     last := length P + length (section_text s);
                     captures := [(2, body s); (1, name s)] |}
                = section_text s).
    { unfold matched. cbn [Regex.index last]. rewrite sections_text_cons.
      apply substring_app. }
    rewrite M, map_set_fresh by (apply Hacc; now left).
    rewrite <- length_append.
    rewrite (IH _ (P ++ section_text s)); [| |exact Hss|exact Hnd'|].
    + now rewrite <- app_assoc.
    + now rewrite sections_text_cons, append_assoc.
    + intros s' Hin. rewrite map_get_app, Hacc by now right.
      cbn [map_get].
      destruct (String.eqb_spec (name s') (name s)) as [E'|_]; [|reflexivity].
      exfalso. apply Hnotin. rewrite <- E'. now apply in_map.
Qed.

Lemma extract_document (pre : string) (ss : list section) :
  wf_document pre ss ->
  extractMonthSections (document pre ss) = entries ss.
Proof.
  intros H. assert (H' := H). destruct H' as (_ & Hwf & Hd).
  unfold extractMonthSections.
  change (exec_all (S (length (document pre ss))) monthPattern
            (document pre ss) 0)
    with (month_matches (document pre ss)).
  rewrite month_matches_document by exact H.
  exact (fold_hits ss (document pre ss) pre [] eq_refl Hwf
           (descending_names _ Hd) (fun _ _ => eq_refl)).
Qed.

(** ** A laid-out document is ordered *)

Lemma sorted_map {A B : Type} (f : A -> B) (R : B -> B -> Prop)
    (S : A -> A -> Prop) (l : list A) :
  (forall a b, S a b -> R (f a) (f b)) ->
  StronglySorted S l -> StronglySorted R (map f l).
Proof.
  intros H. induction 1 as [|a l Hl IH Ha]; cbn [map]; constructor;
    [exact IH|].
  rewrite Forall_forall in *. intros y Hy.
  apply in_map_iff in Hy as (b & <- & Hb). auto.
Qed.

Lemma sorted_of_map {A B : Type} (f : A -> B) (R : B -> B -> Prop)
    (l : list A) :
  StronglySorted R (map f l) -> StronglySorted (fun a b => R (f a) (f b)) l.
Proof.
  induction l as [|a l IH]; cbn [map]; intros H; [constructor|].
  inversion H as [|? ? Hs Hall]; subst. constructor; [now apply IH|].
  rewrite Forall_forall in *. intros b Hb. apply Hall. now apply in_map.
Qed.

Lemma laid_out_ordered (doc : string) : laid_out doc -> ordered doc.
Proof.
  intros (pre & ss & Hwf & ->). assert (H := Hwf).
  destruct H as (_ & Hss & Hd). unfold ordered.
  rewrite month_names_document, month_sections_document by exact Hwf.
  repeat split.
  - rewrite Forall_forall in *. intros n Hn.
    apply in_map_iff in Hn as (s & <- & Hs). now apply Hss.
  - apply sorted_of_map in Hd.
    apply (sorted_map name _ _ ss) with (2 := Hd).
    intros a b Hab. unfold month_number in Hab. lia.
  - rewrite Forall_forall in *. intros text Ht.
    apply in_map_iff in Ht as (s & <- & Hs).
    specialize (Hss s Hs). rewrite week_labels_section by exact Hss.
    destruct Hss as (_ & _ & _ & _ & Hdesc).
    apply sorted_of_map in Hdesc.
    apply (sorted_map _ later _ _) with (2 := Hdesc).
    intros a b Hab. right. cbn [fst snd]. split; [reflexivity|lia].
Qed.

End DocFacts.


(** * Rebuilding a document from its sections *)
Module RebuildFacts.
Import Js Regex RegexSpec Confluence Layout.
Import StringFacts FormatFacts MapFacts RegexFacts QuietFacts PatternFacts.
Import ScanFacts DocFacts.
Import SortSpec FormatAux BackfillSpec MergeSpec PatternSpec ScanSpec.

Lemma month_index_inj (a b : string) :
  In a monthNames -> In b monthNames -> month_index a = month_index b ->
  a = b.
Proof.
  intros Ha Hb. revert b Hb. revert a Ha.
  apply (month_cases (fun a => forall b, In b monthNames ->
                                 month_index a = month_index b -> a = b));
    match goal with
    | |- forall b, In b monthNames -> month_index ?a = _ -> _ =>
        apply (month_cases (fun b => month_index a = month_index b -> a = b))
    end; intros H; try reflexivity; discriminate H.
Qed.

(** ** Looking a month up *)

Lemma map_get_entries_none (M : string) (ss : list section) :
  map_get M (entries ss) = None -> forall s, In s ss -> name s <> M.
Proof.
  induction ss as [|s ss IH]; cbn [entries map map_get]; intros H s' Hin;
    [contradiction|].
  destruct (String.eqb_spec M (name s)) as [E|E]; [discriminate|].
  destruct Hin as [<-|Hin]; [congruence|now apply IH].
Qed.

Lemma map_get_entries_some (M t : string) (ss : list section) :
  map_get M (entries ss) = Some t ->
  exists l1 s l2,
    ss = (l1 ++ s :: l2)%list /\ name s = M /\ t = section_text s
    /\ forall s', In s' l1 -> name s' <> M.
Proof.
  induction ss as [|s ss IH]; cbn [entries map map_get]; [discriminate|].
  destruct (String.eqb_spec M (name s)) as [E|E].
  - intros [= <-]. exists [], s, ss. repeat split; [now symmetry|].
    intros s' [].
  - intros H. destruct (IH H) as (l1 & s0 & l2 & -> & Hn & Ht & Hl1).
    exists (s :: l1), s0, l2. repeat split; try assumption.
    intros s' [<-|Hin]; [congruence|now apply Hl1].
Qed.

Lemma map_set_entries (l1 : list section) (s s' : section)
    (l2 : list section) :
  (forall x, In x l1 -> name x <> name s) -> name s' = name s ->
  map_set (name s) (section_text s') (entries (l1 ++ s :: l2))
  = entries (l1 ++ s' :: l2).
Proof.
  intros Hl1 E. induction l1 as [|x l1 IH]; cbn [app entries map map_set].
  - now rewrite String.eqb_refl, E.
  - destruct (String.eqb_spec (name s) (name x)) as [E'|_].
    + exfalso. apply (Hl1 x); [now left|now symmetry].
    + f_equal. apply IH. intros y Hy. apply Hl1. now right.
Qed.

(** ** Regenerating from sorted sections *)

Lemma regenerate_sorted (m : Map) :
  NoDup (map fst m) ->
  StronglySorted (fun a b => (by_month a b <= 0)%Z) (map fst m) ->
  regenerateOrderedContent m = String.concat "" (map snd m).
Proof.
  intros Hnd Hs. rewrite regenerate_concat. unfold map_keys.
  change (fun a b : string => (month_index b - month_index a)%Z)
    with by_month.
  rewrite sort_by_sorted by exact Hs. f_equal.
  rewrite map_map. apply map_ext_in. intros [k v] Hin. cbn [fst snd].
  now rewrite (map_get_in k v m Hnd Hin).
Qed.

Lemma regenerate_ext (m m' : Map) :
  (forall k, map_get k m = map_get k m') ->
  sort_by by_month (map_keys m) = sort_by by_month (map_keys m') ->
  regenerateOrderedContent m = regenerateOrderedContent m'.
Proof.
  intros Hget Hkeys. rewrite !regenerate_concat.
  change (fun a b : string => (month_index b - month_index a)%Z)
    with by_month.
  rewrite Hkeys. f_equal. apply map_ext. intros k. now rewrite Hget.
Qed.

Lemma entries_keys (ss : list section) : map fst (entries ss) = map name ss.
Proof. unfold entries. rewrite map_map. reflexivity. Qed.

Lemma entries_texts (ss : list section) :
  String.concat "" (map snd (entries ss)) = sections_text ss.
Proof. unfold entries, sections_text. now rewrite map_map. Qed.

Lemma names_sorted (ss : list section) :
  descending (map month_number ss) ->
  StronglySorted (fun a b => (by_month a b <= 0)%Z) (map name ss).
Proof.
  intros Hd. apply sorted_of_map in Hd.
  apply (sorted_map name _ _ ss) with (2 := Hd).
  intros a b Hab. unfold by_month, month_number in *. lia.
Qed.

Lemma regenerate_entries (ss : list section) :
  descending (map month_number ss) ->
  regenerateOrderedContent (entries ss) = sections_text ss.
Proof.
  intros Hd. rewrite regenerate_sorted, entries_texts; [reflexivity| |];
    rewrite entries_keys; [now apply descending_names|now apply names_sorted].
Qed.

(** ** The place of a new key *)

Lemma insert_front {A : Type} (cmp : A -> A -> Z) (a : A) (l : list A) :
  Forall (fun b => (cmp a b <= 0)%Z) l -> insert_by cmp a l = a :: l.
Proof.
  destruct l as [|b l]; [reflexivity|]. intros H.
  inversion H as [|? ? Hab _]; subst. cbn [insert_by].
  apply Z.leb_le in Hab. now rewrite Hab.
Qed.

Lemma sort_new_last {A : Type} (f : A -> Z) (l : list A) (x : A) :
  StronglySorted (fun a b => (f a > f b)%Z) l ->
  (forall a, In a l -> f a <> f x) ->
  exists l1 l2,
    l = (l1 ++ l2)%list
    /\ (forall a, In a l1 -> (f a > f x)%Z)
    /\ (forall b, In b l2 -> (f x > f b)%Z)
    /\ sort_by (fun a b => (f b - f a)%Z) (l ++ [x]) = (l1 ++ x :: l2)%list.
Proof.
  induction l as [|a l IH]; intros Hs Hne.
  - exists [], []. repeat split; intros ? [].
  - inversion Hs as [|? ? Hs' Hall]; subst.
    destruct IH as (l1 & l2 & E & H1 & H2 & Hsort);
      [exact Hs'|intros b Hb; apply Hne; now right|].
    change (sort_by (fun a b => (f b - f a)%Z) ((a :: l) ++ [x]))
      with (insert_by (fun a b => (f b - f a)%Z) a
              (sort_by (fun a b => (f b - f a)%Z) (l ++ [x]))).
    rewrite Hsort. rewrite Forall_forall in Hall.
    assert (Hax : f a <> f x) by (apply Hne; now left).
    destruct l1 as [|y l1].
    + cbn [app] in *. subst l. cbn [insert_by].
      destruct (Z.leb_spec (f x - f a) 0) as [Hle|Hgt].
      * exists [a], l2. repeat split; [|exact H2].
        intros b [<-|[]]. lia.
      * exists [], (a :: l2). repeat split; [intros ? []| |].
        -- intros b [<-|Hb]; [lia|now apply H2].
        -- cbn [app]. f_equal. apply insert_front.
           apply Forall_forall. intros b Hb. specialize (Hall b Hb). lia.
    + subst l. cbn [app insert_by].
      assert (Hy : (f a > f y)%Z) by (apply Hall; now left).
      assert (Hle : (f y - f a <=? 0)%Z = true) by (apply Z.leb_le; lia).
      rewrite Hle. exists (a :: y :: l1), l2. repeat split; [|exact H2].
      intros b [<-|Hb]; [|now apply H1].
      assert (f y > f x)%Z by (apply H1; now left). lia.
Qed.

End RebuildFacts.


(** * The layouts a merge builds *)
Module BuildFacts.
Import Js Regex RegexSpec Confluence Layout.
Import StringFacts FormatFacts MapFacts RegexFacts QuietFacts PatternFacts.
Import ScanFacts DocFacts RebuildFacts.
Import SortSpec FormatAux BackfillSpec MergeSpec PatternSpec ScanSpec.

(** ** Text added after the last week *)

Lemma weeks_text_pad (mm x : string) (ws : list week) :
  ws <> [] -> weeks_text mm (pad_last x ws) = weeks_text mm ws ++ x.
Proof.
  induction ws as [|w ws IH]; intros Hne; [contradiction|].
  destruct ws as [|w2 ws].
  - cbn [pad_last]. rewrite !weeks_text_cons. cbn [weeks_text map String.concat].
    rewrite !append_nil_r. unfold week_text, pad_week. cbn [day tail].
    now rewrite append_assoc.
  - change (pad_last x (w :: w2 :: ws)) with (w :: pad_last x (w2 :: ws)).
    rewrite !(weeks_text_cons mm w), IH by discriminate.
    now rewrite append_assoc.
Qed.

Lemma pad_last_days (x : string) (ws : list week) :
  map day_number (pad_last x ws) = map day_number ws.
Proof.
  induction ws as [|w ws IH]; [reflexivity|].
  destruct ws as [|w2 ws]; [reflexivity|].
  change (pad_last x (w :: w2 :: ws)) with (w :: pad_last x (w2 :: ws)).
  cbn [map] in *. now rewrite IH.
Qed.

Lemma pad_last_labels (x : string) (ws : list week) :
  map day (pad_last x ws) = map day ws.
Proof.
  induction ws as [|w ws IH]; [reflexivity|].
  destruct ws as [|w2 ws]; [reflexivity|].
  change (pad_last x (w :: w2 :: ws)) with (w :: pad_last x (w2 :: ws)).
  cbn [map] in *. now rewrite IH.
Qed.

Lemma pad_last_wf (x : string) (ws : list week) :
  quiet x = true -> safe_start x = true ->
  Forall wf_week ws -> Forall wf_week (pad_last x ws).
Proof.
  intros Hq Hs. induction ws as [|w ws IH]; intros H; [constructor|].
  inversion H as [|? ? Hw Hws]; subst.
  destruct ws as [|w2 ws].
  - constructor; [|constructor]. destruct Hw as [Hd Ht]. split; [exact Hd|].
    cbn [pad_week tail]. now apply quiet_app.
  - change (pad_last x (w :: w2 :: ws)) with (w :: pad_last x (w2 :: ws)).
    constructor; [exact Hw|now apply IH].
Qed.

Lemma pad_last_nonempty (x : string) (ws : list week) :
  ws <> [] -> pad_last x ws <> [].
Proof. destruct ws as [|w [|w2 ws]]; [contradiction|discriminate..]. Qed.

Lemma section_text_pad (x : string) (s : section) :
  weeks s <> [] -> section_text (pad_section x s) = section_text s ++ x.
Proof.
  intros H. rewrite !section_text_eq. unfold head, pad_section.
  cbn [name intro weeks]. rewrite weeks_text_pad by exact H.
  now rewrite !append_assoc.
Qed.

Lemma pad_section_wf (x : string) (s : section) :
  quiet x = true -> safe_start x = true ->
  wf_section s -> wf_section (pad_section x s).
Proof.
  intros Hq Hs (Hn & Hi & Hne & Hwf & Hd). unfold pad_section.
  repeat split; cbn [name intro weeks]; try assumption.
  - now apply pad_last_nonempty.
  - now apply pad_last_wf.
  - now rewrite pad_last_days.
Qed.

Lemma sections_text_pad (x : string) (ss : list section) :
  ss <> [] -> Forall wf_section ss ->
  sections_text (pad_sections x ss) = sections_text ss ++ x.
Proof.
  induction ss as [|s ss IH]; intros Hne Hwf; [contradiction|].
  inversion Hwf as [|? ? Hs Hss]; subst.
  destruct ss as [|s2 ss].
  - cbn [pad_sections]. rewrite !sections_text_cons.
    cbn [sections_text map String.concat]. rewrite !append_nil_r.
    apply section_text_pad, Hs.
  - change (pad_sections x (s :: s2 :: ss))
      with (s :: pad_sections x (s2 :: ss)).
    rewrite !(sections_text_cons s), IH by (discriminate || assumption).
    now rewrite append_assoc.
Qed.

Lemma pad_sections_months (x : string) (ss : list section) :
  map month_number (pad_sections x ss) = map month_number ss.
Proof.
  induction ss as [|s ss IH]; [reflexivity|].
  destruct ss as [|s2 ss]; [reflexivity|].
  change (pad_sections x (s :: s2 :: ss))
    with (s :: pad_sections x (s2 :: ss)).
  cbn [map] in *. now rewrite IH.
Qed.

Lemma pad_sections_wf (x : string) (ss : list section) :
  quiet x = true -> safe_start x = true ->
  Forall wf_section ss -> Forall wf_section (pad_sections x ss).
Proof.
  intros Hq Hs. induction ss as [|s ss IH]; intros H; [constructor|].
  inversion H as [|? ? Hw Hws]; subst.
  destruct ss as [|s2 ss].
  - constructor; [|constructor]. now apply pad_section_wf.
  - change (pad_sections x (s :: s2 :: ss))
      with (s :: pad_sections x (s2 :: ss)).
    constructor; [exact Hw|now apply IH].
Qed.

(** ** Keeping a list sorted *)

Lemma sorted_insert_mid {A : Type} (R : A -> A -> Prop) (l1 : list A)
    (x : A) (l2 : list A) :
  StronglySorted R (l1 ++ l2) ->
  Forall (fun a => R a x) l1 -> Forall (R x) l2 ->
  StronglySorted R (l1 ++ x :: l2).
Proof.
  induction l1 as [|a l1 IH]; cbn [app]; intros Hs H1 H2.
  - now constructor.
  - inversion Hs as [|? ? Hs' Hall]; subst.
    inversion H1 as [|? ? Hax H1']; subst.
    constructor; [now apply IH|].
    rewrite Forall_forall in *. intros b Hb.
    apply in_app_or in Hb as [Hb|[<-|Hb]]; [| exact Hax |];
      apply Hall, in_or_app; [now left|now right].
Qed.

(** ** Numbers of two digits *)

Lemma digit_code (c : ascii) : is_digit c = true -> 48 <= code c <= 57.
Proof.
  unfold is_digit, in_range. intros H. apply andb_true_iff in H as [H1 H2].
  apply Nat.leb_le in H1, H2. lia.
Qed.

Lemma parseInt_inj (d d' : string) :
  two_digit d = true -> two_digit d' = true ->
  parseInt d = parseInt d' -> d = d'.
Proof.
  intros Hd Hd'.
  apply two_digit_inv in Hd as (a & b & -> & Ha & Hb).
  apply two_digit_inv in Hd' as (a' & b' & -> & Ha' & Hb').
  apply digit_code in Ha, Hb, Ha', Hb'.
  unfold parseInt. cbn [digits_value]. intros H.
  assert (code a = code a' /\ code b = code b') as [E1 E2] by lia.
  apply code_inj in E1, E2. now subst.
Qed.

Lemma digit_listed (c : ascii) :
  is_digit c = true -> In c (list_ascii_of_string "0123456789").
Proof.
  destruct c as [[] [] [] [] [] [] [] []]; try discriminate;
    intros _; cbn; tauto.
Qed.

(** The number a label of two digits converts to, and the month index it
    gives. *)
Lemma Number_two_digit (d : string) :
  two_digit d = true ->
  to_integer (Number d) = Some (parseInt d)
  /\ to_integer (minus_one (Number d)) = Some (parseInt d - 1)%Z.
Proof.
  intros Hd. apply two_digit_inv in Hd as (a & b & -> & Ha & Hb).
  apply digit_listed in Ha, Hb. cbn [list_ascii_of_string In] in Ha, Hb.
  destruct Ha as [<-|[<-|[<-|[<-|[<-|[<-|[<-|[<-|[<-|[<-|[]]]]]]]]]]];
    destruct Hb as [<-|[<-|[<-|[<-|[<-|[<-|[<-|[<-|[<-|[<-|[]]]]]]]]]]];
    vm_compute; split; reflexivity.
Qed.

Lemma split_label (a b : ascii) (mm : string) :
  is_digit a = true -> is_digit b = true -> two_digit mm = true ->
  split_char "/" (String a (String b (String "/" mm))) ""
  = [String a (String b ""); mm].
Proof.
  intros Ha Hb Hm. apply two_digit_inv in Hm as (c & e & -> & Hc & He).
  apply digit_cases in Ha as (_ & Ha & _), Hb as (_ & Hb & _),
      Hc as (_ & Hc & _), He as (_ & He & _).
  cbn [split_char]. rewrite Ha, Hb, Hc, He. reflexivity.
Qed.

(** ** The blocks the engine writes *)

Lemma quiet_user_then (displayName formattedContent x : string) :
  quiet displayName = true -> quiet formattedContent = true ->
  quiet x = true ->
  quiet (createUserSection displayName formattedContent ++ x) = true.
Proof.
  intros Hn Hb Hx. unfold createUserSection. rewrite !append_assoc.
  change (nl ++ "<h3>" ++ displayName ++ "</h3>" ++ nl
          ++ formattedContent ++ nl ++ nl ++ x)
    with ((nl ++ "<h3") ++ String ">"
            (displayName ++ "</h3>" ++ nl ++ formattedContent
             ++ nl ++ nl ++ x)).
  apply quiet_app_closed; [reflexivity|reflexivity|].
  apply quiet_app; [exact Hn| |reflexivity].
  change ("</h3>" ++ nl ++ formattedContent ++ nl ++ nl ++ x)
    with ("</h3>" ++ String (ascii_of_nat 10)
                       (formattedContent ++ nl ++ nl ++ x)).
  apply quiet_app_closed; [reflexivity|reflexivity|].
  apply quiet_app; [exact Hb| |reflexivity].
  unfold nl. cbn [append]. now rewrite !quiet_skip by reflexivity.
Qed.

Lemma quiet_user (displayName formattedContent : string) :
  quiet displayName = true -> quiet formattedContent = true ->
  quiet (createUserSection displayName formattedContent) = true.
Proof.
  intros Hn Hb. rewrite <- (append_nil_r (createUserSection _ _)).
  now apply quiet_user_then.
Qed.

Lemma new_week_wf (d displayName formattedContent : string) :
  two_digit d = true -> quiet displayName = true ->
  quiet formattedContent = true ->
  wf_week (new_week d displayName formattedContent).
Proof. intros Hd Hn Hb. split; [exact Hd|now apply quiet_user]. Qed.

Lemma createWeekSection_eq (a b : ascii) (mm displayName
    formattedContent : string) :
  two_digit mm = true ->
  createWeekSection (String a (String b (String "/" mm))) displayName
    formattedContent
  = nl ++ week_text mm
            (new_week (String a (String b "")) displayName formattedContent).
Proof.
  intros Hm. apply two_digit_inv in Hm as (c & e & -> & _). reflexivity.
Qed.

Lemma createFullSection_eq (a b : ascii) (month displayName
    formattedContent : string) :
  two_digit (mm_of month) = true ->
  createFullSection month (String a (String b (String "/" (mm_of month))))
    displayName formattedContent
  = nl ++ section_text
            {| name := month; intro := nl;
               weeks := [new_week (String a (String b "")) displayName
                           formattedContent] |}.
Proof.
  intros Hm. unfold createFullSection, section_text. cbn [name intro weeks].
  rewrite weeks_text_cons. cbn [weeks_text map String.concat].
  rewrite append_nil_r.
  apply two_digit_inv in Hm as (c & e & -> & _).
  unfold week_text, heading2, new_week, createUserSection. cbn [day tail].
  now rewrite !append_assoc.
Qed.

(** ** A user block under an existing week *)

Lemma add_user_block (s : section) (ws1 : list week) (w : week)
    (ws2 : list week) (displayName formattedContent : string) :
  wf_section s -> weeks s = (ws1 ++ w :: ws2)%list ->
  quiet displayName = true -> quiet formattedContent = true ->
  let mm := mm_of (name s) in
  let part0 := head s ++ weeks_text mm ws1 in
  let afterWeekHeading := tail w ++ weeks_text mm ws2 in
  let userSection := createUserSection displayName formattedContent in
  exists s',
    name s' = name s /\ wf_section s'
    /\ map day (weeks s') = map day (weeks s)
    /\ match exec anyHeading afterWeekHeading 0 with
       | Some nextHeadingMatch =>
           let insertPoint := Regex.index nextHeadingMatch in
           part0 ++ heading2 (day w) mm
           ++ substring 0 insertPoint afterWeekHeading
           ++ userSection
           ++ substring_from insertPoint afterWeekHeading
       | None =>
           part0 ++ heading2 (day w) mm ++ afterWeekHeading ++ userSection
       end
       = section_text s'.
Proof.
  intros Hs E Hn Hb mm part0 after userSection.
  assert (Hs' := Hs). destruct Hs' as (Hname & Hq & Hne & Hwf & Hd).
  rewrite E in Hwf, Hd.
  assert (Hw : wf_week w) by (rewrite Forall_forall in Hwf; apply Hwf, in_elt).
  assert (shape : forall ip, ip <= length (tail w) ->
            exists s', name s' = name s /\ wf_section s'
              /\ map day (weeks s') = map day (weeks s)
              /\ part0 ++ heading2 (day w) mm ++ take ip after ++ userSection
                 ++ drop ip after = section_text s').
  { intros ip Hip.
    exists {| name := name s; intro := intro s;
              weeks := ws1 ++ {| day := day w;
                                 tail := take ip (tail w) ++ userSection
                                         ++ drop ip (tail w) |} :: ws2 |}.
    split; [reflexivity|]. split.
    - repeat split; cbn [name intro weeks]; try assumption.
      + now destruct ws1.
      + apply Forall_app in Hwf as [H1 H2].
        inversion H2 as [|? ? _ H2']; subst.
        apply Forall_app. split; [exact H1|]. constructor; [|exact H2'].
        split; [apply Hw|]. cbn [tail].
        apply quiet_app; [apply quiet_take, Hw| |reflexivity].
        apply quiet_user_then; try assumption. apply quiet_drop, Hw.
      + rewrite map_app in *. exact Hd.
    - split; [cbn [weeks]; now rewrite E, !map_app|].
      rewrite section_text_eq. cbn [name intro weeks]. fold mm.
      rewrite weeks_text_app, weeks_text_cons.
      unfold week_text, part0, after, head. cbn [day tail name intro].
      rewrite take_app_le, drop_app_le by exact Hip.
      now rewrite !append_assoc. }
  pose proof (user_insert_point mm w ws2) as Hpoint. fold after in Hpoint.
  destruct (exec anyHeading after 0) as [m|].
  - cbv zeta. rewrite substring_0. unfold substring_from.
    now apply shape.
  - subst ws2. destruct (shape (length (tail w)) (Nat.le_refl _))
      as (s' & H1 & H2 & H4 & H3).
    exists s'. split; [exact H1|]. split; [exact H2|]. split; [exact H4|].
    rewrite <- H3.
    unfold after. cbn [weeks_text map String.concat].
    rewrite append_nil_r, take_all, drop_all by lia.
    now rewrite append_nil_r.
Qed.

End BuildFacts.


(** * A merge keeps the layout *)
Module MergeFacts.
Import Js Regex RegexSpec Confluence Layout.
Import StringFacts FormatFacts MapFacts RegexFacts QuietFacts PatternFacts.
Import ScanFacts DocFacts RebuildFacts BuildFacts.
Import SortSpec FormatAux BackfillSpec MergeSpec PatternSpec ScanSpec.

Lemma find_week (ws : list week) (d : string) :
  (exists ws1 w ws2, ws = (ws1 ++ w :: ws2)%list /\ day w = d)
  \/ (forall w, In w ws -> day w <> d).
Proof.
  induction ws as [|w ws IH]; [right; intros ? []|].
  destruct (string_dec (day w) d) as [E|E].
  - left. now exists [], w, ws.
  - destruct IH as [(ws1 & w' & ws2 & -> & E')|H].
    + left. now exists (w :: ws1), w', ws2.
    + right. intros w' [<-|Hin]; [exact E|now apply H].
Qed.

Lemma heading_text_eq (a b : ascii) (mm x : string) :
  "<h2>w/e " ++ String a (String b (String "/" mm)) ++ "</h2>" ++ x
  = heading2 (String a (String b "")) mm ++ x.
Proof. unfold heading2. cbn [append]. now rewrite !append_assoc. Qed.

(** ** A new week in an existing month *)

Lemma add_new_week (now : Clock) (s : section) (a b : ascii)
    (displayName formattedContent : string) (h1EndIndex : nat) :
  one_day now ->
  wf_section s -> is_digit a = true -> is_digit b = true ->
  quiet displayName = true -> quiet formattedContent = true ->
  (forall w, In w (weeks s) -> day w <> String a (String b "")) ->
  exists s',
    name s' = name s /\ wf_section s'
    /\ placed (String a (String b "")) (map day (weeks s))
         (map day (weeks s'))
    /\ let insertPosition :=
         insert_position (section_text s)
           (label_date
              (now (List.length (weekHeadings_of now (section_text s))))
              (Some (parseInt (String a (String b ""))))
              (Some (parseInt (mm_of (name s)) - 1)%Z))
           (sort_by newest_first (weekHeadings_of now (section_text s)))
           h1EndIndex in
       substring 0 insertPosition (section_text s)
       ++ createWeekSection (String a (String b (String "/" (mm_of (name s)))))
            displayName formattedContent
       ++ substring_from insertPosition (section_text s)
       = section_text s'.
Proof.
  intros Hone Hs Ha Hb Hn Hbody Habs.
  assert (Hs' := Hs). destruct Hs' as (Hname & Hq & Hne & Hwf & Hd).
  set (mm := mm_of (name s)) in *. set (d := String a (String b "")) in *.
  assert (Hm : two_digit mm = true) by now apply mm_of_two_digit.
  assert (Hdd : two_digit d = true) by (unfold d; cbn; now rewrite Ha, Hb).
  pose proof (label_date_day now (parseInt mm - 1) Hone) as HK.
  assert (Hdiff : Forall (fun w => day_number w <> parseInt d) (weeks s)).
  { apply Forall_forall. intros w Hw Heq. apply (Habs w Hw).
    rewrite Forall_forall in Hwf.
    apply parseInt_inj; [apply Hwf, Hw|exact Hdd|exact Heq]. }
  set (n := List.length (weekHeadings_of now (section_text s))).
  destruct (insert_position_weeks now mm (parseInt d)
              (label_base (now 0%nat / msPerDay) (parseInt mm - 1))
              (now n mod msPerDay) (section_text s)
              Hm HK (Z.mod_pos_bound (now n) msPerDay eq_refl)
              (weeks s) (head s) 0 h1EndIndex Hne Hwf Hdiff
              (section_text_eq s))
    as (ws1 & ws2 & E & H1 & H2 & Hip).
  rewrite weekHeadings_of_section, heads_sorted by assumption.
  fold mm. rewrite HK, Hip. clear Hip. cbv zeta.
  assert (ET : section_text s = (head s ++ weeks_text mm ws1)
                                ++ weeks_text mm ws2).
  { rewrite section_text_eq, E. fold mm.
    now rewrite weeks_text_app, append_assoc. }
  rewrite substring_0, <- length_append. unfold substring_from.
  rewrite ET, take_app_length, drop_app_length, createWeekSection_eq
    by exact Hm.
  fold d. set (wnew := new_week d displayName formattedContent).
  assert (Hwnew : wf_week wnew) by now apply new_week_wf.
  rewrite E in Hwf, Hd, Habs. apply Forall_app in Hwf as [Hwf1 Hwf2].
  assert (G1 : Forall (fun x => (x > day_number wnew)%Z) (map day_number ws1)).
  { apply Forall_forall. intros x Hx.
    apply in_map_iff in Hx as (w & <- & Hw).
    rewrite Forall_forall in H1, Hwf1. specialize (H1 w Hw).
    assert (day_number w <> parseInt d).
    { intros Heq. apply (Habs w); [apply in_or_app; now left|].
      apply parseInt_inj; [apply Hwf1, Hw|exact Hdd|exact Heq]. }
    change (day_number wnew) with (parseInt d). lia. }
  assert (G2 : Forall (Z.gt (day_number wnew)) (map day_number ws2)).
  { change (day_number wnew) with (parseInt d).
    destruct ws2 as [|w2 ws2]; [constructor|].
    rewrite map_app in Hd. cbn [map] in *.
    apply sorted_app_inv in Hd as [_ Hd].
    constructor; [lia|].
    rewrite Forall_forall in *. intros x Hx. specialize (Hd x Hx). lia. }
  assert (Hsorted : forall ws1',
             map day_number ws1' = map day_number ws1 ->
             descending (map day_number (ws1' ++ wnew :: ws2))).
  { intros ws1' E1. rewrite map_app. cbn [map]. rewrite E1.
    apply sorted_insert_mid; [|exact G1|exact G2].
    now rewrite <- map_app. }
  destruct ws1 as [|w1 ws1].
  - exists {| name := name s; intro := intro s ++ nl;
              weeks := wnew :: ws2 |}.
    split; [reflexivity|]. split.
    + repeat split; cbn [name intro weeks]; try assumption.
      * now apply quiet_app.
      * discriminate.
      * now constructor.
      * now apply (Hsorted []).
    + split.
      { exists [], (map day ws2). rewrite E. split; reflexivity. }
      rewrite section_text_eq. unfold head. cbn [name intro weeks].
      fold mm. rewrite weeks_text_cons.
      cbn [weeks_text map String.concat]. now rewrite !append_assoc.
  - exists {| name := name s; intro := intro s;
              weeks := (pad_last nl (w1 :: ws1) ++ wnew :: ws2)%list |}.
    split; [reflexivity|]. split.
    + repeat split; cbn [name intro weeks]; try assumption.
      * intros H. apply app_eq_nil in H as [_ H]. discriminate.
      * apply Forall_app. split; [now apply pad_last_wf|now constructor].
      * apply Hsorted, pad_last_days.
    + split.
      { exists (map day (w1 :: ws1)), (map day ws2). cbn [weeks].
        rewrite E, !map_app, pad_last_labels. split; reflexivity. }
      rewrite section_text_eq. unfold head. cbn [name intro weeks].
      fold mm. rewrite weeks_text_app, weeks_text_pad by discriminate.
      rewrite !weeks_text_cons, !append_assoc. reflexivity.
Qed.

(** ** A new month *)

Lemma add_new_month (ss : list section) (M t : string) (snew : section) :
  Forall wf_section ss -> descending (map month_number ss) ->
  wf_section snew -> name snew = M ->
  map_get M (entries ss) = None ->
  t = nl ++ section_text snew ->
  laid_out (regenerateOrderedContent (map_set M t (entries ss))).
Proof.
  intros Hwf Hd Hnew HM Hget ->.
  assert (Hnames := map_get_entries_none _ _ Hget).
  rewrite map_set_fresh by exact Hget.
  destruct (sort_new_last month_index (map name ss) M)
    as (k1 & k2 & E & H1 & H2 & Hsort).
  { apply sorted_of_map in Hd. now apply (sorted_map name _ _ ss) with (2 := Hd). }
  { intros k Hk Heq. apply in_map_iff in Hk as (s & <- & Hs).
    apply (Hnames s Hs). rewrite Forall_forall in Hwf.
    apply month_index_inj; [apply (Hwf s Hs)| |exact Heq].
    rewrite <- HM. apply Hnew. }
  apply map_eq_app in E as (l1 & l2 & -> & <- & <-).
  set (t := nl ++ section_text snew).
  assert (Hd' : descending (map month_number (l1 ++ snew :: l2))).
  { rewrite map_app. cbn [map]. apply sorted_insert_mid.
    - now rewrite <- map_app.
    - apply Forall_forall. intros x Hx.
      apply in_map_iff in Hx as (s & <- & Hs).
      unfold month_number. rewrite HM.
      apply H1, in_map_iff. now exists s.
    - apply Forall_forall. intros x Hx.
      apply in_map_iff in Hx as (s & <- & Hs).
      unfold month_number. rewrite HM.
      apply H2, in_map_iff. now exists s. }
  assert (Hrebuilt :
            regenerateOrderedContent (entries (l1 ++ l2) ++ [(M, t)])%list
            = sections_text l1 ++ t ++ sections_text l2).
  { rewrite (regenerate_ext _ (entries l1 ++ (M, t) :: entries l2)%list).
    - rewrite regenerate_sorted.
      + rewrite map_app. cbn [map snd]. rewrite concat_app, concat_cons.
        now rewrite !entries_texts.
      + rewrite map_app. cbn [map fst]. rewrite !entries_keys, <- HM.
        change (map name l1 ++ name snew :: map name l2)%list
          with (map name l1 ++ map name (snew :: l2))%list.
        rewrite <- map_app. now apply descending_names.
      + rewrite map_app. cbn [map fst]. rewrite !entries_keys, <- HM.
        change (map name l1 ++ name snew :: map name l2)%list
          with (map name l1 ++ map name (snew :: l2))%list.
        rewrite <- map_app. now apply names_sorted.
    - intros k. unfold entries. rewrite map_app, <- !app_assoc.
      fold (entries l1). fold (entries l2).
      rewrite !map_get_app. destruct (map_get k (entries l1)); [reflexivity|].
      cbn [map_get app].
      destruct (String.eqb_spec k M) as [->|_].
      + assert (G : map_get M (entries l2) = None).
        { unfold entries in Hget. rewrite map_app in Hget.
          fold (entries l1) in Hget. fold (entries l2) in Hget.
          rewrite map_get_app in Hget.
          now destruct (map_get M (entries l1)). }
        now rewrite G.
      + now destruct (map_get k (entries l2)).
    - unfold map_keys. rewrite !map_app. cbn [map fst].
      rewrite !entries_keys.
      change (sort_by by_month (map name (l1 ++ l2) ++ [M]))
        with (sort_by (fun a b : string => (month_index b - month_index a)%Z)
                (map name (l1 ++ l2) ++ [M])).
      rewrite Hsort. symmetry. apply sort_by_sorted.
      rewrite <- HM.
      change (map name l1 ++ name snew :: map name l2)%list
        with (map name l1 ++ map name (snew :: l2))%list.
      rewrite <- map_app. now apply names_sorted. }
  rewrite Hrebuilt. unfold t.
  apply Forall_app in Hwf as [Hwf1 Hwf2].
  destruct l1 as [|s1 l1].
  - exists nl, (snew :: l2). split.
    + split; [now right|]. split; [now constructor|exact Hd'].
    + unfold document. fold (sections_text (snew :: l2)).
      rewrite sections_text_cons. cbn [sections_text map String.concat].
      now rewrite !append_assoc.
  - exists "", (pad_sections nl (s1 :: l1) ++ snew :: l2)%list. split.
    + split; [now left|]. split.
      * apply Forall_app. split; [now apply pad_sections_wf|now constructor].
      * rewrite map_app, pad_sections_months, <- map_app. exact Hd'.
    + unfold document.
      fold (sections_text (pad_sections nl (s1 :: l1) ++ snew :: l2)%list).
      rewrite sections_text_app, sections_text_pad by (discriminate || assumption).
      rewrite (sections_text_cons snew), !append_assoc. reflexivity.
Qed.

(** ** All cases of a merge *)

Lemma consistent_inv (info : weekInfo) :
  consistent info = true ->
  In (month info) monthNames
  /\ exists a b,
       is_digit a = true /\ is_digit b = true
       /\ weekEndDate info
          = String a (String b (String "/" (mm_of (month info)))).
Proof.
  unfold consistent. intros H. apply andb_true_iff in H as [Hm Hw]. split.
  - apply existsb_exists in Hm as (x & Hx & E).
    apply String.eqb_eq in E. now subst x.
  - destruct (weekEndDate info) as [|a [|b [|c mm]]]; try discriminate.
    destruct (Ascii.eqb_spec c "/") as [->|Hc].
    + apply andb_true_iff in Hw as [Hab E].
      apply andb_true_iff in Hab as [Ha Hb].
      apply String.eqb_eq in E. subst mm. now exists a, b.
    + exfalso. destruct c as [[] [] [] [] [] [] [] []];
        try discriminate Hw. now apply Hc.
Qed.

Lemma map_get_entries_mid (l1 : list section) (s : section)
    (l2 : list section) :
  (forall x, In x l1 -> name x <> name s) ->
  map_get (name s) (entries (l1 ++ s :: l2)) = Some (section_text s).
Proof.
  intros H. induction l1 as [|x l1 IH]; cbn [app entries map map_get].
  - now rewrite String.eqb_refl.
  - destruct (String.eqb_spec (name s) (name x)) as [E|_].
    + exfalso. apply (H x); [now left|now symmetry].
    + apply IH. intros y Hy. apply H. now right.
Qed.

Lemma names_before (l1 : list section) (s : section) (l2 : list section) :
  descending (map month_number (l1 ++ s :: l2)) ->
  forall x, In x l1 -> name x <> name s.
Proof.
  rewrite map_app. cbn [map]. intros H x Hx E.
  apply sorted_app_inv in H as [H _]. rewrite Forall_forall in H.
  assert (month_number x > month_number s)%Z
    by (apply H, in_map_iff; now exists x).
  unfold month_number in *. rewrite E in *. lia.
Qed.

Lemma replaced_wf (pre : string) (l1 : list section) (s s' : section)
    (l2 : list section) :
  Forall wf_section (l1 ++ s :: l2) ->
  descending (map month_number (l1 ++ s :: l2)) ->
  name s' = name s -> wf_section s' ->
  wf_document "" (l1 ++ s' :: l2).
Proof.
  intros Hwf Hd E Hs'. split; [now left|]. split.
  - apply Forall_app in Hwf as [H1 H2]. inversion H2; subst.
    apply Forall_app. split; [exact H1|now constructor].
  - rewrite map_app in *. cbn [map] in *. unfold month_number at 2.
    rewrite E. exact Hd.
Qed.

(** The merge of a request for a month the document has. *)
Lemma add_existing (now : Clock) (l1 : list section) (s : section)
    (l2 : list section) (displayName formattedContent : string)
    (a b : ascii) (m' : Map) :
  one_day now ->
  Forall wf_section (l1 ++ s :: l2) ->
  descending (map month_number (l1 ++ s :: l2)) ->
  is_digit a = true -> is_digit b = true ->
  quiet displayName = true -> quiet formattedContent = true ->
  addContentToMonthSections now (entries (l1 ++ s :: l2)) (name s)
    (String a (String b (String "/" (mm_of (name s)))))
    displayName formattedContent = Ok m' ->
  exists s',
    name s' = name s /\ wf_section s'
    /\ m' = entries (l1 ++ s' :: l2)
    /\ (map day (weeks s') = map day (weeks s)
        \/ placed (String a (String b "")) (map day (weeks s))
             (map day (weeks s'))).
Proof.
  intros Hone Hwf Hd Ha Hb' Hn Hb.
  assert (Hs : wf_section s)
    by (rewrite Forall_forall in Hwf; apply Hwf, in_elt).
  assert (Hmm : two_digit (mm_of (name s)) = true)
    by (apply mm_of_two_digit, Hs).
  assert (Hl1 := names_before _ _ _ Hd).
  unfold addContentToMonthSections.
  rewrite map_get_entries_mid by exact Hl1.
  rewrite weekPattern_compiles by assumption. cbn [rbind].
  destruct (newRegExp _ "s") as [userPattern|e]; cbn [rbind];
    [|discriminate].
  destruct (test userPattern (section_text s)).
  { intros [= <-]. exists s. split; [reflexivity|]. split; [exact Hs|].
    split; [reflexivity|now left]. }
  destruct (find_week (weeks s) (String a (String b "")))
    as [(ws1 & w & ws2 & E & Ed)|Habs].
  - rewrite <- Ed.
    destruct (week_present s ws1 w ws2 Hs E) as [Htest Hsplit].
    rewrite Htest, Hsplit.
    destruct (add_user_block s ws1 w ws2 displayName formattedContent
                Hs E Hn Hb) as (s' & En & Hs' & Hdays & Htext).
    cbv zeta in Htext. rewrite Ed in Htext.
    destruct (exec anyHeading (tail w ++ weeks_text (mm_of (name s)) ws2) 0);
      rewrite heading_text_eq, Htext; intros [= <-];
      (exists s'; split; [exact En|]; split; [exact Hs'|];
       split; [now apply map_set_entries|now left]).
  - rewrite week_absent_test;
      [|exact Hs|cbn; now rewrite Ha, Hb'|exact Habs].
    rewrite split_label by assumption. cbn [map].
    assert (Hab : two_digit (String a (String b "")) = true)
      by (cbn; now rewrite Ha, Hb').
    rewrite (proj1 (Number_two_digit _ Hab)),
      (proj2 (Number_two_digit _ Hmm)).
    destruct (add_new_week now s a b displayName formattedContent
                (match indexOf "</h1>" (section_text s) with
                 | Some i => i + 5
                 | None => 4
                 end) Hone Hs Ha Hb' Hn Hb Habs)
      as (s' & En & Hs' & Hplaced & Htext).
    cbv zeta in Htext. rewrite Htext. intros [= <-].
    exists s'. split; [exact En|]. split; [exact Hs'|].
    split; [now apply map_set_entries|now right].
Qed.

Lemma add_laid_out (now : Clock) (ss : list section)
    (displayName formattedContent : string) (info : weekInfo) (m' : Map) :
  one_day now ->
  Forall wf_section ss -> descending (map month_number ss) ->
  consistent info = true ->
  quiet displayName = true -> quiet formattedContent = true ->
  addContentToMonthSections now (entries ss) (month info) (weekEndDate info)
    displayName formattedContent = Ok m' ->
  laid_out (regenerateOrderedContent m').
Proof.
  intros Hone Hwf Hd Hinfo Hn Hb.
  destruct (consistent_inv _ Hinfo) as (HM & a & b & Ha & Hb' & ->).
  set (M := month info) in *.
  assert (Hmm : two_digit (mm_of M) = true) by now apply mm_of_two_digit.
  destruct (map_get M (entries ss)) as [monthContent|] eqn:Eget.
  - apply map_get_entries_some in Eget as (l1 & s & l2 & -> & Es & _).
    rewrite <- Es. intros H.
    apply add_existing in H as (s' & En & Hs' & -> & _); try assumption.
    pose proof (replaced_wf "" l1 s s' l2 Hwf Hd En Hs') as Hdoc.
    rewrite regenerate_entries by apply Hdoc.
    exists "", (l1 ++ s' :: l2)%list. split; [exact Hdoc|reflexivity].
  - unfold addContentToMonthSections. rewrite Eget.
    intros [= <-]. rewrite createFullSection_eq by exact Hmm.
    apply (add_new_month ss M _
             {| name := M; intro := nl;
                weeks := [new_week (String a (String b "")) displayName
                            formattedContent] |});
      [exact Hwf|exact Hd| |reflexivity|exact Eget|reflexivity].
    repeat split; cbn [name intro weeks].
    + exact HM.
    + discriminate.
    + constructor; [|constructor].
      apply new_week_wf; [cbn; now rewrite Ha, Hb'|exact Hn|exact Hb].
    + repeat constructor.
Qed.

(** A merge keeps a laid-out document laid out. *)
Lemma merge_laid_out (this : ConfluenceService) (now : Clock)
    (doc formattedContent : string) (info : weekInfo) (u : updated) :
  one_day now ->
  laid_out doc -> consistent info = true ->
  quiet (confluenceDisplayName this) = true ->
  quiet formattedContent = true ->
  prepareUpdatedContent this now doc formattedContent info = Ok u ->
  laid_out (updatedContent u).
Proof.
  intros Hone Hdoc Hinfo Hn Hb. unfold prepareUpdatedContent.
  destruct (newRegExp (monthHeadingSource (month info)) "i")
    as [monthHeadingPattern|e]; cbn [rbind]; [|discriminate].
  destruct (newRegExp (weekHeadingSource (weekEndDate info)) "i")
    as [weekHeadingPattern|e]; cbn [rbind]; [|discriminate].
  destruct (newRegExp _ "s") as [userHeadingPattern|e]; cbn [rbind];
    [|discriminate].
  destruct (test userHeadingPattern doc); [now intros [= <-]|].
  destruct Hdoc as (pre & ss & Hwf & ->).
  rewrite extract_document by exact Hwf.
  destruct (addContentToMonthSections now (entries ss) (month info)
              (weekEndDate info) (confluenceDisplayName this)
              formattedContent) as [m'|e] eqn:Eadd; cbn [rbind];
    [|discriminate].
  intros [= <-]. cbn [updatedContent].
  destruct Hwf as (_ & Hss & Hd).
  now apply (add_laid_out now ss (confluenceDisplayName this)
               formattedContent info m' Hone).
Qed.

Lemma produced_laid_out (doc : string) : produced doc -> laid_out doc.
Proof.
  induction 1
    as [|doc this now formattedContent info u _ IH Hi Hn Hb Hone Hu].
  - exists "", []. split; [|reflexivity].
    split; [now left|]. split; constructor.
  - now apply (merge_laid_out this now doc formattedContent info u Hone).
Qed.

(** ** The place of a week in a month the document has *)

Lemma merge_existing (this : ConfluenceService) (now : Clock)
    (pre : string)
    (l1 : list section) (s : section) (l2 : list section)
    (formattedContent : string) (a b : ascii) (u : updated) :
  one_day now ->
  wf_document pre (l1 ++ s :: l2) ->
  is_digit a = true -> is_digit b = true ->
  quiet (confluenceDisplayName this) = true ->
  quiet formattedContent = true ->
  prepareUpdatedContent this now (document pre (l1 ++ s :: l2))
    formattedContent
    {| month := name s;
       weekEndDate := String a (String b (String "/" (mm_of (name s)))) |}
  = Ok u ->
  updatedContent u = document pre (l1 ++ s :: l2)
  \/ exists s',
       name s' = name s /\ wf_section s'
       /\ updatedContent u = document "" (l1 ++ s' :: l2)
       /\ (map day (weeks s') = map day (weeks s)
           \/ placed (String a (String b "")) (map day (weeks s))
                (map day (weeks s'))).
Proof.
  intros Hone Hwf Ha Hb' Hn Hb. unfold prepareUpdatedContent.
  cbn [month weekEndDate].
  destruct (newRegExp (monthHeadingSource (name s)) "i")
    as [monthHeadingPattern|e]; cbn [rbind]; [|discriminate].
  destruct (newRegExp (weekHeadingSource _) "i")
    as [weekHeadingPattern|e]; cbn [rbind]; [|discriminate].
  destruct (newRegExp _ "s") as [userHeadingPattern|e]; cbn [rbind];
    [|discriminate].
  destruct (test userHeadingPattern (document pre (l1 ++ s :: l2)));
    [intros [= <-]; left; reflexivity|].
  rewrite extract_document by exact Hwf.
  destruct Hwf as (_ & Hss & Hd).
  destruct (addContentToMonthSections now (entries (l1 ++ s :: l2)) (name s)
              (String a (String b (String "/" (mm_of (name s)))))
              (confluenceDisplayName this) formattedContent)
    as [m'|e] eqn:Eadd; cbn [rbind]; [|discriminate].
  intros [= <-]. cbn [updatedContent]. right.
  apply add_existing in Eadd as (s' & En & Hs' & -> & Hdays);
    try assumption.
  exists s'. split; [exact En|]. split; [exact Hs'|]. split; [|exact Hdays].
  apply regenerate_entries.
  apply (replaced_wf "" l1 s s' l2 Hss Hd En Hs').
Qed.

Lemma day_numbers (ws : list week) :
  map day_number ws = map parseInt (map day ws).
Proof. now rewrite map_map. Qed.

(** With one week in the month, a week of an earlier date goes after it and
    a week of a later date before it. *)
Lemma single_week_placement (this : ConfluenceService) (now : Clock)
    (pre : string) (l1 : list section) (s : section) (l2 : list section)
    (w : week) (formattedContent : string) (a b : ascii) (u : updated) :
  one_day now ->
  wf_document pre (l1 ++ s :: l2) -> weeks s = [w] ->
  is_digit a = true -> is_digit b = true ->
  quiet (confluenceDisplayName this) = true ->
  quiet formattedContent = true ->
  prepareUpdatedContent this now (document pre (l1 ++ s :: l2))
    formattedContent
    {| month := name s;
       weekEndDate := String a (String b (String "/" (mm_of (name s)))) |}
  = Ok u ->
  let d := String a (String b "") in
  updatedContent u = document pre (l1 ++ s :: l2)
  \/ exists s',
       name s' = name s
       /\ updatedContent u = document "" (l1 ++ s' :: l2)
       /\ (map day (weeks s') = [day w]
           \/ ((parseInt d < parseInt (day w))%Z
               /\ map day (weeks s') = [day w; d])
           \/ ((parseInt (day w) < parseInt d)%Z
               /\ map day (weeks s') = [d; day w])).
Proof.
  intros Hone Hwf Hw Ha Hb' Hn Hb Hu d.
  destruct (merge_existing this now pre l1 s l2 formattedContent a b u
              Hone Hwf Ha Hb' Hn Hb Hu)
    as [E|(s' & En & Hs' & E & Hdays)]; [now left|right].
  exists s'. split; [exact En|]. split; [exact E|].
  rewrite Hw in Hdays. cbn [map] in Hdays.
  destruct Hdays as [Hsame|(x & y & Exy & Hnew)]; [now left|right].
  destruct Hs' as (_ & _ & _ & _ & Hdesc).
  rewrite day_numbers, Hnew in Hdesc.
  destruct x as [|x0 x].
  - cbn [app] in *. subst y. right. split; [|exact Hnew].
    cbn [map] in Hdesc. inversion Hdesc as [|? ? _ Hall]; subst.
    inversion Hall as [|? ? Hgt _]; subst. fold d in Hgt. lia.
  - destruct x as [|x1 x]; [|destruct x; discriminate Exy].
    cbn [app] in *. injection Exy as <- <-. left. split; [|exact Hnew].
    cbn [map] in Hdesc. inversion Hdesc as [|? ? _ Hall]; subst.
    inversion Hall as [|? ? Hgt _]; subst. fold d in Hgt. lia.
Qed.

End MergeFacts.


(** * The order of the sections of a document *)
Module OrderClaims.
Import Js Regex RegexSpec Confluence Layout.
Import StringFacts QuietFacts DocFacts MergeFacts.
Import SortSpec FormatAux BackfillSpec MergeSpec PatternSpec ScanSpec.
Import OrderSpec.

(** A clock that stands still reads one day. *)
Lemma one_day_still (t : Z) : one_day (fun _ => t).
Proof. intros i j. reflexivity. Qed.

Lemma produced_merged (displayName doc : string) (info : weekInfo) :
  produced doc -> consistent info = true ->
  quiet (confluenceDisplayName (Sim.service_of displayName)) = true ->
  is_ok (prepareUpdatedContent (Sim.service_of displayName)
           (fun _ => Sim.day_start 2026 2 23) doc Sim.body info) = true ->
  produced (Sim.merged displayName doc info).
Proof.
  intros Hdoc Hi Hn Hok. unfold Sim.merged.
  destruct (prepareUpdatedContent _ _ doc Sim.body info) as [u|e] eqn:E;
    [|discriminate].
  apply (produced_merge doc (Sim.service_of displayName)
           (fun _ => Sim.day_start 2026 2 23) Sim.body info u);
    try assumption.
  apply one_day_still.
Qed.

Lemma reached_merged (displayName formattedContent doc : string)
    (info : weekInfo) :
  reached doc -> reached (Sim.merged_body displayName formattedContent doc info).
Proof.
  intros Hdoc. unfold Sim.merged_body.
  destruct (prepareUpdatedContent _ _ doc formattedContent info) as [u|e] eqn:E;
    [|exact Hdoc].
  now apply (reached_merge doc (Sim.service_of displayName)
               (fun _ => Sim.day_start 2026 2 23) formattedContent info u).
Qed.

Lemma march_21_wf : wf_document nl [march_21].
Proof.
  split; [now right|]. split; [|repeat constructor].
  constructor; [|constructor]. unfold march_21.
  repeat split; cbn [name intro weeks].
  - do 2 right. now left.
  - discriminate.
  - repeat constructor.
  - repeat constructor.
Qed.

(** C4, as amended. Every document produced from the empty one by merges of
    requests whose label DD/MM is of the month they name, and whose display
    name and body hold no heading of level 1 or 2, each merge reading the
    clock within one day, is the text of month sections in descending
    calendar order, the week sections of each month in descending order of
    their dates; the parser of the engine reads the months and the week
    labels of the document in that order. In particular, when March holds
    the week ending 21/03 alone, such a merge for the week ending 07/03
    that adds a week section puts it after that week, and one for the week
    ending 28/03 before it; so it is in the document the engine makes of
    the two requests from the empty one. *)
Theorem C4_merges_keep_months_and_weeks_descending :
  (forall doc, produced doc -> laid_out doc /\ ordered doc)
  /\ (forall (this : ConfluenceService) (now : Clock) (pre : string)
             (l1 : list section) (s : section) (l2 : list section)
             (w : week) (formattedContent : string) (u : updated),
        one_day now ->
        wf_document pre (l1 ++ s :: l2) ->
        name s = "March" -> weeks s = [w] -> day w = "21" ->
        quiet (confluenceDisplayName this) = true ->
        quiet formattedContent = true ->
        (prepareUpdatedContent this now (document pre (l1 ++ s :: l2))
           formattedContent (Sim.march "07/03") = Ok u ->
         updatedContent u = document pre (l1 ++ s :: l2)
         \/ exists s',
              name s' = "March"
              /\ updatedContent u = document "" (l1 ++ s' :: l2)
              /\ (map day (weeks s') = ["21"]
                  \/ map day (weeks s') = ["21"; "07"]))
        /\ (prepareUpdatedContent this now (document pre (l1 ++ s :: l2))
              formattedContent (Sim.march "28/03") = Ok u ->
            updatedContent u = document pre (l1 ++ s :: l2)
            \/ exists s',
                 name s' = "March"
                 /\ updatedContent u = document "" (l1 ++ s' :: l2)
                 /\ (map day (weeks s') = ["21"]
                     \/ map day (weeks s') = ["28"; "21"])))
  /\ (let only_21 := Sim.merged "Alice" "" (Sim.march "21/03") in
      map week_labels
        (month_sections (Sim.merged "Alice" only_21 (Sim.march "07/03")))
      = [[(3, 21); (3, 7)]]%Z
      /\ map week_labels
           (month_sections (Sim.merged "Alice" only_21 (Sim.march "28/03")))
         = [[(3, 28); (3, 21)]]%Z).
Proof.
  split; [|split].
  - intros doc H. apply produced_laid_out in H.
    split; [exact H|now apply laid_out_ordered].
  - intros this now pre l1 s l2 w formattedContent u Hone Hwf Hname Hw Hday
      Hn Hb.
    split; intros Hu.
    + destruct (single_week_placement this now pre l1 s l2 w formattedContent
                  "0" "7" u Hone Hwf Hw eq_refl eq_refl Hn Hb)
        as [E|(s' & En & E & Hdays)].
      * rewrite Hname. exact Hu.
      * now left.
      * right. exists s'. rewrite En, Hname. split; [reflexivity|].
        split; [exact E|]. rewrite Hday in Hdays.
        destruct Hdays as [H|[[_ H]|[H _]]];
          [now left|now right|discriminate H].
    + destruct (single_week_placement this now pre l1 s l2 w formattedContent
                  "2" "8" u Hone Hwf Hw eq_refl eq_refl Hn Hb)
        as [E|(s' & En & E & Hdays)].
      * rewrite Hname. exact Hu.
      * now left.
      * right. exists s'. rewrite En, Hname. split; [reflexivity|].
        split; [exact E|]. rewrite Hday in Hdays.
        destruct Hdays as [H|[[H _]|[_ H]]];
          [now left|discriminate H|now right].
  - split; vm_compute; reflexivity.
Qed.

Lemma C4_order_witness :
  let doc := Sim.merged "Bob" (Sim.merged "Alice" "" (Sim.march "21/03"))
               {| month := "April"; weekEndDate := "04/04" |} in
  let u := {| updatedContent :=
                Sim.merged "Alice" (document nl [march_21])
                  (Sim.march "07/03");
              status := "Added new week ending 07/03." |} in
  (produced doc /\ laid_out doc /\ ordered doc)
  /\ one_day (fun _ : nat => Sim.day_start 2026 2 23)
  /\ wf_document nl ([] ++ march_21 :: [])
  /\ (updatedContent u = document nl ([] ++ march_21 :: [])
      \/ exists s',
           name s' = "March"
           /\ updatedContent u = document "" ([] ++ s' :: [])
           /\ (map day (weeks s') = ["21"]
               \/ map day (weeks s') = ["21"; "07"])).
Proof.
  assert (H : produced
                (Sim.merged "Bob" (Sim.merged "Alice" "" (Sim.march "21/03"))
                   {| month := "April"; weekEndDate := "04/04" |})).
  { apply produced_merged;
      [apply produced_merged; [apply produced_empty|reflexivity..]
      |reflexivity|reflexivity|vm_compute; reflexivity]. }
  split; [split; [exact H|]|].
  - exact (proj1 C4_merges_keep_months_and_weeks_descending _ H).
  - split; [apply one_day_still|]. split; [exact march_21_wf|].
    apply (proj1 (proj1 (proj2 C4_merges_keep_months_and_weeks_descending)
                    (Sim.service_of "Alice")
                    (fun _ => Sim.day_start 2026 2 23) nl []
                    march_21 [] (new_week "21" "Alice" Sim.body) Sim.body _
                    (one_day_still _)
                    march_21_wf eq_refl eq_refl eq_refl eq_refl eq_refl)).
    vm_compute. reflexivity.
Defined.

(** The claim as stated fails: a time entry whose description holds a week
    heading gives a body with that heading; after its merge for the week
    ending 21/03, the report for the week ending 28/03 is put under the
    heading of the body, below the week ending 21/03. *)
Lemma C4_heading_in_a_body_breaks_the_order :
  let first :=
    Sim.merged_body "Alice" Sim.heading_body "" (Sim.march "21/03") in
  let second := Sim.merged_body "Alice" Sim.body first (Sim.march "28/03") in
  reached second
  /\ second
     = "<h1>March</h1>" ++ nl
       ++ "<h2>w/e 21/03</h2>" ++ nl ++ "<h3>Alice</h3>" ++ nl
       ++ "<ul><li>No Project<ul><li><h2>w/e 28/03</h2></li></ul></li></ul>"
       ++ nl ++ nl ++ nl
       ++ "<h3>Alice</h3>" ++ nl ++ Sim.body ++ nl ++ nl
  /\ map week_labels (month_sections second) = [[(3, 21); (3, 28)]]%Z
  /\ ~ ordered second.
Proof.
  intros first second.
  assert (E : map week_labels (month_sections second)
              = [[(3, 21); (3, 28)]]%Z) by (vm_compute; reflexivity).
  split; [apply reached_merged, reached_merged, reached_empty|].
  split; [vm_compute; reflexivity|]. split; [exact E|].
  intros (_ & _ & H).
  apply Forall_map in H. rewrite E in H.
  inversion H as [|? ? Hs _]; subst.
  inversion Hs as [|? ? _ Hl]; subst.
  inversion Hl as [|? ? Hlater _]; subst.
  destruct Hlater as [Hlt|[_ Hlt]]; cbn in Hlt; lia.
Qed.

(** What the condition on the clock leaves out: the week ending 27/02 is
    dated by a reading one millisecond before midnight of 29 March 2026 and
    falls on 27 February; the label 13/02 is dated by a reading at midnight,
    the 29th of February does not exist, and it falls on 13 March. The new
    week is put before the week ending 27/02. *)
Example readings_across_midnight :
  let clock : Clock :=
    fun k => match k with
             | 0 => (Sim.day_start 2026 2 29 - 1)%Z
             | _ => Sim.day_start 2026 2 29
             end in
  let february label := {| month := "February"; weekEndDate := label |} in
  let first := Sim.merged "Alice" "" (february "27/02") in
  option_map (fun u => map week_labels (month_sections (updatedContent u)))
    (match prepareUpdatedContent (Sim.service_of "Alice") clock first
             Sim.body (february "13/02") with
     | Ok u => Some u
     | Throw _ => None
     end)
  = Some [[(2, 13); (2, 27)]]%Z.
Proof. vm_compute. reflexivity. Qed.

End OrderClaims.


(** * Days and civil dates *)
Module DayFacts.
Import Js DateUtils DaySpec.
Local Open Scope Z_scope.

(** The year of the era of a day of the era, and the days it spans. *)
Lemma year_of_era (doe : Z) :
  0 <= doe <= 146096 ->
  let yoe := (doe - doe / 1460 + doe / 36524 - doe / 146096) / 365 in
  0 <= yoe <= 399
  /\ 365 * yoe + yoe / 4 - yoe / 100 <= doe
  /\ doe < 365 * (yoe + 1) + (yoe + 1) / 4 - (yoe + 1) / 100
           + (if yoe =? 399 then 1 else 0).
Proof.
  intros H yoe. subst yoe.
  destruct (_ =? 399) eqn:E; [apply Z.eqb_eq in E|apply Z.eqb_neq in E];
  Z.div_mod_to_equations; lia.
Qed.

(** The month and the day of the month of a day of the year that begins
    in March. *)
Lemma month_of_year (doy : Z) :
  0 <= doy <= 365 ->
  let mp := (5 * doy + 2) / 153 in
  let d := doy - (153 * mp + 2) / 5 + 1 in
  0 <= mp <= 11 /\ 1 <= d <= 31 /\ (10 <= mp <-> 306 <= doy).
Proof.
  intros H mp d. subst d mp. Z.div_mod_to_equations. lia.
Qed.

(** The first day of a month, by the era and the year of the era. *)
Lemma days_from_civil_era (era yoe m : Z) :
  0 <= yoe <= 399 -> 0 <= m <= 11 ->
  days_from_civil (yoe + era * 400 + (if m <? 2 then 1 else 0)) m
  = era * 146097 + (yoe * 365 + yoe / 4 - yoe / 100)
    + (153 * ((m + 10) mod 12) + 2) / 5 - 719468.
Proof.
  intros Hy Hm. unfold days_from_civil.
  replace (if m <? 2
           then yoe + era * 400 + (if m <? 2 then 1 else 0) - 1
           else yoe + era * 400 + (if m <? 2 then 1 else 0))
    with (yoe + era * 400) by (destruct (m <? 2); ring).
  cbv zeta. rewrite Z.div_add, Z.div_small by lia.
  replace (yoe + era * 400 - (0 + era) * 400) with yoe by ring.
  ring.
Qed.

(** The first of January of the year after a year of the era. *)
Lemma jan1_era (era yoe : Z) :
  0 <= yoe <= 399 ->
  MakeDay (yoe + era * 400 + 1) 0 1
  = era * 146097 + (yoe * 365 + yoe / 4 - yoe / 100) + 306 - 719468.
Proof.
  intros Hy. unfold MakeDay.
  change (0 / 12) with 0. change (0 mod 12) with 0.
  replace (yoe + era * 400 + 1 + 0) with (yoe + era * 400 + 1) by ring.
  pose proof (days_from_civil_era era yoe 0 Hy ltac:(lia)) as H.
  change (if 0 <? 2 then 1 else 0) with 1 in H. rewrite H.
  change ((153 * ((0 + 10) mod 12) + 2) / 5) with 306. ring.
Qed.

(** The civil date of a day: its day is the given one, the month and the
    day of the month are in range, and the day lies in the year of the
    date. *)
Lemma civil_spec (z y m d : Z) :
  civil_from_days z = (y, m, d) ->
  MakeDay y m d = z /\ 0 <= m <= 11 /\ 1 <= d <= 31
  /\ MakeDay y 0 1 <= z < MakeDay (y + 1) 0 1 /\ z - MakeDay y 0 1 <= 365.
Proof.
  unfold civil_from_days. cbv zeta.
  set (era := (z + 719468) / 146097).
  set (doe := z + 719468 - era * 146097).
  assert (Hdoe : 0 <= doe <= 146096).
  { unfold doe, era. Z.div_mod_to_equations. lia. }
  pose proof (year_of_era doe Hdoe) as Hy. cbv zeta in Hy.
  set (yoe := (doe - doe / 1460 + doe / 36524 - doe / 146096) / 365) in *.
  destruct Hy as (Hyoe & Hlow & Hup).
  set (doy := doe - (365 * yoe + yoe / 4 - yoe / 100)).
  assert (Hdoy : 0 <= doy <= 365).
  { unfold doy. destruct (yoe =? 399) eqn:E;
      [apply Z.eqb_eq in E|apply Z.eqb_neq in E];
      Z.div_mod_to_equations; lia. }
  pose proof (month_of_year doy Hdoy) as Hm. cbv zeta in Hm.
  set (mp := (5 * doy + 2) / 153) in *.
  destruct Hm as (Hmp & Hd & Hjan).
  set (m0 := (mp + 2) mod 12).
  assert (Hm0 : 0 <= m0 <= 11 /\ (m0 + 10) mod 12 = mp
                /\ (m0 < 2 <-> 10 <= mp)).
  { unfold m0. Z.div_mod_to_equations. lia. }
  destruct Hm0 as (Hm0 & Hback & Hlt).
  intros [= <- <- <-].
  assert (Hz : z = era * 146097 + doe - 719468) by (unfold doe; ring).
  assert (Edoe : doe = yoe * 365 + yoe / 4 - yoe / 100 + doy)
    by (unfold doy; ring).
  clearbody doy. clearbody doe era. clearbody yoe. clearbody m0. clearbody mp.
  assert (E1 : MakeDay (yoe + era * 400 + (if m0 <? 2 then 1 else 0)) m0
                 (doy - (153 * mp + 2) / 5 + 1) = z).
  { unfold MakeDay. rewrite Z.div_small, Z.mod_small by lia.
    replace (yoe + era * 400 + (if m0 <? 2 then 1 else 0) + 0)
      with (yoe + era * 400 + (if m0 <? 2 then 1 else 0)) by ring.
    rewrite days_from_civil_era by lia. rewrite Hback. lia. }
  split; [exact E1|]. split; [exact Hm0|]. split; [exact Hd|].
  destruct (m0 <? 2) eqn:E; [apply Z.ltb_lt in E|apply Z.ltb_ge in E].
  - (* January, February: the year began in this year of the era *)
    rewrite jan1_era by lia.
    assert (N : MakeDay (yoe + era * 400 + 1 + 1) 0 1
                = era * 146097
                  + (365 * (yoe + 1) + (yoe + 1) / 4 - (yoe + 1) / 100
                     + (if yoe =? 399 then 1 else 0)) + 306 - 719468).
    { destruct (yoe =? 399) eqn:E9;
        [apply Z.eqb_eq in E9|apply Z.eqb_neq in E9].
      - subst yoe.
        replace (399 + era * 400 + 1 + 1) with (0 + (era + 1) * 400 + 1)
          by ring.
        rewrite jan1_era by lia. Z.div_mod_to_equations. lia.
      - replace (yoe + era * 400 + 1 + 1) with (yoe + 1 + era * 400 + 1)
          by ring.
        rewrite jan1_era by lia. lia. }
    rewrite N. lia.
  - (* March to December: the year began in the year of the era before *)
    replace (yoe + era * 400 + 0 + 1) with (yoe + era * 400 + 1) by ring.
    rewrite jan1_era by lia.
    assert (N : MakeDay (yoe + era * 400 + 0) 0 1
                = era * 146097
                  + (365 * (yoe - 1) + (yoe - 1) / 4 - (yoe - 1) / 100
                     - (if yoe =? 0 then 1 else 0)) + 306 - 719468).
    { destruct (yoe =? 0) eqn:E0;
        [apply Z.eqb_eq in E0|apply Z.eqb_neq in E0].
      - subst yoe.
        replace (0 + era * 400 + 0) with (399 + (era - 1) * 400 + 1) by ring.
        rewrite jan1_era by lia. Z.div_mod_to_equations. lia.
      - replace (yoe + era * 400 + 0) with (yoe - 1 + era * 400 + 1) by ring.
        rewrite jan1_era by lia. lia. }
    rewrite N.
    destruct (yoe =? 0) eqn:E0; [apply Z.eqb_eq in E0|apply Z.eqb_neq in E0];
      Z.div_mod_to_equations; lia.
Qed.

End DayFacts.


(** * The weeks of dateUtils.ts *)
Module DateFacts.
Import Js Confluence Main DateUtils DaySpec DayFacts.
Local Open Scope Z_scope.

Lemma setDate_getDate (t k : Z) :
  DateUtils.setDate (getDate t + k) t = t + k * msPerDay.
Proof.
  unfold DateUtils.setDate, getDate.
  destruct (civil_from_days (t / msPerDay)) as [[y m] d] eqn:E.
  apply civil_spec in E as (E & _).
  replace (MakeDay y m (d + k)) with (MakeDay y m d + k)
    by (unfold MakeDay; ring).
  rewrite E.
  pose proof (Z.div_mod t msPerDay ltac:(discriminate)).
  unfold msPerDay in *. lia.
Qed.

Lemma setDate_getDate_sub (t k : Z) :
  DateUtils.setDate (getDate t - k) t = t - k * msPerDay.
Proof.
  replace (getDate t - k) with (getDate t + - k) by ring.
  rewrite setDate_getDate. ring.
Qed.

Lemma setHours_end (t : Z) :
  setHours 23 59 59 999 t = t / msPerDay * msPerDay + 86399999.
Proof. reflexivity. Qed.

Lemma setHours_start (t : Z) : setHours 0 0 0 0 t = t / msPerDay * msPerDay.
Proof. unfold setHours. ring. Qed.

Lemma day_end_div (D : Z) : (D * msPerDay + 86399999) / msPerDay = D.
Proof.
  rewrite Z.div_add_l by discriminate.
  change (86399999 / msPerDay) with 0. ring.
Qed.

Lemma day_start_div (D : Z) : D * msPerDay / msPerDay = D.
Proof. apply Z.div_mul. discriminate. Qed.

Lemma day_add (t k : Z) : (t + k * msPerDay) / msPerDay = t / msPerDay + k.
Proof. apply Z.div_add. discriminate. Qed.

Lemma day_sub (t k : Z) : (t - k * msPerDay) / msPerDay = t / msPerDay - k.
Proof.
  replace (t - k * msPerDay) with (t + - k * msPerDay) by ring.
  rewrite day_add. ring.
Qed.

Lemma getDay_range (t : Z) : 0 <= getDay t <= 6.
Proof. unfold getDay. pose proof (Z.mod_pos_bound (t / msPerDay + 4) 7). lia. Qed.

(** The week that ends [k] days before [today], when that day is a Friday. *)
Lemma week_before (today k : Z) :
  (getDay today - k) mod 7 = 5 ->
  let lastFriday :=
    setHours 23 59 59 999 (DateUtils.setDate (getDate today - k) today) in
  let monday :=
    setHours 0 0 0 0 (DateUtils.setDate (getDate lastFriday - 4) lastFriday) in
  work_week {| startDate := monday; endDate := lastFriday |}
  /\ today / msPerDay - lastFriday / msPerDay = k.
Proof.
  intros Hk lastFriday monday.
  assert (El : lastFriday = (today / msPerDay - k) * msPerDay + 86399999).
  { unfold lastFriday. rewrite setDate_getDate_sub, setHours_end, day_sub.
    reflexivity. }
  assert (Em : monday = (today / msPerDay - k - 4) * msPerDay).
  { unfold monday. rewrite setDate_getDate_sub, setHours_start, day_sub.
    rewrite El, day_end_div. reflexivity. }
  unfold getDay in Hk. rewrite Zminus_mod_idemp_l in Hk.
  unfold work_week, Friday, Monday, getDay.
  cbn [startDate endDate]. rewrite El, Em, day_end_div, day_start_div.
  repeat split.
  - rewrite <- Hk. f_equal. ring.
  - revert Hk. generalize (today / msPerDay). intros D Hk.
    Z.div_mod_to_equations. lia.
  - apply Z.mod_mul. discriminate.
  - unfold msPerDay. lia.
  - lia.
Qed.

(** ** The first of January *)

Lemma jan1_step (y : Z) :
  365 <= MakeDay (y + 1) 0 1 - MakeDay y 0 1 <= 366.
Proof.
  unfold MakeDay, days_from_civil.
  change (0 / 12) with 0. change (0 mod 12) with 0.
  change (0 <? 2) with true. cbv iota zeta.
  change ((0 + 10) mod 12) with 10. change ((153 * 10 + 2) / 5) with 306.
  replace (y + 1 + 0 - 1) with (y - 1 + 1) by ring.
  replace (y + 0 - 1) with (y - 1) by ring.
  generalize (y - 1). clear y. intros y.
  Z.div_mod_to_equations. lia.
Qed.

Lemma jan1_mono_nat (y : Z) (n : nat) :
  MakeDay y 0 1 <= MakeDay (y + Z.of_nat n) 0 1.
Proof.
  induction n as [|n IH].
  - replace (y + Z.of_nat 0) with y by (cbn; ring). lia.
  - replace (y + Z.of_nat (S n)) with (y + Z.of_nat n + 1) by lia.
    pose proof (jan1_step (y + Z.of_nat n)). lia.
Qed.

Lemma jan1_mono (a b : Z) : a <= b -> MakeDay a 0 1 <= MakeDay b 0 1.
Proof.
  intros H. replace b with (a + Z.of_nat (Z.to_nat (b - a))) by lia.
  apply jan1_mono_nat.
Qed.

Lemma year_unique (z Y : Z) :
  MakeDay Y 0 1 <= z < MakeDay (Y + 1) 0 1 ->
  fst (fst (civil_from_days z)) = Y.
Proof.
  intros H. destruct (civil_from_days z) as [[y m] d] eqn:E.
  apply civil_spec in E as (_ & _ & _ & E & _). cbn [fst].
  destruct (Z.lt_trichotomy y Y) as [L|[L|L]]; [|exact L|].
  - pose proof (jan1_mono (y + 1) Y ltac:(lia)). lia.
  - pose proof (jan1_mono (Y + 1) y ltac:(lia)). lia.
Qed.

Lemma getFullYear_fst (t : Z) :
  getFullYear t = fst (fst (civil_from_days (t / msPerDay))).
Proof.
  unfold getFullYear. now destruct (civil_from_days (t / msPerDay)) as [[y m] d].
Qed.

Lemma year_bounds (t : Z) :
  MakeDay (getFullYear t) 0 1 <= t / msPerDay
    < MakeDay (getFullYear t + 1) 0 1.
Proof.
  unfold getFullYear.
  destruct (civil_from_days (t / msPerDay)) as [[y m] d] eqn:E.
  now apply civil_spec in E as (_ & _ & _ & E & _).
Qed.

Lemma year_since_epoch (t : Z) : 0 <= t -> 1970 <= getFullYear t.
Proof.
  intros H. pose proof (year_bounds t) as [_ B].
  destruct (Z_lt_le_dec (getFullYear t) 1970) as [L|L]; [|exact L].
  pose proof (jan1_mono (getFullYear t + 1) 1970 ltac:(lia)) as M.
  change (MakeDay 1970 0 1) with 0 in M.
  pose proof (Z.div_pos t msPerDay H ltac:(reflexivity)). lia.
Qed.

(** ** The loop of [getAllWeeksInYear] *)

Lemma weeks_until_S (fuel : nat) (c today : Z) :
  weeks_until (S fuel) c today
  = if c <=? today then
      match weeks_until fuel (c + 7 * msPerDay) today with
      | Some weeks =>
          Some ({| startDate := (c / msPerDay - 4) * msPerDay; endDate := c |}
                :: weeks)
      | None => None
      end
    else Some [].
Proof.
  cbn [weeks_until].
  rewrite setDate_getDate, setDate_getDate_sub, setHours_start, day_sub.
  reflexivity.
Qed.

Lemma weeks_until_spec (today : Z) (fuel : nat) :
  forall c,
  today - c < Z.of_nat fuel * (7 * msPerDay) ->
  exists ws,
    weeks_until (S fuel) c today = Some ws
    /\ in_order ws
    /\ forall r, In r ws <->
         exists i, 0 <= i /\ c + i * (7 * msPerDay) <= today
           /\ r = {| startDate :=
                       ((c + i * (7 * msPerDay)) / msPerDay - 4) * msPerDay;
                     endDate := c + i * (7 * msPerDay) |}.
Proof.
  induction fuel as [|fuel IH]; intros c H; rewrite weeks_until_S.
  - destruct (c <=? today) eqn:E; [apply Z.leb_le in E; lia|].
    apply Z.leb_gt in E.
    exists []. split; [reflexivity|]. split; [constructor|].
    intros r. split; [intros []|].
    intros (i & Hi & Hle & _). unfold msPerDay in *. lia.
  - destruct (c <=? today) eqn:E.
    + apply Z.leb_le in E.
      destruct (IH (c + 7 * msPerDay)) as (ws & Hws & Hs & Hin).
      { unfold msPerDay in *. lia. }
      rewrite Hws. eexists. split; [reflexivity|].
      assert (Hmem : forall r,
        In r ({| startDate := (c / msPerDay - 4) * msPerDay; endDate := c |}
              :: ws) <->
        exists i, 0 <= i /\ c + i * (7 * msPerDay) <= today
           /\ r = {| startDate :=
                       ((c + i * (7 * msPerDay)) / msPerDay - 4) * msPerDay;
                     endDate := c + i * (7 * msPerDay) |}).
      { intros r. split.
        - intros [<-|Hr].
          + exists 0. split; [lia|]. split; [lia|].
            replace (c + 0 * (7 * msPerDay)) with c by ring. reflexivity.
          + apply Hin in Hr as (i & Hi & Hle & ->).
            exists (i + 1). split; [lia|].
            replace (c + (i + 1) * (7 * msPerDay))
              with (c + 7 * msPerDay + i * (7 * msPerDay)) by ring.
            split; [exact Hle|reflexivity].
        - intros (i & Hi & Hle & ->).
          destruct (Z.eq_dec i 0) as [->|Hne].
          + left. replace (c + 0 * (7 * msPerDay)) with c by ring. reflexivity.
          + right. apply Hin. exists (i - 1). split; [lia|].
            replace (c + 7 * msPerDay + (i - 1) * (7 * msPerDay))
              with (c + i * (7 * msPerDay)) by ring.
            split; [exact Hle|reflexivity]. }
      split; [|exact Hmem].
      constructor; [exact Hs|].
      apply Forall_forall. intros b Hb.
      apply Hin in Hb as (i & Hi & _ & ->). cbn [endDate].
      unfold msPerDay. lia.
    + apply Z.leb_gt in E.
      exists []. split; [reflexivity|]. split; [constructor|].
      intros r. split; [intros []|].
      intros (i & Hi & Hle & _). unfold msPerDay in *. lia.
Qed.

End DateFacts.


(** * The weeks the orchestrator reports *)
Module WeekProps.
Import Js Confluence Main Layout DateUtils DaySpec DayFacts DateFacts QuietFacts.
Local Open Scope Z_scope.

(** The week [getLastWeekDates] returns. *)
Lemma last_full_week (today : Z) :
  work_week (getLastWeekDates today)
  /\ 1 <= today / msPerDay - endDate (getLastWeekDates today) / msPerDay <= 7.
Proof.
  pose proof (getDay_range today) as Hr.
  unfold getLastWeekDates. cbv zeta.
  destruct (getDay today =? 6) eqn:E6;
    [|destruct (getDay today =? 0) eqn:E0].
  - apply Z.eqb_eq in E6.
    destruct (week_before today 1) as [Hw Hk]; [now rewrite E6|].
    cbv zeta in Hw, Hk. split; [exact Hw|]. cbn [endDate]. lia.
  - apply Z.eqb_eq in E0.
    destruct (week_before today 2) as [Hw Hk]; [now rewrite E0|].
    cbv zeta in Hw, Hk. split; [exact Hw|]. cbn [endDate]. lia.
  - apply Z.eqb_neq in E6, E0.
    destruct (week_before today (getDay today + 2)) as [Hw Hk].
    { replace (getDay today - (getDay today + 2)) with (-2) by ring.
      reflexivity. }
    cbv zeta in Hw, Hk. split; [exact Hw|]. cbn [endDate]. lia.
Qed.

(** X1. [getLastWeekDates] returns the most recent work week that is
    over: it runs from a Monday 00:00:00.000 to the Friday 23:59:59.999
    four days later, and that Friday is the last one before today's date
    (between one and seven days back; on a Friday, the Friday a week ago). *)
Theorem getLastWeekDates_is_the_last_full_week (today : Z) :
  work_week (getLastWeekDates today)
  /\ 1 <= today / msPerDay - endDate (getLastWeekDates today) / msPerDay <= 7.
Proof. exact (last_full_week today). Qed.

(** The first Friday on or after the day [J]. *)
Lemma first_friday (J : Z) :
  exists F0,
    (J <= F0 <= J + 6 /\ (F0 + 4) mod 7 = 5)
    /\ setHours 23 59 59 999
         (if negb (getDay (J * msPerDay) =? 5)
          then DateUtils.setDate
                 (getDate (J * msPerDay)
                  + (5 - getDay (J * msPerDay) + 7) mod 7) (J * msPerDay)
          else J * msPerDay)
       = F0 * msPerDay + 86399999.
Proof.
  assert (Edow : getDay (J * msPerDay) = (J + 4) mod 7).
  { unfold getDay. rewrite day_start_div. reflexivity. }
  rewrite setDate_getDate. revert Edow.
  generalize (getDay (J * msPerDay)). intros dow Edow.
  exists (J + (5 - dow + 7) mod 7). split.
  - rewrite Edow. Z.div_mod_to_equations. lia.
  - destruct (dow =? 5) eqn:E; cbn [negb].
    + apply Z.eqb_eq in E. rewrite E.
      change ((5 - 5 + 7) mod 7) with 0.
      rewrite setHours_end, day_start_div. f_equal. ring.
    + rewrite setHours_end.
      replace (J * msPerDay + (5 - dow + 7) mod 7 * msPerDay)
        with ((J + (5 - dow + 7) mod 7) * msPerDay) by ring.
      rewrite day_start_div. reflexivity.
Qed.

(** The weeks from the first Friday [F0] of the year [Y], which begins on
    the day [J]. *)
Lemma weeks_from (today Y J F0 : Z) (f : nat) :
  J <= today / msPerDay < J + 367 ->
  (forall D, J <= D <= today / msPerDay ->
             fst (fst (civil_from_days D)) = Y) ->
  (forall e, getFullYear e = Y -> J <= e / msPerDay) ->
  J <= F0 <= J + 6 /\ (F0 + 4) mod 7 = 5 ->
  (53 <= f)%nat ->
  exists weeks,
    weeks_until (S f) (F0 * msPerDay + 86399999) today = Some weeks
    /\ in_order weeks
    /\ forall r, In r weeks <->
         work_week r /\ getFullYear (endDate r) = Y /\ endDate r <= today.
Proof.
  intros HB Hup Hlow HF Hf.
  pose proof (Z.div_mod today msPerDay ltac:(discriminate)) as Hdm.
  pose proof (Z.mod_pos_bound today msPerDay ltac:(reflexivity)) as Hmb.
  destruct (weeks_until_spec today f (F0 * msPerDay + 86399999))
    as (ws & Hws & Hs & Hin).
  { unfold msPerDay in *. lia. }
  exists ws. split; [exact Hws|]. split; [exact Hs|].
  intros r. rewrite Hin. clear Hin Hws Hs. split.
  - intros (i & Hi & Hle & ->). cbn [endDate startDate].
    replace (F0 * msPerDay + 86399999 + i * (7 * msPerDay))
      with ((F0 + 7 * i) * msPerDay + 86399999) in * by ring.
    rewrite day_end_div.
    assert (Hd : F0 + 7 * i <= today / msPerDay).
    { unfold msPerDay in *. lia. }
    split; [|split; [|exact Hle]].
    + unfold work_week, Friday, Monday, getDay. cbn [startDate endDate].
      rewrite day_end_div, day_start_div.
      destruct HF as [_ HF]. split; [|split; [|split]].
      * clear - HF. Z.div_mod_to_equations. lia.
      * clear - HF. Z.div_mod_to_equations. lia.
      * apply Z.mod_mul. discriminate.
      * unfold msPerDay. lia.
    + rewrite getFullYear_fst, day_end_div. apply Hup. lia.
  - intros (Hw & Hy & Hle). destruct r as [s e].
    cbn [endDate startDate] in *.
    destruct Hw as (HFr & HMo & Hs0 & He).
    cbn [endDate startDate] in *.
    pose proof (Z.div_mod s msPerDay ltac:(discriminate)) as Hsd.
    rewrite Hs0 in Hsd.
    revert Hsd He. generalize (s / msPerDay). intros D0 Hsd He.
    assert (Ee : e = (D0 + 4) * msPerDay + 86399999).
    { unfold msPerDay in *. lia. }
    pose proof (Hlow e Hy) as Hj.
    unfold Friday, getDay in HFr.
    rewrite Ee, day_end_div in HFr, Hj.
    destruct HF as [HF1 HF2].
    assert (Hi : exists i, 0 <= i /\ D0 + 4 = F0 + 7 * i).
    { exists ((D0 + 4 - F0) / 7). clear - HFr HF2 HF1 Hj.
      Z.div_mod_to_equations. lia. }
    destruct Hi as (i & Hi & HD). exists i. split; [exact Hi|].
    replace (F0 * msPerDay + 86399999 + i * (7 * msPerDay))
      with ((F0 + 7 * i) * msPerDay + 86399999) by ring.
    rewrite day_end_div, <- HD.
    split; [unfold msPerDay in *; lia|].
    f_equal; unfold msPerDay in *; lia.
Qed.

(** The weeks [getAllWeeksInYear] lists. *)
Lemma all_weeks (fuel : nat) (today : Z) :
  0 <= today -> (54 <= fuel)%nat ->
  exists weeks,
    getAllWeeksInYear fuel today = Some weeks
    /\ in_order weeks
    /\ forall r, In r weeks <->
         work_week r /\ getFullYear (endDate r) = getFullYear today
         /\ endDate r <= today.
Proof.
  intros Ht Hf. destruct fuel as [|f]; [lia|].
  pose proof (year_since_epoch today Ht) as HY.
  pose proof (year_bounds today) as HB.
  pose proof (jan1_step (getFullYear today)) as HS.
  assert (Hup : forall D,
            MakeDay (getFullYear today) 0 1 <= D <= today / msPerDay ->
            fst (fst (civil_from_days D)) = getFullYear today).
  { intros D HD. apply year_unique. lia. }
  assert (Hlow : forall e, getFullYear e = getFullYear today ->
            MakeDay (getFullYear today) 0 1 <= e / msPerDay).
  { intros e He. rewrite <- He. apply year_bounds. }
  unfold getAllWeeksInYear. cbv zeta.
  revert HY HB HS Hup Hlow.
  generalize (getFullYear today). intros Y HY HB HS Hup Hlow.
  assert (EJ : Date_local Y 0 1 = MakeDay Y 0 1 * msPerDay).
  { unfold Date_local. destruct ((0 <=? Y) && (Y <=? 99))%bool eqn:E;
      [|reflexivity].
    apply andb_true_iff in E as [_ E]. apply Z.leb_le in E. lia. }
  rewrite EJ, setHours_start, day_start_div.
  revert HB HS Hup Hlow. clear EJ.
  generalize (MakeDay Y 0 1). generalize (MakeDay (Y + 1) 0 1).
  intros J' J HB HS Hup Hlow.
  destruct (first_friday J) as (F0 & HF & ->).
  apply (weeks_from today Y J F0 f); [lia|exact Hup|exact Hlow|exact HF|lia].
Qed.

(** X2. In a run at or after 1 January 1970, [getAllWeeksInYear] ends
    (54 turns of its loop suffice) and lists, in ascending order and each
    once, exactly the work weeks whose Friday lies in the current year and
    has ended by now (23:59:59.999 of the Friday is not after the present
    instant). *)
Theorem getAllWeeksInYear_lists_the_finished_weeks_of_the_year
    (fuel : nat) (today : Z) :
  0 <= today -> (54 <= fuel)%nat ->
  exists weeks,
    getAllWeeksInYear fuel today = Some weeks
    /\ in_order weeks
    /\ forall r, In r weeks <->
         work_week r /\ getFullYear (endDate r) = getFullYear today
         /\ endDate r <= today.
Proof. exact (all_weeks fuel today). Qed.

Lemma getAllWeeksInYear_witness :
  0 <= 1742860800000 /\ (54 <= 54)%nat
  /\ exists weeks,
       getAllWeeksInYear 54 1742860800000 = Some weeks
       /\ in_order weeks
       /\ forall r, In r weeks <->
            work_week r
            /\ getFullYear (endDate r) = getFullYear 1742860800000
            /\ endDate r <= 1742860800000.
Proof.
  split; [lia|]. split; [lia|].
  apply (getAllWeeksInYear_lists_the_finished_weeks_of_the_year
           54 1742860800000); lia.
Defined.

(** ** Labels *)

Lemma weeks_until_more (today : Z) (fuel : nat) :
  forall c ws, weeks_until fuel c today = Some ws ->
  weeks_until (S fuel) c today = Some ws.
Proof.
  induction fuel as [|fuel IH]; intros c ws H; [discriminate|].
  rewrite weeks_until_S in H. rewrite weeks_until_S.
  destruct (c <=? today); [|exact H].
  destruct (weeks_until fuel (c + 7 * msPerDay) today) as [ws'|] eqn:E;
    [|discriminate].
  now rewrite (IH _ _ E).
Qed.

Lemma weeks_until_plus (today : Z) (n fuel : nat) (c : Z)
    (ws : list DateRange) :
  weeks_until fuel c today = Some ws ->
  weeks_until (n + fuel) c today = Some ws.
Proof.
  intros H. induction n as [|n IH]; [exact H|].
  change (S n + fuel)%nat with (S (n + fuel)). now apply weeks_until_more.
Qed.

Lemma getAllWeeksInYear_plus (today : Z) (n fuel : nat)
    (ws : list DateRange) :
  getAllWeeksInYear fuel today = Some ws ->
  getAllWeeksInYear (n + fuel) today = Some ws.
Proof. unfold getAllWeeksInYear. cbv zeta. apply weeks_until_plus. Qed.

Lemma digit_char_inj (a b : Z) :
  0 <= a <= 9 -> 0 <= b <= 9 ->
  ascii_of_nat (48 + Z.to_nat a) = ascii_of_nat (48 + Z.to_nat b) -> a = b.
Proof.
  intros Ha Hb H. apply (f_equal nat_of_ascii) in H.
  rewrite !nat_ascii_embedding in H by lia. lia.
Qed.

Lemma two_digits_inj (n n' : Z) :
  0 <= n < 100 -> 0 <= n' < 100 -> two_digits n = two_digits n' -> n = n'.
Proof.
  intros Hn Hn'. unfold two_digits. intros [= A B].
  apply digit_char_inj in A; [|clear - Hn; Z.div_mod_to_equations; lia
                               |clear - Hn'; Z.div_mod_to_equations; lia].
  apply digit_char_inj in B; [|clear - Hn; Z.div_mod_to_equations; lia
                               |clear - Hn'; Z.div_mod_to_equations; lia].
  clear - A B. Z.div_mod_to_equations. lia.
Qed.

Lemma label_inj (e1 e2 : Z) :
  getFullYear e1 = getFullYear e2 -> weekEndLabel e1 = weekEndLabel e2 ->
  e1 / msPerDay = e2 / msPerDay.
Proof.
  unfold getFullYear, weekEndLabel.
  destruct (civil_from_days (e1 / msPerDay)) as [[y1 m1] d1] eqn:E1.
  destruct (civil_from_days (e2 / msPerDay)) as [[y2 m2] d2] eqn:E2.
  apply civil_spec in E1 as (E1 & Hm1 & Hd1 & _).
  apply civil_spec in E2 as (E2 & Hm2 & Hd2 & _).
  intros -> H. rewrite <- E1, <- E2.
  assert (Hd : two_digits d1 = two_digits d2
               /\ two_digits (m1 + 1) = two_digits (m2 + 1)).
  { revert H. unfold two_digits. cbn [append]. intros H.
    injection H as A B C D. split.
    - exact (f_equal2 (fun a b => String a (String b EmptyString)) A B).
    - exact (f_equal2 (fun a b => String a (String b EmptyString)) C D). }
  destruct Hd as [Hd Hm].
  apply two_digits_inj in Hd; [|lia|lia].
  apply two_digits_inj in Hm; [|lia|lia].
  f_equal; lia.
Qed.

Lemma labels_nodup (Y : Z) (ws : list DateRange) :
  in_order ws ->
  Forall (fun r => work_week r /\ getFullYear (endDate r) = Y) ws ->
  NoDup (map (fun r => weekEndLabel (endDate r)) ws).
Proof.
  induction 1 as [|a ws Hs IH Ha]; intros Hall; [constructor|].
  apply Forall_cons_iff in Hall as [[Hwa Hya] Hall'].
  cbn [map]. constructor; [|now apply IH].
  intros Hin. apply in_map_iff in Hin as (b & Hl & Hb).
  rewrite Forall_forall in Ha, Hall'.
  specialize (Ha b Hb). destruct (Hall' b Hb) as [Hwb Hyb].
  apply label_inj in Hl; [|now rewrite Hya, Hyb].
  destruct Hwa as (_ & _ & Ha0 & Ha1). destruct Hwb as (_ & _ & Hb0 & Hb1).
  pose proof (Z.div_mod (startDate a) msPerDay ltac:(discriminate)) as Da.
  pose proof (Z.div_mod (startDate b) msPerDay ltac:(discriminate)) as Db.
  assert (Ea : endDate a
               = (startDate a / msPerDay + 4) * msPerDay + 86399999)
    by (unfold msPerDay in *; lia).
  assert (Eb : endDate b
               = (startDate b / msPerDay + 4) * msPerDay + 86399999)
    by (unfold msPerDay in *; lia).
  rewrite Ea, Eb, !day_end_div in Hl. lia.
Qed.

(** X3. The weeks of a backfill have pairwise different labels DD/MM: no
    two weeks of the list are filed under the same week heading. *)
Theorem backfill_weeks_have_distinct_labels
    (fuel : nat) (today : Z) (weeks : list DateRange) :
  0 <= today ->
  getAllWeeksInYear fuel today = Some weeks ->
  NoDup (map (fun r => weekEndLabel (endDate r)) weeks).
Proof.
  intros Ht H. apply (getAllWeeksInYear_plus today 54) in H.
  destruct (all_weeks (54 + fuel) today Ht ltac:(lia))
    as (ws & Hws & Hs & Hin).
  rewrite H in Hws. injection Hws as <-.
  apply (labels_nodup (getFullYear today)); [exact Hs|].
  apply Forall_forall. intros r Hr. apply Hin in Hr as (Hw & Hy & _).
  now split.
Qed.

Lemma backfill_labels_witness :
  NoDup (map (fun r => weekEndLabel (endDate r))
           [{| startDate := 1735862400000 - 4 * 86400000;
               endDate := 1735948799999 |};
            {| startDate := 1736467200000 - 4 * 86400000;
               endDate := 1736553599999 |}]).
Proof.
  apply (backfill_weeks_have_distinct_labels 3 1736600000000);
    [lia|vm_compute; reflexivity].
Defined.

(** ** The week of a report *)

Lemma monthLong_end (t : Z) : monthLong (setHours 23 59 59 999 t) = monthLong t.
Proof. unfold monthLong. now rewrite setHours_end, day_end_div. Qed.

Lemma weekEndLabel_end (t : Z) :
  weekEndLabel (setHours 23 59 59 999 t) = weekEndLabel t.
Proof. unfold weekEndLabel. now rewrite setHours_end, day_end_div. Qed.

(** X4. The month and week label [getCurrentWeekInfo] computes from the
    clock, for a report posted without a date range, are those of the week
    [getLastWeekDates] returns at the same instant. *)
Theorem getCurrentWeekInfo_is_the_week_of_getLastWeekDates (today : Z) :
  getCurrentWeekInfo today = weekInfo_of (getLastWeekDates today).
Proof.
  unfold getCurrentWeekInfo, weekInfo_of, getLastWeekDates. cbv zeta.
  cbn [endDate]. now rewrite monthLong_end, weekEndLabel_end.
Qed.

Lemma month_and_label (m d : Z) :
  0 <= m <= 11 -> 0 <= d < 100 ->
  consistent {| month := nth (Z.to_nat m) monthNames "";
                weekEndDate := two_digits d ++ "/" ++ two_digits (m + 1) |}
  = true.
Proof.
  intros Hm Hd. pose proof (two_digits_two_digit d Hd) as Hdd.
  unfold consistent. cbn [month weekEndDate].
  unfold two_digits at 1. unfold two_digits, two_digit in Hdd.
  cbn [append]. rewrite Hdd. cbn [andb].
  assert (C : m = 0 \/ m = 1 \/ m = 2 \/ m = 3 \/ m = 4 \/ m = 5 \/ m = 6
              \/ m = 7 \/ m = 8 \/ m = 9 \/ m = 10 \/ m = 11) by lia.
  repeat (destruct C as [->|C]; [vm_compute; reflexivity|]).
  subst m. vm_compute. reflexivity.
Qed.

(** X5. The month name and week label the orchestrator derives from the
    end of any date range fit together: the month is one of the twelve
    English names, the label has the form DD/MM, and MM is the number of
    that month. *)
Theorem weekInfo_of_is_consistent (dateRange : DateRange) :
  consistent (weekInfo_of dateRange) = true.
Proof.
  unfold weekInfo_of, monthLong, weekEndLabel.
  destruct (civil_from_days (endDate dateRange / msPerDay)) as [[y m] d] eqn:E.
  apply civil_spec in E as (_ & Hm & Hd & _).
  apply month_and_label; lia.
Qed.

End WeekProps.


(** * The formatter as a function of the set of records *)
Module FormatProps.
Import Js Format FormatSpec Confluence Layout.
Import StringFacts SortFacts FormatFacts QuietFacts.
Import SortSpec FormatAux.

Lemma ascending_unique (l1 l2 : list string) :
  ascending l1 -> ascending l2 -> (forall x, In x l1 <-> In x l2) -> l1 = l2.
Proof.
  revert l2. induction l1 as [|x l1 IH]; intros [|y l2] H1 H2 H.
  - reflexivity.
  - exfalso. apply (H y). now left.
  - exfalso. apply (H x). now left.
  - inversion H1 as [|? ? S1 F1]. inversion H2 as [|? ? S2 F2]. subst.
    rewrite Forall_forall in F1, F2.
    assert (E : x = y).
    { destruct (proj1 (H x) (or_introl eq_refl)) as [E|Hx]; [now symmetry|].
      destruct (proj2 (H y) (or_introl eq_refl)) as [E|Hy]; [exact E|].
      pose proof (ltb_trans _ _ _ (F1 y Hy) (F2 x Hx)) as C.
      rewrite ltb_irrefl in C. discriminate. }
    subst y. f_equal. apply IH; [exact S1|exact S2|].
    intros z. split; intros Hz.
    + destruct (proj1 (H z) (or_intror Hz)) as [E|Hz']; [|exact Hz'].
      subst z. pose proof (F1 x Hz) as C. rewrite ltb_irrefl in C.
      discriminate.
    + destruct (proj2 (H z) (or_intror Hz)) as [E|Hz']; [|exact Hz'].
      subst z. pose proof (F2 x Hz) as C. rewrite ltb_irrefl in C.
      discriminate.
Qed.

(** The descriptions collected for a project. *)
Lemma set_members (pm : ProjectMap) (rs : list TimeRecord) (g : Groups)
    (n d : string) :
  groups_inv pm g rs ->
  In d (match group_get n g with
        | Some s => s
        | None => []
        end)
  <-> inherited n = false
      /\ exists r, In r rs /\ projectName_of pm r = n
                   /\ description r = d /\ has_text d = true.
Proof.
  intros [Hnd Hk Hsn Hss].
  destruct (group_get n g) as [s|] eqn:E.
  - apply group_get_in in E. rewrite (Hss n s E). split.
    + intros H. split; [|exact H].
      assert (Hn : In n (map fst g)) by (apply in_map_iff; now exists (n, s)).
      now apply Hk in Hn.
    + now intros [_ H].
  - split; [intros []|]. intros (Hi & r & Hr & Hn & _).
    apply group_get_none in E. apply E. apply Hk.
    split; [exact Hi|]. now exists r.
Qed.

Lemma set_nodup (pm : ProjectMap) (rs : list TimeRecord) (g : Groups)
    (n : string) :
  groups_inv pm g rs ->
  NoDup (match group_get n g with
         | Some s => s
         | None => []
         end).
Proof.
  intros [Hnd Hk Hsn Hss].
  destruct (group_get n g) as [s|] eqn:E.
  - apply group_get_in in E. apply (Hsn n s E).
  - constructor.
Qed.

Lemma tasks_ext (pm : ProjectMap) (rs rs' : list TimeRecord)
    (g g' : Groups) (n : string) :
  groups_inv pm g rs -> groups_inv pm g' rs' ->
  (forall r, In r rs <-> In r rs') ->
  tasks_of g n = tasks_of g' n.
Proof.
  intros Hg Hg' H. unfold tasks_of.
  apply ascending_unique;
    try (apply sort_strings_ascending; eapply set_nodup; eassumption).
  intros d.
  rewrite !sort_strings_in, (set_members pm rs g n d Hg),
    (set_members pm rs' g' n d Hg').
  split; intros (Hi & r & Hr & Hrest); (split; [exact Hi|]); exists r;
    (split; [now apply H|exact Hrest]).
Qed.

Lemma names_ext (pm : ProjectMap) (rs rs' : list TimeRecord)
    (g g' : Groups) :
  groups_inv pm g rs -> groups_inv pm g' rs' ->
  (forall r, In r rs <-> In r rs') ->
  sort_strings (map fst g) = sort_strings (map fst g').
Proof.
  intros [Hnd Hk _ _] [Hnd' Hk' _ _] H.
  apply ascending_unique; try (now apply sort_strings_ascending).
  intros n. rewrite !sort_strings_in, Hk, Hk'.
  split; intros (Hi & r & Hr & Hrest); (split; [exact Hi|]); exists r;
    (split; [now apply H|exact Hrest]).
Qed.

Lemma existsb_ext {A : Type} (f : A -> bool) (l l' : list A) :
  (forall x, In x l <-> In x l') -> existsb f l = existsb f l'.
Proof.
  intros H. destruct (existsb f l) eqn:E.
  - symmetry. apply existsb_exists. apply existsb_exists in E as (x & Hx & Fx).
    exists x. split; [now apply H|exact Fx].
  - destruct (existsb f l') eqn:E'; [|reflexivity].
    apply existsb_exists in E' as (x & Hx & Fx).
    assert (existsb f l = true); [|congruence].
    apply existsb_exists. exists x. split; [now apply H|exact Fx].
Qed.

(** X6. The report depends only on which records there are: two lists
    with the same records, in any order and with any repetition, are
    formatted to the same text. *)
Theorem formatTimeRecords_ignores_order_and_repetition
    (timeRecords timeRecords' : list TimeRecord) (projectMap : ProjectMap) :
  (forall r, In r timeRecords <-> In r timeRecords') ->
  formatTimeRecords timeRecords projectMap
  = formatTimeRecords timeRecords' projectMap.
Proof.
  intros H.
  destruct timeRecords as [|a rs].
  { destruct timeRecords' as [|b rs']; [reflexivity|].
    exfalso. apply (H b). now left. }
  destruct timeRecords' as [|b rs'].
  { exfalso. apply (H a). now left. }
  pose proof (projectGroups_result projectMap (a :: rs)) as P.
  pose proof (projectGroups_result projectMap (b :: rs')) as P'.
  rewrite <- (existsb_ext (throwing projectMap) _ _ H) in P'.
  destruct (existsb (throwing projectMap) (a :: rs)) eqn:T.
  - unfold formatTimeRecords. now rewrite P, P'.
  - destruct P as (g & Eg & Hg). destruct P' as (g' & Eg' & Hg').
    rewrite (formatTimeRecords_layout _ _ g) by (discriminate || exact Eg).
    rewrite (formatTimeRecords_layout _ _ g') by (discriminate || exact Eg').
    do 2 f_equal. unfold formatted_groups.
    rewrite (names_ext projectMap _ _ g g' Hg Hg' H).
    apply map_ext. intros n. f_equal.
    now apply (tasks_ext projectMap (a :: rs) (b :: rs')).
Qed.

Lemma formatTimeRecords_order_witness :
  (forall r, In r [example_record "B" None; example_record "A" (Some 1%Z)]
             <-> In r example_records)
  /\ formatTimeRecords
       [example_record "B" None; example_record "A" (Some 1%Z)]
       example_projects
     = formatTimeRecords example_records example_projects.
Proof.
  assert (H : forall r,
            In r [example_record "B" None; example_record "A" (Some 1%Z)]
            <-> In r example_records).
  { intros r. unfold example_records. simpl. tauto. }
  split; [exact H|].
  apply (formatTimeRecords_ignores_order_and_repetition _ _ _ H).
Defined.

(** ** Headings in the report *)

Lemma quiet_li (s : string) : quiet ("<li>" ++ s) = quiet s.
Proof.
  cbn [append]. rewrite quiet_cons. rewrite !quiet_skip by reflexivity.
  reflexivity.
Qed.

Lemma quiet_ul (s : string) : quiet ("<ul>" ++ s) = quiet s.
Proof.
  cbn [append]. rewrite quiet_cons. rewrite !quiet_skip by reflexivity.
  reflexivity.
Qed.

Lemma quiet_end_li (s : string) : quiet ("</li>" ++ s) = quiet s.
Proof.
  cbn [append]. rewrite quiet_cons. rewrite !quiet_skip by reflexivity.
  reflexivity.
Qed.

Lemma quiet_end_ul (s : string) : quiet ("</ul>" ++ s) = quiet s.
Proof.
  cbn [append]. rewrite quiet_cons. rewrite !quiet_skip by reflexivity.
  reflexivity.
Qed.

Lemma quiet_items (tasks : list string) (rest : string) :
  (forall t, In t tasks -> quiet t = true) ->
  quiet rest = true -> safe_start rest = true ->
  quiet (String.concat "" (map item tasks) ++ rest) = true
  /\ safe_start (String.concat "" (map item tasks) ++ rest) = true.
Proof.
  intros Ht Hr Hs. induction tasks as [|t tasks IH].
  - split; [exact Hr|exact Hs].
  - cbn [map]. rewrite concat_cons. unfold item at 1 3.
    rewrite !append_assoc. split; [|reflexivity].
    rewrite quiet_li. apply quiet_app; [apply Ht; now left| |reflexivity].
    rewrite quiet_end_li. apply IH. intros u Hu. apply Ht. now right.
Qed.

Lemma quiet_project_item (p : string * list string) (rest : string) :
  quiet (fst p) = true -> (forall t, In t (snd p) -> quiet t = true) ->
  quiet rest = true -> safe_start rest = true ->
  quiet (project_item p ++ rest) = true.
Proof.
  intros Hn Ht Hr Hs. unfold project_item.
  destruct (snd p) as [|t tasks] eqn:E.
  - rewrite !append_assoc. rewrite quiet_li.
    apply quiet_app; [exact Hn| |reflexivity].
    change ("" ++ "</li>" ++ rest) with ("</li>" ++ rest).
    now rewrite quiet_end_li.
  - rewrite !append_assoc. rewrite quiet_li.
    apply quiet_app; [exact Hn| |reflexivity].
    rewrite quiet_ul.
    apply (quiet_items (t :: tasks) ("</ul>" ++ "</li>" ++ rest));
      [exact Ht| |reflexivity].
    now rewrite quiet_end_ul, quiet_end_li.
Qed.

Lemma quiet_layout (groups : list (string * list string)) :
  (forall p, In p groups ->
     quiet (fst p) = true /\ forall t, In t (snd p) -> quiet t = true) ->
  quiet (layout groups) = true.
Proof.
  intros H. unfold layout. rewrite quiet_ul.
  induction groups as [|p groups IH]; [reflexivity|].
  cbn [map]. rewrite concat_cons, append_assoc.
  destruct (H p (or_introl eq_refl)) as [Hn Ht].
  apply quiet_project_item; [exact Hn|exact Ht| |].
  - apply IH. intros q Hq. apply H. now right.
  - destruct groups as [|q groups]; [reflexivity|].
    cbn [map]. rewrite concat_cons. unfold project_item at 1.
    rewrite !append_assoc. reflexivity.
Qed.

Lemma project_lookup_in (k : Z) (m : ProjectMap) (name : string) :
  project_lookup k m = Some name -> In (k, name) m.
Proof.
  induction m as [|[j v] m IH]; [discriminate|]. cbn [project_lookup].
  destruct (k =? j)%Z eqn:E.
  - apply Z.eqb_eq in E. intros [= <-]. left. now subst.
  - intros H. right. now apply IH.
Qed.

Lemma projectName_of_quiet (pm : ProjectMap) (r : TimeRecord) :
  (forall k v, In (k, v) pm -> quiet v = true) ->
  quiet (projectName_of pm r) = true.
Proof.
  intros H. unfold projectName_of.
  destruct (pid r) as [p|]; [|reflexivity].
  destruct (p =? 0)%Z; [reflexivity|].
  destruct (project_lookup p pm) as [name|] eqn:E; [|reflexivity].
  apply project_lookup_in in E. apply H in E.
  destruct name; [reflexivity|exact E].
Qed.

Lemma formatTimeRecords_no_heading (rs : list TimeRecord) (pm : ProjectMap)
    (report : string) :
  (forall r, In r rs -> quiet (description r) = true) ->
  (forall k v, In (k, v) pm -> quiet v = true) ->
  formatTimeRecords rs pm = Ok report ->
  quiet report = true.
Proof.
  intros Hd Hp. destruct rs as [|a rs]; [now intros [= <-]|].
  pose proof (projectGroups_result pm (a :: rs)) as P.
  destruct (existsb (throwing pm) (a :: rs)) eqn:T.
  { unfold formatTimeRecords. rewrite P. discriminate. }
  destruct P as (g & Eg & Hg).
  rewrite (formatTimeRecords_layout _ _ g) by (discriminate || exact Eg).
  intros [= <-].
  apply quiet_layout. intros p Hin. unfold formatted_groups in Hin.
  apply in_map_iff in Hin as (n & <- & Hn). cbn [fst snd]. split.
  - apply (proj1 (sort_strings_in _ _)) in Hn.
    apply (keys_spec _ _ _ Hg) in Hn as (_ & r & _ & <-).
    now apply projectName_of_quiet.
  - intros t Ht. unfold tasks_of in Ht.
    apply (proj1 (sort_strings_in _ _)) in Ht.
    apply (set_members pm (a :: rs) g n t Hg) in Ht
      as (_ & r & Hr & _ & <- & _).
    now apply Hd.
Qed.

(** X7. When no description of a record and no project name of the map
    contains the start of a level 1 or level 2 heading, the report the
    formatter returns contains none either. *)
Theorem formatTimeRecords_adds_no_heading
    (timeRecords : list TimeRecord) (projectMap : ProjectMap)
    (report : string) :
  (forall r, In r timeRecords -> quiet (description r) = true) ->
  (forall k v, In (k, v) projectMap -> quiet v = true) ->
  formatTimeRecords timeRecords projectMap = Ok report ->
  quiet report = true.
Proof.
  exact (formatTimeRecords_no_heading timeRecords projectMap report).
Qed.

Lemma formatTimeRecords_heading_witness :
  (forall r, In r example_records -> quiet (description r) = true)
  /\ (forall k v, In (k, v) example_projects -> quiet v = true)
  /\ formatTimeRecords example_records example_projects
     = Ok (layout [("No Project", ["B"]); ("Site", ["A"])])
  /\ quiet (layout [("No Project", ["B"]); ("Site", ["A"])]) = true.
Proof.
  assert (Hd : forall r, In r example_records -> quiet (description r) = true).
  { intros r [<-|[<-|[<-|[]]]]; reflexivity. }
  assert (Hp : forall k v, In (k, v) example_projects -> quiet v = true).
  { intros k v [[= <- <-]|[]]. reflexivity. }
  split; [exact Hd|]. split; [exact Hp|]. split; [reflexivity|].
  apply (formatTimeRecords_adds_no_heading example_records example_projects
           _ Hd Hp eq_refl).
Defined.

End FormatProps.


(** * The pattern of a week and a user *)
Module UserFacts.
Import Js Regex RegexSpec Confluence Layout UserSpec.
Import StringFacts MapFacts RegexFacts PatternFacts.
Import PatternSpec ScanSpec.

Lemma plain_app (a b : string) : plain (a ++ b) = plain a && plain b.
Proof.
  induction a as [|x a IH]; [reflexivity|].
  cbn [append plain]. now rewrite IH, andb_assoc.
Qed.

Lemma no_quantifier_app (p rest : string) :
  plain p = true -> no_quantifier rest = true ->
  no_quantifier (p ++ rest) = true.
Proof.
  intros Hp Hr. destruct p as [|c p]; [exact Hr|].
  apply (plain_no_quantifier (String c p) Hp).
Qed.

(** A run of plain characters before the rest of an alternative. *)
Lemma parse_alt_prefix (t : nat) (p rest : string) (r : regex) (f g : nat) :
  plain p = true -> no_quantifier rest = true -> r <> Eps ->
  parse_alt t (S f) rest g = Some (r, "", g) ->
  parse_alt t (S (length p + f)) (p ++ rest) g = Some (seq_lit p r, "", g).
Proof.
  intros Hp Hq Hr Hrest. induction p as [|c p IH]; [exact Hrest|].
  cbn [plain] in Hp. apply andb_true_iff in Hp as [Hc Hp].
  apply negb_true_iff in Hc.
  cbn [length Nat.add append].
  rewrite (parse_alt_plain t _ c (p ++ rest) g Hc
             (no_quantifier_app p rest Hp Hq)).
  rewrite (IH Hp). cbn [seq_lit].
  destruct p as [|d p]; [|reflexivity].
  cbn [seq_lit]. destruct r; try reflexivity. now contradiction Hr.
Qed.

Lemma lit_chain_not_Eps (c : ascii) (p : string) :
  lit_chain (String c p) <> Eps.
Proof. destruct p; discriminate. Qed.

(** [.*?] before a run of plain characters that ends the pattern. *)
Lemma parse_alt_lazy_any (t : nat) (c : ascii) (p : string) (f g : nat) :
  plain (String c p) = true ->
  parse_alt t (S (S (S (length (String c p) + f))))
    (".*?" ++ String c p) g
  = Some (Seq (Star false Any) (lit_chain (String c p)), "", g).
Proof.
  intros Hp.
  pose proof (parse_alt_plain_string t (String c p) f g Hp) as H.
  pose proof (lit_chain_not_Eps c p) as Hne.
  cbn [append].
  change (parse_alt t (S (S (S (length (String c p) + f))))
            (String "." (String "*" (String "?" (String c p)))) g)
    with (match parse_alt t (S (S (length (String c p) + f))) (String c p) g
          with
          | Some (Eps, s2, g2) => Some (Star false Any, s2, g2)
          | Some (r2, s2, g2) => Some (Seq (Star false Any) r2, s2, g2)
          | None => None
          end).
  assert (H' : parse_alt t (S (S (length (String c p) + f))) (String c p) g
               = Some (lit_chain (String c p), "", g)).
  { replace (S (S (length (String c p) + f)))
      with (S (length (String c p) + S f)) by lia.
    now apply parse_alt_plain_string. }
  rewrite H'. destruct (lit_chain (String c p)); try reflexivity.
  now contradiction Hne.
Qed.

Lemma userHeadingSource_eq (weekEndDate displayName : string) :
  userHeadingSource weekEndDate displayName
  = weekHeadingText weekEndDate ++ ".*?" ++ userHeadingText displayName.
Proof.
  unfold userHeadingSource, weekHeadingText, userHeadingText.
  rewrite !append_assoc. reflexivity.
Qed.

Lemma plain_weekHeadingText (weekEndDate : string) :
  plain weekEndDate = true -> plain (weekHeadingText weekEndDate) = true.
Proof.
  intros H. unfold weekHeadingText. rewrite !plain_app, H. reflexivity.
Qed.

Lemma plain_userHeadingText (displayName : string) :
  plain displayName = true -> plain (userHeadingText displayName) = true.
Proof.
  intros H. unfold userHeadingText. rewrite !plain_app, H. reflexivity.
Qed.

Lemma parse_disj_S (t f : nat) (s : string) (g : nat) :
  parse_disj t (S f) s g
  = match parse_alt t f s g with
    | Some (r1, String "|" s1, g1) =>
        match parse_disj t f s1 g1 with
        | Some (r2, s2, g2) => Some (Alt r1 r2, s2, g2)
        | None => None
        end
    | x => x
    end.
Proof. reflexivity. Qed.

Lemma parse_user (t : nat) (h2 : string) (c : ascii) (p : string)
    (f : nat) :
  plain h2 = true -> plain (String c p) = true ->
  parse_disj t (S (S (length h2 + S (S (length (String c p) + f)))))
    (h2 ++ ".*?" ++ String c p) 0
  = Some (seq_lit h2 (Seq (Star false Any) (lit_chain (String c p))), "", 0).
Proof.
  intros H2 H3. rewrite parse_disj_S.
  rewrite (parse_alt_prefix t h2 (".*?" ++ String c p)
             (Seq (Star false Any) (lit_chain (String c p))));
    [reflexivity|exact H2|reflexivity|discriminate|].
  now apply parse_alt_lazy_any.
Qed.

(** The pattern of [hasWeekForUser] for a label and a name without
    metacharacters. *)
Lemma user_rx_compiles (weekEndDate displayName : string) :
  plain weekEndDate = true -> plain displayName = true ->
  RegExp (userHeadingSource weekEndDate displayName) "s"
  = Some (user_rx weekEndDate displayName).
Proof.
  intros HL HN. rewrite userHeadingSource_eq. unfold RegExp, user_rx.
  pose proof (plain_weekHeadingText _ HL) as H2.
  pose proof (plain_userHeadingText _ HN) as H3.
  assert (E : userHeadingText displayName
              = String "<" ("h3>" ++ displayName ++ "</h3>")) by reflexivity.
  rewrite E in *. clear E.
  revert H2 H3.
  generalize (weekHeadingText weekEndDate).
  generalize ("h3>" ++ displayName ++ "</h3>").
  intros p h2 H2 H3.
  replace (3 * length (h2 ++ ".*?" ++ String "<" p) + 3)
    with (S (S (length h2
                + S (S (length (String "<" p)
                        + (2 * length h2 + 2 * length p + 10))))))
    by (rewrite !length_append; cbn [length]; lia).
  rewrite (parse_user _ h2 "<" p _ H2 H3). reflexivity.
Qed.

(** ** Matching *)

Lemma prefix_fl_iff (fl : flags) (p s : string) :
  ignoreCase fl = false ->
  prefix_fl fl p s = true <-> s = p ++ drop (length p) s.
Proof.
  intros Hfl. revert s. induction p as [|a p IH]; intros s.
  - split; reflexivity.
  - destruct s as [|b s]; [split; discriminate|].
    cbn [prefix_fl length drop append].
    rewrite char_eq_plain by exact Hfl.
    rewrite andb_true_iff, Ascii.eqb_eq, IH. split.
    + intros [-> H]. now f_equal.
    + intros [= -> H]. now split.
Qed.

Lemma star_lazy_any_cons {A : Type} (fl : flags) (n : nat) (a : ascii)
    (s : string) (c : caps) (k : string -> caps -> option A) :
  dotAll fl = true ->
  rmatch fl n (Star false Any) (String a s) c k
  = match k (String a s) c with
    | Some v => Some v
    | None => rmatch fl n (Star false Any) s c k
    end.
Proof.
  intros Hfl. cbn [rmatch length groups_of]. rewrite clear_caps_nil.
  destruct (k (String a s) c); [reflexivity|].
  rewrite Hfl. cbn [orb].
  assert (L : (length s <? S (length s)) = true) by (apply Nat.ltb_lt; lia).
  now rewrite L.
Qed.

(** With the flag [s], [.*?] gives way at the first position from which
    the rest of the pattern matches, wherever that is. *)
Lemma lazy_any (fl : flags) {A : Type} (n : nat) (s : string) (c : caps)
    (k : string -> caps -> option A) :
  dotAll fl = true ->
  rmatch fl n (Star false Any) s c k <> None
  <-> exists b rest, s = b ++ rest /\ k rest c <> None.
Proof.
  intros Hfl. induction s as [|a s IH].
  - rewrite star_nil. split.
    + intros H. now exists "", "".
    + intros (b & rest & E & H). destruct b; [|discriminate].
      cbn [append] in E. now subst rest.
  - rewrite star_lazy_any_cons by exact Hfl. split.
    + destruct (k (String a s) c) eqn:E.
      * intros _. exists "", (String a s). split; [reflexivity|].
        now rewrite E.
      * intros H. apply IH in H as (b & rest & -> & H).
        now exists (String a b), rest.
    + intros (b & rest & E & H). destruct (k (String a s) c) eqn:Ek;
        [discriminate|].
      apply IH. destruct b as [|x b].
      * cbn [append] in E. subst rest. now rewrite Ek in H.
      * cbn [append] in E. injection E as _ ->. now exists b, rest.
Qed.

(** Where the pattern matches: at a heading of the week that the heading
    of the user follows, at any distance. *)
Lemma user_at (weekEndDate displayName : string) (n : nat) (s : string) :
  at_ (user_rx weekEndDate displayName) n s <> None
  <-> exists b c,
        s = weekHeadingText weekEndDate ++ b
            ++ userHeadingText displayName ++ c.
Proof.
  unfold at_, user_rx. cbn [re fl].
  rewrite rmatch_seq_lit.
  set (h2 := weekHeadingText weekEndDate).
  set (h3 := userHeadingText displayName).
  split.
  - destruct (prefix_fl s_flags h2 s) eqn:E; [|intros H; now contradiction H].
    apply prefix_fl_iff in E; [|reflexivity].
    rewrite rmatch_Seq. intros H.
    apply (lazy_any s_flags) in H; [|reflexivity].
    destruct H as (b & rest & Hs & H).
    rewrite rmatch_lit_chain in H.
    destruct (prefix_fl s_flags h3 rest) eqn:E3; [|now contradiction H].
    apply prefix_fl_iff in E3; [|reflexivity].
    exists b, (drop (length h3) rest).
    rewrite E, Hs. now rewrite <- E3.
  - intros (b & c & ->).
    rewrite prefix_fl_refl, drop_app_length, rmatch_Seq.
    apply (lazy_any s_flags); [reflexivity|].
    exists b, (h3 ++ c). split; [reflexivity|].
    rewrite rmatch_lit_chain, prefix_fl_refl. discriminate.
Qed.

Lemma user_test (weekEndDate displayName s : string) :
  test (user_rx weekEndDate displayName) s = true
  <-> week_then_user weekEndDate displayName s.
Proof.
  rewrite test_true. unfold week_then_user. split.
  - intros (j & Hj & H). apply user_at in H as (b & c & H).
    exists (take j s), b, c. rewrite <- H. apply take_drop.
  - intros (a & b & c & ->). exists (length a). split.
    + rewrite length_append. lia.
    + rewrite drop_app_length. apply user_at. now exists b, c.
Qed.

Lemma week_then_user_part (weekEndDate displayName pre s post : string) :
  week_then_user weekEndDate displayName s ->
  week_then_user weekEndDate displayName (pre ++ s ++ post).
Proof.
  intros (a & b & c & ->). exists (pre ++ a), b, (c ++ post).
  now rewrite !append_assoc.
Qed.

End UserFacts.


(** * Merging for a plain display name *)
Module MergeProps.
Import Js Regex RegexSpec Confluence Layout UserSpec.
Import StringFacts MapFacts RegexFacts QuietFacts PatternFacts ScanFacts.
Import UserFacts.
Import MergeSpec PatternSpec ScanSpec.

(** ** Splitting at a pattern without groups *)

Lemma split_loop_head (x : rx) (T : string) (fuel : nat) :
  forall p q, exists h rest, split_loop fuel x T p q = Some h :: rest.
Proof.
  induction fuel as [|fuel IH]; intros p q; [now eexists _, _|].
  rewrite split_loop_S. destruct (length T <=? q); [now eexists _, _|].
  destruct (at_ x (length T) (drop q T)) as [[s' c]|]; [|apply IH].
  cbv zeta. destruct (_ =? p); [apply IH|]. now eexists _, _.
Qed.

Lemma split_loop_two (x : rx) (T : string) (j : nat) :
  ngroups x = 0 ->
  (forall t s' c, at_ x (length T) t = Some (s', c) -> length s' < length t) ->
  at_ x (length T) (drop j T) <> None ->
  forall k q fuel, q + k = j -> k < fuel ->
  exists p0 p1 rest, split_loop fuel x T 0 q = Some p0 :: Some p1 :: rest.
Proof.
  intros Hg Hlen Hj.
  assert (HjT : j < length T).
  { destruct (at_ x (length T) (drop j T)) as [[s' c]|] eqn:E;
      [|now contradiction Hj].
    apply Hlen in E. rewrite length_drop in E. lia. }
  induction k as [|k IH]; intros q fuel Hq Hf.
  - destruct fuel as [|fuel]; [lia|]. rewrite split_loop_S.
    assert (E : (length T <=? q) = false) by (apply Nat.leb_gt; lia).
    rewrite E. replace q with j by lia.
    destruct (at_ x (length T) (drop j T)) as [[s' c]|] eqn:Ea;
      [|now contradiction Hj].
    cbv zeta. pose proof (Hlen _ _ _ Ea) as Hl. rewrite length_drop in Hl.
    assert (E0 : (Nat.min (length T - length s') (length T) =? 0) = false)
      by (apply Nat.eqb_neq; lia).
    rewrite E0. unfold capture_list. rewrite Hg. cbn [seq map app].
    destruct (split_loop_head x T fuel
                (Nat.min (length T - length s') (length T))
                (Nat.min (length T - length s') (length T)))
      as (h & rest & ->).
    now eexists _, _, _.
  - destruct fuel as [|fuel]; [lia|]. rewrite split_loop_S.
    assert (E : (length T <=? q) = false) by (apply Nat.leb_gt; lia).
    rewrite E.
    destruct (at_ x (length T) (drop q T)) as [[s' c]|] eqn:Ea.
    + cbv zeta. pose proof (Hlen _ _ _ Ea) as Hl. rewrite length_drop in Hl.
      assert (E0 : (Nat.min (length T - length s') (length T) =? 0) = false)
        by (apply Nat.eqb_neq; lia).
      rewrite E0. unfold capture_list. rewrite Hg. cbn [seq map app].
      destruct (split_loop_head x T fuel
                  (Nat.min (length T - length s') (length T))
                  (Nat.min (length T - length s') (length T)))
        as (h & rest & ->).
      now eexists _, _, _.
    + apply IH; lia.
Qed.

(** Where a pattern without groups and without empty matches is found, the
    split has a piece before and a piece after. *)
Lemma split_two (x : rx) (T : string) :
  ngroups x = 0 ->
  (forall n t s' c, at_ x n t = Some (s', c) -> length s' < length t) ->
  test x T = true ->
  exists p0 p1 rest, split x T = Some p0 :: Some p1 :: rest.
Proof.
  intros Hg Hlen Ht. apply test_true in Ht as (j & Hj & Hat).
  destruct T as [|a T].
  - exfalso. destruct j; [|cbn [length] in Hj; lia].
    cbn [drop] in Hat.
    destruct (at_ x (length "") "") as [[s' c]|] eqn:E;
      [|now contradiction Hat].
    apply Hlen in E. cbn [length] in E. lia.
  - change (split x (String a T))
      with (split_loop (2 * length (String a T) + 1) x (String a T) 0 0).
    apply (split_loop_two x (String a T) j Hg (Hlen _) Hat j 0); lia.
Qed.

Lemma prefix_fl_length (fl : flags) (p s : string) :
  prefix_fl fl p s = true -> length p <= length s.
Proof.
  revert s. induction p as [|a p IH]; intros s H; [cbn [length]; lia|].
  destruct s as [|b s]; [discriminate|]. cbn [prefix_fl] in H.
  apply andb_true_iff in H as [_ H]. apply IH in H. cbn [length]. lia.
Qed.

Lemma lit_chain_consumes (fl0 : flags) (c : ascii) (p : string) (n : nat)
    (t s' : string) (cs : caps) :
  at_ {| re := lit_chain (String c p); fl := fl0; ngroups := 0 |} n t
  = Some (s', cs) ->
  length s' < length t.
Proof.
  unfold at_. cbn [re fl]. rewrite rmatch_lit_chain.
  destruct (prefix_fl fl0 (String c p) t) eqn:E; [|discriminate].
  intros H.
  assert (Hs : s' = drop (length (String c p)) t) by congruence.
  apply prefix_fl_length in E. rewrite Hs, length_drop.
  cbn [length] in *. lia.
Qed.

(** ** The merge engine on plain labels and names *)

Lemma week_rx_plain (weekEndDate : string) :
  plain weekEndDate = true ->
  RegExp (weekHeadingSource weekEndDate) "i"
  = Some {| re := lit_chain (weekHeadingText weekEndDate); fl := i_flags;
            ngroups := 0 |}.
Proof.
  intros H. apply RegExp_plain; [|reflexivity].
  now apply plain_weekHeadingText.
Qed.

Lemma map_get_some_in (k v : string) (m : Map) :
  map_get k m = Some v -> In (k, v) m.
Proof.
  induction m as [|[j w] m IH]; [discriminate|]. cbn [map_get].
  destruct (String.eqb k j) eqn:E.
  - apply String.eqb_eq in E. intros [= <-]. left. now subst.
  - intros H. right. now apply IH.
Qed.

Lemma map_set_in (k v : string) (m : Map) : In (k, v) (map_set k v m).
Proof.
  induction m as [|[j w] m IH]; [now left|]. cbn [map_set].
  destruct (String.eqb k j) eqn:E.
  - apply String.eqb_eq in E. subst j. now left.
  - right. exact IH.
Qed.

(** The section of the month after [addContentToMonthSections]: it holds
    the heading of the week and, after it, the heading of the user. *)
Lemma add_plain (now : Clock) (sections : Map)
    (month weekEndDate displayName formattedContent : string) :
  plain weekEndDate = true -> plain displayName = true ->
  NoDup (map fst sections) ->
  exists updatedSections,
    addContentToMonthSections now sections month weekEndDate displayName
      formattedContent = Ok updatedSections
    /\ NoDup (map fst updatedSections)
    /\ exists text,
         In (month, text) updatedSections
         /\ week_then_user weekEndDate displayName text.
Proof.
  intros HL HN Hnd. unfold addContentToMonthSections.
  destruct (map_get month sections) as [monthContent|] eqn:Eg.
  - unfold rbind, newRegExp.
    rewrite (week_rx_plain _ HL), (user_rx_compiles _ _ HL HN).
    destruct (test (user_rx weekEndDate displayName) monthContent) eqn:Eu.
    { exists sections. split; [reflexivity|]. split; [exact Hnd|].
      exists monthContent. split; [now apply map_get_some_in|].
      now apply user_test. }
    set (wk := {| re := lit_chain (weekHeadingText weekEndDate);
                  fl := i_flags; ngroups := 0 |}).
    destruct (test wk monthContent) eqn:Ew.
    + destruct (split_two wk monthContent eq_refl
                  (fun n t s' c =>
                     lit_chain_consumes i_flags "<"
                       ("h2>w/e " ++ weekEndDate ++ "</h2>") n t s' c) Ew)
        as (part0 & afterWeekHeading & rest & Es).
      rewrite Es.
      destruct (exec anyHeading afterWeekHeading 0) as [nextHeadingMatch|].
      * eexists. split; [reflexivity|]. split; [now apply map_set_nodup|].
        eexists. split; [apply map_set_in|].
        exists part0,
          (substring 0 (Regex.index nextHeadingMatch) afterWeekHeading ++ nl),
          (nl ++ formattedContent ++ nl ++ nl
           ++ substring_from (Regex.index nextHeadingMatch) afterWeekHeading).
        unfold createUserSection, weekHeadingText, userHeadingText.
        rewrite !append_assoc. reflexivity.
      * eexists. split; [reflexivity|]. split; [now apply map_set_nodup|].
        eexists. split; [apply map_set_in|].
        exists part0, (afterWeekHeading ++ nl),
          (nl ++ formattedContent ++ nl ++ nl).
        unfold createUserSection, weekHeadingText, userHeadingText.
        rewrite !append_assoc. reflexivity.
    + destruct (match map Number (split_char "/" weekEndDate "") with
                | [] => _ | _ => _ end) as [newDay newMonth].
      eexists. split; [reflexivity|]. split; [now apply map_set_nodup|].
      eexists. split; [apply map_set_in|].
      match goal with
      | |- week_then_user _ _ (?a ++ _ ++ ?c) =>
          exists (a ++ nl), nl, (nl ++ formattedContent ++ nl ++ nl ++ c)
      end.
      unfold createWeekSection, weekHeadingText, userHeadingText.
      rewrite !append_assoc. reflexivity.
  - eexists. split; [reflexivity|]. split; [now apply map_set_nodup|].
    eexists. split; [apply map_set_in|].
    exists (nl ++ "<h1>" ++ month ++ "</h1>" ++ nl), nl,
      (nl ++ formattedContent ++ nl ++ nl).
    unfold createFullSection, weekHeadingText, userHeadingText.
    rewrite !append_assoc. reflexivity.
Qed.

(** A merge for a plain label and a plain name, once the pattern of the
    month is compiled. *)
Lemma prepare_plain (this : ConfluenceService) (now : Clock)
    (currentContent formattedContent : string) (info : weekInfo)
    (monthHeadingPattern : rx) :
  RegExp (monthHeadingSource (month info)) "i" = Some monthHeadingPattern ->
  plain (weekEndDate info) = true ->
  plain (confluenceDisplayName this) = true ->
  exists u,
    prepareUpdatedContent this now currentContent formattedContent info = Ok u
    /\ week_then_user (weekEndDate info) (confluenceDisplayName this)
         (updatedContent u)
    /\ (week_then_user (weekEndDate info) (confluenceDisplayName this)
          currentContent ->
        u = {| updatedContent := currentContent;
               status := alreadyExists (weekEndDate info) |}).
Proof.
  intros Hm HL HN. unfold prepareUpdatedContent, rbind, newRegExp.
  rewrite Hm, (week_rx_plain _ HL), (user_rx_compiles _ _ HL HN).
  destruct (test (user_rx (weekEndDate info) (confluenceDisplayName this))
              currentContent) eqn:Eu.
  - eexists. split; [reflexivity|]. cbn [updatedContent].
    split; [now apply user_test|]. intros _. reflexivity.
  - destruct (extractMonthSections_entries currentContent) as [Hnd _].
    destruct (add_plain now (extractMonthSections currentContent)
                (month info) (weekEndDate info) (confluenceDisplayName this)
                formattedContent HL HN Hnd)
      as (m' & -> & Hnd' & text & Hin & Hw).
    eexists. split; [reflexivity|]. cbn [updatedContent]. split.
    + destruct (regenerate_contains m' _ _ Hnd' Hin) as (pre & post & ->).
      now apply week_then_user_part.
    + intros H. apply user_test in H. congruence.
Qed.

Lemma prepare_compiled (this : ConfluenceService) (now : Clock)
    (currentContent formattedContent : string) (info : weekInfo)
    (u : updated) :
  prepareUpdatedContent this now currentContent formattedContent info = Ok u ->
  exists monthHeadingPattern,
    RegExp (monthHeadingSource (month info)) "i" = Some monthHeadingPattern.
Proof.
  unfold prepareUpdatedContent, rbind, newRegExp.
  destruct (RegExp (monthHeadingSource (month info)) "i") as [x|];
    [intros _; now exists x|discriminate].
Qed.

End MergeProps.


(** * Reports that are on the page already *)
Module PresenceProps.
Import Js Regex RegexSpec Format Confluence Toggl Main Layout UserSpec.
Import StringFacts MapFacts RegexFacts QuietFacts PatternFacts.
Import DateUtils DayFacts UserFacts MergeProps.
Import MergeSpec PatternSpec ScanSpec.

Lemma has_plain (this : ConfluenceService) (content weekEndDate : string) :
  plain weekEndDate = true -> plain (confluenceDisplayName this) = true ->
  hasWeekForUser this content weekEndDate
  = Ok (test (user_rx weekEndDate (confluenceDisplayName this)) content).
Proof.
  intros HL HN. unfold hasWeekForUser, rbind, newRegExp.
  rewrite (user_rx_compiles _ _ HL HN). reflexivity.
Qed.

(** X8. For a week label and a display name without pattern
    metacharacters, [hasWeekForUser] does not throw, and it answers true
    exactly when the content holds the heading of the week and, anywhere
    after it, the heading of the user. *)
Theorem hasWeekForUser_finds_the_week_then_the_user
    (this : ConfluenceService) (content weekEndDate : string) :
  plain weekEndDate = true -> plain (confluenceDisplayName this) = true ->
  exists found,
    hasWeekForUser this content weekEndDate = Ok found
    /\ (found = true
        <-> week_then_user weekEndDate (confluenceDisplayName this) content).
Proof.
  intros HL HN. rewrite (has_plain _ _ _ HL HN).
  eexists. split; [reflexivity|]. apply user_test.
Qed.

Lemma hasWeekForUser_witness :
  plain "14/03" = true
  /\ plain (confluenceDisplayName (Sim.service_of "Alice")) = true
  /\ exists found,
       hasWeekForUser (Sim.service_of "Alice") Sim.two_weeks "14/03"
       = Ok found
       /\ (found = true
           <-> week_then_user "14/03"
                 (confluenceDisplayName (Sim.service_of "Alice"))
                 Sim.two_weeks).
Proof.
  split; [reflexivity|]. split; [reflexivity|].
  apply (hasWeekForUser_finds_the_week_then_the_user
           (Sim.service_of "Alice") Sim.two_weeks "14/03"); reflexivity.
Defined.

(** X9. After a merge for a plain label and a plain display name, whatever
    its outcome, [hasWeekForUser] finds that week and user in the updated
    content. *)
Theorem merged_report_is_found (this : ConfluenceService) (now : Clock)
    (currentContent formattedContent : string) (info : weekInfo)
    (u : updated) :
  plain (weekEndDate info) = true ->
  plain (confluenceDisplayName this) = true ->
  prepareUpdatedContent this now currentContent formattedContent info = Ok u ->
  hasWeekForUser this (updatedContent u) (weekEndDate info) = Ok true.
Proof.
  intros HL HN Hu.
  destruct (prepare_compiled _ _ _ _ _ _ Hu) as (mh & Hm).
  destruct (prepare_plain this now currentContent formattedContent info mh
              Hm HL HN) as (u' & E & Hw & _).
  assert (Eu : u' = u) by congruence. subst u'.
  rewrite (has_plain _ _ _ HL HN). f_equal. now apply user_test.
Qed.

Lemma merged_report_witness :
  plain "14/03" = true
  /\ plain (confluenceDisplayName (Sim.service_of "Alice")) = true
  /\ hasWeekForUser (Sim.service_of "Alice")
       (Sim.merged "Alice" "" (Sim.march "14/03")) "14/03" = Ok true.
Proof.
  split; [reflexivity|]. split; [reflexivity|].
  apply (merged_report_is_found (Sim.service_of "Alice")
           (fun _ => Sim.day_start 2026 2 23) "" Sim.body (Sim.march "14/03")
           {| updatedContent := Sim.merged "Alice" "" (Sim.march "14/03");
              status := "Added new month 'March'." |});
    [reflexivity|reflexivity|vm_compute; reflexivity].
Defined.

(** A brace that opens no quantifier stands for itself: the report of a
    display name with braces is found. *)
Example braces_in_a_display_name :
  hasWeekForUser (Sim.service_of "Bob {dev}")
    (Sim.merged "Bob {dev}" "" (Sim.march "14/03")) "14/03" = Ok true.
Proof. vm_compute. reflexivity. Qed.

(** X10. For a plain label and a plain display name, a merge is
    idempotent: merging again into the content a merge returned, with any
    report body and at any time, changes nothing and reports that the
    report already exists. *)
Theorem second_merge_changes_nothing (this : ConfluenceService) (now : Clock)
    (currentContent formattedContent : string) (info : weekInfo)
    (u : updated) (now' : Clock) (formattedContent' : string) :
  plain (weekEndDate info) = true ->
  plain (confluenceDisplayName this) = true ->
  prepareUpdatedContent this now currentContent formattedContent info = Ok u ->
  prepareUpdatedContent this now' (updatedContent u) formattedContent' info
  = Ok {| updatedContent := updatedContent u;
          status := alreadyExists (weekEndDate info) |}.
Proof.
  intros HL HN Hu.
  destruct (prepare_compiled _ _ _ _ _ _ Hu) as (mh & Hm).
  destruct (prepare_plain this now currentContent formattedContent info mh
              Hm HL HN) as (u1 & E1 & Hw & _).
  assert (Eu : u1 = u) by congruence. subst u1.
  destruct (prepare_plain this now' (updatedContent u) formattedContent' info
              mh Hm HL HN) as (u2 & E2 & _ & Hsame).
  rewrite E2. f_equal. now apply Hsame.
Qed.

Lemma second_merge_witness :
  plain "14/03" = true
  /\ plain (confluenceDisplayName (Sim.service_of "Alice")) = true
  /\ prepareUpdatedContent (Sim.service_of "Alice") (fun _ => 0%Z)
       (Sim.merged "Alice" "" (Sim.march "14/03")) "" (Sim.march "14/03")
     = Ok {| updatedContent := Sim.merged "Alice" "" (Sim.march "14/03");
             status := alreadyExists "14/03" |}.
Proof.
  split; [reflexivity|]. split; [reflexivity|].
  apply (second_merge_changes_nothing (Sim.service_of "Alice")
           (fun _ => Sim.day_start 2026 2 23) "" Sim.body (Sim.march "14/03")
           {| updatedContent := Sim.merged "Alice" "" (Sim.march "14/03");
              status := "Added new month 'March'." |} (fun _ => 0%Z) "");
    [reflexivity|reflexivity|vm_compute; reflexivity].
Defined.

(** ** Requests the orchestrator makes *)

Lemma plain_digit (c : ascii) : is_digit c = true -> special c = false.
Proof. intros H. now apply digit_cases in H. Qed.

Lemma plain_two_digit (d : string) : two_digit d = true -> plain d = true.
Proof.
  intros H. apply two_digit_inv in H as (a & b & -> & Ha & Hb).
  cbn [plain]. now rewrite (plain_digit a Ha), (plain_digit b Hb).
Qed.

Lemma plain_label (d mm : string) :
  two_digit d = true -> two_digit mm = true -> plain (d ++ "/" ++ mm) = true.
Proof.
  intros Hd Hm. rewrite !plain_app.
  now rewrite (plain_two_digit d Hd), (plain_two_digit mm Hm).
Qed.

Lemma plain_weekEndLabel (endDate : Z) : plain (weekEndLabel endDate) = true.
Proof.
  unfold weekEndLabel.
  destruct (civil_from_days (endDate / msPerDay)) as [[y m] d] eqn:E.
  apply civil_spec in E as (_ & Hm & Hd & _).
  apply plain_label; apply two_digits_two_digit; lia.
Qed.

Lemma month_rx_compiles (name : string) :
  In name monthNames ->
  exists x, RegExp (monthHeadingSource name) "i" = Some x.
Proof.
  revert name. apply month_cases; eexists; apply RegExp_plain; reflexivity.
Qed.

Lemma monthLong_name (endDate : Z) : In (monthLong endDate) monthNames.
Proof.
  unfold monthLong.
  destruct (civil_from_days (endDate / msPerDay)) as [[y m] d] eqn:E.
  apply civil_spec in E as (_ & Hm & _).
  apply nth_In. unfold monthNames. cbn [List.length]. lia.
Qed.

(** X11. For a display name without pattern metacharacters, the merge of
    a report under the week of any date range does not throw: every
    pattern it builds compiles and every piece it reads from a split is
    there. *)
Theorem report_merge_never_throws (this : ConfluenceService) (now : Clock)
    (currentContent formattedContent : string) (dateRange : DateRange) :
  plain (confluenceDisplayName this) = true ->
  exists u,
    prepareUpdatedContent this now currentContent formattedContent
      (weekInfo_of dateRange) = Ok u.
Proof.
  intros HN.
  destruct (month_rx_compiles _ (monthLong_name (endDate dateRange)))
    as (mh & Hm).
  destruct (prepare_plain this now currentContent formattedContent
              (weekInfo_of dateRange) mh Hm
              (plain_weekEndLabel (endDate dateRange)) HN) as (u & E & _).
  now exists u.
Qed.

Lemma report_merge_witness :
  plain (confluenceDisplayName (Sim.service_of "Alice")) = true
  /\ exists u,
       prepareUpdatedContent (Sim.service_of "Alice") (fun _ => 0%Z)
         Sim.two_weeks
         Sim.body (weekInfo_of (Sim.week_ending 2026 2 13)) = Ok u.
Proof.
  split; [reflexivity|].
  apply (report_merge_never_throws (Sim.service_of "Alice") (fun _ => 0%Z)
           Sim.two_weeks Sim.body (Sim.week_ending 2026 2 13)).
  reflexivity.
Defined.

Section WithRemote.
Context {W : Type} {R : Remote W}.

(** X12. [postReport] writes nothing when the page it reads already holds
    the heading of the week and, after it, the heading of the user (a plain
    display name): it ends without error, and the only remote call made is
    the read of the page. *)
Theorem postReport_writes_nothing_when_reported
    (this : ConfluenceService) (formattedContent : string)
    (dateRange : DateRange) (w w' : W) (t : TogglService) (p : Page) :
  plain (confluenceDisplayName this) = true ->
  get_page (confluencePageId this) w = (w', Ok p) ->
  week_then_user (weekEndLabel (endDate dateRange))
    (confluenceDisplayName this) (content p) ->
  postReport this formattedContent dateRange (w, t) = Some ((w', t), Ok tt).
Proof.
  intros HN Hget Hw.
  destruct (month_rx_compiles _ (monthLong_name (endDate dateRange)))
    as (mh & Hm).
  destruct (prepare_plain this (clock w') (content p) formattedContent
              (weekInfo_of dateRange) mh Hm
              (plain_weekEndLabel (endDate dateRange)) HN)
    as (u & E & _ & Hsame).
  specialize (Hsame Hw). subst u.
  unfold postReport, bind, getPageContent, try_catch, call, read_clock,
    of_result.
  cbn [fst snd]. rewrite Hget. cbn [fst snd].
  unfold weekInfo_of in E. rewrite E. cbn [updatedContent].
  rewrite String.eqb_refl. reflexivity.
Qed.

(** X13. A backfill passes over the weeks the page already holds for the
    user (a plain display name): each is counted as skipped, and the loop
    over them makes no remote call and no pause. *)
Theorem backfill_skips_reported_weeks (fuel : nat)
    (confluenceService : ConfluenceService) (existingContent : string)
    (projectMap : ProjectMap) (reversedWeeks : list DateRange)
    (counts : Counts) (st : W * TogglService) :
  plain (confluenceDisplayName confluenceService) = true ->
  (forall week, In week reversedWeeks ->
     week_then_user (weekEndLabel (endDate week))
       (confluenceDisplayName confluenceService) existingContent) ->
  weeks_loop fuel confluenceService existingContent projectMap reversedWeeks
    counts st
  = Some (st, Ok {| processedCount := processedCount counts;
                    skippedCount :=
                      List.length reversedWeeks + skippedCount counts;
                    errorCount := errorCount counts;
                    noDataCount := noDataCount counts |}).
Proof.
  intros HN. revert counts.
  induction reversedWeeks as [|week rest IH]; intros counts Hall.
  - cbn [weeks_loop List.length Nat.add]. unfold ret. now destruct counts.
  - cbn [weeks_loop]. unfold bind.
    rewrite BackfillClaims.week_step_skipped.
    + rewrite IH by (intros x Hx; apply Hall; now right).
      cbn [skipped processedCount skippedCount errorCount noDataCount
           List.length].
      do 3 f_equal. f_equal. lia.
    + rewrite (has_plain _ _ _ (plain_weekEndLabel (endDate week)) HN).
      f_equal. apply user_test. apply Hall. now left.
Qed.

End WithRemote.

Lemma postReport_witness :
  plain (confluenceDisplayName Sim.service) = true
  /\ get_page (Remote := Sim.remote None) (confluencePageId Sim.service)
       Reported.world = (Reported.world, Ok Reported.reported_page)
  /\ week_then_user (weekEndLabel (endDate (Sim.week_ending 2026 2 13)))
       (confluenceDisplayName Sim.service) (content Reported.reported_page)
  /\ postReport (R := Sim.remote None) Sim.service Sim.body
       (Sim.week_ending 2026 2 13) (Reported.world, Sim.toggl)
     = Some ((Reported.world, Sim.toggl), Ok tt).
Proof.
  assert (Hw : week_then_user
                 (weekEndLabel (endDate (Sim.week_ending 2026 2 13)))
                 (confluenceDisplayName Sim.service)
                 (content Reported.reported_page)).
  { exists "", "", "". vm_compute. reflexivity. }
  split; [reflexivity|]. split; [reflexivity|]. split; [exact Hw|].
  apply (postReport_writes_nothing_when_reported (R := Sim.remote None)
           Sim.service Sim.body (Sim.week_ending 2026 2 13)
           Reported.world Reported.world Sim.toggl Reported.reported_page);
    [reflexivity|reflexivity|exact Hw].
Defined.

Lemma backfill_skips_witness :
  plain (confluenceDisplayName Sim.service) = true
  /\ (forall week, In week [Sim.week_ending 2026 2 13] ->
        week_then_user (weekEndLabel (endDate week))
          (confluenceDisplayName Sim.service) Reported.text)
  /\ weeks_loop (R := Sim.remote None) 2 Sim.service Reported.text []
       [Sim.week_ending 2026 2 13] zero_counts (Reported.world, Sim.toggl)
     = Some ((Reported.world, Sim.toggl),
             Ok {| processedCount := 0; skippedCount := 1;
                   errorCount := 0; noDataCount := 0 |}).
Proof.
  assert (Hw : forall week, In week [Sim.week_ending 2026 2 13] ->
                 week_then_user (weekEndLabel (endDate week))
                   (confluenceDisplayName Sim.service) Reported.text).
  { intros week [<-|[]]. exists "", "", "". vm_compute. reflexivity. }
  split; [reflexivity|]. split; [exact Hw|].
  apply (backfill_skips_reported_weeks (R := Sim.remote None) 2 Sim.service
           Reported.text [] [Sim.week_ending 2026 2 13] zero_counts
           (Reported.world, Sim.toggl)); [reflexivity|exact Hw].
Defined.

End PresenceProps.


(** * The failures of a fetch of time records *)
Module FetchProps.
Import Js Format Toggl.

Section WithRemote.
Context {W : Type} {R : Remote W}.

(** X14. Whatever the upstream answers, an error [fetchTimeRecords]
    throws is either "Failed to fetch time records: " followed by the
    message of the failed request, or "Invalid time value" for a date that
    is not valid; no error of a request leaves it unwrapped. *)
Theorem fetchTimeRecords_wraps_every_failure (fuel : nat)
    (startDate endDate : Date) (st st' : W * TogglService) (error : exn) :
  fetchTimeRecords fuel startDate endDate st = Some (st', Throw error) ->
  (exists errorMessage,
     error = Error ("Failed to fetch time records: " ++ errorMessage))
  \/ error = Error "Invalid time value".
Proof.
  revert startDate st.
  induction fuel as [|fuel IH]; intros startDate st; [discriminate|].
  cbn [fetchTimeRecords]. unfold bind at 1, this_service.
  destruct (clamp (snd st) startDate) as [startTime|];
    [|unfold throw; intros [= _ <-]; now right].
  destruct endDate as [endTime|];
    [|unfold throw; intros [= _ <-]; now right].
  unfold try_catch, call.
  destruct (get_time_entries startTime endTime (fst st)) as [w r].
  destruct r as [records|e]; [discriminate|].
  destruct (boundary_of (message_of e)) as [earliestDate|].
  - unfold bind, store_earliest. apply IH.
  - unfold throw. intros [= _ <-]. left. now eexists.
Qed.

End WithRemote.

Lemma fetchTimeRecords_failure_witness :
  fetchTimeRecords (R := Sim.remote None) 1 (Some 0%Z) (Some 1%Z)
    (Reported.entries_down, Sim.toggl)
  = Some ((Sim.with_request Reported.entries_down (0%Z, 1%Z), Sim.toggl),
          Throw (Error ("Failed to fetch time records: "
                        ++ "Request failed with status code 503")))
  /\ ((exists errorMessage,
         Error ("Failed to fetch time records: "
                ++ "Request failed with status code 503")
         = Error ("Failed to fetch time records: " ++ errorMessage))
      \/ Error ("Failed to fetch time records: "
                ++ "Request failed with status code 503")
         = Error "Invalid time value").
Proof.
  assert (H : fetchTimeRecords (R := Sim.remote None) 1 (Some 0%Z) (Some 1%Z)
                (Reported.entries_down, Sim.toggl)
              = Some ((Sim.with_request Reported.entries_down (0%Z, 1%Z),
                       Sim.toggl),
                      Throw (Error ("Failed to fetch time records: "
                                    ++ "Request failed with status code 503"))))
    by reflexivity.
  split; [exact H|].
  exact (fetchTimeRecords_wraps_every_failure (R := Sim.remote None) 1
           (Some 0%Z) (Some 1%Z) _ _ _ H).
Defined.

End FetchProps.


(** * The two modes of a run, and pages read back *)
Module RunProps.
Import Js Confluence Main Layout DateUtils DaySpec.
Import DayFacts DateFacts WeekProps.
Import DocFacts RebuildFacts MergeFacts.
Import ScanSpec.
Local Open Scope Z_scope.

Lemma sorted_last (ws : list DateRange) (r0 : DateRange) :
  in_order ws -> In r0 ws ->
  (forall r, In r ws -> endDate r <= endDate r0) ->
  exists front, ws = (front ++ [r0])%list.
Proof.
  induction 1 as [|a l Hs IH Ha]; intros Hin Hmax; [destruct Hin|].
  destruct l as [|b l].
  - destruct Hin as [->|[]]. now exists [].
  - assert (Hin' : In r0 (b :: l)).
    { destruct Hin as [->|H]; [|exact H]. exfalso.
      rewrite Forall_forall in Ha.
      pose proof (Ha b (or_introl eq_refl)) as H1.
      pose proof (Hmax b (or_intror (or_introl eq_refl))) as H2. lia. }
    destruct (IH Hin') as (front & E).
    { intros r Hr. apply Hmax. now right. }
    exists (a :: front). now rewrite E.
Qed.

Lemma work_week_end (r : DateRange) :
  work_week r ->
  endDate r = endDate r / msPerDay * msPerDay + 86399999.
Proof.
  intros (_ & _ & H0 & H1). revert H0 H1.
  generalize (startDate r). generalize (endDate r).
  unfold msPerDay. intros e s H0 H1. Z.div_mod_to_equations. lia.
Qed.

(** X15. The week a normal run reports is the week a backfill started at
    the same instant takes first (it goes through the weeks of the year
    newest first), provided the Friday of that week lies in the current
    year and the instant is not the last millisecond of a day. *)
Theorem normal_run_reports_the_first_backfill_week
    (fuel : nat) (today : Z) :
  0 <= today -> (54 <= fuel)%nat ->
  getFullYear (endDate (getLastWeekDates today)) = getFullYear today ->
  today mod msPerDay <> 86399999 ->
  exists weeks rest,
    getAllWeeksInYear fuel today = Some weeks
    /\ rev weeks = getLastWeekDates today :: rest.
Proof.
  intros Ht Hf Hy Hms.
  destruct (all_weeks fuel today Ht Hf) as (weeks & Hw & Hs & Hin).
  destruct (last_full_week today) as [Hwork Hk].
  pose proof (Z.div_mod today msPerDay ltac:(discriminate)) as Hdm.
  pose proof (Z.mod_pos_bound today msPerDay ltac:(reflexivity)) as Hmb.
  set (r0 := getLastWeekDates today) in *.
  pose proof (work_week_end r0 Hwork) as E0.
  assert (Hin0 : In r0 weeks).
  { apply Hin. split; [exact Hwork|]. split; [exact Hy|].
    revert E0 Hk Hdm. generalize (endDate r0 / msPerDay).
    generalize (endDate r0). generalize (today / msPerDay).
    unfold msPerDay in *. intros. lia. }
  destruct (sorted_last weeks r0 Hs Hin0) as (front & ->).
  - intros r Hr. apply Hin in Hr as ((HF & HM & H0 & H1) & _ & Hle).
    destruct Hwork as (HF0 & _).
    unfold Friday, getDay in HF, HF0.
    pose proof (work_week_end r (conj HF (conj HM (conj H0 H1)))) as E.
    clear H0 H1 HM.
    revert E E0 HF HF0 Hk Hle Hdm Hmb Hms.
    generalize (endDate r / msPerDay). generalize (endDate r0 / msPerDay).
    generalize (endDate r). generalize (endDate r0).
    generalize (today mod msPerDay). generalize (today / msPerDay).
    unfold msPerDay. intros D m e0 e F0 F E E0 HF HF0 Hk Hle Hdm Hmb Hms.
    assert (HFD : F <= D - 1) by lia.
    assert (F <= F0); [|lia].
    clear - HF HF0 Hk HFD. Z.div_mod_to_equations. lia.
  - exists (front ++ [r0])%list, (rev front). split; [exact Hw|].
    now rewrite rev_app_distr.
Qed.

Lemma normal_run_witness :
  0 <= 1742860800000 /\ (54 <= 54)%nat
  /\ getFullYear (endDate (getLastWeekDates 1742860800000))
     = getFullYear 1742860800000
  /\ 1742860800000 mod msPerDay <> 86399999
  /\ exists weeks rest,
       getAllWeeksInYear 54 1742860800000 = Some weeks
       /\ rev weeks = getLastWeekDates 1742860800000 :: rest.
Proof.
  split; [lia|]. split; [lia|]. split; [reflexivity|].
  split; [discriminate|].
  apply (normal_run_reports_the_first_backfill_week 54 1742860800000);
    [lia|lia|reflexivity|discriminate].
Defined.

Local Close Scope Z_scope.

(** X16. A page the merge engine has produced is read back whole:
    rebuilding it from the month sections [extractMonthSections] finds
    gives the page again, but for the line feed a page may begin with. *)
Theorem produced_page_is_read_back (doc : string) :
  produced doc ->
  regenerateOrderedContent (extractMonthSections doc) = doc
  \/ nl ++ regenerateOrderedContent (extractMonthSections doc) = doc.
Proof.
  intros H. apply produced_laid_out in H as (pre & ss & Hwf & ->).
  rewrite (extract_document pre ss Hwf).
  destruct Hwf as (Hpre & _ & Hd).
  rewrite (regenerate_entries ss Hd). unfold document.
  destruct Hpre as [->| ->]; [left|right]; reflexivity.
Qed.

Lemma produced_page_witness :
  produced (Sim.merged "Alice" "" (Sim.march "14/03"))
  /\ (regenerateOrderedContent
        (extractMonthSections (Sim.merged "Alice" "" (Sim.march "14/03")))
      = Sim.merged "Alice" "" (Sim.march "14/03")
      \/ nl ++ regenerateOrderedContent
                 (extractMonthSections
                    (Sim.merged "Alice" "" (Sim.march "14/03")))
         = Sim.merged "Alice" "" (Sim.march "14/03")).
Proof.
  assert (H : produced (Sim.merged "Alice" "" (Sim.march "14/03"))).
  { apply OrderClaims.produced_merged;
      [constructor|reflexivity|reflexivity|vm_compute; reflexivity]. }
  split; [exact H|].
  apply (produced_page_is_read_back _ H).
Defined.

End RunProps.


(** * Headings across an insertion *)
Module KeepFacts.
Import Js Regex RegexSpec Confluence Layout UserSpec KeepSpec.
Import StringFacts RegexFacts UserFacts.

Lemma append_eq_append (A B C D : string) :
  A ++ B = C ++ D ->
  (exists m, A = C ++ m /\ D = m ++ B)
  \/ (exists m, C = A ++ m /\ B = m ++ D).
Proof.
  revert C. induction A as [|x A IH]; intros C H.
  - right. exists C. split; [reflexivity|exact H].
  - destruct C as [|y C].
    + left. exists (String x A). split; [reflexivity|]. now symmetry.
    + cbn [append] in H. injection H as -> H.
      destruct (IH C H) as [(m & -> & ->)|(m & -> & ->)];
        [left|right]; now exists m.
Qed.

Lemma no_start_tail (a : ascii) (s : string) :
  no_start (String a s) = true -> no_start s = true.
Proof. cbn [no_start]. intros H. now apply andb_true_iff in H. Qed.

Lemma suffix_no_start (s : string) :
  no_start s = true ->
  forall m m' c, s = m ++ m' -> m' <> "" -> heading_start (m' ++ c) = false.
Proof.
  intros Hs m. revert s Hs. induction m as [|x m IH]; intros s Hs m' c E Hne.
  - cbn [append] in E. subst s. destruct m' as [|a m']; [now contradiction Hne|].
    cbn [no_start] in Hs. apply andb_true_iff in Hs as [Hs _].
    apply negb_true_iff in Hs. cbn [append].
    destruct m' as [|b m'].
    + rewrite andb_true_r in Hs. cbn [append].
      destruct c as [|y c]; [reflexivity|]. cbn [heading_start].
      now rewrite Hs.
    + exact Hs.
  - subst s. cbn [append] in Hs. apply no_start_tail in Hs.
    now apply (IH _ Hs m' c).
Qed.

Lemma tight_cons (x : ascii) (s : string) :
  no_start s = true -> tight (String x s).
Proof.
  intros Hs m m' c E Hm Hm'. destruct m as [|y m]; [now contradiction Hm|].
  cbn [append] in E. injection E as _ E.
  now apply (suffix_no_start s Hs m m' c).
Qed.

Lemma no_start_skip (p q : string) :
  no_lt p = true -> no_start (p ++ q) = no_start q.
Proof.
  intros Hp. induction p as [|a p IH]; [reflexivity|].
  cbn [no_lt] in Hp. apply andb_true_iff in Hp as [Ha Hp].
  apply negb_true_iff in Ha. cbn [append no_start].
  now rewrite Ha, IH.
Qed.

Lemma tight_weekHeadingText (weekEndDate : string) :
  no_lt weekEndDate = true -> tight (weekHeadingText weekEndDate).
Proof.
  intros H.
  change (weekHeadingText weekEndDate)
    with (String "<" ("h2>w/e " ++ weekEndDate ++ "</h2>")).
  apply tight_cons.
  rewrite (no_start_skip "h2>w/e ") by reflexivity.
  now rewrite no_start_skip.
Qed.

Lemma tight_userHeadingText (displayName : string) :
  no_lt displayName = true -> tight (userHeadingText displayName).
Proof.
  intros H.
  change (userHeadingText displayName)
    with (String "<" ("h3>" ++ displayName ++ "</h3>")).
  apply tight_cons.
  rewrite (no_start_skip "h3>") by reflexivity.
  now rewrite no_start_skip.
Qed.

(** A tight text found in [A ++ B], where [B] is empty or begins a heading,
    lies in [A] or in [B]. *)
Lemma occurrence_split (A B a H c : string) :
  A ++ B = a ++ H ++ c -> heading_start B = true -> tight H ->
  (exists a2, A = a ++ H ++ a2 /\ c = a2 ++ B)
  \/ (exists a1, a = A ++ a1 /\ B = a1 ++ H ++ c).
Proof.
  intros E HB HH.
  destruct (append_eq_append _ _ _ _ E) as [(m & -> & E')|(m & -> & ->)].
  - destruct (append_eq_append _ _ _ _ E') as [(m' & Em & ->)|(m' & -> & ->)].
    + destruct m' as [|y m'].
      * rewrite append_nil_r in Em. subst m. left. exists "".
        rewrite append_nil_r. split; reflexivity.
      * destruct m as [|x m].
        { right. exists "". rewrite !append_nil_r. split; [reflexivity|].
          cbn [append] in Em. now rewrite Em. }
        exfalso.
        rewrite (HH (String x m) (String y m') c Em) in HB;
          discriminate.
    + left. exists m'. split; reflexivity.
  - right. exists m. split; reflexivity.
Qed.

Lemma contains_inserted (H A X B : string) :
  tight H -> heading_start B = true ->
  (exists a c, A ++ B = a ++ H ++ c) ->
  exists a c, A ++ X ++ B = a ++ H ++ c.
Proof.
  intros HH HB (a & c & E).
  destruct (occurrence_split A B a H c E HB HH)
    as [(a2 & -> & ->)|(a1 & -> & ->)].
  - exists a, (a2 ++ X ++ B). now rewrite !append_assoc.
  - exists (A ++ X ++ a1), c. now rewrite !append_assoc.
Qed.

Lemma week_then_user_inserted (weekEndDate displayName A X B : string) :
  tight (weekHeadingText weekEndDate) ->
  tight (userHeadingText displayName) ->
  heading_start B = true ->
  week_then_user weekEndDate displayName (A ++ B) ->
  week_then_user weekEndDate displayName (A ++ X ++ B).
Proof.
  intros H2 H3 HB (a & b & c & E).
  destruct (occurrence_split A B a _ _ E HB H2)
    as [(a2 & -> & E2)|(a1 & -> & ->)].
  - destruct (contains_inserted (userHeadingText displayName) a2 X B H3 HB)
      as (b' & c' & E').
    { exists b, c. now symmetry. }
    exists a, b', c'. rewrite !append_assoc. now rewrite E'.
  - exists (A ++ X ++ a1), b, c. now rewrite !append_assoc.
Qed.

Lemma week_then_user_after_nl (weekEndDate displayName s : string) :
  week_then_user weekEndDate displayName (nl ++ s) ->
  week_then_user weekEndDate displayName s.
Proof.
  intros (a & b & c & E). destruct a as [|x a].
  - discriminate E.
  - unfold nl in E. cbn [append] in E. injection E as _ E.
    now exists a, b, c.
Qed.

(** A week and a user found in a document are found in the document with
    a text inserted where a heading starts, when the label and the name
    hold no [<]. *)
Lemma kept_by_insertion (weekEndDate displayName doc doc' : string) :
  no_lt weekEndDate = true -> no_lt displayName = true ->
  inserted doc doc' ->
  week_then_user weekEndDate displayName doc ->
  week_then_user weekEndDate displayName doc'.
Proof.
  intros HL HN (pre & A & X & B & Hpre & -> & -> & HB) H.
  apply week_then_user_inserted;
    [now apply tight_weekHeadingText|now apply tight_userHeadingText
    |exact HB|].
  destruct Hpre as [->| ->]; [exact H|].
  now apply week_then_user_after_nl.
Qed.

Lemma heading_start_app (B S : string) :
  heading_start B = true -> heading_start S = true ->
  heading_start (B ++ S) = true.
Proof.
  intros HB HS. destruct B as [|a [|b B]]; [exact HS|discriminate|exact HB].
Qed.

End KeepFacts.


(** * A merge inserts, and removes nothing *)
Module MergeKeep.
Import Js Regex RegexSpec Confluence Layout UserSpec KeepSpec.
Import StringFacts FormatFacts MapFacts RegexFacts QuietFacts PatternFacts.
Import ScanFacts DocFacts RebuildFacts BuildFacts MergeFacts.
Import UserFacts KeepFacts PresenceProps.
Import SortSpec FormatAux BackfillSpec MergeSpec PatternSpec ScanSpec.

Lemma anyHeading_start (n : nat) (s : string) :
  at_ anyHeading n s <> None -> heading_start s = true.
Proof.
  unfold at_. rewrite anyHeading_eq. cbn [re fl]. rewrite rmatch_seq_lit.
  destruct s as [|x [|y s]].
  - intros H. now contradiction H.
  - cbn [prefix_fl]. rewrite andb_false_r. intros H. now contradiction H.
  - cbn [prefix_fl]. rewrite andb_true_r.
    destruct (char_eq i_flags "<" x) eqn:Ex;
      [|intros H; now contradiction H].
    destruct (char_eq i_flags "h" y) eqn:Ey;
      [|intros H; now contradiction H].
    intros _. rewrite char_eq_lt in Ex. apply char_eq_h in Ey.
    cbn [heading_start]. now rewrite Ex, Ey.
Qed.

Lemma heading_start_weeks (mm : string) (ws : list week) :
  heading_start (weeks_text mm ws) = true.
Proof.
  destruct ws as [|w ws]; [reflexivity|]. rewrite weeks_text_cons.
  reflexivity.
Qed.

Lemma heading_start_sections (ss : list section) :
  heading_start (sections_text ss) = true.
Proof.
  destruct ss as [|s ss]; [reflexivity|]. rewrite sections_text_cons.
  reflexivity.
Qed.

Lemma heading_at_start (s : string) :
  heading_at s = true -> heading_start s = true.
Proof.
  destruct s as [|x [|y [|z s]]]; try discriminate. cbn [heading_at heading_start].
  intros H. apply andb_true_iff in H as [H _]. exact H.
Qed.

Lemma monthOrWeek_start (n : nat) (s : string) :
  at_ monthOrWeekHeading n s <> None -> heading_start s = true.
Proof.
  intros H. apply heading_at_start.
  destruct (heading_at s) eqn:E; [reflexivity|].
  contradiction H. now apply monthOrWeek_needs_heading.
Qed.

(** Whatever the clock reads, every heading found in a run of weeks sits
    where a week starts. *)
Lemma heads_at_starts (clock : Clock) (mm : string) (ws : list week) :
  forall (k : nat) (P : string),
    Forall (fun h => heading_start
                       (drop (Confluence.index h) (P ++ weeks_text mm ws))
                     = true)
      (heads_of clock k mm (length P) ws).
Proof.
  induction ws as [|w ws IH]; intros k P; [constructor|].
  cbn [heads_of]. constructor.
  - cbn [Confluence.index]. rewrite drop_app_length.
    apply heading_start_weeks.
  - rewrite <- length_append, weeks_text_cons, <- append_assoc. apply IH.
Qed.

(** The loop over the sorted headings ends at one of the headings, at a
    heading after the last of them, or at the end of the text. *)
Lemma insert_position_boundary (T : string) (newDate : Date)
    (hs : list weekHeading) (ip : nat) :
  hs <> [] ->
  Forall (fun h => heading_start (drop (Confluence.index h) T) = true) hs ->
  heading_start (drop (insert_position T newDate hs ip) T) = true.
Proof.
  induction hs as [|h rest IH]; intros Hne Hall; [contradiction|].
  inversion Hall as [|? ? Hh Hrest]; subst.
  rewrite insert_position_cons.
  destruct (date_lt (date h) newDate); [exact Hh|].
  destruct rest as [|h2 rest].
  - destruct (exec monthOrWeekHeading
                (substring_from (Confluence.index h + 20) T) 0)
      as [nextHeadingMatch|] eqn:Eh.
    + rewrite exec_0 in Eh.
      apply search_some in Eh as (j & r & c & _ & Hi & Hat & _).
      rewrite Hi. cbn [Nat.add]. rewrite <- drop_drop.
      apply (monthOrWeek_start
               (length (substring_from (Confluence.index h + 20) T))).
      unfold substring_from in Hat. unfold substring_from.
      rewrite Hat. discriminate.
    + rewrite drop_all by lia. reflexivity.
  - apply IH; [discriminate|exact Hrest].
Qed.

(** The place of a new week in a month section is where a heading starts
    or the end of the section, whatever the dates of the headings are. *)
Lemma insert_boundary (now : Clock) (s : section) (newDate : Date)
    (h1EndIndex : nat) :
  wf_section s ->
  heading_start
    (drop (insert_position (section_text s) newDate
             (sort_by newest_first (weekHeadings_of now (section_text s)))
             h1EndIndex)
       (section_text s)) = true.
Proof.
  intros Hs. assert (Hs' := Hs). destruct Hs' as (_ & _ & Hne & _ & _).
  rewrite weekHeadings_of_section by exact Hs.
  set (hs := heads_of now 0 (mm_of (name s)) (length (ScanSpec.head s))
               (weeks s)).
  pose proof (SortFacts.sort_by_perm newest_first hs) as Hp.
  apply insert_position_boundary.
  - intros E. rewrite E in Hp. apply Permutation_sym, Permutation_nil in Hp.
    unfold hs in Hp. destruct (weeks s); [now apply Hne|discriminate Hp].
  - apply (Permutation_Forall Hp). unfold hs.
    rewrite (section_text_eq s). apply heads_at_starts.
Qed.

Lemma map_set_mid (l1 : list section) (s : section) (l2 : list section)
    (t : string) :
  (forall x, In x l1 -> name x <> name s) ->
  map_set (name s) t (entries (l1 ++ s :: l2))
  = (entries l1 ++ (name s, t) :: entries l2)%list.
Proof.
  intros Hl1. induction l1 as [|x l1 IH]; cbn [app entries map map_set].
  - now rewrite String.eqb_refl.
  - destruct (String.eqb_spec (name s) (name x)) as [E'|_].
    + exfalso. apply (Hl1 x); [now left|now symmetry].
    + f_equal. apply IH. intros y Hy. apply Hl1. now right.
Qed.

(** Rebuilding the document after the text of one month is replaced. *)
Lemma regenerate_replaced (l1 : list section) (s : section)
    (l2 : list section) (t : string) :
  descending (map month_number (l1 ++ s :: l2)) ->
  regenerateOrderedContent (map_set (name s) t (entries (l1 ++ s :: l2)))
  = sections_text l1 ++ t ++ sections_text l2.
Proof.
  intros Hd. rewrite map_set_mid by (now apply (names_before l1 s l2)).
  assert (K : map fst (entries l1 ++ (name s, t) :: entries l2)%list
              = map name (l1 ++ s :: l2)).
  { rewrite !map_app. cbn [map fst]. now rewrite !entries_keys. }
  rewrite regenerate_sorted.
  - rewrite map_app. cbn [map snd]. rewrite concat_app, concat_cons.
    now rewrite !entries_texts.
  - rewrite K. now apply descending_names.
  - rewrite K. now apply names_sorted.
Qed.

(** The merge of a request for a month the document has puts a text into
    the section of the month, at its end or where a heading starts. *)
Lemma add_existing_inserted (now : Clock) (l1 : list section) (s : section)
    (l2 : list section) (displayName formattedContent : string)
    (a b : ascii) (m' : Map) :
  Forall wf_section (l1 ++ s :: l2) ->
  descending (map month_number (l1 ++ s :: l2)) ->
  is_digit a = true -> is_digit b = true ->
  quiet displayName = true -> quiet formattedContent = true ->
  addContentToMonthSections now (entries (l1 ++ s :: l2)) (name s)
    (String a (String b (String "/" (mm_of (name s)))))
    displayName formattedContent = Ok m' ->
  exists A X B,
    section_text s = A ++ B /\ heading_start B = true
    /\ regenerateOrderedContent m'
       = sections_text l1 ++ (A ++ X ++ B) ++ sections_text l2.
Proof.
  intros Hwf Hd Ha Hb' Hn Hb.
  assert (Hs : wf_section s)
    by (rewrite Forall_forall in Hwf; apply Hwf, in_elt).
  assert (Hmm : two_digit (mm_of (name s)) = true)
    by (apply mm_of_two_digit, Hs).
  assert (Hl1 := names_before _ _ _ Hd).
  assert (Hre : forall s' t,
            name s' = name s -> wf_section s' -> section_text s' = t ->
            regenerateOrderedContent
              (map_set (name s) (section_text s') (entries (l1 ++ s :: l2)))
            = sections_text l1 ++ t ++ sections_text l2).
  { intros s' t En Hs' <-. now apply regenerate_replaced. }
  unfold addContentToMonthSections.
  rewrite map_get_entries_mid by exact Hl1.
  rewrite weekPattern_compiles by assumption. cbn [rbind].
  destruct (newRegExp _ "s") as [userPattern|e]; cbn [rbind];
    [|discriminate].
  destruct (test userPattern (section_text s)).
  { intros [= <-]. exists (section_text s), "", "".
    split; [now rewrite append_nil_r|]. split; [reflexivity|].
    rewrite regenerate_entries by exact Hd.
    rewrite sections_text_app, sections_text_cons. cbn [append].
    now rewrite append_nil_r. }
  destruct (find_week (weeks s) (String a (String b "")))
    as [(ws1 & w & ws2 & E & Ed)|Habs].
  - rewrite <- Ed.
    destruct (week_present s ws1 w ws2 Hs E) as [Htest Hsplit].
    rewrite Htest, Hsplit.
    destruct (add_user_block s ws1 w ws2 displayName formattedContent
                Hs E Hn Hb) as (s' & En & Hs' & Hdays & Htext).
    cbv zeta in Htext. rewrite Ed in Htext.
    set (mm := mm_of (name s)) in *.
    set (after := tail w ++ weeks_text mm ws2) in *.
    set (part0 := ScanSpec.head s ++ weeks_text mm ws1) in *.
    assert (ET : section_text s
                 = part0 ++ heading2 (String a (String b "")) mm ++ after).
    { rewrite section_text_eq, E. fold mm.
      rewrite weeks_text_app, weeks_text_cons. unfold week_text, part0, after.
      rewrite Ed. rewrite !append_assoc. reflexivity. }
    destruct (exec anyHeading after 0) as [nextHeadingMatch|] eqn:Eh.
    + rewrite heading_text_eq, Htext. intros [= <-].
      exists
        (part0 ++ heading2 (String a (String b "")) mm
         ++ take (Regex.index nextHeadingMatch) after),
        (createUserSection displayName formattedContent),
        (drop (Regex.index nextHeadingMatch) after).
      split; [|split].
      * rewrite ET, !append_assoc. do 2 f_equal. apply take_drop.
      * rewrite exec_0 in Eh.
        apply search_some in Eh as (j & r & c & _ & Hi & Hat & _).
        rewrite Hi. cbn [Nat.add].
        apply (anyHeading_start (length after)). rewrite Hat. discriminate.
      * apply (Hre s' _ En Hs').
        rewrite <- Htext, substring_0. unfold substring_from.
        rewrite !append_assoc. reflexivity.
    + rewrite heading_text_eq, Htext. intros [= <-].
      exists (section_text s),
        (createUserSection displayName formattedContent), "".
      split; [|split].
      * rewrite append_nil_r. reflexivity.
      * reflexivity.
      * apply (Hre s' _ En Hs').
        rewrite <- Htext, ET, append_nil_r. rewrite !append_assoc.
        reflexivity.
  - rewrite week_absent_test;
      [|exact Hs|cbn; now rewrite Ha, Hb'|exact Habs].
    rewrite split_label by assumption. cbn [map]. cbv zeta.
    match goal with
    | |- Ok (map_set _ (substring 0 ?p _ ++ _) _) = Ok _ -> _ =>
        assert (Hbound : heading_start (drop p (section_text s)) = true)
          by (apply insert_boundary; exact Hs);
        revert Hbound; generalize p
    end.
    intros pos Hbound [= <-].
    exists (take pos (section_text s)),
      (createWeekSection (String a (String b (String "/" (mm_of (name s)))))
         displayName formattedContent),
      (drop pos (section_text s)).
    split; [apply take_drop|]. split; [exact Hbound|].
    rewrite regenerate_replaced by exact Hd.
    rewrite substring_0. reflexivity.
Qed.

(** A section for a month the document does not have goes between the
    sections of the later and of the earlier months. *)
Lemma new_month_rebuilt (ss : list section) (M t : string) :
  Forall wf_section ss -> descending (map month_number ss) ->
  In M monthNames -> map_get M (entries ss) = None ->
  exists l1 l2,
    ss = (l1 ++ l2)%list
    /\ regenerateOrderedContent (map_set M t (entries ss))
       = sections_text l1 ++ t ++ sections_text l2.
Proof.
  intros Hwf Hd HM Hget.
  assert (Hnames := map_get_entries_none _ _ Hget).
  rewrite map_set_fresh by exact Hget.
  destruct (sort_new_last month_index (map name ss) M)
    as (k1 & k2 & E & H1 & H2 & Hsort).
  { apply sorted_of_map in Hd.
    now apply (sorted_map name _ _ ss) with (2 := Hd). }
  { intros k Hk Heq. apply in_map_iff in Hk as (s & <- & Hs).
    apply (Hnames s Hs). rewrite Forall_forall in Hwf.
    apply month_index_inj; [apply (Hwf s Hs)|exact HM|exact Heq]. }
  apply map_eq_app in E as (l1 & l2 & -> & <- & <-).
  exists l1, l2. split; [reflexivity|].
  set (snew := {| name := M; intro := ""; weeks := [] |}).
  assert (Hd' : descending (map month_number (l1 ++ snew :: l2))).
  { rewrite map_app. cbn [map]. apply sorted_insert_mid.
    - now rewrite <- map_app.
    - apply Forall_forall. intros x Hx.
      apply in_map_iff in Hx as (s & <- & Hs).
      unfold month_number. cbn [name snew].
      apply H1, in_map_iff. now exists s.
    - apply Forall_forall. intros x Hx.
      apply in_map_iff in Hx as (s & <- & Hs).
      unfold month_number. cbn [name snew].
      apply H2, in_map_iff. now exists s. }
  rewrite (regenerate_ext _ (entries l1 ++ (M, t) :: entries l2)%list).
  - rewrite regenerate_sorted.
    + rewrite map_app. cbn [map snd]. rewrite concat_app, concat_cons.
      now rewrite !entries_texts.
    + rewrite map_app. cbn [map fst]. rewrite !entries_keys.
      change (map name l1 ++ M :: map name l2)%list
        with (map name l1 ++ map name (snew :: l2))%list.
      rewrite <- map_app. now apply descending_names.
    + rewrite map_app. cbn [map fst]. rewrite !entries_keys.
      change (map name l1 ++ M :: map name l2)%list
        with (map name l1 ++ map name (snew :: l2))%list.
      rewrite <- map_app. now apply names_sorted.
  - intros k. unfold entries. rewrite map_app, <- !app_assoc.
    fold (entries l1). fold (entries l2).
    rewrite !map_get_app. destruct (map_get k (entries l1)); [reflexivity|].
    cbn [map_get app].
    destruct (String.eqb_spec k M) as [->|_].
    + assert (G : map_get M (entries l2) = None).
      { unfold entries in Hget. rewrite map_app in Hget.
        fold (entries l1) in Hget. fold (entries l2) in Hget.
        rewrite map_get_app in Hget.
        now destruct (map_get M (entries l1)). }
      now rewrite G.
    + now destruct (map_get k (entries l2)).
  - unfold map_keys. rewrite !map_app. cbn [map fst].
    rewrite !entries_keys.
    change (sort_by by_month (map name (l1 ++ l2) ++ [M]))
      with (sort_by (fun a b : string => (month_index b - month_index a)%Z)
              (map name (l1 ++ l2) ++ [M])).
    rewrite Hsort. symmetry. apply sort_by_sorted.
    change (map name l1 ++ M :: map name l2)%list
      with (map name l1 ++ map name (snew :: l2))%list.
    rewrite <- map_app. now apply names_sorted.
Qed.

(** What a merge does to a laid-out document. *)
Lemma merge_inserted (this : ConfluenceService) (now : Clock)
    (doc formattedContent : string) (info : weekInfo) (u : updated) :
  laid_out doc -> consistent info = true ->
  quiet (confluenceDisplayName this) = true ->
  quiet formattedContent = true ->
  prepareUpdatedContent this now doc formattedContent info = Ok u ->
  inserted doc (updatedContent u).
Proof.
  intros Hdoc Hinfo Hn Hb. unfold prepareUpdatedContent.
  destruct (newRegExp (monthHeadingSource (month info)) "i")
    as [monthHeadingPattern|e]; cbn [rbind]; [|discriminate].
  destruct (newRegExp (weekHeadingSource (weekEndDate info)) "i")
    as [weekHeadingPattern|e]; cbn [rbind]; [|discriminate].
  destruct (newRegExp _ "s") as [userHeadingPattern|e]; cbn [rbind];
    [|discriminate].
  destruct (test userHeadingPattern doc).
  { intros [= <-]. cbn [updatedContent]. exists "", doc, "", "".
    split; [left; reflexivity|]. cbn [append]. rewrite append_nil_r.
    split; [reflexivity|]. split; reflexivity. }
  destruct Hdoc as (pre & ss & Hwf & ->).
  rewrite extract_document by exact Hwf.
  destruct (addContentToMonthSections now (entries ss) (month info)
              (weekEndDate info) (confluenceDisplayName this)
              formattedContent) as [m'|e] eqn:Eadd; cbn [rbind];
    [|discriminate].
  intros [= <-]. cbn [updatedContent].
  destruct Hwf as (Hpre & Hss & Hd).
  revert Eadd.
  destruct (consistent_inv _ Hinfo) as (HM & a & b & Ha & Hb' & ->).
  generalize dependent (month info). intros M HM.
  generalize (confluenceDisplayName this) Hn. intros displayName Hn'.
  clear Hinfo monthHeadingPattern weekHeadingPattern userHeadingPattern.
  destruct (map_get M (entries ss)) as [monthContent|] eqn:Eget.
  - apply map_get_entries_some in Eget as (l1 & s & l2 & -> & Es & _).
    rewrite <- Es. intros H.
    apply add_existing_inserted in H
      as (A & X & B & EA & HB & Hre); try assumption.
    rewrite Hre.
    exists pre, (sections_text l1 ++ A), X, (B ++ sections_text l2).
    split; [exact Hpre|]. split; [|split].
    + unfold document. fold (sections_text (l1 ++ s :: l2)).
      rewrite sections_text_app, sections_text_cons, EA.
      rewrite !append_assoc. reflexivity.
    + rewrite !append_assoc. reflexivity.
    + apply heading_start_app; [exact HB|apply heading_start_sections].
  - unfold addContentToMonthSections. rewrite Eget.
    intros [= <-].
    destruct (new_month_rebuilt ss M
                (createFullSection M
                   (String a (String b (String "/" (mm_of M))))
                   displayName formattedContent) Hss Hd HM Eget)
      as (l1 & l2 & -> & ->).
    exists pre, (sections_text l1),
      (createFullSection M (String a (String b (String "/" (mm_of M))))
         displayName formattedContent),
      (sections_text l2).
    split; [exact Hpre|]. split; [|split].
    + unfold document. fold (sections_text (l1 ++ l2)).
      rewrite sections_text_app. reflexivity.
    + reflexivity.
    + apply heading_start_sections.
Qed.

End MergeKeep.


(** * What a merge leaves in place *)
Module KeepProps.
Import Js Regex RegexSpec Confluence Layout UserSpec KeepSpec.
Import MergeFacts UserFacts KeepFacts PresenceProps MergeKeep.

(** X17. A merge into a page the engine has produced only inserts: the
    updated page is the page as it was, but for the line feed it may begin
    with, with one text put in at its end or at a place where a heading
    starts; nothing that was on the page is changed or removed. *)
Theorem merge_only_inserts (this : ConfluenceService) (now : Clock)
    (doc formattedContent : string) (info : weekInfo) (u : updated) :
  produced doc -> consistent info = true ->
  quiet (confluenceDisplayName this) = true ->
  quiet formattedContent = true ->
  prepareUpdatedContent this now doc formattedContent info = Ok u ->
  inserted doc (updatedContent u).
Proof.
  intros Hdoc. apply merge_inserted. now apply produced_laid_out.
Qed.

Lemma merge_only_inserts_witness :
  let doc := Sim.merged "Alice" "" (Sim.march "14/03") in
  let u := {| updatedContent := Sim.merged "Bob" doc (Sim.march "07/03");
              status := "Added new week ending 07/03." |} in
  produced doc /\ consistent (Sim.march "07/03") = true
  /\ quiet (confluenceDisplayName (Sim.service_of "Bob")) = true
  /\ quiet Sim.body = true
  /\ prepareUpdatedContent (Sim.service_of "Bob")
       (fun _ => Sim.day_start 2026 2 23) doc Sim.body (Sim.march "07/03")
     = Ok u
  /\ inserted doc (updatedContent u).
Proof.
  intros doc u.
  assert (Hdoc : produced doc).
  { apply OrderClaims.produced_merged;
      [constructor|reflexivity|reflexivity|vm_compute; reflexivity]. }
  assert (Hu : prepareUpdatedContent (Sim.service_of "Bob")
                 (fun _ => Sim.day_start 2026 2 23) doc Sim.body
                 (Sim.march "07/03")
               = Ok u) by (vm_compute; reflexivity).
  split; [exact Hdoc|]. split; [reflexivity|]. split; [reflexivity|].
  split; [reflexivity|]. split; [exact Hu|].
  exact (merge_only_inserts (Sim.service_of "Bob")
           (fun _ => Sim.day_start 2026 2 23) doc Sim.body
           (Sim.march "07/03") u Hdoc eq_refl eq_refl eq_refl Hu).
Defined.

(** X18. A merge removes no report: a week and user that [hasWeekForUser]
    finds on a produced page (label and display name without pattern
    metacharacters and without [<]) it finds on the page after any merge,
    whoever the merge is for. *)
Theorem merge_removes_no_report (this other : ConfluenceService) (now : Clock)
    (doc formattedContent : string) (info : weekInfo) (u : updated)
    (weekEndDate : string) :
  produced doc -> consistent info = true ->
  quiet (confluenceDisplayName this) = true ->
  quiet formattedContent = true ->
  prepareUpdatedContent this now doc formattedContent info = Ok u ->
  plain weekEndDate = true -> no_lt weekEndDate = true ->
  plain (confluenceDisplayName other) = true ->
  no_lt (confluenceDisplayName other) = true ->
  hasWeekForUser other doc weekEndDate = Ok true ->
  hasWeekForUser other (updatedContent u) weekEndDate = Ok true.
Proof.
  intros Hdoc Hinfo Hn Hb Hu HL HL' HN HN'.
  rewrite !(has_plain other _ _ HL HN). intros [= H]. f_equal.
  apply user_test. apply user_test in H.
  apply (kept_by_insertion _ _ doc); [exact HL'|exact HN'| |exact H].
  apply (merge_inserted this now doc formattedContent info u);
    [now apply produced_laid_out|exact Hinfo|exact Hn|exact Hb|exact Hu].
Qed.

Lemma merge_removes_no_report_witness :
  let doc := Sim.merged "Alice" "" (Sim.march "14/03") in
  let u := {| updatedContent := Sim.merged "Bob" doc (Sim.march "07/03");
              status := "Added new week ending 07/03." |} in
  produced doc /\ consistent (Sim.march "07/03") = true
  /\ quiet (confluenceDisplayName (Sim.service_of "Bob")) = true
  /\ quiet Sim.body = true
  /\ prepareUpdatedContent (Sim.service_of "Bob")
       (fun _ => Sim.day_start 2026 2 23) doc Sim.body (Sim.march "07/03")
     = Ok u
  /\ plain "14/03" = true /\ no_lt "14/03" = true
  /\ plain (confluenceDisplayName (Sim.service_of "Alice")) = true
  /\ no_lt (confluenceDisplayName (Sim.service_of "Alice")) = true
  /\ hasWeekForUser (Sim.service_of "Alice") doc "14/03" = Ok true
  /\ hasWeekForUser (Sim.service_of "Alice") (updatedContent u) "14/03"
     = Ok true.
Proof.
  intros doc u.
  assert (Hdoc : produced doc).
  { apply OrderClaims.produced_merged;
      [constructor|reflexivity|reflexivity|vm_compute; reflexivity]. }
  assert (Hu : prepareUpdatedContent (Sim.service_of "Bob")
                 (fun _ => Sim.day_start 2026 2 23) doc Sim.body
                 (Sim.march "07/03")
               = Ok u) by (vm_compute; reflexivity).
  assert (Hhas : hasWeekForUser (Sim.service_of "Alice") doc "14/03"
                 = Ok true) by (vm_compute; reflexivity).
  split; [exact Hdoc|]. split; [reflexivity|]. split; [reflexivity|].
  split; [reflexivity|]. split; [exact Hu|]. split; [reflexivity|].
  split; [reflexivity|]. split; [reflexivity|]. split; [reflexivity|].
  split; [exact Hhas|].
  exact (merge_removes_no_report (Sim.service_of "Bob")
           (Sim.service_of "Alice") (fun _ => Sim.day_start 2026 2 23) doc
           Sim.body (Sim.march "07/03") u "14/03" Hdoc eq_refl eq_refl
           eq_refl Hu eq_refl eq_refl eq_refl eq_refl Hhas).
Defined.

End KeepProps.


(** * What a merge keeps of the page *)
Module FrameClaims.
Import Js Regex RegexSpec Confluence Layout UserSpec FrameSpec.
Import StringFacts MapFacts RegexFacts ScanFacts MergeClaims MergeProps.
Import MergeSpec PatternSpec.










(** Where the section of the month holds the heading of the week twice,
    the merge keeps what is before the first and between the two, and
    drops the second heading and what follows it: of the pieces of the
    split, only the first two are read. *)
Example second_week_heading_drops_the_rest :
  let doc := "<h1>March</h1>" ++ nl ++ "<h2>w/e 07/03</h2>" ++ nl
             ++ "<h3>Alice</h3>" ++ nl ++ "<p>first</p>" ++ nl
             ++ "<h2>w/e 07/03</h2>" ++ nl ++ "<h3>Carol</h3>" ++ nl
             ++ "<p>second</p>" ++ nl in
  option_map (fun u => (status u, includes "<h3>Carol</h3>" (updatedContent u),
                        includes "<p>first</p>" (updatedContent u)))
    (match prepareUpdatedContent (Sim.service_of "Bob")
             (fun _ => Sim.day_start 2026 2 23) doc Sim.body
             (Sim.march "07/03") with
     | Ok u => Some u
     | Throw _ => None
     end)
  = Some ("Added report to existing week ending 07/03.", false, true).
Proof. vm_compute. reflexivity. Qed.

End FrameClaims.
